(* ===== verification/_CoqProject ===== *)
-Q . S2P
Prelude.v
Hex.v
PullPush.v
HtlcState.v
HashSpec.v
BlockHash.v
Sha256.v
BitcoinTx.v
Ripemd160.v
CoreSha256.v
CoreHash.v
Secp.v
Ecdsa.v
CoreTx.v
CScript.v
Interp.v
InterpFacts.v
Hkdf.v
LnScript.v
ScriptRun.v
ScriptSpend.v
SigCheck.v
ChannelSpend.v
Shachain.v
KeyDerive.v
Hsm.v
Params.v
Htlc.v
Permute.v
CommitTx.v
Channel.v
Ledger.v
ChannelInv.v
ChannelSafety.v
ChannelRestore.v
ChannelTxs.v
Mirror.v
Faces.v
Duplex.v
Link.v
Channeld.v
ChanneldSpec.v
ChanneldLocal.v
ChanneldRemote.v
ChanneldTotal.v
TwoParty.v
TwoPartySafety.v
Drain.v
TwoPartyDemo.v
Closingd.v
ClosingSafe.v
ClosingAgree.v
ClosingMaster.v
ClosingDemo.v
Evm.v
DxfToken.v
BridgeToken.v
BridgeClient.v
Tokens.v
Rgb.v
