(* ===== verification/Prelude.v ===== *)
(** * A verification of the Lightning node and of the Bitcoin script interpreter it relies on

    The program is c-lightning (src/lightning): two nodes keep a channel, a joint balance
    whose latest state either can enforce on the Bitcoin chain. What "enforce" means is
    decided by Bitcoin Core (src/bitcoin/src), whose script interpreter, signature checker,
    transactions and hashes are modelled too, so that the theorems go from the messages the
    two nodes exchange, through the channel's bookkeeping, to the verdict of the interpreter
    on the transactions they build. Three smaller programs beside it are modelled on their
    own: the contracts of two tokens and a bridge with its relayer (src/dexfintoken,
    src/ChainBridge), and the asset proofs of src/rgb.

    ** Parts and files

    Bytes are [list Z], machine integers are [Z] with every conversion written out ([u8],
    [u16], [u32], [u64], [s64]), an assertion or a missing pointer is [None], and an error
    code is a value. Each file names the sources it models; names are those of the code.

    - This file: the conversions, sums, byte order, the assertion monad.
    - [Hex], [PullPush]: hex strings (ccan/str/hex), variable-length integers and the
      cursors of bitcoin/varint.c and bitcoin/pullpush.c.
    - [HashSpec], [BlockHash]: what FIPS 180-4 and the RIPEMD-160 paper define, and
      Merkle-Damgard streaming for any compression function.
    - [Sha256], [Ripemd160], [Hkdf]: the unrolled hashes, HMAC and HKDF of ccan/crypto, the
      last two against RFC 2104 and 5869.
      [CoreSha256], [CoreHash]: those of bitcoin/src/crypto, with the double transform.
    - [BitcoinTx]: bitcoin/tx.c, shadouble.c, block.c: serialisers, parsers, ids, weights
      and signature hashes. [CoreTx]: the transactions and serialisation of Bitcoin Core.
    - [Secp], [Ecdsa]: keys and signatures. libsecp256k1 is a submodule that is not in the
      sources: the classes [Secp256k1] and [Signatures] are its operations, [Secp256k1Laws]
      and [SignatureLaws] its documented behaviour, with an instance of each ([Scalars],
      [ScalarSigs]) that the witnesses compute with. Bitcoin Core's lax DER parser and
      CPubKey are in [Ecdsa].
    - [CScript], [Interp], [InterpFacts]: bitcoin/src/script: script numbers, every opcode
      of EvalScript, VerifyWitnessProgram, VerifyScript, the transaction signature checker.
    - [LnScript]: bitcoin/script.c, every script and witness the node builds.
      [ScriptRun], [ScriptSpend], [SigCheck], [ChannelSpend]: those scripts under that
      interpreter, first with any signature checker, then with the node's signatures.
    - [Shachain], [KeyDerive]: the store of revocation secrets and the derivation of keys
      (ccan/crypto/shachain, common/key_derive.c, derive_basepoints.c, keyset.c).
    - [HtlcState], [Params], [Htlc]: the life cycle of an HTLC with its flag table, the
      networks and configuration, HTLCs with fees and trimming.
    - [Permute], [CommitTx]: the order of inputs and outputs (common/permute_tx.c), and the
      commitment, HTLC and closing transactions (common/initial_commit_tx.c, htlc_tx.c,
      close_tx.c, channeld/commit_tx.c).
    - [Channel]: channeld/full_channel.c and common/initial_channel.c, every operation that
      changes a channel. [Ledger], [ChannelInv], [ChannelSafety]: the abstract accounts, the
      invariant, and the step relation of a channel. [ChannelRestore]: a restart.
    - [ChannelTxs]: channel_txs and initial_channel_tx.
    - [Hsm]: hsmd/hsmd.c, the secrets of a channel and every request that signs for it.
    - [Channeld]: channeld/channeld.c with common/read_peer_msg.c and wire/peer_wire.c: the
      state of the daemon ([peer]), a handler for every message of the peer, request of the
      master and the timer, start and reconnection, in a monad that keeps what is sent.
    - [Mirror], [Faces], [Duplex], [Link]: one channel seen from its two ends; the abstract
      machine both refine, one table of HTLCs whose operations commute; and the relation of
      one end's channel to it. [ChanneldSpec], [ChanneldLocal], [ChanneldRemote]: what each
      handler does to that relation if it returns, with a weakest precondition calculus for
      the monad. [ChanneldTotal]: that those for the peer's messages return.
    - [TwoParty], [TwoPartySafety], [Drain], [TwoPartyDemo]: two daemons with the messages
      between them, the invariant, its consequences, and a run.
    - [Closingd]: closingd/closingd.c, and of lightningd/closing_control.c, peer_control.c and
      channel.c the start of closingd, the choice of the transaction and its broadcast.
      [ClosingSafe], [ClosingAgree], [ClosingMaster], [ClosingDemo]: one closing process with
      any peer, two of them, the master behind one, and runs.
    - [Evm], [DxfToken], [BridgeToken], [Tokens]: Solidity's words and mappings with the
      interface of a token, DXFToken.sol, the contracts of ChainBridge/leth, and what holds of
      both tokens. [BridgeClient]: the relayer (ChainBridge/client).
    - [Rgb]: rgb/src. The library rust-bitcoin is the class [RustBitcoin].

    ** What the theorems show

    - Accounts: along any sequence of operations ([chan_step]) balances are exactly the
      ledger of the HTLCs, never wrap, and add up to the funding; no assertion fails; a
      payee is paid only for a preimage; HTLCs only advance; a restart restores the channel.
    - Transactions: the commitment of either side is always built, spends the funding, is in
      the order of BIP 69 without dust, and pays the fee; each HTLC worth its fee has one
      output and one transaction that spends it; both ends of a channel build the same transactions.
    - Two nodes: from an opened channel, whatever the masters ask and however messages and
      timers interleave, a node takes every message of the other, with the exceptions that
      [messages_accepted] lists; the nodes refine the abstract machine; when nothing is in flight they agree; an exchange of
      messages ends within a known number; a refused HTLC leaves no trace; and the signer's
      signatures verify for the keys of the channel.
    - Closing: whatever arrives, closingd neither loops nor crashes and signs only what pays us
      our part; two nodes agree on a fee, after a number of offers that is logarithmic in the
      difference of the first two, and hold each other's signature on the same transaction;
      what the master then broadcasts is accepted by Bitcoin Core.
    - Enforcement: for each output the witnesses that spend it under Bitcoin Core are exactly
      the intended ones; those the node builds are accepted; a delayed output waits for its
      delay; a revoked commitment can be punished, with the key derived from the stored
      secrets, and every secret can be retrieved from 49 entries.
    - Agreement of the two programs: hashes, serialisation, transaction ids, signature
      hashes and signature encodings of the node are those of Bitcoin Core.
    - Formats: parsers invert serialisers; serialisers, ids, weights and signature hashes are
      those of BIP 141, 143 and 144; streaming hashes are the standards' hash functions.
    - The interpreter: it terminates, and a successful run keeps the limits on the stack,
      the elements and the operations.

    - Tokens and bridge: balances add up to the supply after any calls, reentrant ones too; an
      account that makes no call keeps what it did not allow others to spend; the bridge pays
      once for a transaction, and a deposit is relayed as the withdrawal of its value.
    - Asset proofs: every proof that follows the specification is accepted, and every other
      that is accepted uses one of three known loopholes.

    ** Fuel and bounds

    The loop of EvalScript has the length of the script as fuel, which is shown to be enough;
    the loop over the blocks of a message has the length of the message. The
    exchange of messages has the weight of what is in flight, shown to be enough; the padding
    of the relayer has the 64 digits it pads to. The loops of closingd that read messages have
    the number of messages that arrived; its rounds have twice that number, since every second
    one reads a message, which is shown to be enough. Everything else is structural recursion.
    Channels are assumed to fund less than 2^62 millisatoshi, dust
    limits to fit 60 bits and fee rates 32, as those of any network do.

    ** Not modelled

    Logging, allocation (tal) and formatting. The encodings of messages: the code for them is
    generated at build time and not in the sources, so a message is a value, and one that does
    not parse is [Raw]. The scheduling of channeld's file descriptors and its relaying of
    gossip; a peer that closes the connection; the other daemons (openingd, onchaind, gossipd,
    connectd, and of lightningd all but closing), which are mostly I/O around the parts modelled here. The
    theorems on two nodes start from a channel both have locked, without reconnection; the
    master is any sequence of requests. The onion of an HTLC is the class [Onions]. The hash
    tables of ccan are the class [HtlcTable]: a table is its elements in some order. The rest
    of Bitcoin Core: the interpreter is what decides whether a channel can be enforced;
    validation, mempool, network and wallet are not called by these parts. Prompts, polling
    and keys of the bridge's relayer; the decoders of rgb. The other programs under src/ (lnd,
    liquid, stellar-core, parity-ethereum, electrs and so on) share no code with these parts
    and are of a size of their own. *)
From stdpp Require Export prelude.
From Stdlib Require Export ZArith Lia.
#[export] Set Default Goal Selector "!".
Local Open Scope Z_scope.

(** ** Machine-width integers

    A C integer of width w is a [Z]; every operation of the code that can leave
    the range is written with the conversion the compiler applies. *)

Definition u8 (z : Z) : Z := z mod 2 ^ 8.
Definition u16 (z : Z) : Z := z mod 2 ^ 16.
Definition u32 (z : Z) : Z := Z.land z 0xffffffff.
Definition u64 (z : Z) : Z := z mod 2 ^ 64.

(** Conversion to a signed 64-bit integer (two's complement). *)
Definition s64 (z : Z) : Z := (z + 2 ^ 63) mod 2 ^ 64 - 2 ^ 63.

(** [x] fits in [w] unsigned bits. *)
Definition fits (w x : Z) : Prop := 0 <= x < 2 ^ w.

Lemma u32_mod z : u32 z = z mod 2 ^ 32.
Proof. by rewrite <- Z.land_ones. Qed.

(** Evaluates the powers of two that the width conversions mention. *)
Ltac eval_pow2 :=
  repeat match goal with
  | |- context [2 ^ ?n] =>
      let v := eval cbv in (2 ^ n) in
      match v with Z.pos _ => change (2 ^ n) with v end
  | H : context [2 ^ ?n] |- _ =>
      let v := eval cbv in (2 ^ n) in
      match v with Z.pos _ => change (2 ^ n) with v in H end
  end.

(** Linear arithmetic over width-converted values. *)
Ltac width_lia :=
  rewrite ?u32_mod in *; unfold u8, u16, u64, s64, fits in *; eval_pow2;
  Z.div_mod_to_equations; lia.

Lemma u64_fits z : fits 64 (u64 z).
Proof. width_lia. Qed.

Lemma u64_small z : fits 64 z -> u64 z = z.
Proof. apply Z.mod_small. Qed.

Lemma u8_small z : fits 8 z -> u8 z = z.
Proof. apply Z.mod_small. Qed.

Lemma s64_small z : - 2 ^ 63 <= z < 2 ^ 63 -> s64 z = z.
Proof. intros. width_lia. Qed.

Lemma u64_idem z : u64 (u64 z) = u64 z.
Proof. apply Z.mod_mod. lia. Qed.

Lemma u64_add_l a b : u64 (u64 a + b) = u64 (a + b).
Proof. apply Zplus_mod_idemp_l. Qed.

Lemma s64_add_l a b : s64 (s64 a + b) = s64 (a + b).
Proof. width_lia. Qed.

Lemma s64_u64 a : s64 (u64 a) = s64 a.
Proof. width_lia. Qed.

(** ** Sums over lists *)

Definition zsum {A} (f : A -> Z) (l : list A) : Z := foldr (fun x acc => f x + acc) 0 l.
Arguments zsum : simpl never.

Section Sums.
Context {A : Type}.
Implicit Types (f g : A -> Z) (l : list A).

Lemma zsum_cons f x l : zsum f (x :: l) = f x + zsum f l.
Proof. reflexivity. Qed.

Lemma zsum_app f l k : zsum f (l ++ k) = zsum f l + zsum f k.
Proof. induction l as [|x l IH]; [done|]. cbn [app]. rewrite !zsum_cons, IH. lia. Qed.

Lemma zsum_add f g l : zsum (fun x => f x + g x) l = zsum f l + zsum g l.
Proof. induction l as [|x l IH]; [done|]. rewrite !zsum_cons, IH. lia. Qed.

Lemma zsum_opp f l : zsum (fun x => - f x) l = - zsum f l.
Proof. induction l as [|x l IH]; [done|]. rewrite !zsum_cons, IH. lia. Qed.

Lemma zsum_ext_in f g l : (forall x, x ∈ l -> f x = g x) -> zsum f l = zsum g l.
Proof.
  induction l as [|x l IH]; intros E; [done|]. rewrite !zsum_cons.
  rewrite E, IH by set_solver. done.
Qed.

Lemma zsum_le_in f g l : (forall x, x ∈ l -> f x <= g x) -> zsum f l <= zsum g l.
Proof.
  induction l as [|x l IH]; intros E; [done|]. rewrite !zsum_cons.
  assert (f x <= g x) by set_solver. assert (zsum f l <= zsum g l) by set_solver. lia.
Qed.

Lemma zsum_0 l : zsum (fun _ => 0) l = 0.
Proof. induction l; [done|]. rewrite zsum_cons. lia. Qed.

Lemma zsum_nonneg f l : (forall x, x ∈ l -> 0 <= f x) -> 0 <= zsum f l.
Proof. intros H. pose proof (zsum_le_in (fun _ => 0) f l H). rewrite zsum_0 in *. lia. Qed.

Lemma zsum_filter f (P : A -> bool) l :
  zsum f (filter P l) = zsum (fun x => if P x then f x else 0) l.
Proof.
  induction l as [|x l IH]; [done|]. rewrite filter_cons, !zsum_cons.
  destruct (P x) eqn:E; case_decide as D; rewrite ?zsum_cons, IH;
    try (rewrite E in D); simpl in *; try lia; try done.
Qed.

Lemma zsum_insert f l n x y : l !! n = Some x -> zsum f (<[n := y]> l) = zsum f l - f x + f y.
Proof.
  revert n. induction l as [|z l IH]; intros [|n] E; simplify_eq/=.
  - rewrite !zsum_cons. lia.
  - rewrite !zsum_cons, (IH n) by done. lia.
Qed.

#[global] Instance zsum_perm f : Proper ((≡ₚ) ==> (=)) (zsum f).
Proof. intros l k P. induction P; rewrite ?zsum_cons; lia. Qed.
End Sums.

Lemma zsum_map {A B} (f : B -> Z) (h : A -> B) (l : list A) :
  zsum f (h <$> l) = zsum (fun x => f (h x)) l.
Proof. induction l as [|x l IH]; [done|]. csimpl. rewrite !zsum_cons, IH. done. Qed.

(** ** Byte strings

    A byte string is a list of integers; [bytes_ok] says each is a byte. *)
Abbreviation bytes := (list Z).

Definition byte_ok (b : Z) : bool := (0 <=? b) && (b <? 256).
Definition bytes_ok (l : bytes) : Prop := Forall (fun b => 0 <= b < 256) l.

(** [n] bytes of [z], least significant first ([cpu_to_le16] and friends), and back. *)
Fixpoint le_bytes (n : nat) (z : Z) : bytes :=
  match n with
  | O => []
  | S n => z mod 256 :: le_bytes n (z / 256)
  end.

Fixpoint le_val (l : bytes) : Z :=
  match l with
  | [] => 0
  | b :: l => b + 256 * le_val l
  end.

(** Most significant first ([cpu_to_be16] and friends). *)
Definition be_bytes (n : nat) (z : Z) : bytes := rev (le_bytes n z).
Definition be_val (l : bytes) : Z := le_val (rev l).

Lemma length_le_bytes n z : length (le_bytes n z) = n.
Proof. revert z. induction n; intros; simpl; auto. Qed.

Lemma length_be_bytes n z : length (be_bytes n z) = n.
Proof. unfold be_bytes. rewrite length_rev. apply length_le_bytes. Qed.

Lemma le_bytes_ok n z : bytes_ok (le_bytes n z).
Proof.
  revert z. induction n as [|n IH]; intros z; simpl; constructor; [|apply IH].
  pose proof (Z.mod_pos_bound z 256). lia.
Qed.

Lemma be_bytes_ok n z : bytes_ok (be_bytes n z).
Proof. apply Forall_rev, le_bytes_ok. Qed.

Lemma pow256_S (n : nat) : 256 ^ Z.of_nat (S n) = 256 * 256 ^ Z.of_nat n.
Proof. rewrite Nat2Z.inj_succ, Z.pow_succ_r; lia. Qed.

Lemma pow256_pos (n : nat) : 0 < 256 ^ Z.of_nat n.
Proof. apply Z.pow_pos_nonneg; lia. Qed.

Lemma le_val_le_bytes n z : le_val (le_bytes n z) = z mod 256 ^ Z.of_nat n.
Proof.
  revert z. induction n as [|n IH]; intros z; [by rewrite Z.mod_1_r|].
  cbn [le_bytes le_val]. rewrite IH, pow256_S. pose proof (pow256_pos n).
  rewrite Z.rem_mul_r by lia. lia.
Qed.

Lemma be_val_be_bytes n z : be_val (be_bytes n z) = z mod 256 ^ Z.of_nat n.
Proof. unfold be_val, be_bytes. rewrite rev_involutive. apply le_val_le_bytes. Qed.

Lemma le_val_bound l : bytes_ok l -> 0 <= le_val l < 256 ^ Z.of_nat (length l).
Proof.
  induction 1 as [|b l Hb _ IH]; simpl; [lia|].
  rewrite <- (Nat2Z.id (S (length l))), Nat2Z.id. rewrite pow256_S. lia.
Qed.

Lemma le_bytes_le_val l : bytes_ok l -> le_bytes (length l) (le_val l) = l.
Proof.
  induction 1 as [|b l Hb _ IH]; [done|]. cbn [le_val le_bytes length].
  replace ((b + 256 * le_val l) mod 256) with b by (Z.div_mod_to_equations; lia).
  replace ((b + 256 * le_val l) / 256) with (le_val l) by (Z.div_mod_to_equations; lia).
  by rewrite IH.
Qed.

Lemma be_bytes_be_val l : bytes_ok l -> be_bytes (length l) (be_val l) = l.
Proof.
  intros H. unfold be_bytes, be_val. rewrite <- (length_rev l), le_bytes_le_val.
  - apply rev_involutive.
  - by apply Forall_rev.
Qed.

Lemma be_val_bound l : bytes_ok l -> 0 <= be_val l < 256 ^ Z.of_nat (length l).
Proof.
  intros H. unfold be_val. rewrite <- length_rev. apply le_val_bound. by apply Forall_rev.
Qed.

(** ** Bitwise exclusive or *)

(** Exclusive or of bounded numbers is bounded. *)
Lemma lxor_bound a b n : 0 <= n -> 0 <= a < 2 ^ n -> 0 <= b < 2 ^ n -> 0 <= Z.lxor a b < 2 ^ n.
Proof.
  intros Hn Ha Hb. assert (0 <= Z.lxor a b) as Hx by (apply Z.lxor_nonneg; lia).
  split; [done|]. destruct (decide (Z.lxor a b = 0)) as [->|Hz]; [lia|].
  apply Z.log2_lt_pow2; [lia|]. pose proof (Z.log2_lxor a b).
  assert (Z.log2 a < n \/ a = 0) by (destruct (decide (a = 0)); [by right|left];
    apply Z.log2_lt_pow2; lia).
  assert (Z.log2 b < n \/ b = 0) by (destruct (decide (b = 0)); [by right|left];
    apply Z.log2_lt_pow2; lia).
  assert (0 < n) as Hpos.
  { destruct (decide (n = 0)) as [->|]; [|lia].
    assert (a = 0) as -> by lia. assert (b = 0) as -> by lia. by destruct Hz. }
  destruct H0 as [|E0], H1 as [|E1]; subst; change (Z.log2 0) with 0 in H; lia.
Qed.

(** Exclusive or commutes with splitting into low byte and rest. *)
Lemma lxor_byte_split a b x y :
  0 <= a < 256 -> 0 <= b < 256 ->
  Z.lxor (a + 256 * x) (b + 256 * y) = Z.lxor a b + 256 * Z.lxor x y.
Proof.
  intros Ha Hb. pose proof (lxor_bound a b 8 ltac:(lia) Ha Hb) as Hab.
  assert (forall u v, 0 <= u < 256 -> u + 256 * v = Z.lor u (Z.shiftl v 8)) as S.
  { intros u v Hu. rewrite Z.shiftl_mul_pow2 by lia.
    replace (256 * v) with (v * 2 ^ 8) by lia.
    enough (Z.land u (v * 2 ^ 8) = 0) as E
      by (rewrite <- Z.lxor_lor by exact E; by apply Z.add_nocarry_lxor).
    apply Z.bits_inj'. intros i Hi. rewrite Z.land_spec, Z.bits_0.
    destruct (decide (i < 8)).
    - rewrite Z.mul_pow2_bits_low by lia. apply andb_false_r.
    - rewrite (Z.bits_above_log2 u i); [done|lia|].
      destruct (decide (u = 0)) as [->|]; [simpl; lia|].
      apply Z.log2_lt_pow2; [lia|]. assert (2 ^ 8 <= 2 ^ i) by (apply Z.pow_le_mono_r; lia).
      lia. }
  rewrite (S a x), (S b y), (S (Z.lxor a b)) by done. apply Z.bits_inj'. intros i Hi.
  rewrite ?Z.lxor_spec, ?Z.lor_spec, !Z.shiftl_spec, ?Z.lxor_spec by lia.
  destruct (decide (i < 8)).
  - rewrite !(Z.testbit_neg_r _ (i - 8)) by lia. by rewrite !orb_false_r.
  - assert (forall u, 0 <= u < 256 -> Z.testbit u i = false) as B.
    { intros u Hu. destruct (decide (u = 0)) as [->|]; [apply Z.bits_0|].
      apply Z.bits_above_log2; [lia|]. apply Z.log2_lt_pow2; [lia|].
      assert (2 ^ 8 <= 2 ^ i) by (apply Z.pow_le_mono_r; lia). lia. }
    rewrite (B a), (B b) by done. done.
Qed.

Lemma le_val_lxor l k : bytes_ok l -> bytes_ok k -> length l = length k ->
  le_val (zip_with Z.lxor l k) = Z.lxor (le_val l) (le_val k).
Proof.
  intros Hl. revert k. induction Hl as [|a l Ha Hl IH]; intros [|b k] Hk L; simplify_eq/=; [done|].
  inversion Hk; subst. rewrite lxor_byte_split, IH by done. done.
Qed.

Lemma bytes_ok_lxor l k : bytes_ok l -> bytes_ok k -> bytes_ok (zip_with Z.lxor l k).
Proof.
  intros Hl. revert k. induction Hl as [|a l Ha Hl IH]; intros [|b k] Hk; try constructor.
  - inversion Hk; subst. by apply (lxor_bound a b 8).
  - inversion Hk; subst. by apply IH.
Qed.

(** ** Aborts

    [assert], a NULL dereference and [abort] end the process: an operation that can
    reach one returns an [option], [None] meaning that it did. *)
Definition c_assert {A} (b : bool) (k : option A) : option A := if b then k else None.
Notation "'assert!' b ; k" := (c_assert b k)
  (at level 100, b at next level, k at level 200, right associativity).

Lemma c_assert_Some {A} b (k : option A) x : c_assert b k = Some x <-> b = true /\ k = Some x.
Proof. unfold c_assert. destruct b; split; [by intros ->|by intros [_ ->]|done|by intros [? _]]. Qed.

Lemma c_assert_true {A} b (k : option A) : b = true -> c_assert b k = k.
Proof. by intros ->. Qed.

(** [if (a && (b))] style conditions become [bool]; this moves them to [Prop]. *)
Ltac bprop :=
  repeat match goal with
  | H : _ && _ = true |- _ => apply andb_true_iff in H as [? ?]
  | H : _ || _ = false |- _ => apply orb_false_iff in H as [? ?]
  | H : negb _ = true |- _ => apply negb_true_iff in H
  | H : negb _ = false |- _ => apply negb_false_iff in H
  end.

(** Case analysis on the conditionals of an executed definition, closing the
    impossible branches. *)
Ltac branches := repeat (case_match; simplify_eq/=; try done).

Create HintDb wire discriminated.
Create Rewrite HintDb wire.
#[export] Hint Resolve le_bytes_ok be_bytes_ok : wire.
#[export] Hint Rewrite length_le_bytes length_be_bytes @length_app : wire.

#[global] Arguments le_bytes : simpl never.
#[global] Arguments be_bytes : simpl never.
#[global] Arguments le_val : simpl never.
#[global] Arguments be_val : simpl never.
