(* ===== verification/Hex.v ===== *)
(** * Hexadecimal strings (ccan/str/hex/hex.c)

    Strings are lists of character codes, without the final NUL where the C code passes
    a length. *)
From S2P Require Import Prelude.
Local Open Scope Z_scope.

(** Some character codes. *)
Definition chr_0 : Z := 48.
Definition chr_9 : Z := 57.
Definition chr_a : Z := 97.
Definition chr_f : Z := 102.
Definition chr_A : Z := 65.
Definition chr_F : Z := 70.
Definition chr_newline : Z := 10.

Definition char_to_hex (c : Z) : option Z :=
  if (chr_0 <=? c) && (c <=? chr_9) then Some (c - chr_0)
  else if (chr_a <=? c) && (c <=? chr_f) then Some (c - chr_a + 10)
  else if (chr_A <=? c) && (c <=? chr_F) then Some (c - chr_A + 10)
  else None.

(** The buffer written when the function returns true. *)
Fixpoint hex_decode (str : bytes) (bufsize : nat) : option bytes :=
  match str with
  | c1 :: c2 :: str =>
      v1 ← char_to_hex c1;
      v2 ← char_to_hex c2;
      match bufsize with
      | O => None
      | S bufsize => p ← hex_decode str bufsize; Some (u8 (Z.lor (Z.shiftl v1 4) v2) :: p)
      end
  | [_] => None
  | [] => if (bufsize =? 0)%nat then Some [] else None
  end.

(** [None] is the call of [abort]. *)
Definition hexchar (val : Z) : option Z :=
  if val <? 10 then Some (chr_0 + val)
  else if val <? 16 then Some (chr_a + val - 10)
  else None.

Definition hex_str_size (n : nat) : nat := 2 * n + 1.
Definition hex_data_size (strlen : nat) : nat := Nat.div2 strlen.

(** The loop of [hex_encode], without the NUL. *)
Fixpoint hex_chars (buf : bytes) : option bytes :=
  match buf with
  | [] => Some []
  | c :: buf =>
      hi ← hexchar (Z.shiftr c 4);
      lo ← hexchar (Z.land c 0xF);
      s ← hex_chars buf;
      Some (hi :: lo :: s)
  end.

(** The outer option is the abort; the inner one is the boolean result, with the string
    left in [dest] when it is true. *)
Definition hex_encode (buf : bytes) (destsize : nat) : option (option bytes) :=
  if (destsize <? hex_str_size (length buf))%nat then Some None
  else s ← hex_chars buf; Some (Some (s ++ [0])).

(** ** Round trip *)

Lemma char_to_hexchar v : 0 <= v < 16 -> exists c, hexchar v = Some c /\ char_to_hex c = Some v.
Proof.
  intros H. unfold hexchar, char_to_hex, chr_0, chr_9, chr_a, chr_f.
  destruct (Z.ltb_spec v 10).
  - exists (48 + v). split; [done|].
    destruct (Z.leb_spec 48 (48 + v)), (Z.leb_spec (48 + v) 57); try lia. simpl. f_equal. lia.
  - destruct (Z.ltb_spec v 16); [|lia]. exists (97 + v - 10). split; [done|].
    destruct (Z.leb_spec (97 + v - 10) 57); [lia|]. rewrite andb_false_r.
    destruct (Z.leb_spec 97 (97 + v - 10)), (Z.leb_spec (97 + v - 10) 102); try lia.
    simpl. f_equal. lia.
Qed.

(** A byte is its two nibbles. *)
Lemma nibbles b : 0 <= b < 256 ->
  0 <= Z.shiftr b 4 < 16 /\ 0 <= Z.land b 0xF < 16 /\
  u8 (Z.lor (Z.shiftl (Z.shiftr b 4) 4) (Z.land b 0xF)) = b.
Proof.
  intros H. change 0xF with (Z.ones 4). rewrite Z.land_ones, Z.shiftr_div_pow2 by lia.
  split; [width_lia|]. split; [width_lia|].
  replace (Z.lor _ _) with b; [by apply u8_small|].
  rewrite <- Z.land_ones, <- Z.shiftr_div_pow2, <- Z.ldiff_ones_r by lia.
  symmetry. apply Z.bits_inj'. intros i Hi. rewrite Z.lor_spec, Z.ldiff_spec, Z.land_spec.
  by destruct (Z.testbit b i), (Z.testbit (Z.ones 4) i).
Qed.

Lemma hex_chars_roundtrip b : bytes_ok b ->
  exists s, hex_chars b = Some s /\ length s = (2 * length b)%nat /\
            hex_decode s (length b) = Some b.
Proof.
  induction 1 as [|c b Hc _ (s & E & L & D)]; [by exists []|].
  destruct (nibbles c Hc) as (Hi & Lo & J).
  destruct (char_to_hexchar _ Hi) as (h & Eh & Dh), (char_to_hexchar _ Lo) as (l & El & Dl).
  exists (h :: l :: s). cbn -[Z.mul]. rewrite Eh, El, E, Dh, Dl. cbn. rewrite D. cbn.
  rewrite J. repeat split. lia.
Qed.

Lemma hex_decode_length s n b : hex_decode s n = Some b -> length b = n /\ length s = (2 * n)%nat.
Proof.
  revert n b. induction s as [[|x s] IH] using (well_founded_ind (Wf_nat.well_founded_ltof _ length)).
  { intros [|n] b E; simplify_eq/=; done. }
  destruct s as [|y s]; intros n b E; [done|]. cbn in E.
  destruct (char_to_hex x), (char_to_hex y); try done. cbn in E. destruct n as [|n]; [done|].
  destruct (hex_decode s n) as [p|] eqn:D; [|done]. cbn in E. simplify_eq.
  apply IH in D as [L1 L2]; [|unfold Wf_nat.ltof; simpl; lia]. simpl. lia.
Qed.
