(* ===== verification/PullPush.v ===== *)
(** * Serialising to a callback and parsing from a cursor
    (bitcoin/varint.c, bitcoin/pullpush.c)

    The pushing functions take a callback [push] and its argument; the argument is the
    state of type [St], so [push data st] is the state after the call. The pulling
    functions move a cursor: [None] is the NULL the failing functions leave (with
    [*max] zero), [Some l] has the [*max] bytes [l] left. *)
From S2P Require Import Prelude.
Local Open Scope Z_scope.

(** ** Variable length integers *)

(** The bytes written to the buffer; the result of the function is their number. *)
Definition varint_put (v : Z) : bytes :=
  if v <? 0xfd then [u8 v]
  else if v <=? 0xffff then [0xfd; u8 v; u8 (Z.shiftr v 8)]
  else if v <=? 0xffffffff then
    [0xfe; u8 v; u8 (Z.shiftr v 8); u8 (Z.shiftr v 16); u8 (Z.shiftr v 24)]
  else
    [0xff; u8 v; u8 (Z.shiftr v 8); u8 (Z.shiftr v 16); u8 (Z.shiftr v 24);
     u8 (Z.shiftr v 32); u8 (Z.shiftr v 40); u8 (Z.shiftr v 48); u8 (Z.shiftr v 56)].

(** The bytes used and the value; [None] when the function returns 0. *)
Definition varint_get (p : bytes) : option (nat * Z) :=
  match p with
  | [] => None
  | 0xfd :: p =>
      match p with
      | p1 :: p2 :: _ => Some (3%nat, Z.shiftl p2 8 + p1)
      | _ => None
      end
  | 0xfe :: p =>
      match p with
      | p1 :: p2 :: p3 :: p4 :: _ =>
          Some (5%nat, Z.shiftl p4 24 + Z.shiftl p3 16 + Z.shiftl p2 8 + p1)
      | _ => None
      end
  | 0xff :: p =>
      match p with
      | p1 :: p2 :: p3 :: p4 :: p5 :: p6 :: p7 :: p8 :: _ =>
          Some (9%nat, Z.shiftl p8 56 + Z.shiftl p7 48 + Z.shiftl p6 40 + Z.shiftl p5 32
                       + Z.shiftl p4 24 + Z.shiftl p3 16 + Z.shiftl p2 8 + p1)
      | _ => None
      end
  | b :: _ => Some (1%nat, b)
  end.

(** ** Pushing *)

Section Push.
Context {St : Type} (push : bytes -> St -> St).

Definition push_varint (v : Z) : St -> St := push (varint_put v).
Definition push_le32 (v : Z) : St -> St := push (le_bytes 4 v).
Definition push_le64 (v : Z) : St -> St := push (le_bytes 8 v).

Definition push_varint_blob (blob : bytes) (st : St) : St :=
  push blob (push_varint (Z.of_nat (length blob)) st).
End Push.

(** The [push] of pullpush.c appends to an array. *)
Definition push (data arr : bytes) : bytes := arr ++ data.

(** ** Pulling *)

Abbreviation cursor := (option bytes).

(** A parser ends with [None] when the process aborts. *)
Definition pulling (A : Type) : Type := cursor -> option (A * cursor).
Definition pull_ret {A} (x : A) : pulling A := fun c => Some (x, c).
Definition pull_bind {A B} (m : pulling A) (k : A -> pulling B) : pulling B :=
  fun c => '(x, c) ← m c; k x c.
Definition pull_abort_unless {B} (b : bool) (k : pulling B) : pulling B :=
  fun c => assert! b; k c.

Declare Scope pull_scope.
Notation "'let*' x := m 'in' k" := (pull_bind m (fun x => k))
  (at level 100, x binder, m at level 100, k at level 200, right associativity) : pull_scope.
Notation "'assert*' b ; k" := (pull_abort_unless b k)
  (at level 100, b at next level, k at level 200, right associativity) : pull_scope.
Local Open Scope pull_scope.

Definition cursor_max (c : cursor) : Z := Z.of_nat (length (default [] c)).

(** What [pull] returns: the bytes, or [None] for NULL. [assert(p)] fails on a NULL
    cursor when no bytes are asked for, since [*max < n] is then false. *)
Definition pull (n : Z) : pulling (option bytes) := fun c =>
  if cursor_max c <? n then Some (None, None)
  else l ← c; Some (Some (take (Z.to_nat n) l), Some (drop (Z.to_nat n) l)).

(** What the caller's buffer of [n] bytes holds afterwards: a failing [pull] clears it. *)
Definition copied (n : Z) (p : option bytes) : bytes := default (replicate (Z.to_nat n) 0) p.

Definition pull_varint : pulling Z := fun c =>
  match varint_get (default [] c) with
  | None => Some (0, None)
  | Some (len, ret) => (let* _ := pull (Z.of_nat len) in pull_ret ret) c
  end.

Definition pull_le (n : nat) : pulling Z :=
  let* p := pull (Z.of_nat n) in
  pull_ret (match p with None => 0 | Some ret => le_val ret end).

Definition pull_le32 : pulling Z := pull_le 4.
Definition pull_le64 : pulling Z := pull_le 8.

(** The loops of the callers: [n] pulls in sequence, and one for each element of an array. *)
Fixpoint pull_n {A} (n : nat) (p : pulling A) : pulling (list A) :=
  match n with
  | O => pull_ret []
  | S n => let* x := p in let* l := pull_n n p in pull_ret (x :: l)
  end.

Fixpoint pull_each {A B} (f : B -> pulling A) (l : list B) : pulling (list A) :=
  match l with
  | [] => pull_ret []
  | b :: l => let* x := f b in let* l := pull_each f l in pull_ret (x :: l)
  end.

(** ** Round trips *)

(** The parser [p] reads back [x] from [data] and leaves the cursor behind it. No buffer
    has 2^60 bytes or more, so the products of [pull_length] and [tal_arr] do not wrap. *)
Definition max_buffer : Z := 2 ^ 60.

Definition reads {A} (p : pulling A) (data : bytes) (x : A) : Prop :=
  forall rest, Z.of_nat (length (data ++ rest)) < max_buffer ->
    p (Some (data ++ rest)) = Some (x, Some rest).

Lemma reads_ret {A} (x : A) : reads (pull_ret x) [] x.
Proof. done. Qed.

Lemma reads_bind {A B} (p : pulling A) (k : A -> pulling B) d1 d2 x y :
  reads p d1 x -> reads (k x) d2 y -> reads (pull_bind p k) (d1 ++ d2) y.
Proof.
  intros H1 H2 rest L. unfold pull_bind. rewrite <- app_assoc in *.
  rewrite H1 by done. apply H2. rewrite length_app in L. lia.
Qed.

Lemma reads_bind_ret {A B} (p : pulling A) (k : A -> pulling B) d x y :
  reads p d x -> reads (k x) [] y -> reads (pull_bind p k) d y.
Proof. intros H1 H2. rewrite <- (app_nil_r d). by eapply reads_bind. Qed.

Lemma reads_abort {B} b (k : pulling B) d y : b = true -> reads k d y -> reads (pull_abort_unless b k) d y.
Proof. intros -> H rest. apply H. Qed.

Lemma reads_pull d : reads (pull (Z.of_nat (length d))) d (Some d).
Proof.
  intros rest _. unfold pull, cursor_max. cbn. rewrite length_app, Nat2Z.id.
  destruct (Z.ltb_spec (Z.of_nat (length d + length rest)) (Z.of_nat (length d))); [lia|].
  cbn. by rewrite take_app_length, drop_app_length.
Qed.

Lemma reads_pull_n n d : n = Z.of_nat (length d) -> reads (pull n) d (Some d).
Proof. intros ->. apply reads_pull. Qed.

Lemma reads_le n v : 0 <= v < 256 ^ Z.of_nat n -> reads (pull_le n) (le_bytes n v) v.
Proof.
  intros H. eapply reads_bind_ret; [apply reads_pull_n; by rewrite length_le_bytes|].
  cbn beta iota. rewrite le_val_le_bytes, Z.mod_small by done. apply reads_ret.
Qed.

Lemma reads_n {A B} (p : pulling A) (enc : B -> bytes) (val : B -> A) (l : list B) :
  (forall b, b ∈ l -> reads p (enc b) (val b)) ->
  reads (pull_n (length l) p) (concat (enc <$> l)) (val <$> l).
Proof.
  induction l as [|b l IH]; intros H; [done|]. csimpl. eapply reads_bind; [apply H; set_solver|].
  eapply reads_bind_ret; [apply IH; set_solver|]. apply reads_ret.
Qed.

(** [val] says what is read for an element that was written as [enc b]. *)
Lemma reads_each {A B C} (f : C -> pulling A) (enc : B -> bytes) (val : C -> B -> A) cs bs :
  Forall2 (fun c b => reads (f c) (enc b) (val c b)) cs bs ->
  reads (pull_each f cs) (concat (enc <$> bs)) (zip_with val cs bs).
Proof.
  induction 1 as [|c b cs bs H _ IH]; [done|]. csimpl. eapply reads_bind; [apply H|].
  eapply reads_bind_ret; [apply IH|]. apply reads_ret.
Qed.

(** The little-endian bytes that [varint_put] writes out one by one. *)
Lemma shifted_bytes v :
  le_bytes 2 v = [u8 v; u8 (Z.shiftr v 8)] /\
  le_bytes 4 v = [u8 v; u8 (Z.shiftr v 8); u8 (Z.shiftr v 16); u8 (Z.shiftr v 24)] /\
  le_bytes 8 v = [u8 v; u8 (Z.shiftr v 8); u8 (Z.shiftr v 16); u8 (Z.shiftr v 24);
     u8 (Z.shiftr v 32); u8 (Z.shiftr v 40); u8 (Z.shiftr v 48); u8 (Z.shiftr v 56)].
Proof.
  unfold u8. rewrite !Z.shiftr_div_pow2 by lia. cbv [le_bytes].
  rewrite !Z.div_div by lia. done.
Qed.

Lemma varint_get_byte b p : b <> 0xfd -> b <> 0xfe -> b <> 0xff ->
  varint_get (b :: p) = Some (1%nat, b).
Proof.
  intros H1 H2 H3. unfold varint_get.
  repeat (case_match; subst; try done).
Qed.

(** Shifted sums of bytes are the little-endian value. *)
Ltac shifts := rewrite !Z.shiftl_mul_pow2 by lia; cbv [le_val]; lia.

Lemma varint_get_put v rest : fits 64 v ->
  varint_get (varint_put v ++ rest) = Some (length (varint_put v), v).
Proof.
  intros H. unfold fits in H. unfold varint_put. destruct (shifted_bytes v) as (E2 & E4 & E8).
  destruct (Z.ltb_spec v 0xfd); [|destruct (Z.leb_spec v 0xffff);
    [|destruct (Z.leb_spec v 0xffffffff)]].
  - rewrite u8_small by (unfold fits; lia). apply varint_get_byte; lia.
  - rewrite <- E2. transitivity (Some (3%nat, le_val (le_bytes 2 v))).
    + rewrite E2. cbn. do 2 f_equal. shifts.
    + rewrite le_val_le_bytes, Z.mod_small by lia. by rewrite E2.
  - rewrite <- E4. transitivity (Some (5%nat, le_val (le_bytes 4 v))).
    + rewrite E4. cbn. do 2 f_equal. shifts.
    + rewrite le_val_le_bytes, Z.mod_small by lia. by rewrite E4.
  - rewrite <- E8. transitivity (Some (9%nat, le_val (le_bytes 8 v))).
    + rewrite E8. cbn. do 2 f_equal. shifts.
    + rewrite le_val_le_bytes, Z.mod_small by lia. by rewrite E8.
Qed.

Lemma varint_put_pos v : (1 <= length (varint_put v))%nat.
Proof. unfold varint_put. repeat case_match; simpl; lia. Qed.

Lemma reads_varint v : fits 64 v -> reads pull_varint (varint_put v) v.
Proof.
  intros H rest L. unfold pull_varint. cbn [default from_option].
  pose proof (varint_get_put v rest H) as E. unfold default, id, from_option. rewrite E.
  unfold pull_bind. by rewrite reads_pull.
Qed.
