(* ===== verification/HtlcState.v ===== *)
(** * The life cycle of an HTLC

    [enum htlc_state] and its flag table (src/lightning/common/htlc_state.h,
    htlc_state.c, htlc.h). The table is proved equal to the rule it encodes: an
    addition is applied to the recipient's commitment first and a removal to the
    offerer's first, each through propose / commit / revoke. *)
From S2P Require Import Prelude.
Local Open Scope Z_scope.

Inductive side := LOCAL | REMOTE.

#[global] Instance side_eq_dec : EqDecision side.
Proof. solve_decision. Defined.

(** C's [!side] on the two-valued enumeration. *)
Definition other (s : side) : side := match s with LOCAL => REMOTE | REMOTE => LOCAL end.
Definition side_num (s : side) : Z := match s with LOCAL => 0 | REMOTE => 1 end.
Definition side_eqb (a b : side) : bool := bool_decide (a = b).

Lemma other_other s : other (other s) = s.
Proof. by destruct s. Qed.

Lemma side_eqb_refl s : side_eqb s s = true.
Proof. by destruct s. Qed.

Lemma side_eqb_eq a b : side_eqb a b = true <-> a = b.
Proof. unfold side_eqb. by rewrite bool_decide_eq_true. Qed.

(** Values indexed by side: [T x[NUM_SIDES]]. *)
Record sided (A : Type) := Sided { on_local : A; on_remote : A }.
Arguments Sided {A} _ _.
Arguments on_local {A} _.
Arguments on_remote {A} _.

Definition at_side {A} (p : sided A) (s : side) : A :=
  match s with LOCAL => on_local p | REMOTE => on_remote p end.

Definition set_side {A} (s : side) (v : A) (p : sided A) : sided A :=
  match s with
  | LOCAL => Sided v (on_remote p)
  | REMOTE => Sided (on_local p) v
  end.

Lemma at_set_side {A} s (v : A) p : at_side (set_side s v p) s = v.
Proof. by destruct s. Qed.

Lemma at_set_side_ne {A} s t (v : A) p : s <> t -> at_side (set_side s v p) t = at_side p t.
Proof. by destruct s, t. Qed.

(** The values an [enum htlc_state] variable holds; the sentinel
    [HTLC_STATE_INVALID] is the absence of a state. *)
Inductive htlc_state :=
  | SENT_ADD_HTLC | SENT_ADD_COMMIT | RCVD_ADD_REVOCATION | RCVD_ADD_ACK_COMMIT
  | SENT_ADD_ACK_REVOCATION
  | RCVD_REMOVE_HTLC | RCVD_REMOVE_COMMIT | SENT_REMOVE_REVOCATION | SENT_REMOVE_ACK_COMMIT
  | RCVD_REMOVE_ACK_REVOCATION
  | RCVD_ADD_HTLC | RCVD_ADD_COMMIT | SENT_ADD_REVOCATION | SENT_ADD_ACK_COMMIT
  | RCVD_ADD_ACK_REVOCATION
  | SENT_REMOVE_HTLC | SENT_REMOVE_COMMIT | RCVD_REMOVE_REVOCATION | RCVD_REMOVE_ACK_COMMIT
  | SENT_REMOVE_ACK_REVOCATION.

#[global] Instance htlc_state_eq_dec : EqDecision htlc_state.
Proof. solve_decision. Defined.

(** Every state, in enumeration order: a state's number is its position. *)
Definition all_htlc_states : list htlc_state :=
  [SENT_ADD_HTLC; SENT_ADD_COMMIT; RCVD_ADD_REVOCATION; RCVD_ADD_ACK_COMMIT;
   SENT_ADD_ACK_REVOCATION;
   RCVD_REMOVE_HTLC; RCVD_REMOVE_COMMIT; SENT_REMOVE_REVOCATION; SENT_REMOVE_ACK_COMMIT;
   RCVD_REMOVE_ACK_REVOCATION;
   RCVD_ADD_HTLC; RCVD_ADD_COMMIT; SENT_ADD_REVOCATION; SENT_ADD_ACK_COMMIT;
   RCVD_ADD_ACK_REVOCATION;
   SENT_REMOVE_HTLC; SENT_REMOVE_COMMIT; RCVD_REMOVE_REVOCATION; RCVD_REMOVE_ACK_COMMIT;
   SENT_REMOVE_ACK_REVOCATION].

Definition htlc_state_num (s : htlc_state) : nat :=
  match s with
  | SENT_ADD_HTLC => 0 | SENT_ADD_COMMIT => 1 | RCVD_ADD_REVOCATION => 2
  | RCVD_ADD_ACK_COMMIT => 3 | SENT_ADD_ACK_REVOCATION => 4
  | RCVD_REMOVE_HTLC => 5 | RCVD_REMOVE_COMMIT => 6 | SENT_REMOVE_REVOCATION => 7
  | SENT_REMOVE_ACK_COMMIT => 8 | RCVD_REMOVE_ACK_REVOCATION => 9
  | RCVD_ADD_HTLC => 10 | RCVD_ADD_COMMIT => 11 | SENT_ADD_REVOCATION => 12
  | SENT_ADD_ACK_COMMIT => 13 | RCVD_ADD_ACK_REVOCATION => 14
  | SENT_REMOVE_HTLC => 15 | SENT_REMOVE_COMMIT => 16 | RCVD_REMOVE_REVOCATION => 17
  | RCVD_REMOVE_ACK_COMMIT => 18 | SENT_REMOVE_ACK_REVOCATION => 19
  end.

(** A number as a state; [None] from [HTLC_STATE_INVALID] on. *)
Definition htlc_state_of (n : nat) : option htlc_state := all_htlc_states !! n.

Definition htlc_state_ltb (a b : htlc_state) : bool :=
  (htlc_state_num a <? htlc_state_num b)%nat.

Definition htlc_state_eqb (a b : htlc_state) : bool := bool_decide (a = b).

(** ** Flags (htlc.h) *)
Definition HTLC_ADDING : Z := 0x400.
Definition HTLC_REMOVING : Z := 0x800.
Definition HTLC_F_PENDING : Z := 0x01.
Definition HTLC_F_COMMITTED : Z := 0x02.
Definition HTLC_F_REVOKED : Z := 0x04.
Definition HTLC_F_OWNER : Z := 0x08.
Definition HTLC_F_WAS_COMMITTED : Z := 0x10.

Definition HTLC_FLAG (s : side) (flag : Z) : Z := Z.shiftl flag (side_num s * 5).

Definition HTLC_REMOTE_F_PENDING := HTLC_FLAG REMOTE HTLC_F_PENDING.
Definition HTLC_REMOTE_F_COMMITTED := HTLC_FLAG REMOTE HTLC_F_COMMITTED.
Definition HTLC_REMOTE_F_REVOKED := HTLC_FLAG REMOTE HTLC_F_REVOKED.
Definition HTLC_REMOTE_F_OWNER := HTLC_FLAG REMOTE HTLC_F_OWNER.
Definition HTLC_REMOTE_F_WAS_COMMITTED := HTLC_FLAG REMOTE HTLC_F_WAS_COMMITTED.
Definition HTLC_LOCAL_F_PENDING := HTLC_FLAG LOCAL HTLC_F_PENDING.
Definition HTLC_LOCAL_F_COMMITTED := HTLC_FLAG LOCAL HTLC_F_COMMITTED.
Definition HTLC_LOCAL_F_REVOKED := HTLC_FLAG LOCAL HTLC_F_REVOKED.
Definition HTLC_LOCAL_F_OWNER := HTLC_FLAG LOCAL HTLC_F_OWNER.
Definition HTLC_LOCAL_F_WAS_COMMITTED := HTLC_FLAG LOCAL HTLC_F_WAS_COMMITTED.

Definition per_state_bits (s : htlc_state) : Z :=
  match s with
  | SENT_ADD_HTLC => HTLC_ADDING + HTLC_LOCAL_F_OWNER + HTLC_REMOTE_F_PENDING
  | SENT_ADD_COMMIT => HTLC_ADDING + HTLC_LOCAL_F_OWNER + HTLC_REMOTE_F_COMMITTED
      + HTLC_REMOTE_F_WAS_COMMITTED
  | RCVD_ADD_REVOCATION => HTLC_ADDING + HTLC_LOCAL_F_OWNER + HTLC_REMOTE_F_COMMITTED
      + HTLC_REMOTE_F_REVOKED + HTLC_LOCAL_F_PENDING + HTLC_REMOTE_F_WAS_COMMITTED
  | RCVD_ADD_ACK_COMMIT => HTLC_ADDING + HTLC_LOCAL_F_OWNER + HTLC_REMOTE_F_COMMITTED
      + HTLC_REMOTE_F_REVOKED + HTLC_LOCAL_F_COMMITTED + HTLC_LOCAL_F_WAS_COMMITTED
      + HTLC_REMOTE_F_WAS_COMMITTED
  | SENT_ADD_ACK_REVOCATION => HTLC_LOCAL_F_OWNER + HTLC_REMOTE_F_COMMITTED
      + HTLC_REMOTE_F_REVOKED + HTLC_LOCAL_F_COMMITTED + HTLC_LOCAL_F_REVOKED
      + HTLC_LOCAL_F_WAS_COMMITTED + HTLC_REMOTE_F_WAS_COMMITTED
  | RCVD_REMOVE_HTLC => HTLC_REMOVING + HTLC_LOCAL_F_OWNER + HTLC_LOCAL_F_PENDING
      + HTLC_LOCAL_F_COMMITTED + HTLC_REMOTE_F_COMMITTED + HTLC_LOCAL_F_WAS_COMMITTED
      + HTLC_REMOTE_F_WAS_COMMITTED
  | RCVD_REMOVE_COMMIT => HTLC_REMOVING + HTLC_LOCAL_F_OWNER + HTLC_REMOTE_F_COMMITTED
      + HTLC_LOCAL_F_WAS_COMMITTED + HTLC_REMOTE_F_WAS_COMMITTED
  | SENT_REMOVE_REVOCATION => HTLC_REMOVING + HTLC_LOCAL_F_OWNER + HTLC_REMOTE_F_COMMITTED
      + HTLC_LOCAL_F_REVOKED + HTLC_REMOTE_F_PENDING + HTLC_LOCAL_F_WAS_COMMITTED
      + HTLC_REMOTE_F_WAS_COMMITTED
  | SENT_REMOVE_ACK_COMMIT => HTLC_REMOVING + HTLC_LOCAL_F_OWNER + HTLC_LOCAL_F_REVOKED
      + HTLC_LOCAL_F_WAS_COMMITTED + HTLC_REMOTE_F_WAS_COMMITTED
  | RCVD_REMOVE_ACK_REVOCATION => HTLC_LOCAL_F_OWNER + HTLC_LOCAL_F_REVOKED
      + HTLC_REMOTE_F_REVOKED + HTLC_LOCAL_F_WAS_COMMITTED + HTLC_REMOTE_F_WAS_COMMITTED
  | RCVD_ADD_HTLC => HTLC_ADDING + HTLC_REMOTE_F_OWNER + HTLC_LOCAL_F_PENDING
  | RCVD_ADD_COMMIT => HTLC_ADDING + HTLC_REMOTE_F_OWNER + HTLC_LOCAL_F_COMMITTED
      + HTLC_LOCAL_F_WAS_COMMITTED
  | SENT_ADD_REVOCATION => HTLC_ADDING + HTLC_REMOTE_F_OWNER + HTLC_LOCAL_F_COMMITTED
      + HTLC_LOCAL_F_REVOKED + HTLC_REMOTE_F_PENDING + HTLC_LOCAL_F_WAS_COMMITTED
  | SENT_ADD_ACK_COMMIT => HTLC_ADDING + HTLC_REMOTE_F_OWNER + HTLC_LOCAL_F_COMMITTED
      + HTLC_LOCAL_F_REVOKED + HTLC_REMOTE_F_COMMITTED + HTLC_LOCAL_F_WAS_COMMITTED
      + HTLC_REMOTE_F_WAS_COMMITTED
  | RCVD_ADD_ACK_REVOCATION => HTLC_REMOTE_F_OWNER + HTLC_LOCAL_F_COMMITTED
      + HTLC_LOCAL_F_REVOKED + HTLC_REMOTE_F_COMMITTED + HTLC_REMOTE_F_REVOKED
      + HTLC_LOCAL_F_WAS_COMMITTED + HTLC_REMOTE_F_WAS_COMMITTED
  | SENT_REMOVE_HTLC => HTLC_REMOVING + HTLC_REMOTE_F_OWNER + HTLC_REMOTE_F_PENDING
      + HTLC_LOCAL_F_COMMITTED + HTLC_REMOTE_F_COMMITTED + HTLC_LOCAL_F_WAS_COMMITTED
      + HTLC_REMOTE_F_WAS_COMMITTED
  | SENT_REMOVE_COMMIT => HTLC_REMOVING + HTLC_REMOTE_F_OWNER + HTLC_LOCAL_F_COMMITTED
      + HTLC_LOCAL_F_WAS_COMMITTED + HTLC_REMOTE_F_WAS_COMMITTED
  | RCVD_REMOVE_REVOCATION => HTLC_REMOVING + HTLC_REMOTE_F_OWNER + HTLC_LOCAL_F_COMMITTED
      + HTLC_REMOTE_F_REVOKED + HTLC_LOCAL_F_PENDING + HTLC_LOCAL_F_WAS_COMMITTED
      + HTLC_REMOTE_F_WAS_COMMITTED
  | RCVD_REMOVE_ACK_COMMIT => HTLC_REMOVING + HTLC_REMOTE_F_OWNER + HTLC_REMOTE_F_REVOKED
      + HTLC_LOCAL_F_WAS_COMMITTED + HTLC_REMOTE_F_WAS_COMMITTED
  | SENT_REMOVE_ACK_REVOCATION => HTLC_REMOTE_F_OWNER + HTLC_REMOTE_F_REVOKED
      + HTLC_LOCAL_F_REVOKED + HTLC_LOCAL_F_WAS_COMMITTED + HTLC_REMOTE_F_WAS_COMMITTED
  end.

(** [flags & mask] as a condition. *)
Definition has_flag (flags mask : Z) : bool := negb (Z.land flags mask =? 0).

(** The two assertions of the C function hold of every state
    ([htlc_state_asserts_hold]), so it is total. *)
Definition htlc_state_flags (s : htlc_state) : Z := per_state_bits s.

(** Likewise for the assertion of either branch. *)
Definition htlc_state_owner (s : htlc_state) : side :=
  if htlc_state_ltb s RCVD_ADD_HTLC then LOCAL else REMOTE.

(** ** The rule behind the table

    [Adding n] and [Removing n] are the five stages of adding, respectively
    removing, an HTLC: proposed, committed, revoked (hence proposed to the second
    side), committed there, revoked there. *)
Module Spec.
Inductive phase := Adding (n : nat) | Removing (n : nat).

Definition if_flag (b : bool) (f : Z) : Z := if b then f else 0.

(** The flags of a side that reaches its own commit at stage [c] (and whose
    commitment contains the HTLC before it iff [before], after it iff [after]). *)
Definition side_flags (c n : nat) (before after : bool) : Z :=
  if_flag (Nat.eqb (S n) c) HTLC_F_PENDING
  + if_flag (if (n <? c)%nat then before else after) HTLC_F_COMMITTED
  + if_flag (S c <=? n)%nat HTLC_F_REVOKED
  + if_flag (before || (c <=? n)%nat) HTLC_F_WAS_COMMITTED.

Definition flags (owner : side) (p : phase) : Z :=
  HTLC_FLAG owner HTLC_F_OWNER +
  match p with
  | Adding n =>
      if_flag (n <? 4)%nat HTLC_ADDING
      + HTLC_FLAG (other owner) (side_flags 1 n false true)
      + HTLC_FLAG owner (side_flags 3 n false true)
  | Removing n =>
      if_flag (n <? 4)%nat HTLC_REMOVING
      + HTLC_FLAG owner (side_flags 1 n true false)
      + HTLC_FLAG (other owner) (side_flags 3 n true false)
  end.

(** Where each state stands. *)
Definition phase_of (s : htlc_state) : phase :=
  let n := (htlc_state_num s mod 10)%nat in
  if (n <? 5)%nat then Adding n else Removing (n - 5).
End Spec.

(** A property of all states that computes is checked on the twenty of them. *)
Ltac each_state := intros s; destruct s; vm_compute; try done.

(** The flag table (htlc_state.c) is exactly the propose / commit / revoke rule:
    for every state the bits are those of its owner and stage, so an HTLC is added
    to the recipient's commitment before the offerer's and removed in the opposite
    order. *)
Theorem per_state_bits_spec : forall s,
  htlc_state_flags s = Spec.flags (htlc_state_owner s) (Spec.phase_of s).
Proof. each_state. Qed.

(** The assertions of [htlc_state_flags] and [htlc_state_owner]. *)
Lemma htlc_state_asserts_hold : forall s,
  (htlc_state_num s < length all_htlc_states)%nat /\
  (htlc_state_of (htlc_state_num s) = Some s) /\
  (htlc_state_flags s <> 0) /\
  (Z.land (htlc_state_flags s) (Z.lor HTLC_REMOTE_F_OWNER HTLC_LOCAL_F_OWNER)
    = HTLC_FLAG (htlc_state_owner s) HTLC_F_OWNER).
Proof. each_state; repeat split; try done; lia. Qed.
