(* ===== verification/HashSpec.v ===== *)
(** * The hash functions, as their standards define them

    SHA-1 and SHA-256 (FIPS 180-4) and RIPEMD-160 (Dobbertin, Bosselaers, Preneel): one
    step of the compression function, its loop over the message schedule, the padding
    and the chaining of blocks. The unrolled implementations of the sources are
    shown equal to these in [Sha256], [Ripemd160] and [CoreHash]. *)
From S2P Require Import Prelude.
Local Open Scope Z_scope.

(** An assignment to a variable of unrolled code. *)
Definition assign {A} (v : Z) (k : Z -> A) : A := k v.
Notation "x <== v ; k" := (assign v (fun x => k))
  (at level 10, v at level 100, k at level 200, only parsing) : Z_scope.

(** ** Words of 32 bits *)
Definition ROTL (n x : Z) : Z := Z.lor (u32 (Z.shiftl x n)) (Z.shiftr x (32 - n)).
Definition ROTR (n x : Z) : Z := Z.lor (Z.shiftr x n) (u32 (Z.shiftl x (32 - n))).
Definition SHR (n x : Z) : Z := Z.shiftr x n.

(** The words of a block. *)
Definition be32_at (block : bytes) (i : nat) : Z := be_val (take 4 (drop (4 * i) block)).
Definition le32_at (block : bytes) (i : nat) : Z := le_val (take 4 (drop (4 * i) block)).

(** A message schedule: sixteen words of the block, then a recurrence over the last sixteen. *)
Section Schedule.
Context (next : (nat -> Z) -> nat -> Z) (words : nat -> Z).

Definition word (w : list Z) (t : nat) : Z := nth t w 0.
Definition extend (w : list Z) : list Z := w ++ [next (word w) (length w)].
Definition schedule (rounds : nat) : list Z :=
  Nat.iter (rounds - 16) extend (words <$> seq 0 16).

Lemma length_schedule k : length (Nat.iter k extend (words <$> seq 0 16)) = (16 + k)%nat.
Proof using.
  induction k as [|k IH]; [done|]. rewrite Nat.iter_succ. unfold extend at 1.
  rewrite length_app, IH. simpl. lia.
Qed.

Lemma word_app w w' t : (t < length w)%nat -> word (w ++ w') t = word w t.
Proof using. intros. unfold word. by rewrite app_nth1. Qed.

Lemma word_iter k n t : (t < 16 + k)%nat ->
  word (Nat.iter (n + k) extend (words <$> seq 0 16)) t
  = word (Nat.iter k extend (words <$> seq 0 16)) t.
Proof using.
  intros Ht. induction n as [|n IH]; [done|]. rewrite Nat.add_succ_l, Nat.iter_succ. unfold extend at 1.
  rewrite word_app; [done|]. rewrite length_schedule. lia.
Qed.

Lemma word_init rounds t : (t < 16)%nat -> word (schedule rounds) t = words t.
Proof using.
  intros Ht. unfold schedule. rewrite <- (Nat.add_0_r (rounds - 16)), word_iter by lia.
  unfold word. simpl. do 16 (destruct t as [|t]; [done|]). lia.
Qed.

(** The recurrence may look at the words before. *)
Hypothesis next_ext : forall w w' t, (16 <= t)%nat ->
  (forall i, (i < t)%nat -> w i = w' i) -> next w t = next w' t.

Lemma word_step rounds t : (16 <= t < rounds)%nat ->
  word (schedule rounds) t = next (word (schedule rounds)) t.
Proof using next_ext.
  intros Ht. unfold schedule. set (k := (t - 16)%nat).
  replace (rounds - 16)%nat with ((rounds - 17 - k) + S k)%nat by lia.
  rewrite word_iter, Nat.iter_succ by lia.
  unfold extend at 1, word at 1. rewrite app_nth2; rewrite length_schedule; [|lia].
  replace (t - (16 + k))%nat with 0%nat by lia. replace (16 + k)%nat with t by lia. simpl nth.
  apply next_ext; [lia|]. intros i Hi.
  replace (rounds - 17 - k + S k)%nat with ((rounds - 17 - k + 1) + k)%nat by lia.
  rewrite word_iter by lia. done.
Qed.
End Schedule.

(** The padding of a message of [n] bytes: a one bit, zeros, the number of bits. *)
Definition padding (size : Z -> bytes) (n : nat) : bytes :=
  0x80 :: replicate ((119 - n mod 64) mod 64) 0 ++ size (u64 (8 * Z.of_nat n)).

(** Blocks are chained from the first one on. *)
Fixpoint chain {St} (compress : St -> bytes -> St) (blocks : nat) (s : St) (m : bytes) : St :=
  match blocks with
  | O => s
  | S n => chain compress n (compress s (take 64 m)) (drop 64 m)
  end.

Module SHA256.
Definition Ch (x y z : Z) : Z := Z.lxor (Z.land x y) (Z.land (Z.lnot x) z).
Definition Maj (x y z : Z) : Z := Z.lxor (Z.lxor (Z.land x y) (Z.land x z)) (Z.land y z).
Definition Sigma0 (x : Z) : Z := Z.lxor (Z.lxor (ROTR 2 x) (ROTR 13 x)) (ROTR 22 x).
Definition Sigma1 (x : Z) : Z := Z.lxor (Z.lxor (ROTR 6 x) (ROTR 11 x)) (ROTR 25 x).
Definition sigma0 (x : Z) : Z := Z.lxor (Z.lxor (ROTR 7 x) (ROTR 18 x)) (SHR 3 x).
Definition sigma1 (x : Z) : Z := Z.lxor (Z.lxor (ROTR 17 x) (ROTR 19 x)) (SHR 10 x).

Definition primes : list Z :=
  [2; 3; 5; 7; 11; 13; 17; 19; 23; 29; 31; 37; 41; 43; 47; 53;
   59; 61; 67; 71; 73; 79; 83; 89; 97; 101; 103; 107; 109; 113; 127; 131;
   137; 139; 149; 151; 157; 163; 167; 173; 179; 181; 191; 193; 197; 199; 211; 223;
   227; 229; 233; 239; 241; 251; 257; 263; 269; 271; 277; 281; 283; 293; 307; 311].

(** The integral [n]-th root of [x], bit by bit from the top. *)
Fixpoint iroot (bits : nat) (n x r : Z) : Z :=
  match bits with
  | O => r
  | S b => let r' := r + 2 ^ Z.of_nat b in iroot b n x (if r' ^ n <=? x then r' else r)
  end.

(** The constants are the first 32 bits of the fractional parts of the cube roots of the
    first 64 primes. *)
Definition K : list Z :=
  Eval vm_compute in (fun p => iroot 36 3 (p * 2 ^ 96) 0 mod 2 ^ 32) <$> primes.

Definition state : Type := Z * Z * Z * Z * Z * Z * Z * Z.

Definition H0 : state :=
  (0x6a09e667, 0xbb67ae85, 0x3c6ef372, 0xa54ff53a, 0x510e527f, 0x9b05688c, 0x1f83d9ab, 0x5be0cd19).

Definition next (w : nat -> Z) (t : nat) : Z :=
  u32 (sigma1 (w (t - 2)%nat) + w (t - 7)%nat + sigma0 (w (t - 15)%nat) + w (t - 16)%nat).

Definition round (w : nat -> Z) (s : state) (t : nat) : state :=
  let '(a, b, c, d, e, f, g, h) := s in
  let T1 := h + Sigma1 e + Ch e f g + nth t K 0 + w t in
  let T2 := Sigma0 a + Maj a b c in
  (u32 (T1 + T2), a, b, c, u32 (d + T1), e, f, g).

Definition plus (s s' : state) : state :=
  let '(a, b, c, d, e, f, g, h) := s in
  let '(a', b', c', d', e', f', g', h') := s' in
  (u32 (a + a'), u32 (b + b'), u32 (c + c'), u32 (d + d'),
   u32 (e + e'), u32 (f + f'), u32 (g + g'), u32 (h + h')).

Definition compress (s : state) (block : bytes) : state :=
  plus s (foldl (round (word (schedule next (be32_at block) 64))) s (seq 0 64)).

Definition digest (s : state) : bytes :=
  let '(a, b, c, d, e, f, g, h) := s in
  be_bytes 4 a ++ be_bytes 4 b ++ be_bytes 4 c ++ be_bytes 4 d ++
  be_bytes 4 e ++ be_bytes 4 f ++ be_bytes 4 g ++ be_bytes 4 h.

Definition hash (m : bytes) : bytes :=
  let m := m ++ padding (be_bytes 8) (length m) in
  digest (chain compress (length m / 64) H0 m).

Lemma word_expanded block t : (16 <= t < 64)%nat ->
  let w := word (schedule next (be32_at block) 64) in w t = next w t.
Proof.
  intros Ht w. apply word_step; [|done]. intros w1 w2 i Hi Hw. unfold next.
  by rewrite !Hw by lia.
Qed.

(** The constants are the fractional parts of the cube roots of the first 64 primes, the
    initial state those of the square roots of the first 8. *)
Definition is_root (n p k : Z) : bool :=
  existsb (fun i => let r := i * 2 ^ 32 + k in
    (r ^ n <=? p * 2 ^ (32 * n)) && (p * 2 ^ (32 * n) <? (r + 1) ^ n)) (Z.of_nat <$> seq 0 18).

Lemma K_roots : forallb (fun '(p, k) => is_root 3 p k) (combine primes K) = true.
Proof. vm_compute. reflexivity. Qed.

Lemma H0_roots : let '(a, b, c, d, e, f, g, h) := H0 in
  forallb (fun '(p, k) => is_root 2 p k) (combine (take 8 primes) [a; b; c; d; e; f; g; h]) = true.
Proof. vm_compute. reflexivity. Qed.
End SHA256.

Module RIPEMD160.
Definition NOT (x : Z) : Z := Z.lxor x 0xFFFFFFFF.

Definition f (round : nat) (x y z : Z) : Z :=
  match round with
  | 0 => Z.lxor (Z.lxor x y) z
  | 1 => Z.lor (Z.land x y) (Z.land (NOT x) z)
  | 2 => Z.lxor (Z.lor x (NOT y)) z
  | 3 => Z.lor (Z.land x z) (Z.land y (NOT z))
  | _ => Z.lxor x (Z.lor y (NOT z))
  end%nat.

(** The two lines: their constants, message words and rotations. *)
Definition K : list Z := [0; 0x5A827999; 0x6ED9EBA1; 0x8F1BBCDC; 0xA953FD4E].
Definition K' : list Z := [0x50A28BE6; 0x5C4DD124; 0x6D703EF3; 0x7A6D76E9; 0].
Definition r : list nat :=
  [0; 1; 2; 3; 4; 5; 6; 7; 8; 9; 10; 11; 12; 13; 14; 15;
   7; 4; 13; 1; 10; 6; 15; 3; 12; 0; 9; 5; 2; 14; 11; 8;
   3; 10; 14; 4; 9; 15; 8; 1; 2; 7; 0; 6; 13; 11; 5; 12;
   1; 9; 11; 10; 0; 8; 12; 4; 13; 3; 7; 15; 14; 5; 6; 2;
   4; 0; 5; 9; 7; 12; 2; 10; 14; 1; 3; 8; 11; 6; 15; 13]%nat.
Definition r' : list nat :=
  [5; 14; 7; 0; 9; 2; 11; 4; 13; 6; 15; 8; 1; 10; 3; 12;
   6; 11; 3; 7; 0; 13; 5; 10; 14; 15; 8; 12; 4; 9; 1; 2;
   15; 5; 1; 3; 7; 14; 6; 9; 11; 8; 12; 2; 10; 0; 4; 13;
   8; 6; 4; 1; 3; 11; 15; 0; 5; 12; 2; 13; 9; 7; 10; 14;
   12; 15; 10; 4; 1; 5; 8; 7; 6; 2; 13; 14; 0; 3; 9; 11]%nat.
Definition s : list Z :=
  [11; 14; 15; 12; 5; 8; 7; 9; 11; 13; 14; 15; 6; 7; 9; 8;
   7; 6; 8; 13; 11; 9; 7; 15; 7; 12; 15; 9; 11; 7; 13; 12;
   11; 13; 6; 7; 14; 9; 13; 15; 14; 8; 13; 6; 5; 12; 7; 5;
   11; 12; 14; 15; 14; 15; 9; 8; 9; 14; 5; 6; 8; 6; 5; 12;
   9; 15; 5; 11; 6; 8; 13; 12; 5; 12; 13; 14; 11; 8; 5; 6].
Definition s' : list Z :=
  [8; 9; 9; 11; 13; 15; 15; 5; 7; 7; 8; 11; 14; 14; 12; 6;
   9; 13; 15; 7; 12; 8; 9; 11; 7; 7; 12; 7; 6; 15; 13; 11;
   9; 7; 15; 11; 8; 6; 6; 14; 12; 13; 5; 14; 13; 13; 7; 5;
   15; 5; 8; 11; 14; 14; 6; 14; 6; 9; 12; 9; 12; 5; 15; 8;
   8; 5; 12; 9; 12; 5; 14; 6; 8; 13; 6; 5; 15; 13; 11; 11].

Definition state : Type := Z * Z * Z * Z * Z.
Definition H0 : state := (0x67452301, 0xEFCDAB89, 0x98BADCFE, 0x10325476, 0xC3D2E1F0).

Definition step (fj : Z -> Z -> Z -> Z) (x k n : Z) (st : state) : state :=
  let '(A, B, C, D, E) := st in
  (E, u32 (ROTL n (u32 (A + fj B C D + x + k)) + E), B, ROTL 10 C, D).

Definition left (X : nat -> Z) (st : state) (j : nat) : state :=
  step (f (j / 16)) (X (nth j r 0%nat)) (nth (j / 16) K 0) (nth j s 0) st.
Definition right (X : nat -> Z) (st : state) (j : nat) : state :=
  step (f (4 - j / 16)) (X (nth j r' 0%nat)) (nth (j / 16) K' 0) (nth j s' 0) st.

Definition combine (h l l' : state) : state :=
  let '(h0, h1, h2, h3, h4) := h in
  let '(A, B, C, D, E) := l in
  let '(A', B', C', D', E') := l' in
  (u32 (h1 + C + D'), u32 (h2 + D + E'), u32 (h3 + E + A'), u32 (h4 + A + B'), u32 (h0 + B + C')).

Definition compress (h : state) (block : bytes) : state :=
  combine h (foldl (left (le32_at block)) h (seq 0 80)) (foldl (right (le32_at block)) h (seq 0 80)).

Definition digest (st : state) : bytes :=
  let '(a, b, c, d, e) := st in
  le_bytes 4 a ++ le_bytes 4 b ++ le_bytes 4 c ++ le_bytes 4 d ++ le_bytes 4 e.

Definition hash (m : bytes) : bytes :=
  let m := m ++ padding (le_bytes 8) (length m) in
  digest (chain compress (length m / 64) H0 m).
End RIPEMD160.

Module SHA1.
Definition f (t : nat) (x y z : Z) : Z :=
  match (t / 20)%nat with
  | 0%nat => Z.lxor (Z.land x y) (Z.land (Z.lnot x) z)
  | 2%nat => Z.lxor (Z.lxor (Z.land x y) (Z.land x z)) (Z.land y z)
  | _ => Z.lxor (Z.lxor x y) z
  end.

Definition K : list Z := [0x5A827999; 0x6ED9EBA1; 0x8F1BBCDC; 0xCA62C1D6].

Definition state : Type := Z * Z * Z * Z * Z.
Definition H0 : state := (0x67452301, 0xEFCDAB89, 0x98BADCFE, 0x10325476, 0xC3D2E1F0).

Definition next (w : nat -> Z) (t : nat) : Z :=
  ROTL 1 (Z.lxor (Z.lxor (Z.lxor (w (t - 3)%nat) (w (t - 8)%nat)) (w (t - 14)%nat)) (w (t - 16)%nat)).

Definition round (w : nat -> Z) (st : state) (t : nat) : state :=
  let '(a, b, c, d, e) := st in
  (u32 (ROTL 5 a + f t b c d + e + nth (t / 20) K 0 + w t), a, ROTL 30 b, c, d).

Definition plus (st st' : state) : state :=
  let '(a, b, c, d, e) := st in
  let '(a', b', c', d', e') := st' in
  (u32 (a + a'), u32 (b + b'), u32 (c + c'), u32 (d + d'), u32 (e + e')).

Definition compress (st : state) (block : bytes) : state :=
  plus st (foldl (round (word (schedule next (be32_at block) 80))) st (seq 0 80)).

Definition digest (st : state) : bytes :=
  let '(a, b, c, d, e) := st in
  be_bytes 4 a ++ be_bytes 4 b ++ be_bytes 4 c ++ be_bytes 4 d ++ be_bytes 4 e.

Definition hash (m : bytes) : bytes :=
  let m := m ++ padding (be_bytes 8) (length m) in
  digest (chain compress (length m / 64) H0 m).

Lemma word_expanded80 block t : (16 <= t < 80)%nat ->
  let w := word (schedule next (be32_at block) 80) in w t = next w t.
Proof.
  intros Ht w. apply word_step; [|done]. intros w1 w2 i Hi Hw. unfold next.
  by rewrite !Hw by lia.
Qed.
End SHA1.
