(* ===== verification/BlockHash.v ===== *)
(** * Incremental block hashing

    The buffering shared by ccan's SHA-256 and RIPEMD-160
    (src/lightning/ccan/ccan/crypto/{sha256,ripemd160}): a context holds the chaining
    state, a 64-byte buffer and the number of bytes seen. The section is generic in
    the compression function; [repr] relates a context to the message it has
    absorbed and [add_repr] shows that how a message is cut into updates is not
    observable. *)
From S2P Require Import Prelude HashSpec.
Local Open Scope Z_scope.

Section BlockHash.
Context {St : Type} (Transform : St -> bytes -> St).

Record ctx := Ctx { ctx_s : St; ctx_buf : bytes; ctx_bytes : Z }.

(** [memcpy(buf + off, data, length data)] inside the 64-byte buffer. *)
Definition memcpy_at (buf : bytes) (off : nat) (data : bytes) : bytes :=
  take off buf ++ data ++ drop (off + length data) buf.

(** The loop over whole chunks; [fuel] bounds the number of iterations. *)
Fixpoint add_chunks (fuel : nat) (c : ctx) (data : bytes) : ctx * bytes :=
  match fuel with
  | O => (c, data)
  | S fuel =>
      if (64 <=? length data)%nat
      then add_chunks fuel
             (Ctx (Transform (ctx_s c) (take 64 data)) (ctx_buf c) (u64 (ctx_bytes c + 64)))
             (drop 64 data)
      else (c, data)
  end.

Definition add (c : ctx) (data : bytes) : ctx :=
  let bufsize := Z.to_nat (ctx_bytes c mod 64) in
  let '(c, data, bufsize) :=
    if (64 <=? bufsize + length data)%nat then
      let n := (64 - bufsize)%nat in
      let buf := memcpy_at (ctx_buf c) bufsize (take n data) in
      (Ctx (Transform (ctx_s c) buf) buf (u64 (ctx_bytes c + Z.of_nat n)), drop n data, O)
    else (c, data, bufsize) in
  let '(c, data) := add_chunks (length data) c data in
  if (0 <? length data)%nat then
    Ctx (ctx_s c) (memcpy_at (ctx_buf c) bufsize data)
        (u64 (ctx_bytes c + Z.of_nat (length data)))
  else c.

(** ** What a context means *)

(** Compress every whole block of a message; returns the state and the remainder. *)
Fixpoint absorb_fuel (fuel : nat) (s : St) (m : bytes) : St * bytes :=
  match fuel with
  | O => (s, m)
  | S fuel =>
      if (64 <=? length m)%nat
      then absorb_fuel fuel (Transform s (take 64 m)) (drop 64 m)
      else (s, m)
  end.
Definition absorb (s : St) (m : bytes) : St * bytes := absorb_fuel (length m) s m.

(** The context [c] has absorbed the message [m] from the state [s0]. *)
Definition repr (s0 : St) (c : ctx) (m : bytes) : Prop :=
  let '(s, tail) := absorb s0 m in
  ctx_s c = s /\ take (length tail) (ctx_buf c) = tail /\ length (ctx_buf c) = 64%nat /\
  ctx_bytes c = u64 (Z.of_nat (length m)).

Lemma absorb_fuel_S k s m :
  absorb_fuel (S k) s m =
    if (64 <=? length m)%nat then absorb_fuel k (Transform s (take 64 m)) (drop 64 m) else (s, m).
Proof. reflexivity. Qed.

Lemma absorb_fuel_enough n k s m :
  (length m < 64 * S n)%nat -> (n <= k)%nat ->
  absorb_fuel k s m = absorb_fuel n s m.
Proof.
  revert k s m. induction n as [|n IH]; intros k s m Hm Hk.
  - destruct k; cbn [absorb_fuel]; [done|]. case_match eqn:E; [|done].
    apply Nat.leb_le in E. lia.
  - destruct k as [|k]; [lia|]. cbn [absorb_fuel]. case_match eqn:E; [|done].
    apply Nat.leb_le in E. apply IH; [rewrite length_drop|]; lia.
Qed.

Lemma absorb_small s m : (length m < 64)%nat -> absorb s m = (s, m).
Proof. intros. unfold absorb. rewrite (absorb_fuel_enough 0) by lia. done. Qed.

Lemma absorb_block s b m :
  length b = 64%nat -> absorb s (b ++ m) = absorb (Transform s b) m.
Proof.
  intros Hb. unfold absorb. rewrite length_app, Hb.
  change (64 + length m)%nat with (S (63 + length m)). rewrite absorb_fuel_S.
  rewrite length_app, Hb, take_app_length', drop_app_length' by done.
  replace (64 <=? 64 + length m)%nat with true by (symmetry; apply Nat.leb_le; lia).
  apply absorb_fuel_enough; lia.
Qed.

Lemma absorb_step s m :
  (64 <= length m)%nat -> absorb s m = absorb (Transform s (take 64 m)) (drop 64 m).
Proof.
  intros. rewrite <- absorb_block, take_drop; [done|]. rewrite length_take. lia.
Qed.

(** Every message is a run of whole blocks followed by a short tail. *)
Lemma blocks_ind (P : bytes -> Prop) :
  (forall m, (length m < 64)%nat -> P m) ->
  (forall b m, length b = 64%nat -> P m -> P (b ++ m)) ->
  forall m, P m.
Proof.
  intros Hs Hb m. remember (length m) as n eqn:E. revert m E.
  induction n as [n IH] using lt_wf_ind. intros m ->.
  destruct (decide (length m < 64)%nat); [by apply Hs|].
  rewrite <- (take_drop 64 m). apply Hb; [rewrite length_take; lia|].
  eapply IH; [|done]. rewrite length_drop. lia.
Qed.

Lemma absorb_app s m d :
  absorb s (m ++ d) = absorb (fst (absorb s m)) (snd (absorb s m) ++ d).
Proof.
  revert s. induction m as [m Hm|b m Hb IH] using blocks_ind; intros s.
  - by rewrite (absorb_small s m) by done.
  - rewrite <- app_assoc, (absorb_block s b), (absorb_block s b m) by done. apply IH.
Qed.

Lemma absorb_tail_mod s m :
  (length (snd (absorb s m)) = length m mod 64)%nat.
Proof.
  revert s. induction m as [m Hm|b m Hb IH] using blocks_ind; intros s.
  - rewrite absorb_small, Nat.mod_small by done. done.
  - rewrite absorb_block, IH, length_app, Hb by done.
    replace (64 + length m)%nat with (length m + 1 * 64)%nat by lia.
    by rewrite Nat.Div0.mod_add.
Qed.

Lemma absorb_tail_lt s m : (length (snd (absorb s m)) < 64)%nat.
Proof. rewrite absorb_tail_mod. apply Nat.mod_upper_bound. lia. Qed.

Lemma absorb_fst_tail_shift s m d :
  (length (snd (absorb s m)) + length d < 64)%nat ->
  absorb s (m ++ d) = (fst (absorb s m), snd (absorb s m) ++ d).
Proof. intros. rewrite absorb_app, absorb_small; [done|]. rewrite length_app. lia. Qed.

Lemma add_chunks_absorb fuel c data :
  (length data <= fuel)%nat ->
  add_chunks fuel c data =
    (Ctx (fst (absorb (ctx_s c) data)) (ctx_buf c)
       (if (64 <=? length data)%nat
        then u64 (ctx_bytes c + Z.of_nat (length data) - Z.of_nat (length (snd (absorb (ctx_s c) data))))
        else ctx_bytes c),
     snd (absorb (ctx_s c) data)).
Proof.
  revert c data. induction fuel as [|fuel IH]; intros c data Hf.
  { destruct data; [|simpl in *; lia]. rewrite absorb_small by (simpl; lia). by destruct c. }
  cbn [add_chunks]. case_match eqn:E; [apply Nat.leb_le in E|apply Nat.leb_gt in E].
  - rewrite IH by (rewrite length_drop; lia). cbn [ctx_s ctx_buf ctx_bytes].
    rewrite (absorb_step (ctx_s c) data) by done.
    f_equal. f_equal. rewrite length_drop. case_match eqn:E2.
    + rewrite <- Z.add_sub_assoc, u64_add_l. f_equal. lia.
    + apply Nat.leb_gt in E2. rewrite absorb_small by (rewrite length_drop; lia). simpl.
      rewrite length_drop. f_equal. lia.
  - rewrite absorb_small by lia. by destruct c.
Qed.

Lemma length_memcpy_at buf off data :
  (off + length data <= length buf)%nat -> length (memcpy_at buf off data) = length buf.
Proof.
  intros. unfold memcpy_at. rewrite !length_app, length_take, length_drop. lia.
Qed.

Lemma take_memcpy_at buf off data :
  (off <= length buf)%nat ->
  take (off + length data) (memcpy_at buf off data) = take off buf ++ data.
Proof.
  intros. unfold memcpy_at. rewrite app_assoc. apply take_app_length'.
  rewrite length_app, length_take. lia.
Qed.

(** The final copy of the bytes that do not fill a block. *)
Lemma add_rest_repr s buf n rest :
  length buf = 64%nat -> (length rest < 64)%nat ->
  let c := Ctx s buf n in
  let c' := if (0 <? length rest)%nat
            then Ctx s (memcpy_at buf 0 rest) (u64 (n + Z.of_nat (length rest))) else c in
  ctx_s c' = s /\ take (length rest) (ctx_buf c') = rest /\ length (ctx_buf c') = 64%nat /\
  (fits 64 n -> ctx_bytes c' = u64 (n + Z.of_nat (length rest))).
Proof.
  intros Hb Hr. cbv zeta. case_match eqn:E; [apply Nat.ltb_lt in E|apply Nat.ltb_ge in E]; cbn [ctx_s ctx_buf ctx_bytes].
  - split; [done|]. split; [|split; [|done]].
    + rewrite <- (Nat.add_0_l (length rest)) at 1. rewrite take_memcpy_at by lia. done.
    + rewrite length_memcpy_at; lia.
  - destruct rest; [|simpl in *; lia]. repeat split; [done|]. intros.
    cbn [length Z.of_nat]. rewrite Z.add_0_r, u64_small; done.
Qed.

(** Absorbing is incremental: a context that has seen [m] and is given [d] has seen
    [m ++ d]. *)
Theorem add_repr s0 c m d : repr s0 c m -> repr s0 (add c d) (m ++ d).
Proof.
  unfold repr. rewrite absorb_app. pose proof (absorb_tail_lt s0 m) as Ht.
  pose proof (absorb_tail_mod s0 m) as Hmod.
  destruct (absorb s0 m) as [s t]. cbn [fst snd] in *. intros (Hs & Htake & Hlen & Hbytes).
  assert (Z.to_nat (ctx_bytes c mod 64) = length t) as Hbuf.
  { rewrite Hbytes, Hmod. apply Nat2Z.inj. rewrite Nat2Z.inj_mod.
    rewrite Z2Nat.id by (apply Z.mod_pos_bound; lia). width_lia. }
  assert (Hts : take (length t) (ctx_buf c) ++ d = t ++ d) by by rewrite Htake.
  unfold add. rewrite Hbuf.
  destruct (64 <=? length t + length d)%nat eqn:E;
    [apply Nat.leb_le in E|apply Nat.leb_gt in E].
  - set (n := (64 - length t)%nat).
    assert (memcpy_at (ctx_buf c) (length t) (take n d) = t ++ take n d) as ->.
    { unfold memcpy_at. rewrite Htake, length_take, drop_ge, app_nil_r by lia. done. }
    assert (length (t ++ take n d) = 64%nat) as Hblk.
    { rewrite length_app, length_take. lia. }
    assert (t ++ d = (t ++ take n d) ++ drop n d) as ->.
    { by rewrite <- app_assoc, take_drop. }
    rewrite absorb_block by done. rewrite add_chunks_absorb by done. cbn [ctx_s ctx_buf ctx_bytes].
    rewrite Hs. pose proof (absorb_tail_lt (Transform s (t ++ take n d)) (drop n d)) as Hr.
    pose proof (absorb_small (Transform s (t ++ take n d)) (drop n d)) as Hsm.
    destruct (absorb (Transform s (t ++ take n d)) (drop n d)) as [s' r]. cbn [fst snd] in *.
    edestruct (add_rest_repr s' (t ++ take n d)) as (H1 & H2 & H3 & H4);
      [exact Hblk|exact Hr|]. split; [exact H1|]. split; [exact H2|]. split; [exact H3|].
    rewrite H4; [|case_match; apply u64_fits]. rewrite length_app, Hbytes.
    rewrite length_drop in *. case_match eqn:E2.
    + rewrite u64_add_l. rewrite <- Z.add_sub_assoc, <- Z.add_assoc, u64_add_l, <- Z.add_assoc, u64_add_l.
      f_equal. lia.
    + apply Nat.leb_gt in E2. specialize (Hsm E2). simplify_eq. rewrite length_drop.
      rewrite u64_add_l, <- Z.add_assoc, u64_add_l. f_equal. lia.
  - rewrite add_chunks_absorb by done.
    rewrite absorb_small by (rewrite length_app; lia).
    rewrite (absorb_small (ctx_s c) d) by lia. cbn [fst snd ctx_s ctx_buf ctx_bytes].
    destruct (0 <? length d)%nat eqn:E3; [apply Nat.ltb_lt in E3|apply Nat.ltb_ge in E3];
      cbn [ctx_s ctx_buf ctx_bytes].
    + split; [done|]. rewrite !length_app, take_memcpy_at, length_memcpy_at by lia.
      split; [done|]. split; [done|].
      replace (64 <=? length d)%nat with false by (symmetry; apply Nat.leb_gt; lia).
      rewrite Hbytes, u64_add_l. f_equal. lia.
    + destruct d; [|simpl in *; lia]. rewrite !app_nil_r. done.
Qed.

(** A message of whole blocks is chained as the standards say. *)
Lemma absorb_chain n s m : length m = (64 * n)%nat -> absorb s m = (chain Transform n s m, []).
Proof.
  revert s m. induction n as [|n IH]; intros s m Hm.
  - destruct m; [|simpl in Hm; lia]. rewrite absorb_small by (simpl; lia). done.
  - rewrite absorb_step by lia. rewrite IH by (rewrite length_drop; lia). done.
Qed.

Lemma padded_blocks (size : Z -> bytes) m : (forall z, length (size z) = 8%nat) ->
  exists n, length (m ++ padding size (length m)) = (64 * n)%nat.
Proof.
  intros Hs. unfold padding. rewrite length_app. cbn [length]. rewrite length_app, length_replicate, Hs.
  pose proof (Nat.div_mod_eq (length m) 64). pose proof (Nat.mod_upper_bound (length m) 64).
  destruct (decide (length m mod 64 < 56)%nat).
  - exists (length m / 64 + 1)%nat.
    rewrite <- (Nat.mod_unique (119 - length m mod 64) 64 1 (55 - length m mod 64)) by lia. lia.
  - exists (length m / 64 + 2)%nat. rewrite Nat.mod_small by lia. lia.
Qed.

(** The pad of the implementations: its length depends only on the bytes so far. *)
Lemma pad_bytes (n : nat) :
  take (Z.to_nat (1 + (119 - u64 (Z.of_nat n) mod 64) mod 64)) (0x80 :: replicate 63 0)
    = 0x80 :: replicate ((119 - n mod 64) mod 64) 0.
Proof.
  assert (u64 (Z.of_nat n) mod 64 = Z.of_nat (n mod 64)) as ->.
  { rewrite Nat2Z.inj_mod. width_lia. }
  pose proof (Nat.mod_upper_bound n 64). set (k := (n mod 64)%nat) in *.
  assert (Z.to_nat (1 + (119 - Z.of_nat k) mod 64) = S ((119 - k) mod 64)) as ->.
  { replace (119 - Z.of_nat k) with (Z.of_nat (119 - k)) by lia.
    rewrite <- (Nat2Z.inj_mod _ 64). lia. }
  rewrite firstn_cons, take_replicate. f_equal. f_equal.
  pose proof (Nat.mod_upper_bound (119 - k) 64). lia.
Qed.

(** What a context holds when the pad and the size have been added. *)
Lemma finish_repr s0 c m (size : Z -> bytes) :
  (forall z, length (size z) = 8%nat) -> repr s0 c m ->
  let pad := take (Z.to_nat (1 + (119 - ctx_bytes c mod 64) mod 64)) (0x80 :: replicate 63 0) in
  let p := m ++ padding size (length m) in
  ctx_s (add (add c pad) (size (u64 (Z.shiftl (ctx_bytes c) 3))))
  = chain Transform (length p / 64) s0 p.
Proof.
  intros Hs Hc pad p.
  assert (ctx_bytes c = u64 (Z.of_nat (length m))) as Eb.
  { unfold repr in Hc. destruct (absorb _ _). by destruct Hc as (_ & _ & _ & ?). }
  apply (add_repr _ _ _ pad), (add_repr _ _ _ (size (u64 (Z.shiftl (ctx_bytes c) 3)))) in Hc.
  assert ((m ++ pad) ++ size (u64 (Z.shiftl (ctx_bytes c) 3)) = p) as E.
  { unfold p, pad, padding. rewrite Eb, pad_bytes, <- app_assoc.
    rewrite Z.shiftl_mul_pow2 by lia.
    by replace (u64 (u64 (Z.of_nat (length m)) * 2 ^ 3)) with (u64 (8 * Z.of_nat (length m))) by width_lia. }
  rewrite E in Hc. destruct (padded_blocks size m Hs) as [n Hn]. fold p in Hn.
  unfold repr in Hc. rewrite (absorb_chain n) in Hc by done. destruct Hc as [-> _].
  rewrite Hn, Nat.mul_comm, Nat.div_mul by lia. done.
Qed.
End BlockHash.
