(* ===== verification/Sha256.v ===== *)
(** * SHA-256

    src/lightning/ccan/ccan/crypto/sha256/sha256.c (the non-OpenSSL build): the
    compression function as unrolled in the C code, the context operations on top of
    [BlockHash], and [sha256] itself. [sha256_of_parts] shows that the context
    operations hash the concatenation of what they were given, padded as FIPS 180-4
    says. *)
From S2P Require Import Prelude HashSpec BlockHash.
Local Open Scope Z_scope.

Notation "x ^^ y" := (Z.lxor x y) (at level 50, left associativity) : Z_scope.

(** 32-bit shifts to the left drop the high bits; to the right they bring in zeros. *)
Definition shl32 (x n : Z) : Z := u32 (Z.shiftl x n).
Definition shr32 (x n : Z) : Z := Z.shiftr x n.

Definition Ch (x y z : Z) : Z := z ^^ Z.land x (y ^^ z).
Definition Maj (x y z : Z) : Z := Z.lor (Z.land x y) (Z.land z (Z.lor x y)).
Definition Sigma0 (x : Z) : Z :=
  Z.lor (shr32 x 2) (shl32 x 30) ^^ Z.lor (shr32 x 13) (shl32 x 19)
  ^^ Z.lor (shr32 x 22) (shl32 x 10).
Definition Sigma1 (x : Z) : Z :=
  Z.lor (shr32 x 6) (shl32 x 26) ^^ Z.lor (shr32 x 11) (shl32 x 21)
  ^^ Z.lor (shr32 x 25) (shl32 x 7).
Definition sigma0 (x : Z) : Z :=
  Z.lor (shr32 x 7) (shl32 x 25) ^^ Z.lor (shr32 x 18) (shl32 x 14) ^^ shr32 x 3.
Definition sigma1 (x : Z) : Z :=
  Z.lor (shr32 x 17) (shl32 x 15) ^^ Z.lor (shr32 x 19) (shl32 x 13) ^^ shr32 x 10.

(** One round: the new values of [*d] and [*h]. *)
Definition Round (a b c d e f g h k w : Z) : Z * Z :=
  let t1 := u32 (h + Sigma1 e + Ch e f g + k + w) in
  let t2 := u32 (Sigma0 a + Maj a b c) in
  (u32 (d + t1), u32 (t1 + t2)).

(** [uint32_t s[8]] *)
Definition sha_state : Type := Z * Z * Z * Z * Z * Z * Z * Z.

(** [be32_to_cpu(chunk[i])] of a 64-byte chunk is [be32_at]. *)
Definition Transform (s : sha_state) (chunk : bytes) : sha_state :=
  let '(s0, s1, s2, s3, s4, s5, s6, s7) := s in
  let '(a, b, c, d, e, f, g, h) := s in
  w0 <== be32_at chunk 0;
  let '(d, h) := Round a b c d e f g h 0x428a2f98 w0 in
  w1 <== be32_at chunk 1;
  let '(c, g) := Round h a b c d e f g 0x71374491 w1 in
  w2 <== be32_at chunk 2;
  let '(b, f) := Round g h a b c d e f 0xb5c0fbcf w2 in
  w3 <== be32_at chunk 3;
  let '(a, e) := Round f g h a b c d e 0xe9b5dba5 w3 in
  w4 <== be32_at chunk 4;
  let '(h, d) := Round e f g h a b c d 0x3956c25b w4 in
  w5 <== be32_at chunk 5;
  let '(g, c) := Round d e f g h a b c 0x59f111f1 w5 in
  w6 <== be32_at chunk 6;
  let '(f, b) := Round c d e f g h a b 0x923f82a4 w6 in
  w7 <== be32_at chunk 7;
  let '(e, a) := Round b c d e f g h a 0xab1c5ed5 w7 in
  w8 <== be32_at chunk 8;
  let '(d, h) := Round a b c d e f g h 0xd807aa98 w8 in
  w9 <== be32_at chunk 9;
  let '(c, g) := Round h a b c d e f g 0x12835b01 w9 in
  w10 <== be32_at chunk 10;
  let '(b, f) := Round g h a b c d e f 0x243185be w10 in
  w11 <== be32_at chunk 11;
  let '(a, e) := Round f g h a b c d e 0x550c7dc3 w11 in
  w12 <== be32_at chunk 12;
  let '(h, d) := Round e f g h a b c d 0x72be5d74 w12 in
  w13 <== be32_at chunk 13;
  let '(g, c) := Round d e f g h a b c 0x80deb1fe w13 in
  w14 <== be32_at chunk 14;
  let '(f, b) := Round c d e f g h a b 0x9bdc06a7 w14 in
  w15 <== be32_at chunk 15;
  let '(e, a) := Round b c d e f g h a 0xc19bf174 w15 in
  w0 <== u32 (w0 + u32 (sigma1 w14 + w9 + sigma0 w1));
  let '(d, h) := Round a b c d e f g h 0xe49b69c1 w0 in
  w1 <== u32 (w1 + u32 (sigma1 w15 + w10 + sigma0 w2));
  let '(c, g) := Round h a b c d e f g 0xefbe4786 w1 in
  w2 <== u32 (w2 + u32 (sigma1 w0 + w11 + sigma0 w3));
  let '(b, f) := Round g h a b c d e f 0x0fc19dc6 w2 in
  w3 <== u32 (w3 + u32 (sigma1 w1 + w12 + sigma0 w4));
  let '(a, e) := Round f g h a b c d e 0x240ca1cc w3 in
  w4 <== u32 (w4 + u32 (sigma1 w2 + w13 + sigma0 w5));
  let '(h, d) := Round e f g h a b c d 0x2de92c6f w4 in
  w5 <== u32 (w5 + u32 (sigma1 w3 + w14 + sigma0 w6));
  let '(g, c) := Round d e f g h a b c 0x4a7484aa w5 in
  w6 <== u32 (w6 + u32 (sigma1 w4 + w15 + sigma0 w7));
  let '(f, b) := Round c d e f g h a b 0x5cb0a9dc w6 in
  w7 <== u32 (w7 + u32 (sigma1 w5 + w0 + sigma0 w8));
  let '(e, a) := Round b c d e f g h a 0x76f988da w7 in
  w8 <== u32 (w8 + u32 (sigma1 w6 + w1 + sigma0 w9));
  let '(d, h) := Round a b c d e f g h 0x983e5152 w8 in
  w9 <== u32 (w9 + u32 (sigma1 w7 + w2 + sigma0 w10));
  let '(c, g) := Round h a b c d e f g 0xa831c66d w9 in
  w10 <== u32 (w10 + u32 (sigma1 w8 + w3 + sigma0 w11));
  let '(b, f) := Round g h a b c d e f 0xb00327c8 w10 in
  w11 <== u32 (w11 + u32 (sigma1 w9 + w4 + sigma0 w12));
  let '(a, e) := Round f g h a b c d e 0xbf597fc7 w11 in
  w12 <== u32 (w12 + u32 (sigma1 w10 + w5 + sigma0 w13));
  let '(h, d) := Round e f g h a b c d 0xc6e00bf3 w12 in
  w13 <== u32 (w13 + u32 (sigma1 w11 + w6 + sigma0 w14));
  let '(g, c) := Round d e f g h a b c 0xd5a79147 w13 in
  w14 <== u32 (w14 + u32 (sigma1 w12 + w7 + sigma0 w15));
  let '(f, b) := Round c d e f g h a b 0x06ca6351 w14 in
  w15 <== u32 (w15 + u32 (sigma1 w13 + w8 + sigma0 w0));
  let '(e, a) := Round b c d e f g h a 0x14292967 w15 in
  w0 <== u32 (w0 + u32 (sigma1 w14 + w9 + sigma0 w1));
  let '(d, h) := Round a b c d e f g h 0x27b70a85 w0 in
  w1 <== u32 (w1 + u32 (sigma1 w15 + w10 + sigma0 w2));
  let '(c, g) := Round h a b c d e f g 0x2e1b2138 w1 in
  w2 <== u32 (w2 + u32 (sigma1 w0 + w11 + sigma0 w3));
  let '(b, f) := Round g h a b c d e f 0x4d2c6dfc w2 in
  w3 <== u32 (w3 + u32 (sigma1 w1 + w12 + sigma0 w4));
  let '(a, e) := Round f g h a b c d e 0x53380d13 w3 in
  w4 <== u32 (w4 + u32 (sigma1 w2 + w13 + sigma0 w5));
  let '(h, d) := Round e f g h a b c d 0x650a7354 w4 in
  w5 <== u32 (w5 + u32 (sigma1 w3 + w14 + sigma0 w6));
  let '(g, c) := Round d e f g h a b c 0x766a0abb w5 in
  w6 <== u32 (w6 + u32 (sigma1 w4 + w15 + sigma0 w7));
  let '(f, b) := Round c d e f g h a b 0x81c2c92e w6 in
  w7 <== u32 (w7 + u32 (sigma1 w5 + w0 + sigma0 w8));
  let '(e, a) := Round b c d e f g h a 0x92722c85 w7 in
  w8 <== u32 (w8 + u32 (sigma1 w6 + w1 + sigma0 w9));
  let '(d, h) := Round a b c d e f g h 0xa2bfe8a1 w8 in
  w9 <== u32 (w9 + u32 (sigma1 w7 + w2 + sigma0 w10));
  let '(c, g) := Round h a b c d e f g 0xa81a664b w9 in
  w10 <== u32 (w10 + u32 (sigma1 w8 + w3 + sigma0 w11));
  let '(b, f) := Round g h a b c d e f 0xc24b8b70 w10 in
  w11 <== u32 (w11 + u32 (sigma1 w9 + w4 + sigma0 w12));
  let '(a, e) := Round f g h a b c d e 0xc76c51a3 w11 in
  w12 <== u32 (w12 + u32 (sigma1 w10 + w5 + sigma0 w13));
  let '(h, d) := Round e f g h a b c d 0xd192e819 w12 in
  w13 <== u32 (w13 + u32 (sigma1 w11 + w6 + sigma0 w14));
  let '(g, c) := Round d e f g h a b c 0xd6990624 w13 in
  w14 <== u32 (w14 + u32 (sigma1 w12 + w7 + sigma0 w15));
  let '(f, b) := Round c d e f g h a b 0xf40e3585 w14 in
  w15 <== u32 (w15 + u32 (sigma1 w13 + w8 + sigma0 w0));
  let '(e, a) := Round b c d e f g h a 0x106aa070 w15 in
  w0 <== u32 (w0 + u32 (sigma1 w14 + w9 + sigma0 w1));
  let '(d, h) := Round a b c d e f g h 0x19a4c116 w0 in
  w1 <== u32 (w1 + u32 (sigma1 w15 + w10 + sigma0 w2));
  let '(c, g) := Round h a b c d e f g 0x1e376c08 w1 in
  w2 <== u32 (w2 + u32 (sigma1 w0 + w11 + sigma0 w3));
  let '(b, f) := Round g h a b c d e f 0x2748774c w2 in
  w3 <== u32 (w3 + u32 (sigma1 w1 + w12 + sigma0 w4));
  let '(a, e) := Round f g h a b c d e 0x34b0bcb5 w3 in
  w4 <== u32 (w4 + u32 (sigma1 w2 + w13 + sigma0 w5));
  let '(h, d) := Round e f g h a b c d 0x391c0cb3 w4 in
  w5 <== u32 (w5 + u32 (sigma1 w3 + w14 + sigma0 w6));
  let '(g, c) := Round d e f g h a b c 0x4ed8aa4a w5 in
  w6 <== u32 (w6 + u32 (sigma1 w4 + w15 + sigma0 w7));
  let '(f, b) := Round c d e f g h a b 0x5b9cca4f w6 in
  w7 <== u32 (w7 + u32 (sigma1 w5 + w0 + sigma0 w8));
  let '(e, a) := Round b c d e f g h a 0x682e6ff3 w7 in
  w8 <== u32 (w8 + u32 (sigma1 w6 + w1 + sigma0 w9));
  let '(d, h) := Round a b c d e f g h 0x748f82ee w8 in
  w9 <== u32 (w9 + u32 (sigma1 w7 + w2 + sigma0 w10));
  let '(c, g) := Round h a b c d e f g 0x78a5636f w9 in
  w10 <== u32 (w10 + u32 (sigma1 w8 + w3 + sigma0 w11));
  let '(b, f) := Round g h a b c d e f 0x84c87814 w10 in
  w11 <== u32 (w11 + u32 (sigma1 w9 + w4 + sigma0 w12));
  let '(a, e) := Round f g h a b c d e 0x8cc70208 w11 in
  w12 <== u32 (w12 + u32 (sigma1 w10 + w5 + sigma0 w13));
  let '(h, d) := Round e f g h a b c d 0x90befffa w12 in
  w13 <== u32 (w13 + u32 (sigma1 w11 + w6 + sigma0 w14));
  let '(g, c) := Round d e f g h a b c 0xa4506ceb w13 in
  let '(f, b) := Round c d e f g h a b 0xbef9a3f7 (u32 (w14 + sigma1 w12 + w7 + sigma0 w15)) in
  let '(e, a) := Round b c d e f g h a 0xc67178f2 (u32 (w15 + sigma1 w13 + w8 + sigma0 w0)) in
  (u32 (s0 + a), u32 (s1 + b), u32 (s2 + c), u32 (s3 + d),
   u32 (s4 + e), u32 (s5 + f), u32 (s6 + g), u32 (s7 + h)).

Definition SHA256_INIT : ctx (St := sha_state) :=
  Ctx (0x6a09e667, 0xbb67ae85, 0x3c6ef372, 0xa54ff53a,
       0x510e527f, 0x9b05688c, 0x1f83d9ab, 0x5be0cd19)
      (replicate 64 0) 0.

Definition sha256_init : ctx := SHA256_INIT.

(** [check_sha256] only detects the reuse of a finished context, which
    [sha256_done] does not return. *)
Definition sha256_update (c : ctx) (p : bytes) : ctx := add Transform c p.

Definition sha256_done (c : ctx) : bytes :=
  let sizedesc := be_bytes 8 (u64 (Z.shiftl (ctx_bytes c) 3)) in
  let pad := 0x80 :: replicate 63 0 in
  let c := add Transform c
             (take (Z.to_nat (1 + (128 - 8 - ctx_bytes c mod 64 - 1) mod 64)) pad) in
  let c := add Transform c sizedesc in
  let '(s0, s1, s2, s3, s4, s5, s6, s7) := ctx_s c in
  be_bytes 4 s0 ++ be_bytes 4 s1 ++ be_bytes 4 s2 ++ be_bytes 4 s3 ++
  be_bytes 4 s4 ++ be_bytes 4 s5 ++ be_bytes 4 s6 ++ be_bytes 4 s7.

Definition sha256 (p : bytes) : bytes := sha256_done (sha256_update sha256_init p).

(** [sha256_le32]: little-endian words. *)
Definition sha256_le32 (c : ctx) (v : Z) : ctx := sha256_update c (le_bytes 4 v).

(** "abc" *)
Example sha256_abc : sha256 [0x61; 0x62; 0x63] =
  be_bytes 32 0xba7816bf8f01cfea414140de5dae2223b00361a396177a9cb410ff61f20015ad.
Proof. vm_compute. reflexivity. Qed.

(** ** The compression function

    The unrolled rounds are the loop of the standard. *)
Lemma Ch_fips x y z : Ch x y z = SHA256.Ch x y z.
Proof.
  apply Z.bits_inj'. intros i Hi. unfold Ch, SHA256.Ch.
  repeat rewrite ?Z.lxor_spec, ?Z.land_spec, ?Z.lnot_spec by done.
  by destruct (Z.testbit x i), (Z.testbit y i), (Z.testbit z i).
Qed.

Lemma Maj_fips x y z : Maj x y z = SHA256.Maj x y z.
Proof.
  apply Z.bits_inj'. intros i Hi. unfold Maj, SHA256.Maj.
  repeat rewrite ?Z.lxor_spec, ?Z.land_spec, ?Z.lor_spec.
  by destruct (Z.testbit x i), (Z.testbit y i), (Z.testbit z i).
Qed.

Section Rounds.
Context (w : nat -> Z) (expanded : forall t, (16 <= t < 64)%nat -> w t = SHA256.next w t).

(** The schedule word that replaces the one sixteen rounds before. *)
Lemma word_update t : (16 <= t < 64)%nat ->
  u32 (w (t - 16)%nat + u32 (sigma1 (w (t - 2)%nat) + w (t - 7)%nat + sigma0 (w (t - 15)%nat))) = w t.
Proof using expanded.
  intros Ht. rewrite (expanded t) by done. unfold SHA256.next. rewrite !u32_mod.
  change SHA256.sigma0 with sigma0. change SHA256.sigma1 with sigma1.
  rewrite Zplus_mod_idemp_r. f_equal. lia.
Qed.

(** One round, with the new values where the code stores them. *)
Lemma round_fips t l a b c d e f g h :
  foldl (SHA256.round w) (a, b, c, d, e, f, g, h) (t :: l)
  = let '(d', h') := Round a b c d e f g h (nth t SHA256.K 0) (w t) in
    foldl (SHA256.round w) (h', a, b, c, d', e, f, g) l.
Proof using.
  cbn [foldl]. unfold SHA256.round at 2, Round. rewrite Ch_fips, Maj_fips.
  change SHA256.Sigma0 with Sigma0. change SHA256.Sigma1 with Sigma1.
  f_equal. repeat apply (f_equal2 pair); try done; rewrite ?u32_mod;
    rewrite ?Zplus_mod_idemp_r, ?Zplus_mod_idemp_l, <- ?Zplus_mod; f_equal; lia.
Qed.

Lemma word_update_last t : (16 <= t < 64)%nat ->
  u32 (w (t - 16)%nat + sigma1 (w (t - 2)%nat) + w (t - 7)%nat + sigma0 (w (t - 15)%nat)) = w t.
Proof using expanded.
  intros Ht. rewrite <- (word_update t) by done. rewrite !u32_mod, Zplus_mod_idemp_r. f_equal. lia.
Qed.

Lemma assign_step (v v' : Z) (k : Z -> SHA256.state) r : v = v' -> k v' = r -> assign v k = r.
Proof using. by intros ->. Qed.

Lemma round_step t l a b c d e f g h k v s (body : Z -> Z -> SHA256.state) :
  nth t SHA256.K 0 = k -> v = w t ->
  (forall d' h', body d' h' = SHA256.plus s (foldl (SHA256.round w) (h', a, b, c, d', e, f, g) l)) ->
  (let '(d', h') := Round a b c d e f g h k v in body d' h')
  = SHA256.plus s (foldl (SHA256.round w) (a, b, c, d, e, f, g, h) (t :: l)).
Proof using. intros <- -> H. rewrite round_fips. by destruct (Round _ _ _ _ _ _ _ _ _ _). Qed.

Context (chunk : bytes) (initial : forall t, (t < 16)%nat -> be32_at chunk t = w t).

(** The schedule words of the code become [w t], its rounds those of the loop. *)
Ltac one_round :=
  lazymatch goal with
  | |- assign _ _ = SHA256.plus _ (foldl _ _ (?t :: _)) =>
      apply (assign_step _ (w t));
      [first [exact (initial t ltac:(lia)) | exact (word_update t ltac:(lia))]|]
  | |- _ = SHA256.plus _ (foldl _ _ (?t :: _)) =>
      apply round_step; [vm_compute; reflexivity
        |first [reflexivity | exact (word_update_last t ltac:(lia))]|intros ? ?]
  end.

Lemma Transform_rounds s : Transform s chunk = SHA256.plus s (foldl (SHA256.round w) s (seq 0 64)).
Proof using Type*.
  destruct s as [[[[[[[a b] c] d] e] f] g] h]. unfold Transform.
  let l := eval vm_compute in (seq 0 64) in change (seq 0 64) with l.
  repeat one_round. reflexivity.
Qed.
End Rounds.

Lemma Transform_fips s chunk : Transform s chunk = SHA256.compress s chunk.
Proof.
  apply Transform_rounds; intros t Ht; [by apply SHA256.word_expanded|].
  by rewrite word_init.
Qed.

(** ** What the context operations compute *)
Lemma length_sha256_done c : length (sha256_done c) = 32%nat.
Proof.
  unfold sha256_done. destruct (ctx_s _) as [[[[[[[? ?] ?] ?] ?] ?] ?] ?].
  by rewrite !length_app, !length_be_bytes.
Qed.

Lemma length_sha256 p : length (sha256 p) = 32%nat.
Proof. apply length_sha256_done. Qed.

Lemma sha256_done_ok c : bytes_ok (sha256_done c).
Proof.
  unfold sha256_done. destruct (ctx_s _) as [[[[[[[? ?] ?] ?] ?] ?] ?] ?].
  unfold bytes_ok. rewrite !Forall_app. repeat split; apply be_bytes_ok.
Qed.

Lemma sha256_ok p : bytes_ok (sha256 p).
Proof. apply sha256_done_ok. Qed.

(** A SHA-256 context that has been given the message [m], in any number of updates. *)
Definition absorbed (c : ctx) (m : bytes) : Prop := repr Transform SHA256.H0 c m.

Lemma absorbed_init : absorbed sha256_init [].
Proof. unfold absorbed, repr. rewrite absorb_small by (simpl; lia). done. Qed.

Lemma absorbed_update c m p : absorbed c m -> absorbed (sha256_update c p) (m ++ p).
Proof. apply add_repr. Qed.

Lemma chain_fips n s m : chain Transform n s m = chain SHA256.compress n s m.
Proof. revert s m. induction n as [|n IH]; intros; simpl; [done|]. by rewrite Transform_fips, IH. Qed.

Lemma sha256_done_absorbed c m : absorbed c m -> sha256_done c = SHA256.hash m.
Proof.
  intros H. apply (finish_repr _ _ _ _ (be_bytes 8) (length_be_bytes 8)) in H.
  unfold sha256_done, SHA256.hash. rewrite <- chain_fips, <- H.
  by replace (128 - 8 - ctx_bytes c mod 64 - 1) with (119 - ctx_bytes c mod 64) by lia.
Qed.

Lemma sha256_spec m : sha256 m = SHA256.hash m.
Proof. apply sha256_done_absorbed. exact (absorbed_update sha256_init [] m absorbed_init). Qed.

(** C33. Streaming SHA-256: however the message is cut into [sha256_update] calls, the
    digest is the one of the whole message, padded and compressed block by block; in
    particular it equals the one-shot [sha256] of the concatenation. *)
Theorem sha256_of_parts parts :
  sha256_done (foldl sha256_update sha256_init parts) = SHA256.hash (concat parts) /\
  sha256_done (foldl sha256_update sha256_init parts) = sha256 (concat parts).
Proof.
  assert (absorbed (foldl sha256_update sha256_init parts) (concat parts)) as H.
  { change (concat parts) with ([] ++ concat parts). generalize absorbed_init.
    generalize (@nil Z) sha256_init. induction parts as [|p parts IH]; intros m c Hc; simpl.
    - by rewrite app_nil_r.
    - rewrite app_assoc. by apply IH, absorbed_update. }
  rewrite sha256_spec. split; by apply sha256_done_absorbed.
Qed.
