(* ===== verification/BitcoinTx.v ===== *)
(** * Bitcoin transactions and blocks
    (bitcoin/tx.c, bitcoin/shadouble.c, bitcoin/block.c)

    Serialisation with and without witnesses, transaction ids, weights, signature
    hashes, and the parsers; shown against the formats of BIP 141, 143 and 144. *)
From S2P Require Import Prelude HashSpec BlockHash Sha256 Hex PullPush.
Local Open Scope Z_scope.
Local Open Scope pull_scope.

(** ** Data

    A [u8 *] script of an input is NULL or an array, which [sha256_tx_for_sig] tells
    apart; nothing tells the NULL and the empty script of an output apart. *)
Record bitcoin_tx_output := TxOutput { out_amount : Z; out_script : bytes }.

Record bitcoin_tx_input := TxInput {
  in_txid : bytes;
  in_index : Z;
  in_script : option bytes;
  sequence_number : Z;
  in_amount : option Z;
  witness : option (list bytes)
}.

Record bitcoin_tx := BitcoinTx {
  version : Z;
  input : list bitcoin_tx_input;
  output : list bitcoin_tx_output;
  lock_time : Z
}.

Definition set_witness (w : option (list bytes)) (i : bitcoin_tx_input) : bitcoin_tx_input :=
  TxInput (in_txid i) (in_index i) (in_script i) (sequence_number i) (in_amount i) w.

Definition set_input (l : list bitcoin_tx_input) (tx : bitcoin_tx) : bitcoin_tx :=
  BitcoinTx (version tx) l (output tx) (lock_time tx).

Definition sha256_double (p : bytes) : bytes := sha256 (sha256 p).
Definition sha256_double_done (c : ctx) : bytes := sha256 (sha256_done c).

(** ** Serialisation *)

Definition SEGREGATED_WITNESS_FLAG : Z := 1.
Definition SIGHASH_ALL : Z := 1.

Definition uses_witness (tx : bitcoin_tx) : bool :=
  existsb (fun i => match witness i with Some _ => true | None => false end) (input tx).

Section Push.
Context {St : Type} (push : bytes -> St -> St).

Definition push_tx_input (i : bitcoin_tx_input) (st : St) : St :=
  push_le32 push (sequence_number i)
    (push_varint_blob push (default [] (in_script i))
      (push_le32 push (in_index i) (push (in_txid i) st))).

Definition push_tx_output (o : bitcoin_tx_output) (st : St) : St :=
  push_varint_blob push (out_script o) (push_le64 push (out_amount o) st).

Definition push_witness (w : bytes) : St -> St := push_varint_blob push w.

Definition push_witnesses_of (i : bitcoin_tx_input) (st : St) : St :=
  match witness i with
  | None => push_varint push 0 st
  | Some w =>
      foldl (fun st w => push_witness w st) (push_varint push (Z.of_nat (length w)) st) w
  end.

Definition push_witnesses (tx : bitcoin_tx) (st : St) : St :=
  foldl (fun st i => push_witnesses_of i st) st (input tx).

Definition push_tx (tx : bitcoin_tx) (bip144 : bool) (st : St) : St :=
  let st := push_le32 push (version tx) st in
  let flag := if bip144 && uses_witness tx then Z.lor 0 SEGREGATED_WITNESS_FLAG else 0 in
  let st := if flag =? 0 then st else push [flag] (push [0] st) in
  let st := push_varint push (Z.of_nat (length (input tx))) st in
  let st := foldl (fun st i => push_tx_input i st) st (input tx) in
  let st := push_varint push (Z.of_nat (length (output tx))) st in
  let st := foldl (fun st o => push_tx_output o st) st (output tx) in
  let st := if Z.land flag SEGREGATED_WITNESS_FLAG =? 0 then st else push_witnesses tx st in
  push_le32 push (lock_time tx) st.
End Push.

(** The three callbacks. *)
Definition push_sha (data : bytes) (c : ctx) : ctx := sha256_update c data.
Definition push_linearize (data arr : bytes) : bytes := arr ++ data.
Definition push_measure (data : bytes) (len : Z) : Z := u64 (len + Z.of_nat (length data)).

Definition linearize_tx (tx : bitcoin_tx) : bytes := push_tx push_linearize tx true [].

Definition measure_tx_weight (tx : bitcoin_tx) : Z :=
  let non_witness_len := push_tx push_measure tx false 0 in
  let witness_len :=
    if uses_witness tx then u64 (push_witnesses push_measure tx 0 + 2) else 0 in
  u64 (non_witness_len * 4 + witness_len).

Definition bitcoin_txid (tx : bitcoin_tx) : bytes :=
  sha256_double_done (push_tx push_sha tx false SHA256_INIT).

(** ** Signature hashes *)

Definition hash_prevouts (tx : bitcoin_tx) : bytes :=
  sha256_double_done
    (foldl (fun c i => push_le32 push_sha (in_index i) (push_sha (in_txid i) c))
       sha256_init (input tx)).

Definition hash_sequence (tx : bitcoin_tx) : bytes :=
  sha256_double_done
    (foldl (fun c i => push_le32 push_sha (sequence_number i) c) sha256_init (input tx)).

Definition hash_outputs (tx : bitcoin_tx) : bytes :=
  sha256_double_done
    (foldl (fun c o => push_varint_blob push_sha (out_script o) (push_le64 push_sha (out_amount o) c))
       sha256_init (output tx)).

(** [None]: the amount of the input is NULL and is dereferenced. *)
Definition hash_for_segwit (c : ctx) (tx : bitcoin_tx) (i : bitcoin_tx_input)
    (witness_script : bytes) : option ctx :=
  amount ← in_amount i;
  let c := push_le32 push_sha (version tx) c in
  let c := push_sha (hash_prevouts tx) c in
  let c := push_sha (hash_sequence tx) c in
  let c := push_sha (in_txid i) c in
  let c := push_le32 push_sha (in_index i) c in
  let c := push_varint_blob push_sha witness_script c in
  let c := push_le64 push_sha amount c in
  let c := push_le32 push_sha (sequence_number i) c in
  let c := push_sha (hash_outputs tx) c in
  Some (push_le32 push_sha (lock_time tx) c).

(** The scripts of the other inputs must be NULL. *)
Definition others_unsigned (input_num : nat) (l : list bitcoin_tx_input) : bool :=
  forallb id (imap (fun i x => (i =? input_num)%nat
                               || match in_script x with None => true | Some _ => false end) l).

Definition sha256_tx_for_sig (tx : bitcoin_tx) (input_num : nat) (witness_script : option bytes)
    : option bytes :=
  i ← input tx !! input_num;
  assert! others_unsigned input_num (input tx);
  c ← match witness_script with
      | Some ws => hash_for_segwit SHA256_INIT tx i ws
      | None => Some (push_tx push_sha tx false SHA256_INIT)
      end;
  Some (sha256_double_done (sha256_le32 c SIGHASH_ALL)).

(** ** Allocation *)

(** [tal_arr]: [None] when the size with the header of 40 bytes does not fit. *)
Definition tal_hdr_size : Z := 40.

Definition adjust_size (size count : Z) : option Z :=
  if negb (count =? 0) && negb (u64 (size * count) / size =? count) then None
  else if u64 (u64 (size * count) + tal_hdr_size) <? tal_hdr_size then None
  else Some (u64 (size * count)).

Definition tal_arr (size count : Z) : pulling unit := fun c => _ ← adjust_size size count; Some (tt, c).

Definition sizeof_input : Z := 72.
Definition sizeof_output : Z := 16.
Definition sizeof_ptr : Z := 8.

(** The function [bitcoin_tx]. *)
Definition new_bitcoin_tx (input_count output_count : nat) : bitcoin_tx :=
  BitcoinTx 2
    (replicate input_count (TxInput (replicate 32 0) 0 None 0xFFFFFFFF None None))
    (replicate output_count (TxOutput 0 [])) 0.

(** ** Parsing *)

Definition pull_sha256_double : pulling bytes :=
  let* p := pull 32 in pull_ret (copied 32 p).

Definition pull_value : pulling Z := pull_le64.

Definition pull_fail {A} (x : A) : pulling A := fun _ => Some (x, None).

Definition cursor_left : pulling Z := fun c => Some (cursor_max c, c).

Definition pull_length (mult : Z) : pulling Z :=
  let* v := pull_varint in
  let* max := cursor_left in
  if max <? u64 (v * mult) then pull_fail 0 else pull_ret v.

(** The fields of an input that [tal_arr] leaves uninitialised and nothing sets keep
    what the memory held: [junk] is the [amount] pointer found there. *)
Definition pull_input (junk : option Z) : pulling bitcoin_tx_input :=
  let* txid := pull_sha256_double in
  let* index := pull_le32 in
  let* script_len := pull_length 1 in
  let* _ := tal_arr 1 script_len in
  let* p := pull script_len in
  let script := if script_len =? 0 then None else Some (copied script_len p) in
  let* seq := pull_le32 in
  pull_ret (TxInput txid index script seq junk None).

Definition pull_blob : pulling bytes :=
  let* len := pull_length 1 in
  let* _ := tal_arr 1 len in
  let* p := pull len in
  pull_ret (copied len p).

Definition pull_output : pulling bitcoin_tx_output :=
  let* amount := pull_value in
  let* script := pull_blob in
  pull_ret (TxOutput amount script).

Definition pull_witness_item : pulling bytes := pull_blob.

Definition pull_witness (i : bitcoin_tx_input) : pulling bitcoin_tx_input :=
  let* num := pull_length 1 in
  if num =? 0 then pull_ret (set_witness None i)
  else
    let* _ := tal_arr sizeof_ptr num in
    let* items := pull_n (Z.to_nat num) pull_witness_item in
    pull_ret (set_witness (Some items) i).

(** From the number of inputs on, the flag byte being read. *)
Definition pull_tx_body (junk : nat -> option Z) (ver flag count : Z)
    : pulling (option bitcoin_tx) :=
  let* _ := tal_arr sizeof_input count in
  let* ins := pull_each (fun i => pull_input (junk i)) (seq 0 (Z.to_nat count)) in
  let* count := pull_length (8 + 1) in
  let* _ := tal_arr sizeof_output count in
  let* outs := pull_n (Z.to_nat count) pull_output in
  let* ins := (if Z.land flag SEGREGATED_WITNESS_FLAG =? 0
               then pull_ret (set_witness None <$> ins)
               else pull_each pull_witness ins) in
  let* lock := pull_le32 in
  fun c => Some (_ ← c; Some (BitcoinTx ver ins outs lock), c).

Definition pull_bitcoin_tx (junk : nat -> option Z) : pulling (option bitcoin_tx) :=
  let* ver := pull_le32 in
  let* count := pull_length (32 + 4 + 4 + 1) in
  if count =? 0 then
    let* p := pull 1 in
    let flag := le_val (copied 1 p) in
    if flag =? SEGREGATED_WITNESS_FLAG then
      let* count := pull_length (32 + 4 + 4 + 1) in
      pull_tx_body junk ver flag count
    else pull_ret None
  else pull_tx_body junk ver 0 count.

(** The characters before the first newline ([memchr]). *)
Fixpoint first_line (hex : bytes) : bytes :=
  match hex with
  | [] => []
  | c :: hex => if c =? chr_newline then [] else c :: first_line hex
  end.

(** The outer option is an abort, the inner one the NULL of the function. *)
Definition bitcoin_tx_from_hex (junk : nat -> option Z) (hex : bytes) : option (option bitcoin_tx) :=
  let line := first_line hex in
  match hex_decode line (hex_data_size (length line)) with
  | None => Some None
  | Some linear_tx =>
      '(tx, c) ← pull_bitcoin_tx junk (Some linear_tx);
      Some (if cursor_max c =? 0 then tx else None)
  end.

(** ** Transaction ids as bitcoind prints them *)

(** One iteration of the loop of [reverse_bytes]. *)
Definition swap_bytes (l : bytes) (i : nat) : bytes :=
  match l !! i, l !! (length l - 1 - i)%nat with
  | Some tmp, Some b => <[(length l - 1 - i)%nat := tmp]> (<[i := b]> l)
  | _, _ => l
  end.

Definition reverse_bytes (l : bytes) : bytes := foldl swap_bytes l (seq 0 (Nat.div2 (length l))).

Definition bitcoin_txid_from_hex (hexstr : bytes) : option bytes :=
  b ← hex_decode hexstr 32; Some (reverse_bytes b).

Definition bitcoin_txid_to_hex (txid : bytes) (hexstr_len : nat) : option (option bytes) :=
  hex_encode (reverse_bytes txid) hexstr_len.

(** ** Blocks *)

Record bitcoin_block_hdr := BlockHdr {
  hdr_version : Z; prev_hash : bytes; merkle_hash : bytes; timestamp : Z; target : Z; nonce : Z
}.

Record bitcoin_block := BitcoinBlock { hdr : bitcoin_block_hdr; block_tx : list (option bitcoin_tx) }.

(** The 80 bytes of the header read as the struct. *)
Definition hdr_of_bytes (b : bytes) : bitcoin_block_hdr :=
  BlockHdr (le_val (take 4 b)) (take 32 (drop 4 b)) (take 32 (drop 36 b))
    (le_val (take 4 (drop 68 b))) (le_val (take 4 (drop 72 b))) (le_val (take 4 (drop 76 b))).

Definition pull_block (junk : nat -> nat -> option Z) : pulling bitcoin_block :=
  let* p := pull 80 in
  let* num := pull_varint in
  let* _ := tal_arr sizeof_ptr num in
  let* txs := pull_each (fun i => pull_bitcoin_tx (junk i)) (seq 0 (Z.to_nat num)) in
  pull_ret (BitcoinBlock (hdr_of_bytes (copied 80 p)) txs).

Definition bitcoin_block_from_hex (junk : nat -> nat -> option Z) (hex : bytes)
    : option (option bitcoin_block) :=
  let hex := match last hex with
             | Some c => if c =? chr_newline then take (length hex - 1) hex else hex
             | None => hex
             end in
  match hex_decode hex (hex_data_size (length hex)) with
  | None => Some None
  | Some linear =>
      '(b, c) ← pull_block junk (Some linear);
      Some (match c with
            | Some [] => Some b
            | _ => None
            end)
  end.

Definition bitcoin_blkid_from_hex (hexstr : bytes) : option bytes := bitcoin_txid_from_hex hexstr.
Definition bitcoin_blkid_to_hex (blockid : bytes) (hexstr_len : nat) : option (option bytes) :=
  bitcoin_txid_to_hex blockid hexstr_len.

(** ** The formats

    Serialisation of BIP 144, signature hash of BIP 143 and weight of BIP 141, as
    functions to bytes. *)
Module Spec.
Definition compact (v : Z) : bytes :=
  if v <? 0xfd then [v]
  else if v <=? 0xffff then 0xfd :: le_bytes 2 v
  else if v <=? 0xffffffff then 0xfe :: le_bytes 4 v
  else 0xff :: le_bytes 8 v.

Definition var_bytes (b : bytes) : bytes := compact (Z.of_nat (length b)) ++ b.
Definition vector {A} (f : A -> bytes) (l : list A) : bytes :=
  compact (Z.of_nat (length l)) ++ concat (f <$> l).

Definition outpoint (i : bitcoin_tx_input) : bytes := in_txid i ++ le_bytes 4 (in_index i).
Definition txin (i : bitcoin_tx_input) : bytes :=
  outpoint i ++ var_bytes (default [] (in_script i)) ++ le_bytes 4 (sequence_number i).
Definition txout (o : bitcoin_tx_output) : bytes :=
  le_bytes 8 (out_amount o) ++ var_bytes (out_script o).
Definition stack (i : bitcoin_tx_input) : bytes := vector var_bytes (default [] (witness i)).

(** Without witnesses. *)
Definition stripped (tx : bitcoin_tx) : bytes :=
  le_bytes 4 (version tx) ++ vector txin (input tx) ++ vector txout (output tx)
    ++ le_bytes 4 (lock_time tx).

(** With marker, flag and witnesses. *)
Definition extended (tx : bitcoin_tx) : bytes :=
  le_bytes 4 (version tx) ++ [0; 1] ++ vector txin (input tx) ++ vector txout (output tx)
    ++ concat (stack <$> input tx) ++ le_bytes 4 (lock_time tx).

Definition transaction (tx : bitcoin_tx) : bytes :=
  if uses_witness tx then extended tx else stripped tx.

Definition hash256 (m : bytes) : bytes := SHA256.hash (SHA256.hash m).

(** Three times the size without witnesses plus the full size. *)
Definition weight (tx : bitcoin_tx) : Z :=
  3 * Z.of_nat (length (stripped tx)) + Z.of_nat (length (transaction tx)).

(** The preimage of a signature with SIGHASH_ALL. *)
Definition sig_preimage (tx : bitcoin_tx) (i : bitcoin_tx_input) (amount : Z) (code : bytes) : bytes :=
  le_bytes 4 (version tx)
    ++ hash256 (concat (outpoint <$> input tx))
    ++ hash256 (concat ((fun i => le_bytes 4 (sequence_number i)) <$> input tx))
    ++ outpoint i ++ var_bytes code ++ le_bytes 8 amount ++ le_bytes 4 (sequence_number i)
    ++ hash256 (concat (txout <$> output tx))
    ++ le_bytes 4 (lock_time tx) ++ le_bytes 4 SIGHASH_ALL.
End Spec.

Lemma compact_put v : 0 <= v -> varint_put v = Spec.compact v.
Proof.
  intros H. unfold varint_put, Spec.compact. destruct (shifted_bytes v) as (-> & -> & ->).
  destruct (Z.ltb_spec v 0xfd); [|done]. rewrite u8_small; [done|]. unfold fits. lia.
Qed.

(** ** Serialising through any callback

    [taken st m]: the state [st] of the callback has taken the bytes [m]. *)
Section Collect.
Context {St : Type} (push : bytes -> St -> St) (taken : St -> bytes -> Prop).
Hypothesis taken_push : forall st m d, taken st m -> taken (push d st) (m ++ d).

Lemma taken_varint st m v : 0 <= v -> taken st m -> taken (push_varint push v st) (m ++ Spec.compact v).
Proof using taken_push. intros Hv H. rewrite <- compact_put by done. by apply taken_push. Qed.

Lemma taken_blob st m b : taken st m -> taken (push_varint_blob push b st) (m ++ Spec.var_bytes b).
Proof using taken_push.
  intros H. unfold Spec.var_bytes. rewrite app_assoc. apply taken_push, taken_varint; [lia|done].
Qed.

Lemma taken_foldl {A} (f : A -> St -> St) (enc : A -> bytes) l :
  (forall x st m, taken st m -> taken (f x st) (m ++ enc x)) ->
  forall st m, taken st m -> taken (foldl (fun st x => f x st) st l) (m ++ concat (enc <$> l)).
Proof using.
  intros Hf. induction l as [|x l IH]; intros st m H; csimpl; [by rewrite app_nil_r|].
  rewrite app_assoc. by apply IH, Hf.
Qed.

Lemma taken_input i st m : taken st m -> taken (push_tx_input push i st) (m ++ Spec.txin i).
Proof using taken_push.
  intros H. unfold Spec.txin, Spec.outpoint. rewrite !app_assoc.
  by apply taken_push, taken_blob, taken_push, taken_push.
Qed.

Lemma taken_output o st m : taken st m -> taken (push_tx_output push o st) (m ++ Spec.txout o).
Proof using taken_push.
  intros H. unfold Spec.txout. rewrite app_assoc. by apply taken_blob, taken_push.
Qed.

Lemma taken_stack i st m : taken st m -> taken (push_witnesses_of push i st) (m ++ Spec.stack i).
Proof using taken_push.
  intros H. unfold push_witnesses_of, Spec.stack. destruct (witness i) as [w|]; cbn [default from_option id].
  - unfold Spec.vector. rewrite app_assoc. apply (taken_foldl (push_witness push)).
    + intros. by apply taken_blob.
    + apply taken_varint; [lia|done].
  - unfold Spec.vector. rewrite app_nil_r. by apply taken_varint.
Qed.

Lemma taken_witnesses tx st m : taken st m ->
  taken (push_witnesses push tx st) (m ++ concat (Spec.stack <$> input tx)).
Proof using taken_push. apply (taken_foldl (push_witnesses_of push)), taken_stack. Qed.

Lemma taken_vector {A} (f : A -> St -> St) (enc : A -> bytes) l st m :
  (forall x st m, taken st m -> taken (f x st) (m ++ enc x)) -> taken st m ->
  taken (foldl (fun st x => f x st) (push_varint push (Z.of_nat (length l)) st) l)
        (m ++ Spec.vector enc l).
Proof using taken_push.
  intros Hf H. unfold Spec.vector. rewrite app_assoc. apply taken_foldl; [done|].
  apply taken_varint; [lia|done].
Qed.

Lemma taken_tx tx (bip144 : bool) st m : taken st m ->
  taken (push_tx push tx bip144 st)
        (m ++ if bip144 && uses_witness tx then Spec.extended tx else Spec.stripped tx).
Proof using taken_push.
  intros H. unfold push_tx, Spec.extended, Spec.stripped.
  destruct (bip144 && uses_witness tx); cbn [Z.eqb Z.lor Z.land SEGREGATED_WITNESS_FLAG Pos.land].
  - change [0; 1] with ([0] ++ [1]). rewrite !app_assoc. apply taken_push, taken_witnesses.
    apply taken_vector; [apply taken_output|]. apply taken_vector; [apply taken_input|].
    by apply taken_push, taken_push, taken_push.
  - rewrite !app_assoc. apply taken_push. apply taken_vector; [apply taken_output|].
    apply taken_vector; [apply taken_input|]. by apply taken_push.
Qed.
End Collect.

Lemma linearize_spec tx : linearize_tx tx = Spec.transaction tx.
Proof.
  apply (taken_tx push_linearize eq (fun st m d E => f_equal (fun m => m ++ d) E) tx true [] []).
  done.
Qed.

Lemma taken_sha c m d : absorbed c m -> absorbed (push_sha d c) (m ++ d).
Proof. apply absorbed_update. Qed.

Lemma double_done c m : absorbed c m -> sha256_double_done c = Spec.hash256 m.
Proof.
  intros H. unfold sha256_double_done, Spec.hash256. rewrite sha256_spec.
  by rewrite (sha256_done_absorbed c m).
Qed.

Lemma txid_spec tx : bitcoin_txid tx = Spec.hash256 (Spec.stripped tx).
Proof. apply double_done. apply (taken_tx _ _ taken_sha tx false _ []), absorbed_init. Qed.

Lemma taken_measure st m d : st = u64 (Z.of_nat (length m)) ->
  push_measure d st = u64 (Z.of_nat (length (m ++ d))).
Proof. intros ->. unfold push_measure. rewrite u64_add_l, length_app. f_equal. lia. Qed.

Lemma weight_spec tx : measure_tx_weight tx = u64 (Spec.weight tx).
Proof.
  unfold measure_tx_weight, Spec.weight, Spec.transaction.
  pose proof (taken_tx _ _ taken_measure tx false 0 [] eq_refl) as N.
  cbn [andb app] in N. rewrite N.
  destruct (uses_witness tx).
  - pose proof (taken_witnesses _ _ taken_measure tx 0 [] eq_refl) as W. cbn [app] in W. rewrite W.
    unfold Spec.stripped, Spec.extended. rewrite !length_app. cbn [length].
    generalize (length (Spec.vector Spec.txin (input tx))) as a.
    generalize (length (Spec.vector Spec.txout (output tx))) as b.
    generalize (length (concat (Spec.stack <$> input tx))) as c. rewrite !length_le_bytes.
    intros. width_lia.
  - generalize (length (Spec.stripped tx)) as a. intros. width_lia.
Qed.

(** The three serialisers agree with the formats: [linearize_tx] writes the BIP 144
    serialisation, extended exactly when an input has a witness; [bitcoin_txid] is the
    double hash of the serialisation without witnesses, whatever the witnesses; and
    [measure_tx_weight] is the weight of BIP 141 at the width of [size_t]. *)
Theorem tx_serialisation tx :
  linearize_tx tx = Spec.transaction tx /\
  bitcoin_txid tx = Spec.hash256 (Spec.stripped tx) /\
  (forall w, bitcoin_txid (set_input (set_witness w <$> input tx) tx) = bitcoin_txid tx) /\
  measure_tx_weight tx = u64 (Spec.weight tx).
Proof.
  split; [apply linearize_spec|]. split; [apply txid_spec|]. split; [|apply weight_spec].
  intros w. rewrite !txid_spec. unfold Spec.stripped, Spec.vector. cbn.
  by rewrite length_fmap, <- list_fmap_compose.
Qed.

(** ** Signature hashes *)

Lemma prevouts_spec tx : hash_prevouts tx = Spec.hash256 (concat (Spec.outpoint <$> input tx)).
Proof.
  apply double_done. change (concat _) with ([] ++ concat (Spec.outpoint <$> input tx)).
  apply (taken_foldl absorbed (fun i c => push_le32 push_sha (in_index i) (push_sha (in_txid i) c)));
    [|apply absorbed_init].
  intros i c m H. unfold Spec.outpoint. rewrite app_assoc. by apply taken_sha, taken_sha.
Qed.

Lemma sequence_spec tx : hash_sequence tx =
  Spec.hash256 (concat ((fun i => le_bytes 4 (sequence_number i)) <$> input tx)).
Proof.
  apply double_done. rewrite <- (app_nil_l (concat _)).
  apply (taken_foldl absorbed (fun i => push_le32 push_sha (sequence_number i)));
    [|apply absorbed_init].
  intros. by apply taken_sha.
Qed.

Lemma outputs_spec tx : hash_outputs tx = Spec.hash256 (concat (Spec.txout <$> output tx)).
Proof.
  apply double_done. rewrite <- (app_nil_l (concat _)).
  apply (taken_foldl absorbed (push_tx_output push_sha)); [|apply absorbed_init].
  apply taken_output, taken_sha.
Qed.

Lemma legacy_absorbed tx : absorbed (push_tx push_sha tx false SHA256_INIT) (Spec.stripped tx).
Proof. apply (taken_tx _ _ taken_sha tx false _ []), absorbed_init. Qed.

(** What has been hashed before the signature type. *)
Lemma segwit_absorbed tx i code :
  match in_amount i with
  | None => hash_for_segwit SHA256_INIT tx i code = None
  | Some amount => exists c, hash_for_segwit SHA256_INIT tx i code = Some c /\
      absorbed c (le_bytes 4 (version tx)
        ++ Spec.hash256 (concat (Spec.outpoint <$> input tx))
        ++ Spec.hash256 (concat ((fun i => le_bytes 4 (sequence_number i)) <$> input tx))
        ++ Spec.outpoint i ++ Spec.var_bytes code ++ le_bytes 8 amount
        ++ le_bytes 4 (sequence_number i)
        ++ Spec.hash256 (concat (Spec.txout <$> output tx)) ++ le_bytes 4 (lock_time tx))
  end.
Proof.
  unfold hash_for_segwit. destruct (in_amount i) as [amount|]; [|done].
  cbn [mbind option_bind]. eexists. split; [reflexivity|]. unfold Spec.outpoint at 2.
  rewrite <- prevouts_spec, <- sequence_spec, <- outputs_spec, !app_assoc.
  generalize (hash_prevouts tx) (hash_sequence tx) (hash_outputs tx). intros hp hs ho.
  apply taken_sha, taken_sha, taken_sha, taken_sha, (taken_blob _ _ taken_sha).
  apply taken_sha, taken_sha, taken_sha, taken_sha.
  apply (absorbed_update _ []), absorbed_init.
Qed.

Lemma sighash_eq tx n ws :
  sha256_tx_for_sig tx n ws =
    (i ← input tx !! n;
     assert! others_unsigned n (input tx);
     match ws with
     | Some code =>
         amount ← in_amount i; Some (Spec.hash256 (Spec.sig_preimage tx i amount code))
     | None => Some (Spec.hash256 (Spec.stripped tx ++ le_bytes 4 SIGHASH_ALL))
     end).
Proof.
  unfold sha256_tx_for_sig. destruct (input tx !! n) as [i|]; [|done]. cbn [mbind option_bind].
  destruct (others_unsigned n (input tx)); [|done]. cbn [c_assert]. destruct ws as [code|].
  - pose proof (segwit_absorbed tx i code) as S. destruct (in_amount i) as [amount|].
    + destruct S as (c & -> & S). cbn [mbind option_bind]. f_equal. apply double_done.
      unfold Spec.sig_preimage. rewrite !app_assoc. apply taken_sha. by rewrite <- !app_assoc.
    + by rewrite S.
  - cbn [mbind option_bind]. f_equal. apply double_done, taken_sha, legacy_absorbed.
Qed.

(** The hash that signatures commit to is that of BIP 143 when a witness script is
    given, and the legacy one without; the call aborts exactly when the input does not
    exist, another input has a script, or (BIP 143) the amount is unknown. *)
Theorem sighash_spec tx n ws :
  sha256_tx_for_sig tx n ws =
    (i ← input tx !! n;
     assert! others_unsigned n (input tx);
     match ws with
     | Some code =>
         amount ← in_amount i; Some (Spec.hash256 (Spec.sig_preimage tx i amount code))
     | None => Some (Spec.hash256 (Spec.stripped tx ++ le_bytes 4 SIGHASH_ALL))
     end).
Proof. apply sighash_eq. Qed.

(** ** Reading back what was written *)

Lemma compact_pos v : (1 <= length (Spec.compact v))%nat.
Proof. unfold Spec.compact. repeat case_match; simpl; lia. Qed.

Lemma adjust_size_fits size count : 0 < size -> 0 <= count -> size * count < 2 ^ 64 - tal_hdr_size ->
  adjust_size size count = Some (size * count).
Proof.
  unfold adjust_size, tal_hdr_size. intros Hs Hc L. assert (0 <= size * count) by lia.
  rewrite (u64_small (size * count)) by (unfold fits; lia).
  replace (size * count / size) with count by (rewrite Z.mul_comm, Z.div_mul; lia).
  rewrite Z.eqb_refl, andb_false_r, u64_small by (unfold fits; lia).
  destruct (Z.ltb_spec (size * count + 40) 40); [lia|done].
Qed.

Lemma reads_tal_arr size count : 0 < size -> 0 <= count -> size * count < 2 ^ 64 - tal_hdr_size ->
  reads (tal_arr size count) [] tt.
Proof. intros ??? rest _. unfold tal_arr. by rewrite adjust_size_fits. Qed.

(** Nothing is to be read from a buffer that cannot exist. *)
Lemma reads_fitting {A} (p : pulling A) d x :
  (Z.of_nat (length d) < max_buffer -> reads p d x) -> reads p d x.
Proof. intros H rest R. apply H; [|done]. rewrite length_app in R. lia. Qed.

(** A count is accepted when the items that follow have at least [mult] bytes each. *)
Lemma reads_length {B} mult n (k : Z -> pulling B) d y : 0 <= n -> 1 <= mult ->
  n * mult <= Z.of_nat (length d) -> (n * mult < max_buffer -> reads (k n) d y) ->
  reads (pull_bind (pull_length mult) k) (Spec.compact n ++ d) y.
Proof.
  intros Hn Hm L Hk rest R. rewrite <- app_assoc in *. rewrite !length_app in R.
  unfold pull_bind at 1, pull_length. unfold pull_bind at 1. unfold max_buffer in R.
  rewrite <- compact_put in * by done.
  rewrite (reads_varint n) by (unfold fits, max_buffer; rewrite ?length_app; lia).
  cbn [mbind option_bind]. unfold pull_bind, cursor_left, cursor_max.
  cbn [mbind option_bind default from_option id]. rewrite u64_small by (unfold fits; lia).
  cbn. rewrite length_app.
  destruct (Z.ltb_spec (Z.of_nat (length d + length rest)) (n * mult)); [lia|].
  cbn. apply Hk; unfold max_buffer; rewrite ?length_app; lia.
Qed.

Lemma reads_count {A B} (f : A -> bytes) l mult (k : Z -> pulling B) d y :
  1 <= mult -> (forall x, x ∈ l -> mult <= Z.of_nat (length (f x))) ->
  (Z.of_nat (length l) * mult < max_buffer ->
   reads (k (Z.of_nat (length l))) (concat (f <$> l) ++ d) y) ->
  reads (pull_bind (pull_length mult) k) (Spec.vector f l ++ d) y.
Proof.
  intros Hm Hl Hk. unfold Spec.vector. rewrite <- app_assoc.
  assert (Z.of_nat (length l) * mult <= Z.of_nat (length (concat (f <$> l)))) as L.
  { clear Hk. induction l as [|x l IH]; [simpl; lia|]. csimpl. rewrite length_app.
    specialize (Hl x ltac:(set_solver)) as Hx. specialize (IH ltac:(set_solver)). lia. }
  apply reads_length; [lia|done| |done]. rewrite length_app. lia.
Qed.

Lemma reads_blob b : reads pull_blob (Spec.var_bytes b) b.
Proof.
  apply reads_length; [lia|lia|lia|]. unfold max_buffer. intros L.
  eapply (reads_bind _ _ [] b); [apply reads_tal_arr; unfold tal_hdr_size; lia|].
  eapply reads_bind_ret; [apply reads_pull|]. apply reads_ret.
Qed.

(** *** Well-formed transactions *)

Definition input_ok (i : bitcoin_tx_input) : Prop :=
  length (in_txid i) = 32%nat /\ fits 32 (in_index i) /\ fits 32 (sequence_number i).
Definition output_ok (o : bitcoin_tx_output) : Prop := fits 64 (out_amount o).
Definition tx_ok (tx : bitcoin_tx) : Prop :=
  fits 32 (version tx) /\ fits 32 (lock_time tx) /\ input tx <> [] /\
  Forall input_ok (input tx) /\ Forall output_ok (output tx).

(** An input as it is read back: the empty script and the empty witness are NULL, and
    the amount is not written. *)
Definition some_nonempty {A} (o : option (list A)) : option (list A) :=
  match o with
  | Some [] => None
  | o => o
  end.

Definition input_read (junk : option Z) (i : bitcoin_tx_input) : bitcoin_tx_input :=
  TxInput (in_txid i) (in_index i) (some_nonempty (in_script i)) (sequence_number i) junk
    (some_nonempty (witness i)).

Definition tx_read (junk : nat -> option Z) (tx : bitcoin_tx) : bitcoin_tx :=
  set_input (imap (fun k => input_read (junk k)) (input tx)) tx.

Lemma reads_le32 v : fits 32 v -> reads pull_le32 (le_bytes 4 v) v.
Proof. apply (reads_le 4). Qed.

Lemma reads_txid i : length (in_txid i) = 32%nat -> reads pull_sha256_double (in_txid i) (in_txid i).
Proof.
  intros L. eapply reads_bind_ret; [apply reads_pull_n; by rewrite L|]. apply reads_ret.
Qed.

Lemma reads_input junk i : input_ok i ->
  reads (pull_input junk) (Spec.txin i) (set_witness None (input_read junk i)).
Proof.
  intros (Lt & Hi & Hs). unfold Spec.txin, Spec.outpoint, Spec.var_bytes. rewrite <- !app_assoc.
  eapply reads_bind; [by apply reads_txid|]. eapply reads_bind; [by apply reads_le32|].
  apply reads_length; [lia|lia|rewrite length_app; lia|]. unfold max_buffer. intros L.
  eapply (reads_bind _ _ []); [apply reads_tal_arr; unfold tal_hdr_size; lia|].
  eapply reads_bind; [apply reads_pull|].
  eapply reads_bind_ret; [by apply reads_le32|]. unfold input_read, set_witness. cbn.
  destruct (in_script i) as [[|b s]|]; apply reads_ret.
Qed.

Lemma reads_output o : output_ok o -> reads pull_output (Spec.txout o) o.
Proof.
  intros H. eapply reads_bind; [by apply (reads_le 8)|].
  eapply reads_bind_ret; [apply reads_blob|]. destruct o. apply reads_ret.
Qed.

Lemma reads_witness x i :
  reads (pull_witness x) (Spec.stack i) (set_witness (some_nonempty (witness i)) x).
Proof.
  unfold Spec.stack. rewrite <- (app_nil_r (Spec.vector _ _)).
  apply reads_count; [lia| |].
  { intros b _. unfold Spec.var_bytes. rewrite length_app. pose proof (compact_pos (Z.of_nat (length b))). lia. }
  rewrite app_nil_r. unfold max_buffer. intros L. destruct (witness i) as [[|b w]|]; cbn [default from_option id].
  - apply reads_ret.
  - rewrite Nat2Z.id. destruct (Z.eqb_spec (Z.of_nat (length (b :: w))) 0); [simpl in *; lia|].
    eapply (reads_bind _ _ []); [apply reads_tal_arr; unfold sizeof_ptr, tal_hdr_size; cbn in *; lia|].
    eapply reads_bind_ret; [apply (reads_n _ Spec.var_bytes id); intros; apply reads_blob|].
    rewrite list_fmap_id. apply reads_ret.
  - apply reads_ret.
Qed.

Lemma zip_with_seq {A B} (f : nat -> A -> B) l k :
  zip_with f (seq k (length l)) l = imap (fun i => f (k + i)%nat) l.
Proof.
  revert k. induction l as [|x l IH]; intros k; [done|]. csimpl. rewrite IH, Nat.add_0_r. f_equal.
  apply imap_ext. intros. simpl. f_equal. lia.
Qed.

(** The two passes over the inputs, with and without witnesses in the serialisation. *)
Lemma inputs_read_extended junk l :
  zip_with (fun x i => set_witness (some_nonempty (witness i)) x)
    (imap (fun k i => set_witness None (input_read (junk k) i)) l) l
  = imap (fun k => input_read (junk k)) l.
Proof.
  revert junk. induction l as [|i l IH]; intros junk; [done|]. csimpl. f_equal.
  apply (IH (junk ∘ S)).
Qed.

Lemma inputs_read_stripped junk l : existsb (fun i => match witness i with Some _ => true | None => false end) l = false ->
  set_witness None <$> imap (fun k i => set_witness None (input_read (junk k) i)) l
  = imap (fun k => input_read (junk k)) l.
Proof.
  revert junk. induction l as [|i l IH]; intros junk E; [done|]. simpl in E.
  apply orb_false_iff in E as [E1 E2]. csimpl. f_equal.
  - unfold set_witness, input_read. cbn. by destruct (witness i).
  - apply (IH (junk ∘ S) E2).
Qed.

Lemma txin_size i : input_ok i -> 41 <= Z.of_nat (length (Spec.txin i)).
Proof.
  intros [L _]. unfold Spec.txin, Spec.outpoint, Spec.var_bytes.
  rewrite !length_app, !length_le_bytes, L. pose proof (compact_pos (Z.of_nat (length (default [] (in_script i))))).
  lia.
Qed.

Lemma txout_size o : 9 <= Z.of_nat (length (Spec.txout o)).
Proof.
  unfold Spec.txout, Spec.var_bytes. rewrite !length_app, length_le_bytes.
  pose proof (compact_pos (Z.of_nat (length (out_script o)))). lia.
Qed.

(** The part after the number of inputs; [flag] says whether witnesses follow. *)
Lemma reads_body junk tx (flag : bool) : tx_ok tx -> (flag = false -> uses_witness tx = false) ->
  Z.of_nat (length (input tx)) * 41 < max_buffer ->
  reads (pull_tx_body junk (version tx) (if flag then 1 else 0) (Z.of_nat (length (input tx))))
    (concat (Spec.txin <$> input tx) ++ Spec.vector Spec.txout (output tx)
       ++ (if flag then concat (Spec.stack <$> input tx) else []) ++ le_bytes 4 (lock_time tx))
    (Some (tx_read junk tx)).
Proof.
  intros (Hv & Hl & _ & Hi & Ho) Hf. unfold max_buffer. intros L. unfold pull_tx_body.
  rewrite Nat2Z.id.
  eapply (reads_bind _ _ []); [apply reads_tal_arr; unfold sizeof_input, tal_hdr_size; lia|].
  eapply reads_bind.
  { apply (reads_each _ _ (fun k i => set_witness None (input_read (junk k) i))).
    apply Forall2_same_length_lookup_2; [by rewrite length_seq|]. intros k x i _ Ei.
    apply reads_input. by eapply Forall_lookup_1 in Ei. }
  rewrite zip_with_seq. cbn [Nat.add].
  apply reads_count; [lia|intros; apply txout_size|]. unfold max_buffer. intros L2.
  eapply (reads_bind _ _ []); [apply reads_tal_arr; unfold sizeof_output, tal_hdr_size; lia|].
  rewrite Nat2Z.id. eapply reads_bind.
  { apply (reads_n _ _ id). intros o Eo. apply reads_output. by eapply Forall_forall in Eo. }
  rewrite list_fmap_id. eapply (reads_bind _ _ _ _ (imap (fun k => input_read (junk k)) (input tx))).
  { destruct flag; cbn [Z.land Pos.land SEGREGATED_WITNESS_FLAG Z.eqb].
    - rewrite <- inputs_read_extended. apply (reads_each pull_witness).
      apply Forall2_same_length_lookup_2; [by rewrite length_imap|]. intros. apply reads_witness.
    - rewrite inputs_read_stripped by (by apply Hf). apply reads_ret. }
  eapply reads_bind_ret; [by apply reads_le32|]. intros rest _. by destruct tx.
Qed.

Lemma reads_tx junk tx : tx_ok tx ->
  reads (pull_bitcoin_tx junk) (Spec.transaction tx) (Some (tx_read junk tx)).
Proof.
  intros Hok. pose proof Hok as (Hv & _ & Hne & Hi & _).
  assert (Hsz : forall x, x ∈ input tx -> 32 + 4 + 4 + 1 <= Z.of_nat (length (Spec.txin x))).
  { intros x Hx. apply txin_size. by eapply Forall_forall in Hx. }
  assert (Z.of_nat (length (input tx)) <> 0) by (destruct (input tx); [done|simpl; lia]).
  unfold Spec.transaction. destruct (uses_witness tx) eqn:W.
  - unfold Spec.extended. eapply reads_bind; [by apply reads_le32|].
    change [0; 1] with (Spec.compact 0 ++ [1]). rewrite <- app_assoc.
    apply reads_length; [lia|lia|lia|]. intros _. cbn [Z.eqb].
    eapply reads_bind; [apply (reads_pull_n 1 [1]); done|].
    cbn [copied default from_option id le_val Z.eqb Z.add Z.mul Z.of_nat SEGREGATED_WITNESS_FLAG Pos.eqb].
    apply reads_count; [lia|done|]. intros L. by apply (reads_body junk tx true).
  - unfold Spec.stripped. eapply reads_bind; [by apply reads_le32|].
    apply reads_count; [lia|done|]. intros L.
    destruct (Z.eqb_spec (Z.of_nat (length (input tx))) 0); [done|].
    by apply (reads_body junk tx false).
Qed.

Lemma first_line_hex s : Forall (fun c => c <> chr_newline) s -> first_line s = s.
Proof.
  induction 1 as [|c s Hc _ IH]; [done|]. simpl. rewrite IH. by destruct (Z.eqb_spec c chr_newline).
Qed.

Lemma hexchar_printable v c : 0 <= v -> hexchar v = Some c -> c <> chr_newline.
Proof.
  unfold hexchar, chr_0, chr_a, chr_newline. intros. repeat case_match; simplify_eq; lia.
Qed.

Lemma hex_chars_printable b s : bytes_ok b -> hex_chars b = Some s ->
  Forall (fun c => c <> chr_newline) s.
Proof.
  intros Hb. revert s. induction Hb as [|c b Hc _ IH]; intros s E; simpl in E; simplify_eq; [done|].
  destruct (nibbles c Hc) as (Hi & Lo & _).
  destruct (hexchar (Z.shiftr c 4)) as [hi|] eqn:E1; [|done].
  destruct (hexchar (Z.land c 15)) as [lo|] eqn:E2; [|done]. cbn in E.
  destruct (hex_chars b) as [t|]; [|done]. simpl in E. simplify_eq.
  apply hexchar_printable in E1, E2; [|lia|lia]. constructor; [done|]. constructor; auto.
Qed.

(** All bytes of the serialised transaction are bytes when those of its fields are. *)
Definition tx_bytes_ok (tx : bitcoin_tx) : Prop :=
  Forall (fun i => bytes_ok (in_txid i) /\ bytes_ok (default [] (in_script i)) /\
                   Forall bytes_ok (default [] (witness i))) (input tx) /\
  Forall (fun o => bytes_ok (out_script o)) (output tx).

Lemma compact_ok v : 0 <= v -> bytes_ok (Spec.compact v).
Proof.
  intros H. unfold Spec.compact. destruct (Z.ltb_spec v 0xfd); [repeat constructor; lia|].
  repeat case_match; constructor; try lia; apply le_bytes_ok.
Qed.

Lemma bytes_ok_app a b : bytes_ok (a ++ b) <-> bytes_ok a /\ bytes_ok b.
Proof. apply Forall_app. Qed.

Lemma concat_ok {A} (f : A -> bytes) l : (forall x, x ∈ l -> bytes_ok (f x)) ->
  bytes_ok (concat (f <$> l)).
Proof.
  intros H. induction l as [|x l IH]; csimpl; [constructor|]. apply bytes_ok_app. set_solver.
Qed.

Lemma vector_ok {A} (f : A -> bytes) l : (forall x, x ∈ l -> bytes_ok (f x)) ->
  bytes_ok (Spec.vector f l).
Proof.
  intros H. apply bytes_ok_app. split; [apply compact_ok; lia|by apply concat_ok].
Qed.

Lemma var_bytes_ok b : bytes_ok b -> bytes_ok (Spec.var_bytes b).
Proof. intros H. apply bytes_ok_app. split; [apply compact_ok; lia|done]. Qed.
#[local] Hint Resolve le_bytes_ok var_bytes_ok : wire.

Lemma transaction_ok tx : tx_bytes_ok tx -> bytes_ok (Spec.transaction tx).
Proof.
  intros [Hi Ho]. rewrite Forall_forall in Hi. rewrite Forall_forall in Ho.
  assert (forall x, x ∈ input tx -> bytes_ok (Spec.txin x)).
  { intros x Hx. destruct (Hi x Hx) as (? & ? & _). unfold Spec.txin, Spec.outpoint.
    rewrite !bytes_ok_app. auto with wire. }
  assert (forall x, x ∈ output tx -> bytes_ok (Spec.txout x)).
  { intros x Hx. unfold Spec.txout. rewrite !bytes_ok_app. auto with wire. }
  assert (forall x, x ∈ input tx -> bytes_ok (Spec.stack x)).
  { intros x Hx. destruct (Hi x Hx) as (_ & _ & Hw). apply vector_ok. intros y Hy.
    apply var_bytes_ok. rewrite Forall_forall in Hw. auto. }
  unfold Spec.transaction, Spec.extended, Spec.stripped.
  destruct (uses_witness tx); rewrite !bytes_ok_app; repeat split;
    auto using vector_ok, concat_ok with wire.
  repeat constructor; lia.
Qed.

Lemma read_stripped junk l : Spec.txin <$> imap (fun k => input_read (junk k)) l = Spec.txin <$> l.
Proof.
  revert junk. induction l as [|i l IH]; intros junk; [done|]. csimpl. f_equal.
  - unfold Spec.txin, Spec.outpoint, input_read. cbn. by destruct (in_script i) as [[|]|].
  - apply (IH (junk ∘ S)).
Qed.

(** Decoding the hexadecimal form of [b], as the two functions that take hex do. *)
Lemma hex_decode_sized b s : length s = (2 * length b)%nat -> hex_decode s (length b) = Some b ->
  hex_decode s (hex_data_size (length s)) = Some b.
Proof. intros L E. unfold hex_data_size. by rewrite L, Nat.div2_double. Qed.

(** C28. Parsing inverts serialising: from the bytes of a well-formed transaction, whatever
    follows them, [pull_bitcoin_tx] reads the transaction back and stops behind it (the
    amounts, which are not part of the format, and the difference between NULL and empty
    excepted), and the transaction keeps its id; [bitcoin_tx_from_hex] does so from hex. *)
Theorem tx_roundtrip junk tx rest : tx_ok tx ->
  Z.of_nat (length (linearize_tx tx ++ rest)) < max_buffer ->
  pull_bitcoin_tx junk (Some (linearize_tx tx ++ rest)) = Some (Some (tx_read junk tx), Some rest) /\
  bitcoin_txid (tx_read junk tx) = bitcoin_txid tx /\
  (tx_bytes_ok tx -> exists s,
     hex_encode (linearize_tx tx) (hex_str_size (length (linearize_tx tx))) = Some (Some (s ++ [0])) /\
     bitcoin_tx_from_hex junk s = Some (Some (tx_read junk tx))).
Proof.
  intros Hok L. rewrite linearize_spec in *. pose proof (reads_tx junk tx Hok) as R.
  split; [by apply R|]. split.
  { rewrite !txid_spec. unfold Spec.stripped, Spec.vector, tx_read, set_input. cbn.
    by rewrite read_stripped, length_imap. }
  intros Hb. apply transaction_ok in Hb.
  destruct (hex_chars_roundtrip _ Hb) as (s & E & Ls & D). exists s. split.
  { unfold hex_encode. rewrite Nat.ltb_irrefl, E. done. }
  unfold bitcoin_tx_from_hex. rewrite first_line_hex by (by eapply hex_chars_printable).
  rewrite (hex_decode_sized _ _ Ls D). specialize (R []). rewrite app_nil_r in R.
  rewrite R; [done|]. rewrite length_app in L. lia.
Qed.

(** ** Reversed hexadecimal *)

Lemma lookup_swap_bytes l k i : (k < length l - 1 - k)%nat ->
  swap_bytes l k !! i =
    if decide (i = k \/ i = length l - 1 - k)%nat then l !! (length l - 1 - i)%nat else l !! i.
Proof.
  intros Hk. unfold swap_bytes.
  destruct (lookup_lt_is_Some_2 l k) as [a Ea]; [lia|]. rewrite Ea.
  destruct (lookup_lt_is_Some_2 l (length l - 1 - k)%nat) as [b Eb]; [lia|]. rewrite Eb.
  case_decide as D.
  - destruct D as [-> | ->].
    + rewrite list_lookup_insert_ne by lia. rewrite list_lookup_insert_eq by lia. done.
    + rewrite list_lookup_insert_eq by (rewrite length_insert; lia).
      replace (length l - 1 - (length l - 1 - k))%nat with k by lia. done.
  - rewrite !list_lookup_insert_ne by lia. done.
Qed.

Lemma length_swap_bytes l k : length (swap_bytes l k) = length l.
Proof. unfold swap_bytes. repeat case_match; rewrite ?length_insert; done. Qed.

Lemma swaps_lookup l k i : (2 * k <= length l)%nat ->
  let l' := foldl swap_bytes l (seq 0 k) in
  length l' = length l /\
  l' !! i = if decide (i < k \/ length l - k <= i < length l)%nat
            then l !! (length l - 1 - i)%nat else l !! i.
Proof.
  revert i. induction k as [|k IH]; intros i Hk; cbn zeta.
  { split; [done|]. case_decide; [lia|done]. }
  rewrite seq_S, foldl_app. cbn [foldl Nat.add]. destruct (IH i ltac:(lia)) as [L E].
  rewrite length_swap_bytes. split; [done|].
  rewrite lookup_swap_bytes by lia. rewrite L.
  destruct (decide (i = k \/ i = length l - 1 - k)%nat) as [D|D].
  - destruct (IH (length l - 1 - i)%nat ltac:(lia)) as [_ E']. rewrite E'. clear E E'.
    repeat case_decide; try lia; done.
  - rewrite E. clear E. repeat case_decide; try lia; done.
Qed.

Lemma reverse_bytes_rev l : reverse_bytes l = reverse l.
Proof.
  assert (2 * Nat.div2 (length l) <= length l)%nat as H2.
  { pose proof (Nat.div2_odd (length l)). lia. }
  apply list_eq. intros i. destruct (swaps_lookup l (Nat.div2 (length l)) i H2) as [_ E].
  unfold reverse_bytes. rewrite E. destruct (decide (i < length l)%nat) as [Hi|Hi].
  - rewrite reverse_lookup by done. case_decide as D; [f_equal; lia|].
    f_equal. pose proof (Nat.div2_odd (length l)). destruct (Nat.odd (length l)); simpl in *; lia.
  - rewrite (lookup_ge_None_2 (reverse l)) by (rewrite length_reverse; lia).
    rewrite (lookup_ge_None_2 l i) by lia. case_decide; [lia|done].
Qed.

(** A transaction id (and a block id) printed the way bitcoind prints it, in reversed
    hex with a final NUL, is read back unchanged; with less room than that nothing is
    printed, and nothing but 64 hex digits is read. *)
Theorem txid_hex_roundtrip txid : bytes_ok txid -> length txid = 32%nat ->
  (exists s, length s = 64%nat /\
     (forall n, (65 <= n)%nat -> bitcoin_txid_to_hex txid n = Some (Some (s ++ [0]))) /\
     (forall n, (n < 65)%nat -> bitcoin_txid_to_hex txid n = Some None) /\
     bitcoin_txid_from_hex s = Some txid /\ bitcoin_blkid_from_hex s = Some txid) /\
  forall s t, bitcoin_txid_from_hex s = Some t -> length s = 64%nat /\ length t = 32%nat.
Proof.
  intros Hb L. split.
  - assert (bytes_ok (reverse_bytes txid)) as Hr by (rewrite reverse_bytes_rev; by apply Forall_reverse).
    assert (length (reverse_bytes txid) = 32%nat) as Lr by (by rewrite reverse_bytes_rev, length_reverse).
    destruct (hex_chars_roundtrip _ Hr) as (s & E & Ls & D). rewrite Lr in *. exists s.
    assert (bitcoin_txid_from_hex s = Some txid) as F.
    { unfold bitcoin_txid_from_hex. rewrite D. cbn [mbind option_bind].
      by rewrite !reverse_bytes_rev, reverse_involutive. }
    unfold bitcoin_txid_to_hex, hex_encode. rewrite Lr, E. cbn [hex_str_size Nat.mul Nat.add].
    repeat split; [done| | |done|done]; intros n Hn; destruct (Nat.ltb_spec n 65); [lia|done|done|lia].
  - intros s t E. unfold bitcoin_txid_from_hex in E.
    destruct (hex_decode s 32) as [b|] eqn:D; [|done]. cbn [mbind option_bind] in E. simplify_eq.
    apply hex_decode_length in D as [Lb Ls]. by rewrite reverse_bytes_rev, length_reverse.
Qed.

(** ** Blocks *)

(** A block header as its 80 bytes. *)
Definition hdr_bytes (h : bitcoin_block_hdr) : bytes :=
  le_bytes 4 (hdr_version h) ++ prev_hash h ++ merkle_hash h ++ le_bytes 4 (timestamp h)
    ++ le_bytes 4 (target h) ++ le_bytes 4 (nonce h).

Definition hdr_ok (h : bitcoin_block_hdr) : Prop :=
  fits 32 (hdr_version h) /\ length (prev_hash h) = 32%nat /\ length (merkle_hash h) = 32%nat /\
  fits 32 (timestamp h) /\ fits 32 (target h) /\ fits 32 (nonce h).

Definition block_bytes (h : bitcoin_block_hdr) (txs : list bitcoin_tx) : bytes :=
  hdr_bytes h ++ Spec.vector Spec.transaction txs.

Lemma drop_app_more n k (a b : bytes) : length a = n -> drop (n + k) (a ++ b) = drop k b.
Proof. intros <-. rewrite <- drop_drop. by rewrite drop_app_length. Qed.

Lemma hdr_of_hdr_bytes h : hdr_ok h -> length (hdr_bytes h) = 80%nat /\ hdr_of_bytes (hdr_bytes h) = h.
Proof.
  destruct h as [v p m t g n]. intros (Hv & Hp & Hm & Ht & Hg & Hn). unfold hdr_bytes. cbn in *.
  split; [by rewrite !length_app, !length_le_bytes, Hp, Hm|].
  assert (forall x, fits 32 x -> le_val (le_bytes 4 x) = x) as V.
  { intros x Hx. rewrite le_val_le_bytes, Z.mod_small; [done|]. by unfold fits in Hx. }
  unfold hdr_of_bytes.
  rewrite (drop_app_length' (le_bytes 4 v)), (take_app_length' (le_bytes 4 v)),
    (take_app_length' p) by done.
  rewrite (drop_app_more 4 32), (drop_app_more 4 64), (drop_app_more 4 68), (drop_app_more 4 72) by done.
  rewrite (drop_app_length' p), (drop_app_more 32 32), (drop_app_more 32 36), (drop_app_more 32 40) by done.
  rewrite (take_app_length' m), (drop_app_length' m), (drop_app_more 32 4), (drop_app_more 32 8) by done.
  rewrite take_app_length', drop_app_length', take_app_length', (drop_app_more 4 4) by done.
  rewrite drop_app_length' by done. rewrite firstn_all2 by (rewrite length_le_bytes; lia). by rewrite !V.
Qed.

Lemma reads_block junk h txs : hdr_ok h -> Forall tx_ok txs ->
  reads (pull_block junk) (block_bytes h txs)
    (BitcoinBlock h (imap (fun k tx => Some (tx_read (junk k) tx)) txs)).
Proof.
  intros Hh Ht. destruct (hdr_of_hdr_bytes h Hh) as [L E].
  apply reads_fitting. unfold block_bytes, Spec.vector. rewrite !length_app. intros M.
  assert (length txs <= length (concat (Spec.transaction <$> txs)))%nat as N.
  { clear. induction txs as [|tx txs IH]; [simpl; lia|]. csimpl. rewrite length_app.
    assert (1 <= length (Spec.transaction tx))%nat; [|lia]. unfold Spec.transaction.
    case_match; unfold Spec.extended, Spec.stripped; rewrite length_app, length_le_bytes; lia. }
  unfold max_buffer in M.
  eapply reads_bind; [by apply reads_pull_n; rewrite L|]. rewrite <- compact_put by lia.
  eapply reads_bind; [apply reads_varint; unfold fits; lia|].
  eapply (reads_bind _ _ []); [apply reads_tal_arr; unfold sizeof_ptr, tal_hdr_size; lia|].
  rewrite Nat2Z.id. eapply reads_bind_ret.
  - apply (reads_each _ _ (fun k tx => Some (tx_read (junk k) tx))).
    apply Forall2_same_length_lookup_2; [by rewrite length_seq|]. intros k x tx _ Etx.
    apply reads_tx. by eapply Forall_lookup_1 in Etx.
  - rewrite zip_with_seq. cbn [copied default from_option id]. rewrite E. apply reads_ret.
Qed.

Lemma block_bytes_ok h txs : bytes_ok (prev_hash h) -> bytes_ok (merkle_hash h) ->
  Forall tx_bytes_ok txs -> bytes_ok (block_bytes h txs).
Proof.
  intros Hp Hm Ht. unfold block_bytes, hdr_bytes. rewrite !bytes_ok_app. repeat split; auto with wire.
  apply vector_ok. intros tx Htx. apply transaction_ok. by eapply Forall_forall in Htx.
Qed.

Lemma strip_newline s : Forall (fun c => c <> chr_newline) s ->
  match last s with
  | Some c => if c =? chr_newline then take (length s - 1) s else s
  | None => s
  end = s.
Proof.
  intros H. destruct (last s) as [c|] eqn:E; [|done].
  apply last_Some_elem_of, (proj1 (Forall_forall _ _) H) in E.
  by destruct (Z.eqb_spec c chr_newline).
Qed.

(** A block written as header, number and transactions, in hex with or without a
    newline, is read back: every transaction, in order, and nothing else. *)
Theorem block_roundtrip junk h txs : hdr_ok h -> Forall tx_ok txs ->
  bytes_ok (prev_hash h) -> bytes_ok (merkle_hash h) -> Forall tx_bytes_ok txs ->
  Z.of_nat (length (block_bytes h txs)) < max_buffer ->
  let b := BitcoinBlock h (imap (fun k tx => Some (tx_read (junk k) tx)) txs) in
  exists s, hex_chars (block_bytes h txs) = Some s /\
    bitcoin_block_from_hex junk s = Some (Some b) /\
    bitcoin_block_from_hex junk (s ++ [chr_newline]) = Some (Some b).
Proof.
  intros Hh Ht Hp Hm Hb L b. pose proof (block_bytes_ok h txs Hp Hm Hb) as Hbb.
  destruct (hex_chars_roundtrip _ Hbb) as (s & E & Ls & D). exists s. split; [done|].
  pose proof (reads_block junk h txs Hh Ht []) as R. rewrite app_nil_r in R. specialize (R L).
  pose proof (hex_decode_sized _ _ Ls D) as D'.
  split; unfold bitcoin_block_from_hex.
  - rewrite strip_newline by (by eapply hex_chars_printable). by rewrite D', R.
  - rewrite last_snoc, Z.eqb_refl, length_app, take_app_length' by (simpl; lia).
    by rewrite D', R.
Qed.

(** ** Examples *)

Module DemoTx.
(** A spend of one output to two, with a witness of two elements. *)
Definition tx : bitcoin_tx :=
  BitcoinTx 2 [TxInput (replicate 32 7) 1 None 0xFFFFFFFE (Some 5000) (Some [[1; 2; 3]; []])]
    [TxOutput 1000 [0; 20]; TxOutput 3500 []] 500000.

Lemma tx_is_ok : tx_ok tx /\ tx_bytes_ok tx.
Proof.
  assert (bytes_ok (replicate 32 7)) as B by (apply Forall_replicate; lia).
  repeat first [done | split | apply Forall_cons | apply Forall_nil; done | constructor];
    try (unfold fits; cbn; lia); done.
Qed.

Lemma tx_roundtrip_witness :
  pull_bitcoin_tx (fun _ => None) (Some (linearize_tx tx ++ [42]))
  = Some (Some (tx_read (fun _ => None) tx), Some [42]).
Proof.
  destruct tx_is_ok as [Hok _].
  destruct (tx_roundtrip (fun _ => None) tx [42] Hok) as [R _]; [by vm_compute|exact R].
Defined.

Lemma txid_hex_roundtrip_witness :
  exists s, length s = 64%nat /\ bitcoin_txid_from_hex s = Some (replicate 32 7).
Proof.
  destruct (txid_hex_roundtrip (replicate 32 7)) as [(s & L & _ & _ & E & _) _];
    [apply Forall_replicate; lia|done|]. by exists s.
Defined.

Definition genesis_like : bitcoin_block_hdr :=
  BlockHdr 1 (replicate 32 0) (replicate 32 9) 1231006505 486604799 2083236893.

Lemma block_roundtrip_witness : exists s,
  hex_chars (block_bytes genesis_like [tx; tx]) = Some s /\
  bitcoin_block_from_hex (fun _ _ => None) s
    = Some (Some (BitcoinBlock genesis_like (replicate 2 (Some (tx_read (fun _ => None) tx))))).
Proof.
  destruct tx_is_ok as [Hok Hb].
  assert (forall x, 0 <= x < 256 -> bytes_ok (replicate 32 x)) as B
    by (intros; by apply Forall_replicate).
  destruct (block_roundtrip (fun _ _ => None) genesis_like [tx; tx]) as (s & E & R & _).
  - unfold hdr_ok, fits. cbn. lia.
  - by repeat constructor.
  - apply B. lia.
  - apply B. lia.
  - by repeat constructor.
  - by vm_compute.
  - by exists s.
Defined.

(** A transaction cut short inside an output aborts the process instead of being refused:
    the failing [pull_length] leaves a NULL cursor, on which [pull] asserts. *)
Lemma short_tx_aborts : pull_bitcoin_tx (fun _ => None) (Some (take 67 (linearize_tx tx))) = None.
Proof. by vm_compute. Qed.

(** The bound on the number of inputs is checked with a product that wraps: this count
    passes it with 40 bytes left, and the allocation aborts. *)
Lemma input_count_wraps :
  u64 (449920587163647601 * 41) = 25 /\
  pull_bitcoin_tx (fun _ => None)
    (Some (le_bytes 4 2 ++ varint_put 449920587163647601 ++ replicate 40 0)) = None.
Proof. by vm_compute. Qed.

(** A block is accepted with a NULL transaction in it. *)
Lemma block_with_null_tx :
  exists s, hex_chars (hdr_bytes genesis_like ++ [1] ++ [2; 0; 0; 0] ++ [0] ++ [0]) = Some s /\
    bitcoin_block_from_hex (fun _ _ => None) s = Some (Some (BitcoinBlock genesis_like [None])).
Proof. eexists. split; [vm_compute; reflexivity|by vm_compute]. Qed.
End DemoTx.
