(* ===== verification/Ripemd160.v ===== *)
(** * RIPEMD-160

    src/lightning/ccan/ccan/crypto/ripemd160/ripemd160.c (the non-OpenSSL build), in
    the same shape as [Sha256]. *)
From S2P Require Import Prelude HashSpec BlockHash.
Local Open Scope Z_scope.

(** [~x] on 32 bits. *)
Definition not32 (x : Z) : Z := Z.lxor x 0xFFFFFFFF.

Definition f1 (x y z : Z) : Z := Z.lxor (Z.lxor x y) z.
Definition f2 (x y z : Z) : Z := Z.lor (Z.land x y) (Z.land (not32 x) z).
Definition f3 (x y z : Z) : Z := Z.lxor (Z.lor x (not32 y)) z.
Definition f4 (x y z : Z) : Z := Z.lor (Z.land x z) (Z.land y (not32 z)).
Definition f5 (x y z : Z) : Z := Z.lxor x (Z.lor y (not32 z)).

Definition rol (x i : Z) : Z := Z.lor (u32 (Z.shiftl x i)) (Z.shiftr x (32 - i)).

(** The new values of [*a] and [*c]. *)
Definition Round (a b c d e f x k r : Z) : Z * Z :=
  (u32 (rol (u32 (a + f + x + k)) r + e), rol c 10).

Definition R11 (a b c d e x r : Z) := Round a b c d e (f1 b c d) x 0 r.
Definition R21 (a b c d e x r : Z) := Round a b c d e (f2 b c d) x 0x5A827999 r.
Definition R31 (a b c d e x r : Z) := Round a b c d e (f3 b c d) x 0x6ED9EBA1 r.
Definition R41 (a b c d e x r : Z) := Round a b c d e (f4 b c d) x 0x8F1BBCDC r.
Definition R51 (a b c d e x r : Z) := Round a b c d e (f5 b c d) x 0xA953FD4E r.
Definition R12 (a b c d e x r : Z) := Round a b c d e (f5 b c d) x 0x50A28BE6 r.
Definition R22 (a b c d e x r : Z) := Round a b c d e (f4 b c d) x 0x5C4DD124 r.
Definition R32 (a b c d e x r : Z) := Round a b c d e (f3 b c d) x 0x6D703EF3 r.
Definition R42 (a b c d e x r : Z) := Round a b c d e (f2 b c d) x 0x7A6D76E9 r.
Definition R52 (a b c d e x r : Z) := Round a b c d e (f1 b c d) x 0 r.

(** [uint32_t s[5]] *)
Definition ripemd_state : Type := Z * Z * Z * Z * Z.

(** [le32_to_cpu(chunk[i])] of a 64-byte chunk is [le32_at]. *)
Definition Transform (s : ripemd_state) (chunk : bytes) : ripemd_state :=
  let '(s0, s1, s2, s3, s4) := s in
  let '(a1, b1, c1, d1, e1) := s in
  let '(a2, b2, c2, d2, e2) := s in
  let w0 := le32_at chunk 0 in let w1 := le32_at chunk 1 in
  let w2 := le32_at chunk 2 in let w3 := le32_at chunk 3 in
  let w4 := le32_at chunk 4 in let w5 := le32_at chunk 5 in
  let w6 := le32_at chunk 6 in let w7 := le32_at chunk 7 in
  let w8 := le32_at chunk 8 in let w9 := le32_at chunk 9 in
  let w10 := le32_at chunk 10 in let w11 := le32_at chunk 11 in
  let w12 := le32_at chunk 12 in let w13 := le32_at chunk 13 in
  let w14 := le32_at chunk 14 in let w15 := le32_at chunk 15 in
  let '(a1, c1) := R11 a1 b1 c1 d1 e1 w0 11 in
  let '(a2, c2) := R12 a2 b2 c2 d2 e2 w5 8 in
  let '(e1, b1) := R11 e1 a1 b1 c1 d1 w1 14 in
  let '(e2, b2) := R12 e2 a2 b2 c2 d2 w14 9 in
  let '(d1, a1) := R11 d1 e1 a1 b1 c1 w2 15 in
  let '(d2, a2) := R12 d2 e2 a2 b2 c2 w7 9 in
  let '(c1, e1) := R11 c1 d1 e1 a1 b1 w3 12 in
  let '(c2, e2) := R12 c2 d2 e2 a2 b2 w0 11 in
  let '(b1, d1) := R11 b1 c1 d1 e1 a1 w4 5 in
  let '(b2, d2) := R12 b2 c2 d2 e2 a2 w9 13 in
  let '(a1, c1) := R11 a1 b1 c1 d1 e1 w5 8 in
  let '(a2, c2) := R12 a2 b2 c2 d2 e2 w2 15 in
  let '(e1, b1) := R11 e1 a1 b1 c1 d1 w6 7 in
  let '(e2, b2) := R12 e2 a2 b2 c2 d2 w11 15 in
  let '(d1, a1) := R11 d1 e1 a1 b1 c1 w7 9 in
  let '(d2, a2) := R12 d2 e2 a2 b2 c2 w4 5 in
  let '(c1, e1) := R11 c1 d1 e1 a1 b1 w8 11 in
  let '(c2, e2) := R12 c2 d2 e2 a2 b2 w13 7 in
  let '(b1, d1) := R11 b1 c1 d1 e1 a1 w9 13 in
  let '(b2, d2) := R12 b2 c2 d2 e2 a2 w6 7 in
  let '(a1, c1) := R11 a1 b1 c1 d1 e1 w10 14 in
  let '(a2, c2) := R12 a2 b2 c2 d2 e2 w15 8 in
  let '(e1, b1) := R11 e1 a1 b1 c1 d1 w11 15 in
  let '(e2, b2) := R12 e2 a2 b2 c2 d2 w8 11 in
  let '(d1, a1) := R11 d1 e1 a1 b1 c1 w12 6 in
  let '(d2, a2) := R12 d2 e2 a2 b2 c2 w1 14 in
  let '(c1, e1) := R11 c1 d1 e1 a1 b1 w13 7 in
  let '(c2, e2) := R12 c2 d2 e2 a2 b2 w10 14 in
  let '(b1, d1) := R11 b1 c1 d1 e1 a1 w14 9 in
  let '(b2, d2) := R12 b2 c2 d2 e2 a2 w3 12 in
  let '(a1, c1) := R11 a1 b1 c1 d1 e1 w15 8 in
  let '(a2, c2) := R12 a2 b2 c2 d2 e2 w12 6 in
  let '(e1, b1) := R21 e1 a1 b1 c1 d1 w7 7 in
  let '(e2, b2) := R22 e2 a2 b2 c2 d2 w6 9 in
  let '(d1, a1) := R21 d1 e1 a1 b1 c1 w4 6 in
  let '(d2, a2) := R22 d2 e2 a2 b2 c2 w11 13 in
  let '(c1, e1) := R21 c1 d1 e1 a1 b1 w13 8 in
  let '(c2, e2) := R22 c2 d2 e2 a2 b2 w3 15 in
  let '(b1, d1) := R21 b1 c1 d1 e1 a1 w1 13 in
  let '(b2, d2) := R22 b2 c2 d2 e2 a2 w7 7 in
  let '(a1, c1) := R21 a1 b1 c1 d1 e1 w10 11 in
  let '(a2, c2) := R22 a2 b2 c2 d2 e2 w0 12 in
  let '(e1, b1) := R21 e1 a1 b1 c1 d1 w6 9 in
  let '(e2, b2) := R22 e2 a2 b2 c2 d2 w13 8 in
  let '(d1, a1) := R21 d1 e1 a1 b1 c1 w15 7 in
  let '(d2, a2) := R22 d2 e2 a2 b2 c2 w5 9 in
  let '(c1, e1) := R21 c1 d1 e1 a1 b1 w3 15 in
  let '(c2, e2) := R22 c2 d2 e2 a2 b2 w10 11 in
  let '(b1, d1) := R21 b1 c1 d1 e1 a1 w12 7 in
  let '(b2, d2) := R22 b2 c2 d2 e2 a2 w14 7 in
  let '(a1, c1) := R21 a1 b1 c1 d1 e1 w0 12 in
  let '(a2, c2) := R22 a2 b2 c2 d2 e2 w15 7 in
  let '(e1, b1) := R21 e1 a1 b1 c1 d1 w9 15 in
  let '(e2, b2) := R22 e2 a2 b2 c2 d2 w8 12 in
  let '(d1, a1) := R21 d1 e1 a1 b1 c1 w5 9 in
  let '(d2, a2) := R22 d2 e2 a2 b2 c2 w12 7 in
  let '(c1, e1) := R21 c1 d1 e1 a1 b1 w2 11 in
  let '(c2, e2) := R22 c2 d2 e2 a2 b2 w4 6 in
  let '(b1, d1) := R21 b1 c1 d1 e1 a1 w14 7 in
  let '(b2, d2) := R22 b2 c2 d2 e2 a2 w9 15 in
  let '(a1, c1) := R21 a1 b1 c1 d1 e1 w11 13 in
  let '(a2, c2) := R22 a2 b2 c2 d2 e2 w1 13 in
  let '(e1, b1) := R21 e1 a1 b1 c1 d1 w8 12 in
  let '(e2, b2) := R22 e2 a2 b2 c2 d2 w2 11 in
  let '(d1, a1) := R31 d1 e1 a1 b1 c1 w3 11 in
  let '(d2, a2) := R32 d2 e2 a2 b2 c2 w15 9 in
  let '(c1, e1) := R31 c1 d1 e1 a1 b1 w10 13 in
  let '(c2, e2) := R32 c2 d2 e2 a2 b2 w5 7 in
  let '(b1, d1) := R31 b1 c1 d1 e1 a1 w14 6 in
  let '(b2, d2) := R32 b2 c2 d2 e2 a2 w1 15 in
  let '(a1, c1) := R31 a1 b1 c1 d1 e1 w4 7 in
  let '(a2, c2) := R32 a2 b2 c2 d2 e2 w3 11 in
  let '(e1, b1) := R31 e1 a1 b1 c1 d1 w9 14 in
  let '(e2, b2) := R32 e2 a2 b2 c2 d2 w7 8 in
  let '(d1, a1) := R31 d1 e1 a1 b1 c1 w15 9 in
  let '(d2, a2) := R32 d2 e2 a2 b2 c2 w14 6 in
  let '(c1, e1) := R31 c1 d1 e1 a1 b1 w8 13 in
  let '(c2, e2) := R32 c2 d2 e2 a2 b2 w6 6 in
  let '(b1, d1) := R31 b1 c1 d1 e1 a1 w1 15 in
  let '(b2, d2) := R32 b2 c2 d2 e2 a2 w9 14 in
  let '(a1, c1) := R31 a1 b1 c1 d1 e1 w2 14 in
  let '(a2, c2) := R32 a2 b2 c2 d2 e2 w11 12 in
  let '(e1, b1) := R31 e1 a1 b1 c1 d1 w7 8 in
  let '(e2, b2) := R32 e2 a2 b2 c2 d2 w8 13 in
  let '(d1, a1) := R31 d1 e1 a1 b1 c1 w0 13 in
  let '(d2, a2) := R32 d2 e2 a2 b2 c2 w12 5 in
  let '(c1, e1) := R31 c1 d1 e1 a1 b1 w6 6 in
  let '(c2, e2) := R32 c2 d2 e2 a2 b2 w2 14 in
  let '(b1, d1) := R31 b1 c1 d1 e1 a1 w13 5 in
  let '(b2, d2) := R32 b2 c2 d2 e2 a2 w10 13 in
  let '(a1, c1) := R31 a1 b1 c1 d1 e1 w11 12 in
  let '(a2, c2) := R32 a2 b2 c2 d2 e2 w0 13 in
  let '(e1, b1) := R31 e1 a1 b1 c1 d1 w5 7 in
  let '(e2, b2) := R32 e2 a2 b2 c2 d2 w4 7 in
  let '(d1, a1) := R31 d1 e1 a1 b1 c1 w12 5 in
  let '(d2, a2) := R32 d2 e2 a2 b2 c2 w13 5 in
  let '(c1, e1) := R41 c1 d1 e1 a1 b1 w1 11 in
  let '(c2, e2) := R42 c2 d2 e2 a2 b2 w8 15 in
  let '(b1, d1) := R41 b1 c1 d1 e1 a1 w9 12 in
  let '(b2, d2) := R42 b2 c2 d2 e2 a2 w6 5 in
  let '(a1, c1) := R41 a1 b1 c1 d1 e1 w11 14 in
  let '(a2, c2) := R42 a2 b2 c2 d2 e2 w4 8 in
  let '(e1, b1) := R41 e1 a1 b1 c1 d1 w10 15 in
  let '(e2, b2) := R42 e2 a2 b2 c2 d2 w1 11 in
  let '(d1, a1) := R41 d1 e1 a1 b1 c1 w0 14 in
  let '(d2, a2) := R42 d2 e2 a2 b2 c2 w3 14 in
  let '(c1, e1) := R41 c1 d1 e1 a1 b1 w8 15 in
  let '(c2, e2) := R42 c2 d2 e2 a2 b2 w11 14 in
  let '(b1, d1) := R41 b1 c1 d1 e1 a1 w12 9 in
  let '(b2, d2) := R42 b2 c2 d2 e2 a2 w15 6 in
  let '(a1, c1) := R41 a1 b1 c1 d1 e1 w4 8 in
  let '(a2, c2) := R42 a2 b2 c2 d2 e2 w0 14 in
  let '(e1, b1) := R41 e1 a1 b1 c1 d1 w13 9 in
  let '(e2, b2) := R42 e2 a2 b2 c2 d2 w5 6 in
  let '(d1, a1) := R41 d1 e1 a1 b1 c1 w3 14 in
  let '(d2, a2) := R42 d2 e2 a2 b2 c2 w12 9 in
  let '(c1, e1) := R41 c1 d1 e1 a1 b1 w7 5 in
  let '(c2, e2) := R42 c2 d2 e2 a2 b2 w2 12 in
  let '(b1, d1) := R41 b1 c1 d1 e1 a1 w15 6 in
  let '(b2, d2) := R42 b2 c2 d2 e2 a2 w13 9 in
  let '(a1, c1) := R41 a1 b1 c1 d1 e1 w14 8 in
  let '(a2, c2) := R42 a2 b2 c2 d2 e2 w9 12 in
  let '(e1, b1) := R41 e1 a1 b1 c1 d1 w5 6 in
  let '(e2, b2) := R42 e2 a2 b2 c2 d2 w7 5 in
  let '(d1, a1) := R41 d1 e1 a1 b1 c1 w6 5 in
  let '(d2, a2) := R42 d2 e2 a2 b2 c2 w10 15 in
  let '(c1, e1) := R41 c1 d1 e1 a1 b1 w2 12 in
  let '(c2, e2) := R42 c2 d2 e2 a2 b2 w14 8 in
  let '(b1, d1) := R51 b1 c1 d1 e1 a1 w4 9 in
  let '(b2, d2) := R52 b2 c2 d2 e2 a2 w12 8 in
  let '(a1, c1) := R51 a1 b1 c1 d1 e1 w0 15 in
  let '(a2, c2) := R52 a2 b2 c2 d2 e2 w15 5 in
  let '(e1, b1) := R51 e1 a1 b1 c1 d1 w5 5 in
  let '(e2, b2) := R52 e2 a2 b2 c2 d2 w10 12 in
  let '(d1, a1) := R51 d1 e1 a1 b1 c1 w9 11 in
  let '(d2, a2) := R52 d2 e2 a2 b2 c2 w4 9 in
  let '(c1, e1) := R51 c1 d1 e1 a1 b1 w7 6 in
  let '(c2, e2) := R52 c2 d2 e2 a2 b2 w1 12 in
  let '(b1, d1) := R51 b1 c1 d1 e1 a1 w12 8 in
  let '(b2, d2) := R52 b2 c2 d2 e2 a2 w5 5 in
  let '(a1, c1) := R51 a1 b1 c1 d1 e1 w2 13 in
  let '(a2, c2) := R52 a2 b2 c2 d2 e2 w8 14 in
  let '(e1, b1) := R51 e1 a1 b1 c1 d1 w10 12 in
  let '(e2, b2) := R52 e2 a2 b2 c2 d2 w7 6 in
  let '(d1, a1) := R51 d1 e1 a1 b1 c1 w14 5 in
  let '(d2, a2) := R52 d2 e2 a2 b2 c2 w6 8 in
  let '(c1, e1) := R51 c1 d1 e1 a1 b1 w1 12 in
  let '(c2, e2) := R52 c2 d2 e2 a2 b2 w2 13 in
  let '(b1, d1) := R51 b1 c1 d1 e1 a1 w3 13 in
  let '(b2, d2) := R52 b2 c2 d2 e2 a2 w13 6 in
  let '(a1, c1) := R51 a1 b1 c1 d1 e1 w8 14 in
  let '(a2, c2) := R52 a2 b2 c2 d2 e2 w14 5 in
  let '(e1, b1) := R51 e1 a1 b1 c1 d1 w11 11 in
  let '(e2, b2) := R52 e2 a2 b2 c2 d2 w0 15 in
  let '(d1, a1) := R51 d1 e1 a1 b1 c1 w6 8 in
  let '(d2, a2) := R52 d2 e2 a2 b2 c2 w3 13 in
  let '(c1, e1) := R51 c1 d1 e1 a1 b1 w15 5 in
  let '(c2, e2) := R52 c2 d2 e2 a2 b2 w9 11 in
  let '(b1, d1) := R51 b1 c1 d1 e1 a1 w13 6 in
  let '(b2, d2) := R52 b2 c2 d2 e2 a2 w11 11 in
  (u32 (s1 + c1 + d2), u32 (s2 + d1 + e2), u32 (s3 + e1 + a2), u32 (s4 + a1 + b2),
   u32 (s0 + b1 + c2)).

Definition RIPEMD160_INIT : ctx (St := ripemd_state) :=
  Ctx (0x67452301, 0xEFCDAB89, 0x98BADCFE, 0x10325476, 0xC3D2E1F0) (replicate 64 0) 0.

Definition ripemd160_init : ctx := RIPEMD160_INIT.

Definition ripemd160_update (c : ctx) (p : bytes) : ctx := add Transform c p.

Definition ripemd160_done (c : ctx) : bytes :=
  let sizedesc := le_bytes 8 (u64 (Z.shiftl (ctx_bytes c) 3)) in
  let pad := 0x80 :: replicate 63 0 in
  let c := add Transform c (take (Z.to_nat (1 + (119 - ctx_bytes c mod 64) mod 64)) pad) in
  let c := add Transform c sizedesc in
  let '(s0, s1, s2, s3, s4) := ctx_s c in
  le_bytes 4 s0 ++ le_bytes 4 s1 ++ le_bytes 4 s2 ++ le_bytes 4 s3 ++ le_bytes 4 s4.

Definition ripemd160 (p : bytes) : bytes :=
  ripemd160_done (ripemd160_update ripemd160_init p).

(** "abc" *)
Example ripemd160_abc : ripemd160 [0x61; 0x62; 0x63] =
  be_bytes 20 0x8eb208f7e05d987a9b044a8e98c6b087f15a0bfc.
Proof. vm_compute. reflexivity. Qed.

Lemma length_ripemd160 p : length (ripemd160 p) = 20%nat.
Proof.
  unfold ripemd160, ripemd160_done. destruct (ctx_s _) as [[[[? ?] ?] ?] ?].
  by rewrite !length_app, !length_le_bytes.
Qed.

Lemma ripemd160_ok p : bytes_ok (ripemd160 p).
Proof.
  unfold ripemd160, ripemd160_done. destruct (ctx_s _) as [[[[? ?] ?] ?] ?].
  unfold bytes_ok. rewrite !Forall_app. repeat split; apply le_bytes_ok.
Qed.

(** ** The compression function

    The two interleaved lines of unrolled steps are those of the specification. *)
Section Lines.
Context (X : nat -> Z) (h : ripemd_state).
Implicit Types (body : Z -> Z -> ripemd_state) (l : list nat) (st : ripemd_state).

Lemma left_step j l a b c d e p body st :
  p = Round a b c d e (RIPEMD160.f (j / 16) b c d) (X (nth j RIPEMD160.r 0%nat))
        (nth (j / 16) RIPEMD160.K 0) (nth j RIPEMD160.s 0) ->
  (forall a' c', body a' c' = RIPEMD160.combine h (foldl (RIPEMD160.left X) (e, a', b, c', d) l) st) ->
  (let '(a', c') := p in body a' c')
  = RIPEMD160.combine h (foldl (RIPEMD160.left X) (a, b, c, d, e) (j :: l)) st.
Proof using. intros -> H. apply H. Qed.

Lemma right_step j l a b c d e p body st :
  p = Round a b c d e (RIPEMD160.f (4 - j / 16) b c d) (X (nth j RIPEMD160.r' 0%nat))
        (nth (j / 16) RIPEMD160.K' 0) (nth j RIPEMD160.s' 0) ->
  (forall a' c', body a' c' = RIPEMD160.combine h st (foldl (RIPEMD160.right X) (e, a', b, c', d) l)) ->
  (let '(a', c') := p in body a' c')
  = RIPEMD160.combine h st (foldl (RIPEMD160.right X) (a, b, c, d, e) (j :: l)).
Proof using. intros -> H. apply H. Qed.
End Lines.

Ltac line_steps :=
  repeat (apply left_step; [reflexivity|intros ? ?]; apply right_step; [reflexivity|intros ? ?]).

Lemma Transform_spec s chunk : Transform s chunk = RIPEMD160.compress s chunk.
Proof.
  unfold RIPEMD160.compress, Transform. destruct s as [[[[a b] c] d] e].
  generalize (le32_at chunk) as X. intros X.
  let l := eval vm_compute in (seq 0 80) in change (seq 0 80) with l.
  line_steps. reflexivity.
Qed.

Lemma chain_spec n s m : chain Transform n s m = chain RIPEMD160.compress n s m.
Proof. revert s m. induction n as [|n IH]; intros; simpl; [done|]. by rewrite Transform_spec, IH. Qed.

(** The digest is that of the specification. *)
Lemma ripemd160_spec m : ripemd160 m = RIPEMD160.hash m.
Proof.
  unfold ripemd160. assert (repr Transform RIPEMD160.H0 (ripemd160_update ripemd160_init m) m) as H.
  { apply (add_repr _ _ ripemd160_init []). unfold repr. by rewrite absorb_small by (simpl; lia). }
  apply (finish_repr _ _ _ _ (le_bytes 8) (length_le_bytes 8)) in H.
  unfold ripemd160_done, RIPEMD160.hash. by rewrite <- chain_spec, <- H.
Qed.
