(* ===== verification/CoreSha256.v ===== *)
(** * The SHA-256 of Bitcoin Core

    src/bitcoin/src/crypto/sha256.cpp with the words of crypto/common.h: the portable
    compression function, the class [CSHA256], and the double hash of a 64-byte block that
    [SHA256D64] specialises. [CSHA256_spec] and [TransformD64_spec] show both equal to
    the function of the standard. *)
From S2P Require Import Prelude HashSpec BlockHash Sha256.
Local Open Scope Z_scope.

(** ** crypto/common.h *)
Definition ReadBE32 (ptr : bytes) : Z := be_val (take 4 ptr).
Definition ReadLE32 (ptr : bytes) : Z := le_val (take 4 ptr).
Definition WriteBE32 (x : Z) : bytes := be_bytes 4 x.
Definition WriteLE32 (x : Z) : bytes := le_bytes 4 x.
Definition WriteBE64 (x : Z) : bytes := be_bytes 8 x.
Definition WriteLE64 (x : Z) : bytes := le_bytes 8 x.

(** [while (blocks--)]: one turn per 64-byte chunk. *)
Fixpoint each_block {St} (turn : St -> bytes -> St) (s : St) (chunk : bytes) (blocks : nat) : St :=
  match blocks with
  | O => s
  | S blocks => each_block turn (turn s (take 64 chunk)) (drop 64 chunk) blocks
  end.

Module sha256.
Definition Ch (x y z : Z) : Z := z ^^ Z.land x (y ^^ z).
Definition Maj (x y z : Z) : Z := Z.lor (Z.land x y) (Z.land z (Z.lor x y)).
Definition Sigma0 (x : Z) : Z :=
  Z.lor (shr32 x 2) (shl32 x 30) ^^ Z.lor (shr32 x 13) (shl32 x 19) ^^ Z.lor (shr32 x 22) (shl32 x 10).
Definition Sigma1 (x : Z) : Z :=
  Z.lor (shr32 x 6) (shl32 x 26) ^^ Z.lor (shr32 x 11) (shl32 x 21) ^^ Z.lor (shr32 x 25) (shl32 x 7).
Definition sigma0 (x : Z) : Z :=
  Z.lor (shr32 x 7) (shl32 x 25) ^^ Z.lor (shr32 x 18) (shl32 x 14) ^^ shr32 x 3.
Definition sigma1 (x : Z) : Z :=
  Z.lor (shr32 x 17) (shl32 x 15) ^^ Z.lor (shr32 x 19) (shl32 x 13) ^^ shr32 x 10.

(** One round: the new values of [d] and [h]. *)
Definition Round (a b c d e f g h k : Z) : Z * Z :=
  let t1 := u32 (h + Sigma1 e + Ch e f g + k) in
  let t2 := u32 (Sigma0 a + Maj a b c) in
  (u32 (d + t1), u32 (t1 + t2)).

Definition Initialize : sha_state :=
  (0x6a09e667, 0xbb67ae85, 0x3c6ef372, 0xa54ff53a, 0x510e527f, 0x9b05688c, 0x1f83d9ab, 0x5be0cd19).

(** One turn of the loop of [Transform]. *)
Definition Transform1 (s : sha_state) (chunk : bytes) : sha_state :=
  let '(s0, s1, s2, s3, s4, s5, s6, s7) := s in
  let '(a, b, c, d, e, f, g, h) := s in
  w0 <== ReadBE32 (drop 0 chunk);
  let '(d, h) := Round a b c d e f g h (u32 (0x428a2f98 + w0)) in
  w1 <== ReadBE32 (drop 4 chunk);
  let '(c, g) := Round h a b c d e f g (u32 (0x71374491 + w1)) in
  w2 <== ReadBE32 (drop 8 chunk);
  let '(b, f) := Round g h a b c d e f (u32 (0xb5c0fbcf + w2)) in
  w3 <== ReadBE32 (drop 12 chunk);
  let '(a, e) := Round f g h a b c d e (u32 (0xe9b5dba5 + w3)) in
  w4 <== ReadBE32 (drop 16 chunk);
  let '(h, d) := Round e f g h a b c d (u32 (0x3956c25b + w4)) in
  w5 <== ReadBE32 (drop 20 chunk);
  let '(g, c) := Round d e f g h a b c (u32 (0x59f111f1 + w5)) in
  w6 <== ReadBE32 (drop 24 chunk);
  let '(f, b) := Round c d e f g h a b (u32 (0x923f82a4 + w6)) in
  w7 <== ReadBE32 (drop 28 chunk);
  let '(e, a) := Round b c d e f g h a (u32 (0xab1c5ed5 + w7)) in
  w8 <== ReadBE32 (drop 32 chunk);
  let '(d, h) := Round a b c d e f g h (u32 (0xd807aa98 + w8)) in
  w9 <== ReadBE32 (drop 36 chunk);
  let '(c, g) := Round h a b c d e f g (u32 (0x12835b01 + w9)) in
  w10 <== ReadBE32 (drop 40 chunk);
  let '(b, f) := Round g h a b c d e f (u32 (0x243185be + w10)) in
  w11 <== ReadBE32 (drop 44 chunk);
  let '(a, e) := Round f g h a b c d e (u32 (0x550c7dc3 + w11)) in
  w12 <== ReadBE32 (drop 48 chunk);
  let '(h, d) := Round e f g h a b c d (u32 (0x72be5d74 + w12)) in
  w13 <== ReadBE32 (drop 52 chunk);
  let '(g, c) := Round d e f g h a b c (u32 (0x80deb1fe + w13)) in
  w14 <== ReadBE32 (drop 56 chunk);
  let '(f, b) := Round c d e f g h a b (u32 (0x9bdc06a7 + w14)) in
  w15 <== ReadBE32 (drop 60 chunk);
  let '(e, a) := Round b c d e f g h a (u32 (0xc19bf174 + w15)) in
  w0 <== u32 (w0 + u32 (sigma1 w14 + w9 + sigma0 w1));
  let '(d, h) := Round a b c d e f g h (u32 (0xe49b69c1 + w0)) in
  w1 <== u32 (w1 + u32 (sigma1 w15 + w10 + sigma0 w2));
  let '(c, g) := Round h a b c d e f g (u32 (0xefbe4786 + w1)) in
  w2 <== u32 (w2 + u32 (sigma1 w0 + w11 + sigma0 w3));
  let '(b, f) := Round g h a b c d e f (u32 (0x0fc19dc6 + w2)) in
  w3 <== u32 (w3 + u32 (sigma1 w1 + w12 + sigma0 w4));
  let '(a, e) := Round f g h a b c d e (u32 (0x240ca1cc + w3)) in
  w4 <== u32 (w4 + u32 (sigma1 w2 + w13 + sigma0 w5));
  let '(h, d) := Round e f g h a b c d (u32 (0x2de92c6f + w4)) in
  w5 <== u32 (w5 + u32 (sigma1 w3 + w14 + sigma0 w6));
  let '(g, c) := Round d e f g h a b c (u32 (0x4a7484aa + w5)) in
  w6 <== u32 (w6 + u32 (sigma1 w4 + w15 + sigma0 w7));
  let '(f, b) := Round c d e f g h a b (u32 (0x5cb0a9dc + w6)) in
  w7 <== u32 (w7 + u32 (sigma1 w5 + w0 + sigma0 w8));
  let '(e, a) := Round b c d e f g h a (u32 (0x76f988da + w7)) in
  w8 <== u32 (w8 + u32 (sigma1 w6 + w1 + sigma0 w9));
  let '(d, h) := Round a b c d e f g h (u32 (0x983e5152 + w8)) in
  w9 <== u32 (w9 + u32 (sigma1 w7 + w2 + sigma0 w10));
  let '(c, g) := Round h a b c d e f g (u32 (0xa831c66d + w9)) in
  w10 <== u32 (w10 + u32 (sigma1 w8 + w3 + sigma0 w11));
  let '(b, f) := Round g h a b c d e f (u32 (0xb00327c8 + w10)) in
  w11 <== u32 (w11 + u32 (sigma1 w9 + w4 + sigma0 w12));
  let '(a, e) := Round f g h a b c d e (u32 (0xbf597fc7 + w11)) in
  w12 <== u32 (w12 + u32 (sigma1 w10 + w5 + sigma0 w13));
  let '(h, d) := Round e f g h a b c d (u32 (0xc6e00bf3 + w12)) in
  w13 <== u32 (w13 + u32 (sigma1 w11 + w6 + sigma0 w14));
  let '(g, c) := Round d e f g h a b c (u32 (0xd5a79147 + w13)) in
  w14 <== u32 (w14 + u32 (sigma1 w12 + w7 + sigma0 w15));
  let '(f, b) := Round c d e f g h a b (u32 (0x06ca6351 + w14)) in
  w15 <== u32 (w15 + u32 (sigma1 w13 + w8 + sigma0 w0));
  let '(e, a) := Round b c d e f g h a (u32 (0x14292967 + w15)) in
  w0 <== u32 (w0 + u32 (sigma1 w14 + w9 + sigma0 w1));
  let '(d, h) := Round a b c d e f g h (u32 (0x27b70a85 + w0)) in
  w1 <== u32 (w1 + u32 (sigma1 w15 + w10 + sigma0 w2));
  let '(c, g) := Round h a b c d e f g (u32 (0x2e1b2138 + w1)) in
  w2 <== u32 (w2 + u32 (sigma1 w0 + w11 + sigma0 w3));
  let '(b, f) := Round g h a b c d e f (u32 (0x4d2c6dfc + w2)) in
  w3 <== u32 (w3 + u32 (sigma1 w1 + w12 + sigma0 w4));
  let '(a, e) := Round f g h a b c d e (u32 (0x53380d13 + w3)) in
  w4 <== u32 (w4 + u32 (sigma1 w2 + w13 + sigma0 w5));
  let '(h, d) := Round e f g h a b c d (u32 (0x650a7354 + w4)) in
  w5 <== u32 (w5 + u32 (sigma1 w3 + w14 + sigma0 w6));
  let '(g, c) := Round d e f g h a b c (u32 (0x766a0abb + w5)) in
  w6 <== u32 (w6 + u32 (sigma1 w4 + w15 + sigma0 w7));
  let '(f, b) := Round c d e f g h a b (u32 (0x81c2c92e + w6)) in
  w7 <== u32 (w7 + u32 (sigma1 w5 + w0 + sigma0 w8));
  let '(e, a) := Round b c d e f g h a (u32 (0x92722c85 + w7)) in
  w8 <== u32 (w8 + u32 (sigma1 w6 + w1 + sigma0 w9));
  let '(d, h) := Round a b c d e f g h (u32 (0xa2bfe8a1 + w8)) in
  w9 <== u32 (w9 + u32 (sigma1 w7 + w2 + sigma0 w10));
  let '(c, g) := Round h a b c d e f g (u32 (0xa81a664b + w9)) in
  w10 <== u32 (w10 + u32 (sigma1 w8 + w3 + sigma0 w11));
  let '(b, f) := Round g h a b c d e f (u32 (0xc24b8b70 + w10)) in
  w11 <== u32 (w11 + u32 (sigma1 w9 + w4 + sigma0 w12));
  let '(a, e) := Round f g h a b c d e (u32 (0xc76c51a3 + w11)) in
  w12 <== u32 (w12 + u32 (sigma1 w10 + w5 + sigma0 w13));
  let '(h, d) := Round e f g h a b c d (u32 (0xd192e819 + w12)) in
  w13 <== u32 (w13 + u32 (sigma1 w11 + w6 + sigma0 w14));
  let '(g, c) := Round d e f g h a b c (u32 (0xd6990624 + w13)) in
  w14 <== u32 (w14 + u32 (sigma1 w12 + w7 + sigma0 w15));
  let '(f, b) := Round c d e f g h a b (u32 (0xf40e3585 + w14)) in
  w15 <== u32 (w15 + u32 (sigma1 w13 + w8 + sigma0 w0));
  let '(e, a) := Round b c d e f g h a (u32 (0x106aa070 + w15)) in
  w0 <== u32 (w0 + u32 (sigma1 w14 + w9 + sigma0 w1));
  let '(d, h) := Round a b c d e f g h (u32 (0x19a4c116 + w0)) in
  w1 <== u32 (w1 + u32 (sigma1 w15 + w10 + sigma0 w2));
  let '(c, g) := Round h a b c d e f g (u32 (0x1e376c08 + w1)) in
  w2 <== u32 (w2 + u32 (sigma1 w0 + w11 + sigma0 w3));
  let '(b, f) := Round g h a b c d e f (u32 (0x2748774c + w2)) in
  w3 <== u32 (w3 + u32 (sigma1 w1 + w12 + sigma0 w4));
  let '(a, e) := Round f g h a b c d e (u32 (0x34b0bcb5 + w3)) in
  w4 <== u32 (w4 + u32 (sigma1 w2 + w13 + sigma0 w5));
  let '(h, d) := Round e f g h a b c d (u32 (0x391c0cb3 + w4)) in
  w5 <== u32 (w5 + u32 (sigma1 w3 + w14 + sigma0 w6));
  let '(g, c) := Round d e f g h a b c (u32 (0x4ed8aa4a + w5)) in
  w6 <== u32 (w6 + u32 (sigma1 w4 + w15 + sigma0 w7));
  let '(f, b) := Round c d e f g h a b (u32 (0x5b9cca4f + w6)) in
  w7 <== u32 (w7 + u32 (sigma1 w5 + w0 + sigma0 w8));
  let '(e, a) := Round b c d e f g h a (u32 (0x682e6ff3 + w7)) in
  w8 <== u32 (w8 + u32 (sigma1 w6 + w1 + sigma0 w9));
  let '(d, h) := Round a b c d e f g h (u32 (0x748f82ee + w8)) in
  w9 <== u32 (w9 + u32 (sigma1 w7 + w2 + sigma0 w10));
  let '(c, g) := Round h a b c d e f g (u32 (0x78a5636f + w9)) in
  w10 <== u32 (w10 + u32 (sigma1 w8 + w3 + sigma0 w11));
  let '(b, f) := Round g h a b c d e f (u32 (0x84c87814 + w10)) in
  w11 <== u32 (w11 + u32 (sigma1 w9 + w4 + sigma0 w12));
  let '(a, e) := Round f g h a b c d e (u32 (0x8cc70208 + w11)) in
  w12 <== u32 (w12 + u32 (sigma1 w10 + w5 + sigma0 w13));
  let '(h, d) := Round e f g h a b c d (u32 (0x90befffa + w12)) in
  w13 <== u32 (w13 + u32 (sigma1 w11 + w6 + sigma0 w14));
  let '(g, c) := Round d e f g h a b c (u32 (0xa4506ceb + w13)) in
  let '(f, b) := Round c d e f g h a b (u32 (0xbef9a3f7 + u32 (w14 + sigma1 w12 + w7 + sigma0 w15))) in
  let '(e, a) := Round b c d e f g h a (u32 (0xc67178f2 + u32 (w15 + sigma1 w13 + w8 + sigma0 w0))) in
  (u32 (s0 + a), u32 (s1 + b), u32 (s2 + c), u32 (s3 + d),
   u32 (s4 + e), u32 (s5 + f), u32 (s6 + g), u32 (s7 + h)).

Definition Transform (s : sha_state) (chunk : bytes) (blocks : nat) : sha_state :=
  each_block Transform1 s chunk blocks.

(** The three transforms of [TransformD64]: of the 64 bytes, of the padding of the first
    hash (whose schedule is constant), and of the 32 bytes of the first hash with its
    padding. *)
Definition TransformD64_1 (in_ : bytes) : sha_state :=
  let '(a, b, c, d, e, f, g, h) := Initialize in
  w0 <== ReadBE32 (drop 0 in_);
  let '(d, h) := Round a b c d e f g h (u32 (0x428a2f98 + w0)) in
  w1 <== ReadBE32 (drop 4 in_);
  let '(c, g) := Round h a b c d e f g (u32 (0x71374491 + w1)) in
  w2 <== ReadBE32 (drop 8 in_);
  let '(b, f) := Round g h a b c d e f (u32 (0xb5c0fbcf + w2)) in
  w3 <== ReadBE32 (drop 12 in_);
  let '(a, e) := Round f g h a b c d e (u32 (0xe9b5dba5 + w3)) in
  w4 <== ReadBE32 (drop 16 in_);
  let '(h, d) := Round e f g h a b c d (u32 (0x3956c25b + w4)) in
  w5 <== ReadBE32 (drop 20 in_);
  let '(g, c) := Round d e f g h a b c (u32 (0x59f111f1 + w5)) in
  w6 <== ReadBE32 (drop 24 in_);
  let '(f, b) := Round c d e f g h a b (u32 (0x923f82a4 + w6)) in
  w7 <== ReadBE32 (drop 28 in_);
  let '(e, a) := Round b c d e f g h a (u32 (0xab1c5ed5 + w7)) in
  w8 <== ReadBE32 (drop 32 in_);
  let '(d, h) := Round a b c d e f g h (u32 (0xd807aa98 + w8)) in
  w9 <== ReadBE32 (drop 36 in_);
  let '(c, g) := Round h a b c d e f g (u32 (0x12835b01 + w9)) in
  w10 <== ReadBE32 (drop 40 in_);
  let '(b, f) := Round g h a b c d e f (u32 (0x243185be + w10)) in
  w11 <== ReadBE32 (drop 44 in_);
  let '(a, e) := Round f g h a b c d e (u32 (0x550c7dc3 + w11)) in
  w12 <== ReadBE32 (drop 48 in_);
  let '(h, d) := Round e f g h a b c d (u32 (0x72be5d74 + w12)) in
  w13 <== ReadBE32 (drop 52 in_);
  let '(g, c) := Round d e f g h a b c (u32 (0x80deb1fe + w13)) in
  w14 <== ReadBE32 (drop 56 in_);
  let '(f, b) := Round c d e f g h a b (u32 (0x9bdc06a7 + w14)) in
  w15 <== ReadBE32 (drop 60 in_);
  let '(e, a) := Round b c d e f g h a (u32 (0xc19bf174 + w15)) in
  w0 <== u32 (w0 + u32 (sigma1 w14 + w9 + sigma0 w1));
  let '(d, h) := Round a b c d e f g h (u32 (0xe49b69c1 + w0)) in
  w1 <== u32 (w1 + u32 (sigma1 w15 + w10 + sigma0 w2));
  let '(c, g) := Round h a b c d e f g (u32 (0xefbe4786 + w1)) in
  w2 <== u32 (w2 + u32 (sigma1 w0 + w11 + sigma0 w3));
  let '(b, f) := Round g h a b c d e f (u32 (0x0fc19dc6 + w2)) in
  w3 <== u32 (w3 + u32 (sigma1 w1 + w12 + sigma0 w4));
  let '(a, e) := Round f g h a b c d e (u32 (0x240ca1cc + w3)) in
  w4 <== u32 (w4 + u32 (sigma1 w2 + w13 + sigma0 w5));
  let '(h, d) := Round e f g h a b c d (u32 (0x2de92c6f + w4)) in
  w5 <== u32 (w5 + u32 (sigma1 w3 + w14 + sigma0 w6));
  let '(g, c) := Round d e f g h a b c (u32 (0x4a7484aa + w5)) in
  w6 <== u32 (w6 + u32 (sigma1 w4 + w15 + sigma0 w7));
  let '(f, b) := Round c d e f g h a b (u32 (0x5cb0a9dc + w6)) in
  w7 <== u32 (w7 + u32 (sigma1 w5 + w0 + sigma0 w8));
  let '(e, a) := Round b c d e f g h a (u32 (0x76f988da + w7)) in
  w8 <== u32 (w8 + u32 (sigma1 w6 + w1 + sigma0 w9));
  let '(d, h) := Round a b c d e f g h (u32 (0x983e5152 + w8)) in
  w9 <== u32 (w9 + u32 (sigma1 w7 + w2 + sigma0 w10));
  let '(c, g) := Round h a b c d e f g (u32 (0xa831c66d + w9)) in
  w10 <== u32 (w10 + u32 (sigma1 w8 + w3 + sigma0 w11));
  let '(b, f) := Round g h a b c d e f (u32 (0xb00327c8 + w10)) in
  w11 <== u32 (w11 + u32 (sigma1 w9 + w4 + sigma0 w12));
  let '(a, e) := Round f g h a b c d e (u32 (0xbf597fc7 + w11)) in
  w12 <== u32 (w12 + u32 (sigma1 w10 + w5 + sigma0 w13));
  let '(h, d) := Round e f g h a b c d (u32 (0xc6e00bf3 + w12)) in
  w13 <== u32 (w13 + u32 (sigma1 w11 + w6 + sigma0 w14));
  let '(g, c) := Round d e f g h a b c (u32 (0xd5a79147 + w13)) in
  w14 <== u32 (w14 + u32 (sigma1 w12 + w7 + sigma0 w15));
  let '(f, b) := Round c d e f g h a b (u32 (0x06ca6351 + w14)) in
  w15 <== u32 (w15 + u32 (sigma1 w13 + w8 + sigma0 w0));
  let '(e, a) := Round b c d e f g h a (u32 (0x14292967 + w15)) in
  w0 <== u32 (w0 + u32 (sigma1 w14 + w9 + sigma0 w1));
  let '(d, h) := Round a b c d e f g h (u32 (0x27b70a85 + w0)) in
  w1 <== u32 (w1 + u32 (sigma1 w15 + w10 + sigma0 w2));
  let '(c, g) := Round h a b c d e f g (u32 (0x2e1b2138 + w1)) in
  w2 <== u32 (w2 + u32 (sigma1 w0 + w11 + sigma0 w3));
  let '(b, f) := Round g h a b c d e f (u32 (0x4d2c6dfc + w2)) in
  w3 <== u32 (w3 + u32 (sigma1 w1 + w12 + sigma0 w4));
  let '(a, e) := Round f g h a b c d e (u32 (0x53380d13 + w3)) in
  w4 <== u32 (w4 + u32 (sigma1 w2 + w13 + sigma0 w5));
  let '(h, d) := Round e f g h a b c d (u32 (0x650a7354 + w4)) in
  w5 <== u32 (w5 + u32 (sigma1 w3 + w14 + sigma0 w6));
  let '(g, c) := Round d e f g h a b c (u32 (0x766a0abb + w5)) in
  w6 <== u32 (w6 + u32 (sigma1 w4 + w15 + sigma0 w7));
  let '(f, b) := Round c d e f g h a b (u32 (0x81c2c92e + w6)) in
  w7 <== u32 (w7 + u32 (sigma1 w5 + w0 + sigma0 w8));
  let '(e, a) := Round b c d e f g h a (u32 (0x92722c85 + w7)) in
  w8 <== u32 (w8 + u32 (sigma1 w6 + w1 + sigma0 w9));
  let '(d, h) := Round a b c d e f g h (u32 (0xa2bfe8a1 + w8)) in
  w9 <== u32 (w9 + u32 (sigma1 w7 + w2 + sigma0 w10));
  let '(c, g) := Round h a b c d e f g (u32 (0xa81a664b + w9)) in
  w10 <== u32 (w10 + u32 (sigma1 w8 + w3 + sigma0 w11));
  let '(b, f) := Round g h a b c d e f (u32 (0xc24b8b70 + w10)) in
  w11 <== u32 (w11 + u32 (sigma1 w9 + w4 + sigma0 w12));
  let '(a, e) := Round f g h a b c d e (u32 (0xc76c51a3 + w11)) in
  w12 <== u32 (w12 + u32 (sigma1 w10 + w5 + sigma0 w13));
  let '(h, d) := Round e f g h a b c d (u32 (0xd192e819 + w12)) in
  w13 <== u32 (w13 + u32 (sigma1 w11 + w6 + sigma0 w14));
  let '(g, c) := Round d e f g h a b c (u32 (0xd6990624 + w13)) in
  w14 <== u32 (w14 + u32 (sigma1 w12 + w7 + sigma0 w15));
  let '(f, b) := Round c d e f g h a b (u32 (0xf40e3585 + w14)) in
  w15 <== u32 (w15 + u32 (sigma1 w13 + w8 + sigma0 w0));
  let '(e, a) := Round b c d e f g h a (u32 (0x106aa070 + w15)) in
  w0 <== u32 (w0 + u32 (sigma1 w14 + w9 + sigma0 w1));
  let '(d, h) := Round a b c d e f g h (u32 (0x19a4c116 + w0)) in
  w1 <== u32 (w1 + u32 (sigma1 w15 + w10 + sigma0 w2));
  let '(c, g) := Round h a b c d e f g (u32 (0x1e376c08 + w1)) in
  w2 <== u32 (w2 + u32 (sigma1 w0 + w11 + sigma0 w3));
  let '(b, f) := Round g h a b c d e f (u32 (0x2748774c + w2)) in
  w3 <== u32 (w3 + u32 (sigma1 w1 + w12 + sigma0 w4));
  let '(a, e) := Round f g h a b c d e (u32 (0x34b0bcb5 + w3)) in
  w4 <== u32 (w4 + u32 (sigma1 w2 + w13 + sigma0 w5));
  let '(h, d) := Round e f g h a b c d (u32 (0x391c0cb3 + w4)) in
  w5 <== u32 (w5 + u32 (sigma1 w3 + w14 + sigma0 w6));
  let '(g, c) := Round d e f g h a b c (u32 (0x4ed8aa4a + w5)) in
  w6 <== u32 (w6 + u32 (sigma1 w4 + w15 + sigma0 w7));
  let '(f, b) := Round c d e f g h a b (u32 (0x5b9cca4f + w6)) in
  w7 <== u32 (w7 + u32 (sigma1 w5 + w0 + sigma0 w8));
  let '(e, a) := Round b c d e f g h a (u32 (0x682e6ff3 + w7)) in
  w8 <== u32 (w8 + u32 (sigma1 w6 + w1 + sigma0 w9));
  let '(d, h) := Round a b c d e f g h (u32 (0x748f82ee + w8)) in
  w9 <== u32 (w9 + u32 (sigma1 w7 + w2 + sigma0 w10));
  let '(c, g) := Round h a b c d e f g (u32 (0x78a5636f + w9)) in
  w10 <== u32 (w10 + u32 (sigma1 w8 + w3 + sigma0 w11));
  let '(b, f) := Round g h a b c d e f (u32 (0x84c87814 + w10)) in
  w11 <== u32 (w11 + u32 (sigma1 w9 + w4 + sigma0 w12));
  let '(a, e) := Round f g h a b c d e (u32 (0x8cc70208 + w11)) in
  w12 <== u32 (w12 + u32 (sigma1 w10 + w5 + sigma0 w13));
  let '(h, d) := Round e f g h a b c d (u32 (0x90befffa + w12)) in
  w13 <== u32 (w13 + u32 (sigma1 w11 + w6 + sigma0 w14));
  let '(g, c) := Round d e f g h a b c (u32 (0xa4506ceb + w13)) in
  let '(f, b) := Round c d e f g h a b (u32 (0xbef9a3f7 + u32 (w14 + sigma1 w12 + w7 + sigma0 w15))) in
  let '(e, a) := Round b c d e f g h a (u32 (0xc67178f2 + u32 (w15 + sigma1 w13 + w8 + sigma0 w0))) in
  (u32 (a + 0x6a09e667), u32 (b + 0xbb67ae85), u32 (c + 0x3c6ef372), u32 (d + 0xa54ff53a),
   u32 (e + 0x510e527f), u32 (f + 0x9b05688c), u32 (g + 0x1f83d9ab), u32 (h + 0x5be0cd19)).

Definition TransformD64_2 (s : sha_state) : sha_state :=
  let '(t0, t1, t2, t3, t4, t5, t6, t7) := s in
  let '(a, b, c, d, e, f, g, h) := s in
  let '(d, h) := Round a b c d e f g h 0xc28a2f98 in
  let '(c, g) := Round h a b c d e f g 0x71374491 in
  let '(b, f) := Round g h a b c d e f 0xb5c0fbcf in
  let '(a, e) := Round f g h a b c d e 0xe9b5dba5 in
  let '(h, d) := Round e f g h a b c d 0x3956c25b in
  let '(g, c) := Round d e f g h a b c 0x59f111f1 in
  let '(f, b) := Round c d e f g h a b 0x923f82a4 in
  let '(e, a) := Round b c d e f g h a 0xab1c5ed5 in
  let '(d, h) := Round a b c d e f g h 0xd807aa98 in
  let '(c, g) := Round h a b c d e f g 0x12835b01 in
  let '(b, f) := Round g h a b c d e f 0x243185be in
  let '(a, e) := Round f g h a b c d e 0x550c7dc3 in
  let '(h, d) := Round e f g h a b c d 0x72be5d74 in
  let '(g, c) := Round d e f g h a b c 0x80deb1fe in
  let '(f, b) := Round c d e f g h a b 0x9bdc06a7 in
  let '(e, a) := Round b c d e f g h a 0xc19bf374 in
  let '(d, h) := Round a b c d e f g h 0x649b69c1 in
  let '(c, g) := Round h a b c d e f g 0xf0fe4786 in
  let '(b, f) := Round g h a b c d e f 0x0fe1edc6 in
  let '(a, e) := Round f g h a b c d e 0x240cf254 in
  let '(h, d) := Round e f g h a b c d 0x4fe9346f in
  let '(g, c) := Round d e f g h a b c 0x6cc984be in
  let '(f, b) := Round c d e f g h a b 0x61b9411e in
  let '(e, a) := Round b c d e f g h a 0x16f988fa in
  let '(d, h) := Round a b c d e f g h 0xf2c65152 in
  let '(c, g) := Round h a b c d e f g 0xa88e5a6d in
  let '(b, f) := Round g h a b c d e f 0xb019fc65 in
  let '(a, e) := Round f g h a b c d e 0xb9d99ec7 in
  let '(h, d) := Round e f g h a b c d 0x9a1231c3 in
  let '(g, c) := Round d e f g h a b c 0xe70eeaa0 in
  let '(f, b) := Round c d e f g h a b 0xfdb1232b in
  let '(e, a) := Round b c d e f g h a 0xc7353eb0 in
  let '(d, h) := Round a b c d e f g h 0x3069bad5 in
  let '(c, g) := Round h a b c d e f g 0xcb976d5f in
  let '(b, f) := Round g h a b c d e f 0x5a0f118f in
  let '(a, e) := Round f g h a b c d e 0xdc1eeefd in
  let '(h, d) := Round e f g h a b c d 0x0a35b689 in
  let '(g, c) := Round d e f g h a b c 0xde0b7a04 in
  let '(f, b) := Round c d e f g h a b 0x58f4ca9d in
  let '(e, a) := Round b c d e f g h a 0xe15d5b16 in
  let '(d, h) := Round a b c d e f g h 0x007f3e86 in
  let '(c, g) := Round h a b c d e f g 0x37088980 in
  let '(b, f) := Round g h a b c d e f 0xa507ea32 in
  let '(a, e) := Round f g h a b c d e 0x6fab9537 in
  let '(h, d) := Round e f g h a b c d 0x17406110 in
  let '(g, c) := Round d e f g h a b c 0x0d8cd6f1 in
  let '(f, b) := Round c d e f g h a b 0xcdaa3b6d in
  let '(e, a) := Round b c d e f g h a 0xc0bbbe37 in
  let '(d, h) := Round a b c d e f g h 0x83613bda in
  let '(c, g) := Round h a b c d e f g 0xdb48a363 in
  let '(b, f) := Round g h a b c d e f 0x0b02e931 in
  let '(a, e) := Round f g h a b c d e 0x6fd15ca7 in
  let '(h, d) := Round e f g h a b c d 0x521afaca in
  let '(g, c) := Round d e f g h a b c 0x31338431 in
  let '(f, b) := Round c d e f g h a b 0x6ed41a95 in
  let '(e, a) := Round b c d e f g h a 0x6d437890 in
  let '(d, h) := Round a b c d e f g h 0xc39c91f2 in
  let '(c, g) := Round h a b c d e f g 0x9eccabbd in
  let '(b, f) := Round g h a b c d e f 0xb5c9a0e6 in
  let '(a, e) := Round f g h a b c d e 0x532fb63c in
  let '(h, d) := Round e f g h a b c d 0xd2c741c6 in
  let '(g, c) := Round d e f g h a b c 0x07237ea3 in
  let '(f, b) := Round c d e f g h a b 0xa4954b68 in
  let '(e, a) := Round b c d e f g h a 0x4c191d76 in
  (u32 (t0 + a), u32 (t1 + b), u32 (t2 + c), u32 (t3 + d),
   u32 (t4 + e), u32 (t5 + f), u32 (t6 + g), u32 (t7 + h)).

Definition TransformD64_3 (w : sha_state) : sha_state :=
  let '(w0, w1, w2, w3, w4, w5, w6, w7) := w in
  let '(a, b, c, d, e, f, g, h) := Initialize in
  let '(d, h) := Round a b c d e f g h (u32 (0x428a2f98 + w0)) in
  let '(c, g) := Round h a b c d e f g (u32 (0x71374491 + w1)) in
  let '(b, f) := Round g h a b c d e f (u32 (0xb5c0fbcf + w2)) in
  let '(a, e) := Round f g h a b c d e (u32 (0xe9b5dba5 + w3)) in
  let '(h, d) := Round e f g h a b c d (u32 (0x3956c25b + w4)) in
  let '(g, c) := Round d e f g h a b c (u32 (0x59f111f1 + w5)) in
  let '(f, b) := Round c d e f g h a b (u32 (0x923f82a4 + w6)) in
  let '(e, a) := Round b c d e f g h a (u32 (0xab1c5ed5 + w7)) in
  let '(d, h) := Round a b c d e f g h 0x5807aa98 in
  let '(c, g) := Round h a b c d e f g 0x12835b01 in
  let '(b, f) := Round g h a b c d e f 0x243185be in
  let '(a, e) := Round f g h a b c d e 0x550c7dc3 in
  let '(h, d) := Round e f g h a b c d 0x72be5d74 in
  let '(g, c) := Round d e f g h a b c 0x80deb1fe in
  let '(f, b) := Round c d e f g h a b 0x9bdc06a7 in
  let '(e, a) := Round b c d e f g h a 0xc19bf274 in
  w0 <== u32 (w0 + sigma0 w1);
  let '(d, h) := Round a b c d e f g h (u32 (0xe49b69c1 + w0)) in
  w1 <== u32 (w1 + (0xa00000 + sigma0 w2));
  let '(c, g) := Round h a b c d e f g (u32 (0xefbe4786 + w1)) in
  w2 <== u32 (w2 + u32 (sigma1 w0 + sigma0 w3));
  let '(b, f) := Round g h a b c d e f (u32 (0x0fc19dc6 + w2)) in
  w3 <== u32 (w3 + u32 (sigma1 w1 + sigma0 w4));
  let '(a, e) := Round f g h a b c d e (u32 (0x240ca1cc + w3)) in
  w4 <== u32 (w4 + u32 (sigma1 w2 + sigma0 w5));
  let '(h, d) := Round e f g h a b c d (u32 (0x2de92c6f + w4)) in
  w5 <== u32 (w5 + u32 (sigma1 w3 + sigma0 w6));
  let '(g, c) := Round d e f g h a b c (u32 (0x4a7484aa + w5)) in
  w6 <== u32 (w6 + (sigma1 w4 + 0x100 + sigma0 w7));
  let '(f, b) := Round c d e f g h a b (u32 (0x5cb0a9dc + w6)) in
  w7 <== u32 (w7 + (u32 (sigma1 w5 + w0) + 0x11002000));
  let '(e, a) := Round b c d e f g h a (u32 (0x76f988da + w7)) in
  w8 <== u32 (0x80000000 + sigma1 w6 + w1);
  let '(d, h) := Round a b c d e f g h (u32 (0x983e5152 + w8)) in
  w9 <== u32 (sigma1 w7 + w2);
  let '(c, g) := Round h a b c d e f g (u32 (0xa831c66d + w9)) in
  w10 <== u32 (sigma1 w8 + w3);
  let '(b, f) := Round g h a b c d e f (u32 (0xb00327c8 + w10)) in
  w11 <== u32 (sigma1 w9 + w4);
  let '(a, e) := Round f g h a b c d e (u32 (0xbf597fc7 + w11)) in
  w12 <== u32 (sigma1 w10 + w5);
  let '(h, d) := Round e f g h a b c d (u32 (0xc6e00bf3 + w12)) in
  w13 <== u32 (sigma1 w11 + w6);
  let '(g, c) := Round d e f g h a b c (u32 (0xd5a79147 + w13)) in
  w14 <== u32 (u32 (sigma1 w12 + w7) + 0x400022);
  let '(f, b) := Round c d e f g h a b (u32 (0x06ca6351 + w14)) in
  w15 <== u32 (0x100 + sigma1 w13 + w8 + sigma0 w0);
  let '(e, a) := Round b c d e f g h a (u32 (0x14292967 + w15)) in
  w0 <== u32 (w0 + u32 (sigma1 w14 + w9 + sigma0 w1));
  let '(d, h) := Round a b c d e f g h (u32 (0x27b70a85 + w0)) in
  w1 <== u32 (w1 + u32 (sigma1 w15 + w10 + sigma0 w2));
  let '(c, g) := Round h a b c d e f g (u32 (0x2e1b2138 + w1)) in
  w2 <== u32 (w2 + u32 (sigma1 w0 + w11 + sigma0 w3));
  let '(b, f) := Round g h a b c d e f (u32 (0x4d2c6dfc + w2)) in
  w3 <== u32 (w3 + u32 (sigma1 w1 + w12 + sigma0 w4));
  let '(a, e) := Round f g h a b c d e (u32 (0x53380d13 + w3)) in
  w4 <== u32 (w4 + u32 (sigma1 w2 + w13 + sigma0 w5));
  let '(h, d) := Round e f g h a b c d (u32 (0x650a7354 + w4)) in
  w5 <== u32 (w5 + u32 (sigma1 w3 + w14 + sigma0 w6));
  let '(g, c) := Round d e f g h a b c (u32 (0x766a0abb + w5)) in
  w6 <== u32 (w6 + u32 (sigma1 w4 + w15 + sigma0 w7));
  let '(f, b) := Round c d e f g h a b (u32 (0x81c2c92e + w6)) in
  w7 <== u32 (w7 + u32 (sigma1 w5 + w0 + sigma0 w8));
  let '(e, a) := Round b c d e f g h a (u32 (0x92722c85 + w7)) in
  w8 <== u32 (w8 + u32 (sigma1 w6 + w1 + sigma0 w9));
  let '(d, h) := Round a b c d e f g h (u32 (0xa2bfe8a1 + w8)) in
  w9 <== u32 (w9 + u32 (sigma1 w7 + w2 + sigma0 w10));
  let '(c, g) := Round h a b c d e f g (u32 (0xa81a664b + w9)) in
  w10 <== u32 (w10 + u32 (sigma1 w8 + w3 + sigma0 w11));
  let '(b, f) := Round g h a b c d e f (u32 (0xc24b8b70 + w10)) in
  w11 <== u32 (w11 + u32 (sigma1 w9 + w4 + sigma0 w12));
  let '(a, e) := Round f g h a b c d e (u32 (0xc76c51a3 + w11)) in
  w12 <== u32 (w12 + u32 (sigma1 w10 + w5 + sigma0 w13));
  let '(h, d) := Round e f g h a b c d (u32 (0xd192e819 + w12)) in
  w13 <== u32 (w13 + u32 (sigma1 w11 + w6 + sigma0 w14));
  let '(g, c) := Round d e f g h a b c (u32 (0xd6990624 + w13)) in
  w14 <== u32 (w14 + u32 (sigma1 w12 + w7 + sigma0 w15));
  let '(f, b) := Round c d e f g h a b (u32 (0xf40e3585 + w14)) in
  w15 <== u32 (w15 + u32 (sigma1 w13 + w8 + sigma0 w0));
  let '(e, a) := Round b c d e f g h a (u32 (0x106aa070 + w15)) in
  w0 <== u32 (w0 + u32 (sigma1 w14 + w9 + sigma0 w1));
  let '(d, h) := Round a b c d e f g h (u32 (0x19a4c116 + w0)) in
  w1 <== u32 (w1 + u32 (sigma1 w15 + w10 + sigma0 w2));
  let '(c, g) := Round h a b c d e f g (u32 (0x1e376c08 + w1)) in
  w2 <== u32 (w2 + u32 (sigma1 w0 + w11 + sigma0 w3));
  let '(b, f) := Round g h a b c d e f (u32 (0x2748774c + w2)) in
  w3 <== u32 (w3 + u32 (sigma1 w1 + w12 + sigma0 w4));
  let '(a, e) := Round f g h a b c d e (u32 (0x34b0bcb5 + w3)) in
  w4 <== u32 (w4 + u32 (sigma1 w2 + w13 + sigma0 w5));
  let '(h, d) := Round e f g h a b c d (u32 (0x391c0cb3 + w4)) in
  w5 <== u32 (w5 + u32 (sigma1 w3 + w14 + sigma0 w6));
  let '(g, c) := Round d e f g h a b c (u32 (0x4ed8aa4a + w5)) in
  w6 <== u32 (w6 + u32 (sigma1 w4 + w15 + sigma0 w7));
  let '(f, b) := Round c d e f g h a b (u32 (0x5b9cca4f + w6)) in
  w7 <== u32 (w7 + u32 (sigma1 w5 + w0 + sigma0 w8));
  let '(e, a) := Round b c d e f g h a (u32 (0x682e6ff3 + w7)) in
  w8 <== u32 (w8 + u32 (sigma1 w6 + w1 + sigma0 w9));
  let '(d, h) := Round a b c d e f g h (u32 (0x748f82ee + w8)) in
  w9 <== u32 (w9 + u32 (sigma1 w7 + w2 + sigma0 w10));
  let '(c, g) := Round h a b c d e f g (u32 (0x78a5636f + w9)) in
  w10 <== u32 (w10 + u32 (sigma1 w8 + w3 + sigma0 w11));
  let '(b, f) := Round g h a b c d e f (u32 (0x84c87814 + w10)) in
  w11 <== u32 (w11 + u32 (sigma1 w9 + w4 + sigma0 w12));
  let '(a, e) := Round f g h a b c d e (u32 (0x8cc70208 + w11)) in
  w12 <== u32 (w12 + u32 (sigma1 w10 + w5 + sigma0 w13));
  let '(h, d) := Round e f g h a b c d (u32 (0x90befffa + w12)) in
  w13 <== u32 (w13 + u32 (sigma1 w11 + w6 + sigma0 w14));
  let '(g, c) := Round d e f g h a b c (u32 (0xa4506ceb + w13)) in
  let '(f, b) := Round c d e f g h a b (u32 (0xbef9a3f7 + u32 (w14 + sigma1 w12 + w7 + sigma0 w15))) in
  let '(e, a) := Round b c d e f g h a (u32 (0xc67178f2 + u32 (w15 + sigma1 w13 + w8 + sigma0 w0))) in
  (u32 (a + 0x6a09e667), u32 (b + 0xbb67ae85), u32 (c + 0x3c6ef372), u32 (d + 0xa54ff53a),
   u32 (e + 0x510e527f), u32 (f + 0x9b05688c), u32 (g + 0x1f83d9ab), u32 (h + 0x5be0cd19)).

Definition TransformD64 (in_ : bytes) : bytes :=
  let '(a, b, c, d, e, f, g, h) := TransformD64_3 (TransformD64_2 (TransformD64_1 in_)) in
  WriteBE32 a ++ WriteBE32 b ++ WriteBE32 c ++ WriteBE32 d ++
  WriteBE32 e ++ WriteBE32 f ++ WriteBE32 g ++ WriteBE32 h.
End sha256.

(** ** The compression function *)
Section Rounds.
Context (w : nat -> Z).

Lemma assign_state (v v' : Z) (k : Z -> sha_state) r : v = v' -> k v' = r -> assign v k = r.
Proof using. by intros ->. Qed.

Lemma core_round t l a b c d e f g h kw s (body : Z -> Z -> sha_state) :
  kw = u32 (nth t SHA256.K 0 + w t) ->
  (forall d' h', body d' h' = SHA256.plus s (foldl (SHA256.round w) (h', a, b, c, d', e, f, g) l)) ->
  (let '(d', h') := sha256.Round a b c d e f g h kw in body d' h')
  = SHA256.plus s (foldl (SHA256.round w) (a, b, c, d, e, f, g, h) (t :: l)).
Proof using.
  intros -> H. rewrite round_fips.
  assert (sha256.Round a b c d e f g h (u32 (nth t SHA256.K 0 + w t))
          = Round a b c d e f g h (nth t SHA256.K 0) (w t)) as ->.
  { unfold sha256.Round, Round. change sha256.Sigma1 with Sigma1. change sha256.Sigma0 with Sigma0.
    change sha256.Ch with Ch. change sha256.Maj with Maj.
    replace (u32 (h + Sigma1 e + Ch e f g + u32 (nth t SHA256.K 0 + w t)))
      with (u32 (h + Sigma1 e + Ch e f g + nth t SHA256.K 0 + w t)); [done|].
    rewrite !u32_mod, Zplus_mod_idemp_r. f_equal. lia. }
  by destruct (Round _ _ _ _ _ _ _ _ _ _).
Qed.

Context (expanded : forall t, (16 <= t < 64)%nat -> w t = SHA256.next w t).

Section Block.
Context (chunk : bytes) (initial : forall t, (t < 16)%nat -> be32_at chunk t = w t).

Ltac core_step :=
  lazymatch goal with
  | |- assign _ _ = SHA256.plus _ (foldl _ _ (?t :: _)) =>
      apply (assign_state _ (w t));
      [first [exact (initial t ltac:(lia)) | exact (word_update w expanded t ltac:(lia))]|]
  | |- _ = SHA256.plus _ (foldl _ _ (?t :: _)) =>
      apply core_round;
      [let k := eval vm_compute in (nth t SHA256.K 0) in change (nth t SHA256.K 0) with k;
       first [reflexivity | rewrite <- (word_update_last w expanded t) by lia; reflexivity]
      |intros ? ?]
  end.

Lemma Transform1_rounds s :
  sha256.Transform1 s chunk = SHA256.plus s (foldl (SHA256.round w) s (seq 0 64)).
Proof using Type*.
  destruct s as [[[[[[[a b] c] d] e] f] g] h]. unfold sha256.Transform1.
  let l := eval vm_compute in (seq 0 64) in change (seq 0 64) with l.
  repeat core_step. reflexivity.
Qed.

Lemma TransformD64_1_rounds :
  sha256.TransformD64_1 chunk = SHA256.plus SHA256.H0 (foldl (SHA256.round w) SHA256.H0 (seq 0 64)).
Proof using Type*.
  unfold sha256.TransformD64_1. cbn [sha256.Initialize]. unfold SHA256.H0 at 2.
  let l := eval vm_compute in (seq 0 64) in change (seq 0 64) with l.
  repeat core_step. cbn [foldl SHA256.plus SHA256.H0]. by rewrite !(Z.add_comm _ (Zpos _)).
Qed.
End Block.

(** The second transform: the rounds have the sums of constant and schedule word built in. *)
Definition padding_sums : list Z :=
  [0xc28a2f98; 0x71374491; 0xb5c0fbcf; 0xe9b5dba5; 0x3956c25b; 0x59f111f1; 0x923f82a4; 0xab1c5ed5;
   0xd807aa98; 0x12835b01; 0x243185be; 0x550c7dc3; 0x72be5d74; 0x80deb1fe; 0x9bdc06a7; 0xc19bf374;
   0x649b69c1; 0xf0fe4786; 0x0fe1edc6; 0x240cf254; 0x4fe9346f; 0x6cc984be; 0x61b9411e; 0x16f988fa;
   0xf2c65152; 0xa88e5a6d; 0xb019fc65; 0xb9d99ec7; 0x9a1231c3; 0xe70eeaa0; 0xfdb1232b; 0xc7353eb0;
   0x3069bad5; 0xcb976d5f; 0x5a0f118f; 0xdc1eeefd; 0x0a35b689; 0xde0b7a04; 0x58f4ca9d; 0xe15d5b16;
   0x007f3e86; 0x37088980; 0xa507ea32; 0x6fab9537; 0x17406110; 0x0d8cd6f1; 0xcdaa3b6d; 0xc0bbbe37;
   0x83613bda; 0xdb48a363; 0x0b02e931; 0x6fd15ca7; 0x521afaca; 0x31338431; 0x6ed41a95; 0x6d437890;
   0xc39c91f2; 0x9eccabbd; 0xb5c9a0e6; 0x532fb63c; 0xd2c741c6; 0x07237ea3; 0xa4954b68; 0x4c191d76].

Lemma TransformD64_2_rounds s :
  (forall t, (t < 64)%nat -> u32 (nth t SHA256.K 0 + w t) = nth t padding_sums 0) ->
  sha256.TransformD64_2 s = SHA256.plus s (foldl (SHA256.round w) s (seq 0 64)).
Proof using.
  intros sums. destruct s as [[[[[[[a b] c] d] e] f] g] h]. unfold sha256.TransformD64_2.
  let l := eval vm_compute in (seq 0 64) in change (seq 0 64) with l.
  repeat (apply core_round; [rewrite sums by lia; reflexivity|intros ? ?]). reflexivity.
Qed.

(** The third: half of the block is constant. *)
Context (w8 : w 8%nat = 0x80000000) (w15 : w 15%nat = 0x100)
  (zeros : forall t, (9 <= t < 15)%nat -> w t = 0).

Lemma sigma_constants : SHA256.sigma1 0 = 0 /\ SHA256.sigma0 0 = 0 /\ SHA256.sigma1 0x100 = 0xa00000 /\
  SHA256.sigma0 0x80000000 = 0x11002000 /\ SHA256.sigma0 0x100 = 0x400022.
Proof using. done. Qed.

Ltac constant_words :=
  change sha256.sigma0 with SHA256.sigma0; change sha256.sigma1 with SHA256.sigma1;
  unfold SHA256.next; cbn [Nat.sub];
  rewrite ?w8, ?w15, ?(zeros 9), ?(zeros 10), ?(zeros 11), ?(zeros 12), ?(zeros 13), ?(zeros 14) by lia;
  destruct sigma_constants as (? & ? & ? & ? & ?);
  repeat match goal with E : SHA256.sigma1 _ = _ |- _ => rewrite ?E; clear E
                       | E : SHA256.sigma0 _ = _ |- _ => rewrite ?E; clear E end;
  width_lia.

Ltac third_step :=
  lazymatch goal with
  | |- assign _ _ = SHA256.plus _ (foldl _ _ (?t :: _)) =>
      apply (assign_state _ (w t));
      [first [exact (word_update w expanded t ltac:(lia))
             |rewrite (expanded t) by lia; constant_words]|]
  | |- _ = SHA256.plus _ (foldl _ _ (?t :: _)) =>
      apply core_round;
      [let k := eval vm_compute in (nth t SHA256.K 0) in change (nth t SHA256.K 0) with k;
       first [reflexivity | rewrite <- (word_update_last w expanded t) by lia; reflexivity
             |rewrite ?w8, ?w15, ?zeros by lia; reflexivity]
      |intros ? ?]
  end.

Lemma TransformD64_3_rounds :
  sha256.TransformD64_3 (w 0%nat, w 1%nat, w 2%nat, w 3%nat, w 4%nat, w 5%nat, w 6%nat, w 7%nat)
  = SHA256.plus SHA256.H0 (foldl (SHA256.round w) SHA256.H0 (seq 0 64)).
Proof using Type*.
  unfold sha256.TransformD64_3. cbn [sha256.Initialize]. unfold SHA256.H0 at 2.
  let l := eval vm_compute in (seq 0 64) in change (seq 0 64) with l.
  repeat third_step. cbn [foldl SHA256.plus SHA256.H0]. by rewrite !(Z.add_comm _ (Zpos _)).
Qed.
End Rounds.

Lemma Transform1_fips s chunk : sha256.Transform1 s chunk = SHA256.compress s chunk.
Proof.
  apply Transform1_rounds; intros t Ht; [by apply SHA256.word_expanded|]. by rewrite word_init.
Qed.
(** ** The double hash of a block *)
Lemma padding_sums_ok :
  (fun t => u32 (nth t SHA256.K 0
     + word (schedule SHA256.next (be32_at (padding (be_bytes 8) 64)) 64) t)) <$> seq 0 64 = padding_sums.
Proof. vm_compute. reflexivity. Qed.

Lemma TransformD64_2_fips s :
  sha256.TransformD64_2 s = SHA256.compress s (padding (be_bytes 8) 64).
Proof.
  apply TransformD64_2_rounds. intros t Ht. rewrite <- padding_sums_ok.
  symmetry. apply nth_lookup_Some. rewrite list_lookup_fmap, lookup_seq_lt by done. done.
Qed.

Lemma digest_words a b c d e f g h rest t : Forall (fits 32) [a; b; c; d; e; f; g; h] -> (t < 8)%nat ->
  be32_at (SHA256.digest (a, b, c, d, e, f, g, h) ++ rest) t = nth t [a; b; c; d; e; f; g; h] 0.
Proof.
  intros Hf Ht. unfold be32_at, SHA256.digest. rewrite !Forall_cons in Hf.
  destruct Hf as (? & ? & ? & ? & ? & ? & ? & ? & _).
  assert (forall z : Z, fits 32 z -> be_val (be_bytes 4 z) = z) as E
    by (intros; rewrite be_val_be_bytes; by apply Z.mod_small).
  do 8 (destruct t as [|t]; [cbn [Nat.mul Nat.add nth]; rewrite <- !app_assoc;
    repeat (rewrite drop_app_ge by (rewrite length_be_bytes; lia); rewrite length_be_bytes; cbn [Nat.sub]);
    rewrite drop_0, take_app_length' by (by rewrite length_be_bytes); by apply E|]). lia.
Qed.

Lemma compress_fits s block : let '(a, b, c, d, e, f, g, h) := SHA256.compress s block in
  Forall (fits 32) [a; b; c; d; e; f; g; h].
Proof.
  unfold SHA256.compress, SHA256.plus. destruct s as [[[[[[[? ?] ?] ?] ?] ?] ?] ?], (foldl _ _ _) as [[[[[[[? ?] ?] ?] ?] ?] ?] ?].
  repeat constructor; width_lia.
Qed.

Lemma TransformD64_3_fips s : (let '(a, b, c, d, e, f, g, h) := s in Forall (fits 32) [a; b; c; d; e; f; g; h]) ->
  sha256.TransformD64_3 s = SHA256.compress SHA256.H0 (SHA256.digest s ++ padding (be_bytes 8) 32).
Proof.
  destruct s as [[[[[[[a b] c] d] e] f] g] h]. intros Hf. set (block := _ ++ _).
  assert (forall t, (8 <= t < 16)%nat -> be32_at block t = be32_at (padding (be_bytes 8) 32) (t - 8)) as Hp.
  { intros t Ht. unfold be32_at, block. rewrite drop_app_ge by (simpl; lia). do 3 f_equal. simpl length. lia. }
  set (w := word (schedule SHA256.next (be32_at block) 64)).
  assert (forall t, (t < 16)%nat -> w t = be32_at block t) as Hw by (intros; by apply word_init).
  assert (forall t, (t < 8)%nat -> w t = nth t [a; b; c; d; e; f; g; h] 0) as Hd.
  { intros. rewrite Hw by lia. by apply digest_words. }
  unfold SHA256.compress. fold w. rewrite <- (TransformD64_3_rounds w).
  - by rewrite !Hd by lia.
  - intros t Ht. by apply SHA256.word_expanded.
  - by rewrite Hw, Hp by lia.
  - by rewrite Hw, Hp by lia.
  - intros t Ht. rewrite Hw, Hp by lia.
    do 9 (destruct t as [|t]; [lia|]). do 6 (destruct t as [|t]; [done|]). lia.
Qed.

Lemma TransformD64_1_fips block : sha256.TransformD64_1 block = SHA256.compress SHA256.H0 block.
Proof.
  apply TransformD64_1_rounds; intros t Ht; [by apply SHA256.word_expanded|]. by rewrite word_init.
Qed.

Lemma length_digest s : length (SHA256.digest s) = 32%nat.
Proof. destruct s as [[[[[[[? ?] ?] ?] ?] ?] ?] ?]. done. Qed.

(** The hash of 64 bytes takes two blocks, that of 32 bytes one. *)
Lemma hash_64 m : length m = 64%nat -> SHA256.hash m =
  SHA256.digest (SHA256.compress (SHA256.compress SHA256.H0 m) (padding (be_bytes 8) 64)).
Proof.
  intros L. unfold SHA256.hash. rewrite length_app, L. change ((64 + _) / 64)%nat with 2%nat. cbn [chain].
  rewrite take_app_length', drop_app_length' by done. done.
Qed.

Lemma hash_32 m : length m = 32%nat -> SHA256.hash m =
  SHA256.digest (SHA256.compress SHA256.H0 (m ++ padding (be_bytes 8) 32)).
Proof.
  intros L. unfold SHA256.hash. rewrite length_app, L. change ((32 + _) / 64)%nat with 1%nat. cbn [chain].
  rewrite take_ge; [done|]. rewrite length_app, L. simpl. lia.
Qed.

Lemma TransformD64_spec block : length block = 64%nat ->
  sha256.TransformD64 block = SHA256.hash (SHA256.hash block).
Proof.
  intros L. rewrite hash_32 by (rewrite hash_64 by done; apply length_digest). rewrite hash_64 by done.
  unfold sha256.TransformD64. rewrite TransformD64_1_fips, TransformD64_2_fips.
  rewrite TransformD64_3_fips by apply compress_fits.
  generalize (SHA256.compress SHA256.H0 (SHA256.digest (SHA256.compress (SHA256.compress SHA256.H0 block)
    (padding (be_bytes 8) 64)) ++ padding (be_bytes 8) 32)).
  intros [[[[[[[? ?] ?] ?] ?] ?] ?] ?]. reflexivity.
Qed.

(** ** The class

    Members [s], [buf] and [bytes] of the three hash classes. The constructor does not set
    [buf]; it is an argument. *)
Section Write.
Context {St : Type} (Transform : St -> bytes -> St).

(** [CRIPEMD160::Write] and [CSHA1::Write]; the loop is [add_chunks]. *)
Definition Write (c : ctx) (data : bytes) : ctx :=
  let bufsize := Z.to_nat (ctx_bytes c mod 64) in
  let '(c, data, bufsize) :=
    if negb (bufsize =? 0)%nat && (64 <=? bufsize + length data)%nat then
      let n := (64 - bufsize)%nat in
      let buf := memcpy_at (ctx_buf c) bufsize (take n data) in
      (Ctx (Transform (ctx_s c) buf) buf (u64 (ctx_bytes c + Z.of_nat n)), drop n data, O)
    else (c, data, bufsize) in
  let '(c, data) := add_chunks Transform (length data) c data in
  if (0 <? length data)%nat then
    Ctx (ctx_s c) (memcpy_at (ctx_buf c) bufsize data) (u64 (ctx_bytes c + Z.of_nat (length data)))
  else c.

Lemma Write_repr s0 c m d : repr Transform s0 c m -> repr Transform s0 (Write c d) (m ++ d).
Proof using.
  intros Hc. destruct (decide (Z.to_nat (ctx_bytes c mod 64) = 0%nat)) as [E|E].
  - pose proof (absorb_tail_mod Transform s0 m) as Hmod. unfold repr in *. rewrite absorb_app.
    destruct (absorb Transform s0 m) as [s t]. cbn [fst snd] in *. destruct Hc as (Hs & Ht & Hl & Hb).
    assert (t = []) as ->.
    { apply length_zero_iff_nil. rewrite Hmod. rewrite Hb in E. apply Nat2Z.inj. rewrite Nat2Z.inj_mod.
      width_lia. }
    unfold Write. rewrite E. cbn [Nat.eqb negb andb app]. rewrite add_chunks_absorb by done.
    cbn [ctx_s ctx_buf ctx_bytes].
    rewrite Hs. pose proof (absorb_tail_lt Transform s d) as Hr.
    pose proof (absorb_small Transform s d) as Hsm.
    destruct (absorb Transform s d) as [s' r]. cbn [fst snd] in *.
    edestruct (add_rest_repr s' (ctx_buf c)) as (H1 & H2 & H3 & H4); [exact Hl|exact Hr|].
    split; [exact H1|]. split; [exact H2|]. split; [exact H3|].
    rewrite H4; [|case_match; [apply u64_fits|rewrite Hb; apply u64_fits]]. rewrite length_app, Hb.
    case_match eqn:E2.
    + rewrite u64_add_l, Z.sub_add, u64_add_l. f_equal. lia.
    + apply Nat.leb_gt in E2. specialize (Hsm E2). simplify_eq. rewrite u64_add_l. f_equal. lia.
  - assert (Write c d = add Transform c d) as ->; [|by apply add_repr].
    unfold Write, add. apply Nat.eqb_neq in E. by rewrite E.
Qed.
End Write.

(** [CSHA256::Write] hands all whole blocks to one [Transform]. *)
Definition CSHA256_Write (c : ctx) (data : bytes) : ctx :=
  let bufsize := Z.to_nat (ctx_bytes c mod 64) in
  let '(c, data, bufsize) :=
    if negb (bufsize =? 0)%nat && (64 <=? bufsize + length data)%nat then
      let n := (64 - bufsize)%nat in
      let buf := memcpy_at (ctx_buf c) bufsize (take n data) in
      (Ctx (sha256.Transform (ctx_s c) buf 1) buf (u64 (ctx_bytes c + Z.of_nat n)), drop n data, O)
    else (c, data, bufsize) in
  let '(c, data) :=
    if (64 <=? length data)%nat then
      let blocks := (length data / 64)%nat in
      (Ctx (sha256.Transform (ctx_s c) data blocks) (ctx_buf c)
           (u64 (ctx_bytes c + 64 * Z.of_nat blocks)), drop (64 * blocks) data)
    else (c, data) in
  if (0 <? length data)%nat then
    Ctx (ctx_s c) (memcpy_at (ctx_buf c) bufsize data) (u64 (ctx_bytes c + Z.of_nat (length data)))
  else c.

Definition CSHA256_new (buf : bytes) : ctx := Ctx sha256.Initialize buf 0.
Definition CSHA256_Reset (c : ctx (St := sha_state)) : ctx := Ctx sha256.Initialize (ctx_buf c) 0.

Definition CSHA256_Finalize (c : ctx) : bytes :=
  let sizedesc := WriteBE64 (u64 (Z.shiftl (ctx_bytes c) 3)) in
  let pad := 0x80 :: replicate 63 0 in
  let c := CSHA256_Write c (take (Z.to_nat (1 + (119 - ctx_bytes c mod 64) mod 64)) pad) in
  let c := CSHA256_Write c sizedesc in
  let '(s0, s1, s2, s3, s4, s5, s6, s7) := ctx_s c in
  WriteBE32 s0 ++ WriteBE32 s1 ++ WriteBE32 s2 ++ WriteBE32 s3 ++
  WriteBE32 s4 ++ WriteBE32 s5 ++ WriteBE32 s6 ++ WriteBE32 s7.

(** The digest of a message, from a fresh object. *)
Definition CSHA256 (m : bytes) : bytes := CSHA256_Finalize (CSHA256_Write (CSHA256_new (replicate 64 0)) m).

Definition one_block (s : sha_state) (b : bytes) : sha_state := sha256.Transform s b 1.

Lemma one_block_take s b : one_block s (take 64 b) = sha256.Transform1 s (take 64 b).
Proof. unfold one_block, sha256.Transform. cbn [each_block]. by rewrite take_take. Qed.

Lemma absorb_blocks s d : absorb one_block s d =
  (sha256.Transform s d (length d / 64), drop (64 * (length d / 64)) d).
Proof.
  revert s. induction d as [d Hd|b d Hb IH] using blocks_ind; intros s.
  - rewrite absorb_small, Nat.div_small by done. done.
  - pose proof (one_block_take s b) as E. rewrite take_ge in E by lia.
    rewrite absorb_block, E, IH, length_app, Hb by done.
    replace ((64 + length d) / 64)%nat with (S (length d / 64))
      by (change (64 + length d)%nat with (1 * 64 + length d)%nat; rewrite Nat.div_add_l by lia; done).
    unfold sha256.Transform at 2. cbn [each_block]. fold (sha256.Transform (sha256.Transform1 s (take 64 (b ++ d)))).
    rewrite take_app_length', drop_app_length' by done.
    replace (64 * S (length d / 64))%nat with (length b + 64 * (length d / 64))%nat by lia.
    by rewrite <- drop_drop, drop_app_length.
Qed.

Lemma CSHA256_Write_spec c data : CSHA256_Write c data = Write one_block c data.
Proof.
  unfold CSHA256_Write, Write. cbv zeta.
  change (one_block (ctx_s c) ?b) with (sha256.Transform (ctx_s c) b 1).
  match goal with |- (let '(_, _) := ?x in _) = _ => destruct x as [[c1 d1] bufsize] end.
  rewrite add_chunks_absorb, absorb_blocks by done. cbn [fst snd].
  destruct (64 <=? length d1)%nat eqn:E.
  - replace (ctx_bytes c1 + Z.of_nat (length d1) - Z.of_nat (length (drop (64 * (length d1 / 64)) d1)))
      with (ctx_bytes c1 + 64 * Z.of_nat (length d1 / 64)); [done|].
    rewrite length_drop. pose proof (Nat.div_mod_eq (length d1) 64). lia.
  - apply Nat.leb_gt in E. rewrite Nat.div_small by done. by destruct c1.
Qed.

Lemma chain_core n s m : chain one_block n s m = chain SHA256.compress n s m.
Proof.
  revert s m. induction n as [|n IH]; intros; simpl; [done|].
  by rewrite one_block_take, Transform1_fips, IH.
Qed.

(** A [CSHA256] that has been given [m] in any number of writes. *)
Definition CSHA256_holds (c : ctx) (m : bytes) : Prop := repr one_block SHA256.H0 c m.

Lemma CSHA256_new_holds buf : length buf = 64%nat -> CSHA256_holds (CSHA256_new buf) [].
Proof. intros. unfold CSHA256_holds, repr. rewrite absorb_small by (simpl; lia). done. Qed.

Lemma CSHA256_Write_holds c m d : CSHA256_holds c m -> CSHA256_holds (CSHA256_Write c d) (m ++ d).
Proof. intros. rewrite CSHA256_Write_spec. by apply Write_repr. Qed.

Lemma CSHA256_Reset_holds c m : CSHA256_holds c m -> CSHA256_holds (CSHA256_Reset c) [].
Proof.
  unfold CSHA256_holds, repr. rewrite (absorb_small _ _ []) by (simpl; lia).
  destruct (absorb _ _ m). intros (_ & _ & L & _). done.
Qed.

(** Finishing, for any of the classes. *)
Lemma Finalize_repr {St} (T : St -> bytes -> St) s0 c m (size : Z -> bytes) :
  (forall z, length (size z) = 8%nat) -> repr T s0 c m ->
  let pad := take (Z.to_nat (1 + (119 - ctx_bytes c mod 64) mod 64)) (0x80 :: replicate 63 0) in
  let p := m ++ padding size (length m) in
  ctx_s (Write T (Write T c pad) (size (u64 (Z.shiftl (ctx_bytes c) 3))))
  = chain T (length p / 64) s0 p.
Proof.
  intros Hs Hc pad p. unfold p. rewrite <- (finish_repr T s0 c m size Hs Hc). fold pad.
  set (sd := size _).
  pose proof (Write_repr T _ _ _ sd (Write_repr T _ _ _ pad Hc)) as H1.
  pose proof (add_repr T _ _ _ sd (add_repr T _ _ _ pad Hc)) as H2.
  unfold repr in H1, H2. destruct (absorb _ _ _). destruct H1 as [-> _], H2 as [-> _]. done.
Qed.

Lemma CSHA256_Finalize_spec c m : CSHA256_holds c m -> CSHA256_Finalize c = SHA256.hash m.
Proof.
  intros Hc. apply (Finalize_repr _ _ _ _ (be_bytes 8) (length_be_bytes 8)) in Hc.
  unfold CSHA256_Finalize, SHA256.hash. rewrite !CSHA256_Write_spec, <- chain_core. unfold WriteBE64.
  rewrite <- Hc. by destruct (ctx_s _) as [[[[[[[? ?] ?] ?] ?] ?] ?] ?].
Qed.

Lemma CSHA256_spec m : CSHA256 m = SHA256.hash m.
Proof.
  apply CSHA256_Finalize_spec. change m with ([] ++ m) at 2.
  apply CSHA256_Write_holds, CSHA256_new_holds. done.
Qed.
