(* ===== verification/CoreHash.v ===== *)
(** * The other hash functions of Bitcoin Core

    src/bitcoin/src/crypto/ripemd160.cpp, crypto/sha1.cpp and the double hashes of
    hash.h. [CRIPEMD160_spec], [CSHA1_spec] and the lemmas on [CHash256] and [CHash160]
    show them equal to the functions of the standards, and so to those of the node. *)
From S2P Require Import Prelude HashSpec BlockHash Sha256 Ripemd160 CoreSha256.
Local Open Scope Z_scope.

Module ripemd160.
Definition f1 (x y z : Z) : Z := x ^^ y ^^ z.
Definition f2 (x y z : Z) : Z := Z.lor (Z.land x y) (Z.land (not32 x) z).
Definition f3 (x y z : Z) : Z := Z.lor x (not32 y) ^^ z.
Definition f4 (x y z : Z) : Z := Z.lor (Z.land x z) (Z.land y (not32 z)).
Definition f5 (x y z : Z) : Z := x ^^ Z.lor y (not32 z).

Definition Initialize : ripemd_state := (0x67452301, 0xEFCDAB89, 0x98BADCFE, 0x10325476, 0xC3D2E1F0).

Definition rol (x i : Z) : Z := Z.lor (shl32 x i) (shr32 x (32 - i)).

(** The new values of [a] and [c]. *)
Definition Round (a b c d e f x k r : Z) : Z * Z := (u32 (rol (u32 (a + f + x + k)) r + e), rol c 10).

Definition R11 (a b c d e x r : Z) := Round a b c d e (f1 b c d) x 0 r.
Definition R21 (a b c d e x r : Z) := Round a b c d e (f2 b c d) x 0x5A827999 r.
Definition R31 (a b c d e x r : Z) := Round a b c d e (f3 b c d) x 0x6ED9EBA1 r.
Definition R41 (a b c d e x r : Z) := Round a b c d e (f4 b c d) x 0x8F1BBCDC r.
Definition R51 (a b c d e x r : Z) := Round a b c d e (f5 b c d) x 0xA953FD4E r.
Definition R12 (a b c d e x r : Z) := Round a b c d e (f5 b c d) x 0x50A28BE6 r.
Definition R22 (a b c d e x r : Z) := Round a b c d e (f4 b c d) x 0x5C4DD124 r.
Definition R32 (a b c d e x r : Z) := Round a b c d e (f3 b c d) x 0x6D703EF3 r.
Definition R42 (a b c d e x r : Z) := Round a b c d e (f2 b c d) x 0x7A6D76E9 r.
Definition R52 (a b c d e x r : Z) := Round a b c d e (f1 b c d) x 0 r.

Definition Transform (s : ripemd_state) (chunk : bytes) : ripemd_state :=
  let '(s0, s1, s2, s3, s4) := s in
  let '(a1, b1, c1, d1, e1) := s in
  let '(a2, b2, c2, d2, e2) := s in
  let w0 := ReadLE32 (drop 0 chunk) in let w1 := ReadLE32 (drop 4 chunk) in
  let w2 := ReadLE32 (drop 8 chunk) in let w3 := ReadLE32 (drop 12 chunk) in
  let w4 := ReadLE32 (drop 16 chunk) in let w5 := ReadLE32 (drop 20 chunk) in
  let w6 := ReadLE32 (drop 24 chunk) in let w7 := ReadLE32 (drop 28 chunk) in
  let w8 := ReadLE32 (drop 32 chunk) in let w9 := ReadLE32 (drop 36 chunk) in
  let w10 := ReadLE32 (drop 40 chunk) in let w11 := ReadLE32 (drop 44 chunk) in
  let w12 := ReadLE32 (drop 48 chunk) in let w13 := ReadLE32 (drop 52 chunk) in
  let w14 := ReadLE32 (drop 56 chunk) in let w15 := ReadLE32 (drop 60 chunk) in
  let '(a1, c1) := R11 a1 b1 c1 d1 e1 w0 11 in
  let '(a2, c2) := R12 a2 b2 c2 d2 e2 w5 8 in
  let '(e1, b1) := R11 e1 a1 b1 c1 d1 w1 14 in
  let '(e2, b2) := R12 e2 a2 b2 c2 d2 w14 9 in
  let '(d1, a1) := R11 d1 e1 a1 b1 c1 w2 15 in
  let '(d2, a2) := R12 d2 e2 a2 b2 c2 w7 9 in
  let '(c1, e1) := R11 c1 d1 e1 a1 b1 w3 12 in
  let '(c2, e2) := R12 c2 d2 e2 a2 b2 w0 11 in
  let '(b1, d1) := R11 b1 c1 d1 e1 a1 w4 5 in
  let '(b2, d2) := R12 b2 c2 d2 e2 a2 w9 13 in
  let '(a1, c1) := R11 a1 b1 c1 d1 e1 w5 8 in
  let '(a2, c2) := R12 a2 b2 c2 d2 e2 w2 15 in
  let '(e1, b1) := R11 e1 a1 b1 c1 d1 w6 7 in
  let '(e2, b2) := R12 e2 a2 b2 c2 d2 w11 15 in
  let '(d1, a1) := R11 d1 e1 a1 b1 c1 w7 9 in
  let '(d2, a2) := R12 d2 e2 a2 b2 c2 w4 5 in
  let '(c1, e1) := R11 c1 d1 e1 a1 b1 w8 11 in
  let '(c2, e2) := R12 c2 d2 e2 a2 b2 w13 7 in
  let '(b1, d1) := R11 b1 c1 d1 e1 a1 w9 13 in
  let '(b2, d2) := R12 b2 c2 d2 e2 a2 w6 7 in
  let '(a1, c1) := R11 a1 b1 c1 d1 e1 w10 14 in
  let '(a2, c2) := R12 a2 b2 c2 d2 e2 w15 8 in
  let '(e1, b1) := R11 e1 a1 b1 c1 d1 w11 15 in
  let '(e2, b2) := R12 e2 a2 b2 c2 d2 w8 11 in
  let '(d1, a1) := R11 d1 e1 a1 b1 c1 w12 6 in
  let '(d2, a2) := R12 d2 e2 a2 b2 c2 w1 14 in
  let '(c1, e1) := R11 c1 d1 e1 a1 b1 w13 7 in
  let '(c2, e2) := R12 c2 d2 e2 a2 b2 w10 14 in
  let '(b1, d1) := R11 b1 c1 d1 e1 a1 w14 9 in
  let '(b2, d2) := R12 b2 c2 d2 e2 a2 w3 12 in
  let '(a1, c1) := R11 a1 b1 c1 d1 e1 w15 8 in
  let '(a2, c2) := R12 a2 b2 c2 d2 e2 w12 6 in
  let '(e1, b1) := R21 e1 a1 b1 c1 d1 w7 7 in
  let '(e2, b2) := R22 e2 a2 b2 c2 d2 w6 9 in
  let '(d1, a1) := R21 d1 e1 a1 b1 c1 w4 6 in
  let '(d2, a2) := R22 d2 e2 a2 b2 c2 w11 13 in
  let '(c1, e1) := R21 c1 d1 e1 a1 b1 w13 8 in
  let '(c2, e2) := R22 c2 d2 e2 a2 b2 w3 15 in
  let '(b1, d1) := R21 b1 c1 d1 e1 a1 w1 13 in
  let '(b2, d2) := R22 b2 c2 d2 e2 a2 w7 7 in
  let '(a1, c1) := R21 a1 b1 c1 d1 e1 w10 11 in
  let '(a2, c2) := R22 a2 b2 c2 d2 e2 w0 12 in
  let '(e1, b1) := R21 e1 a1 b1 c1 d1 w6 9 in
  let '(e2, b2) := R22 e2 a2 b2 c2 d2 w13 8 in
  let '(d1, a1) := R21 d1 e1 a1 b1 c1 w15 7 in
  let '(d2, a2) := R22 d2 e2 a2 b2 c2 w5 9 in
  let '(c1, e1) := R21 c1 d1 e1 a1 b1 w3 15 in
  let '(c2, e2) := R22 c2 d2 e2 a2 b2 w10 11 in
  let '(b1, d1) := R21 b1 c1 d1 e1 a1 w12 7 in
  let '(b2, d2) := R22 b2 c2 d2 e2 a2 w14 7 in
  let '(a1, c1) := R21 a1 b1 c1 d1 e1 w0 12 in
  let '(a2, c2) := R22 a2 b2 c2 d2 e2 w15 7 in
  let '(e1, b1) := R21 e1 a1 b1 c1 d1 w9 15 in
  let '(e2, b2) := R22 e2 a2 b2 c2 d2 w8 12 in
  let '(d1, a1) := R21 d1 e1 a1 b1 c1 w5 9 in
  let '(d2, a2) := R22 d2 e2 a2 b2 c2 w12 7 in
  let '(c1, e1) := R21 c1 d1 e1 a1 b1 w2 11 in
  let '(c2, e2) := R22 c2 d2 e2 a2 b2 w4 6 in
  let '(b1, d1) := R21 b1 c1 d1 e1 a1 w14 7 in
  let '(b2, d2) := R22 b2 c2 d2 e2 a2 w9 15 in
  let '(a1, c1) := R21 a1 b1 c1 d1 e1 w11 13 in
  let '(a2, c2) := R22 a2 b2 c2 d2 e2 w1 13 in
  let '(e1, b1) := R21 e1 a1 b1 c1 d1 w8 12 in
  let '(e2, b2) := R22 e2 a2 b2 c2 d2 w2 11 in
  let '(d1, a1) := R31 d1 e1 a1 b1 c1 w3 11 in
  let '(d2, a2) := R32 d2 e2 a2 b2 c2 w15 9 in
  let '(c1, e1) := R31 c1 d1 e1 a1 b1 w10 13 in
  let '(c2, e2) := R32 c2 d2 e2 a2 b2 w5 7 in
  let '(b1, d1) := R31 b1 c1 d1 e1 a1 w14 6 in
  let '(b2, d2) := R32 b2 c2 d2 e2 a2 w1 15 in
  let '(a1, c1) := R31 a1 b1 c1 d1 e1 w4 7 in
  let '(a2, c2) := R32 a2 b2 c2 d2 e2 w3 11 in
  let '(e1, b1) := R31 e1 a1 b1 c1 d1 w9 14 in
  let '(e2, b2) := R32 e2 a2 b2 c2 d2 w7 8 in
  let '(d1, a1) := R31 d1 e1 a1 b1 c1 w15 9 in
  let '(d2, a2) := R32 d2 e2 a2 b2 c2 w14 6 in
  let '(c1, e1) := R31 c1 d1 e1 a1 b1 w8 13 in
  let '(c2, e2) := R32 c2 d2 e2 a2 b2 w6 6 in
  let '(b1, d1) := R31 b1 c1 d1 e1 a1 w1 15 in
  let '(b2, d2) := R32 b2 c2 d2 e2 a2 w9 14 in
  let '(a1, c1) := R31 a1 b1 c1 d1 e1 w2 14 in
  let '(a2, c2) := R32 a2 b2 c2 d2 e2 w11 12 in
  let '(e1, b1) := R31 e1 a1 b1 c1 d1 w7 8 in
  let '(e2, b2) := R32 e2 a2 b2 c2 d2 w8 13 in
  let '(d1, a1) := R31 d1 e1 a1 b1 c1 w0 13 in
  let '(d2, a2) := R32 d2 e2 a2 b2 c2 w12 5 in
  let '(c1, e1) := R31 c1 d1 e1 a1 b1 w6 6 in
  let '(c2, e2) := R32 c2 d2 e2 a2 b2 w2 14 in
  let '(b1, d1) := R31 b1 c1 d1 e1 a1 w13 5 in
  let '(b2, d2) := R32 b2 c2 d2 e2 a2 w10 13 in
  let '(a1, c1) := R31 a1 b1 c1 d1 e1 w11 12 in
  let '(a2, c2) := R32 a2 b2 c2 d2 e2 w0 13 in
  let '(e1, b1) := R31 e1 a1 b1 c1 d1 w5 7 in
  let '(e2, b2) := R32 e2 a2 b2 c2 d2 w4 7 in
  let '(d1, a1) := R31 d1 e1 a1 b1 c1 w12 5 in
  let '(d2, a2) := R32 d2 e2 a2 b2 c2 w13 5 in
  let '(c1, e1) := R41 c1 d1 e1 a1 b1 w1 11 in
  let '(c2, e2) := R42 c2 d2 e2 a2 b2 w8 15 in
  let '(b1, d1) := R41 b1 c1 d1 e1 a1 w9 12 in
  let '(b2, d2) := R42 b2 c2 d2 e2 a2 w6 5 in
  let '(a1, c1) := R41 a1 b1 c1 d1 e1 w11 14 in
  let '(a2, c2) := R42 a2 b2 c2 d2 e2 w4 8 in
  let '(e1, b1) := R41 e1 a1 b1 c1 d1 w10 15 in
  let '(e2, b2) := R42 e2 a2 b2 c2 d2 w1 11 in
  let '(d1, a1) := R41 d1 e1 a1 b1 c1 w0 14 in
  let '(d2, a2) := R42 d2 e2 a2 b2 c2 w3 14 in
  let '(c1, e1) := R41 c1 d1 e1 a1 b1 w8 15 in
  let '(c2, e2) := R42 c2 d2 e2 a2 b2 w11 14 in
  let '(b1, d1) := R41 b1 c1 d1 e1 a1 w12 9 in
  let '(b2, d2) := R42 b2 c2 d2 e2 a2 w15 6 in
  let '(a1, c1) := R41 a1 b1 c1 d1 e1 w4 8 in
  let '(a2, c2) := R42 a2 b2 c2 d2 e2 w0 14 in
  let '(e1, b1) := R41 e1 a1 b1 c1 d1 w13 9 in
  let '(e2, b2) := R42 e2 a2 b2 c2 d2 w5 6 in
  let '(d1, a1) := R41 d1 e1 a1 b1 c1 w3 14 in
  let '(d2, a2) := R42 d2 e2 a2 b2 c2 w12 9 in
  let '(c1, e1) := R41 c1 d1 e1 a1 b1 w7 5 in
  let '(c2, e2) := R42 c2 d2 e2 a2 b2 w2 12 in
  let '(b1, d1) := R41 b1 c1 d1 e1 a1 w15 6 in
  let '(b2, d2) := R42 b2 c2 d2 e2 a2 w13 9 in
  let '(a1, c1) := R41 a1 b1 c1 d1 e1 w14 8 in
  let '(a2, c2) := R42 a2 b2 c2 d2 e2 w9 12 in
  let '(e1, b1) := R41 e1 a1 b1 c1 d1 w5 6 in
  let '(e2, b2) := R42 e2 a2 b2 c2 d2 w7 5 in
  let '(d1, a1) := R41 d1 e1 a1 b1 c1 w6 5 in
  let '(d2, a2) := R42 d2 e2 a2 b2 c2 w10 15 in
  let '(c1, e1) := R41 c1 d1 e1 a1 b1 w2 12 in
  let '(c2, e2) := R42 c2 d2 e2 a2 b2 w14 8 in
  let '(b1, d1) := R51 b1 c1 d1 e1 a1 w4 9 in
  let '(b2, d2) := R52 b2 c2 d2 e2 a2 w12 8 in
  let '(a1, c1) := R51 a1 b1 c1 d1 e1 w0 15 in
  let '(a2, c2) := R52 a2 b2 c2 d2 e2 w15 5 in
  let '(e1, b1) := R51 e1 a1 b1 c1 d1 w5 5 in
  let '(e2, b2) := R52 e2 a2 b2 c2 d2 w10 12 in
  let '(d1, a1) := R51 d1 e1 a1 b1 c1 w9 11 in
  let '(d2, a2) := R52 d2 e2 a2 b2 c2 w4 9 in
  let '(c1, e1) := R51 c1 d1 e1 a1 b1 w7 6 in
  let '(c2, e2) := R52 c2 d2 e2 a2 b2 w1 12 in
  let '(b1, d1) := R51 b1 c1 d1 e1 a1 w12 8 in
  let '(b2, d2) := R52 b2 c2 d2 e2 a2 w5 5 in
  let '(a1, c1) := R51 a1 b1 c1 d1 e1 w2 13 in
  let '(a2, c2) := R52 a2 b2 c2 d2 e2 w8 14 in
  let '(e1, b1) := R51 e1 a1 b1 c1 d1 w10 12 in
  let '(e2, b2) := R52 e2 a2 b2 c2 d2 w7 6 in
  let '(d1, a1) := R51 d1 e1 a1 b1 c1 w14 5 in
  let '(d2, a2) := R52 d2 e2 a2 b2 c2 w6 8 in
  let '(c1, e1) := R51 c1 d1 e1 a1 b1 w1 12 in
  let '(c2, e2) := R52 c2 d2 e2 a2 b2 w2 13 in
  let '(b1, d1) := R51 b1 c1 d1 e1 a1 w3 13 in
  let '(b2, d2) := R52 b2 c2 d2 e2 a2 w13 6 in
  let '(a1, c1) := R51 a1 b1 c1 d1 e1 w8 14 in
  let '(a2, c2) := R52 a2 b2 c2 d2 e2 w14 5 in
  let '(e1, b1) := R51 e1 a1 b1 c1 d1 w11 11 in
  let '(e2, b2) := R52 e2 a2 b2 c2 d2 w0 15 in
  let '(d1, a1) := R51 d1 e1 a1 b1 c1 w6 8 in
  let '(d2, a2) := R52 d2 e2 a2 b2 c2 w3 13 in
  let '(c1, e1) := R51 c1 d1 e1 a1 b1 w15 5 in
  let '(c2, e2) := R52 c2 d2 e2 a2 b2 w9 11 in
  let '(b1, d1) := R51 b1 c1 d1 e1 a1 w13 6 in
  let '(b2, d2) := R52 b2 c2 d2 e2 a2 w11 11 in
  (u32 (s1 + c1 + d2), u32 (s2 + d1 + e2), u32 (s3 + e1 + a2), u32 (s4 + a1 + b2),
   u32 (s0 + b1 + c2)).
End ripemd160.

Definition CRIPEMD160_new (buf : bytes) : ctx := Ctx ripemd160.Initialize buf 0.
Definition CRIPEMD160_Write (c : ctx) (data : bytes) : ctx := Write ripemd160.Transform c data.
Definition CRIPEMD160_Finalize (c : ctx) : bytes :=
  let sizedesc := WriteLE64 (u64 (Z.shiftl (ctx_bytes c) 3)) in
  let pad := 0x80 :: replicate 63 0 in
  let c := CRIPEMD160_Write c (take (Z.to_nat (1 + (119 - ctx_bytes c mod 64) mod 64)) pad) in
  let c := CRIPEMD160_Write c sizedesc in
  let '(s0, s1, s2, s3, s4) := ctx_s c in
  WriteLE32 s0 ++ WriteLE32 s1 ++ WriteLE32 s2 ++ WriteLE32 s3 ++ WriteLE32 s4.
Definition CRIPEMD160 (m : bytes) : bytes :=
  CRIPEMD160_Finalize (CRIPEMD160_Write (CRIPEMD160_new (replicate 64 0)) m).

Module sha1.
(** The new values of [b] and [e]. *)
Definition Round (a b c d e f k w : Z) : Z * Z :=
  (Z.lor (shl32 b 30) (shr32 b 2), u32 (e + u32 (Z.lor (shl32 a 5) (shr32 a 27) + f + k + w))).

Definition f1 (b c d : Z) : Z := d ^^ Z.land b (c ^^ d).
Definition f2 (b c d : Z) : Z := b ^^ c ^^ d.
Definition f3 (b c d : Z) : Z := Z.lor (Z.land b c) (Z.land d (Z.lor b c)).
Definition left (x : Z) : Z := Z.lor (shl32 x 1) (shr32 x 31).

Definition Initialize : SHA1.state := (0x67452301, 0xEFCDAB89, 0x98BADCFE, 0x10325476, 0xC3D2E1F0).

Definition k1 : Z := 0x5A827999.
Definition k2 : Z := 0x6ED9EBA1.
Definition k3 : Z := 0x8F1BBCDC.
Definition k4 : Z := 0xCA62C1D6.

Definition Transform (s : SHA1.state) (chunk : bytes) : SHA1.state :=
  let '(s0, s1, s2, s3, s4) := s in
  let '(a, b, c, d, e) := s in
  w0 <== ReadBE32 (drop 0 chunk);
  let '(b, e) := Round a b c d e (f1 b c d) k1 w0 in
  w1 <== ReadBE32 (drop 4 chunk);
  let '(a, d) := Round e a b c d (f1 a b c) k1 w1 in
  w2 <== ReadBE32 (drop 8 chunk);
  let '(e, c) := Round d e a b c (f1 e a b) k1 w2 in
  w3 <== ReadBE32 (drop 12 chunk);
  let '(d, b) := Round c d e a b (f1 d e a) k1 w3 in
  w4 <== ReadBE32 (drop 16 chunk);
  let '(c, a) := Round b c d e a (f1 c d e) k1 w4 in
  w5 <== ReadBE32 (drop 20 chunk);
  let '(b, e) := Round a b c d e (f1 b c d) k1 w5 in
  w6 <== ReadBE32 (drop 24 chunk);
  let '(a, d) := Round e a b c d (f1 a b c) k1 w6 in
  w7 <== ReadBE32 (drop 28 chunk);
  let '(e, c) := Round d e a b c (f1 e a b) k1 w7 in
  w8 <== ReadBE32 (drop 32 chunk);
  let '(d, b) := Round c d e a b (f1 d e a) k1 w8 in
  w9 <== ReadBE32 (drop 36 chunk);
  let '(c, a) := Round b c d e a (f1 c d e) k1 w9 in
  w10 <== ReadBE32 (drop 40 chunk);
  let '(b, e) := Round a b c d e (f1 b c d) k1 w10 in
  w11 <== ReadBE32 (drop 44 chunk);
  let '(a, d) := Round e a b c d (f1 a b c) k1 w11 in
  w12 <== ReadBE32 (drop 48 chunk);
  let '(e, c) := Round d e a b c (f1 e a b) k1 w12 in
  w13 <== ReadBE32 (drop 52 chunk);
  let '(d, b) := Round c d e a b (f1 d e a) k1 w13 in
  w14 <== ReadBE32 (drop 56 chunk);
  let '(c, a) := Round b c d e a (f1 c d e) k1 w14 in
  w15 <== ReadBE32 (drop 60 chunk);
  let '(b, e) := Round a b c d e (f1 b c d) k1 w15 in
  w0 <== left (w0 ^^ w13 ^^ w8 ^^ w2);
  let '(a, d) := Round e a b c d (f1 a b c) k1 w0 in
  w1 <== left (w1 ^^ w14 ^^ w9 ^^ w3);
  let '(e, c) := Round d e a b c (f1 e a b) k1 w1 in
  w2 <== left (w2 ^^ w15 ^^ w10 ^^ w4);
  let '(d, b) := Round c d e a b (f1 d e a) k1 w2 in
  w3 <== left (w3 ^^ w0 ^^ w11 ^^ w5);
  let '(c, a) := Round b c d e a (f1 c d e) k1 w3 in
  w4 <== left (w4 ^^ w1 ^^ w12 ^^ w6);
  let '(b, e) := Round a b c d e (f2 b c d) k2 w4 in
  w5 <== left (w5 ^^ w2 ^^ w13 ^^ w7);
  let '(a, d) := Round e a b c d (f2 a b c) k2 w5 in
  w6 <== left (w6 ^^ w3 ^^ w14 ^^ w8);
  let '(e, c) := Round d e a b c (f2 e a b) k2 w6 in
  w7 <== left (w7 ^^ w4 ^^ w15 ^^ w9);
  let '(d, b) := Round c d e a b (f2 d e a) k2 w7 in
  w8 <== left (w8 ^^ w5 ^^ w0 ^^ w10);
  let '(c, a) := Round b c d e a (f2 c d e) k2 w8 in
  w9 <== left (w9 ^^ w6 ^^ w1 ^^ w11);
  let '(b, e) := Round a b c d e (f2 b c d) k2 w9 in
  w10 <== left (w10 ^^ w7 ^^ w2 ^^ w12);
  let '(a, d) := Round e a b c d (f2 a b c) k2 w10 in
  w11 <== left (w11 ^^ w8 ^^ w3 ^^ w13);
  let '(e, c) := Round d e a b c (f2 e a b) k2 w11 in
  w12 <== left (w12 ^^ w9 ^^ w4 ^^ w14);
  let '(d, b) := Round c d e a b (f2 d e a) k2 w12 in
  w13 <== left (w13 ^^ w10 ^^ w5 ^^ w15);
  let '(c, a) := Round b c d e a (f2 c d e) k2 w13 in
  w14 <== left (w14 ^^ w11 ^^ w6 ^^ w0);
  let '(b, e) := Round a b c d e (f2 b c d) k2 w14 in
  w15 <== left (w15 ^^ w12 ^^ w7 ^^ w1);
  let '(a, d) := Round e a b c d (f2 a b c) k2 w15 in
  w0 <== left (w0 ^^ w13 ^^ w8 ^^ w2);
  let '(e, c) := Round d e a b c (f2 e a b) k2 w0 in
  w1 <== left (w1 ^^ w14 ^^ w9 ^^ w3);
  let '(d, b) := Round c d e a b (f2 d e a) k2 w1 in
  w2 <== left (w2 ^^ w15 ^^ w10 ^^ w4);
  let '(c, a) := Round b c d e a (f2 c d e) k2 w2 in
  w3 <== left (w3 ^^ w0 ^^ w11 ^^ w5);
  let '(b, e) := Round a b c d e (f2 b c d) k2 w3 in
  w4 <== left (w4 ^^ w1 ^^ w12 ^^ w6);
  let '(a, d) := Round e a b c d (f2 a b c) k2 w4 in
  w5 <== left (w5 ^^ w2 ^^ w13 ^^ w7);
  let '(e, c) := Round d e a b c (f2 e a b) k2 w5 in
  w6 <== left (w6 ^^ w3 ^^ w14 ^^ w8);
  let '(d, b) := Round c d e a b (f2 d e a) k2 w6 in
  w7 <== left (w7 ^^ w4 ^^ w15 ^^ w9);
  let '(c, a) := Round b c d e a (f2 c d e) k2 w7 in
  w8 <== left (w8 ^^ w5 ^^ w0 ^^ w10);
  let '(b, e) := Round a b c d e (f3 b c d) k3 w8 in
  w9 <== left (w9 ^^ w6 ^^ w1 ^^ w11);
  let '(a, d) := Round e a b c d (f3 a b c) k3 w9 in
  w10 <== left (w10 ^^ w7 ^^ w2 ^^ w12);
  let '(e, c) := Round d e a b c (f3 e a b) k3 w10 in
  w11 <== left (w11 ^^ w8 ^^ w3 ^^ w13);
  let '(d, b) := Round c d e a b (f3 d e a) k3 w11 in
  w12 <== left (w12 ^^ w9 ^^ w4 ^^ w14);
  let '(c, a) := Round b c d e a (f3 c d e) k3 w12 in
  w13 <== left (w13 ^^ w10 ^^ w5 ^^ w15);
  let '(b, e) := Round a b c d e (f3 b c d) k3 w13 in
  w14 <== left (w14 ^^ w11 ^^ w6 ^^ w0);
  let '(a, d) := Round e a b c d (f3 a b c) k3 w14 in
  w15 <== left (w15 ^^ w12 ^^ w7 ^^ w1);
  let '(e, c) := Round d e a b c (f3 e a b) k3 w15 in
  w0 <== left (w0 ^^ w13 ^^ w8 ^^ w2);
  let '(d, b) := Round c d e a b (f3 d e a) k3 w0 in
  w1 <== left (w1 ^^ w14 ^^ w9 ^^ w3);
  let '(c, a) := Round b c d e a (f3 c d e) k3 w1 in
  w2 <== left (w2 ^^ w15 ^^ w10 ^^ w4);
  let '(b, e) := Round a b c d e (f3 b c d) k3 w2 in
  w3 <== left (w3 ^^ w0 ^^ w11 ^^ w5);
  let '(a, d) := Round e a b c d (f3 a b c) k3 w3 in
  w4 <== left (w4 ^^ w1 ^^ w12 ^^ w6);
  let '(e, c) := Round d e a b c (f3 e a b) k3 w4 in
  w5 <== left (w5 ^^ w2 ^^ w13 ^^ w7);
  let '(d, b) := Round c d e a b (f3 d e a) k3 w5 in
  w6 <== left (w6 ^^ w3 ^^ w14 ^^ w8);
  let '(c, a) := Round b c d e a (f3 c d e) k3 w6 in
  w7 <== left (w7 ^^ w4 ^^ w15 ^^ w9);
  let '(b, e) := Round a b c d e (f3 b c d) k3 w7 in
  w8 <== left (w8 ^^ w5 ^^ w0 ^^ w10);
  let '(a, d) := Round e a b c d (f3 a b c) k3 w8 in
  w9 <== left (w9 ^^ w6 ^^ w1 ^^ w11);
  let '(e, c) := Round d e a b c (f3 e a b) k3 w9 in
  w10 <== left (w10 ^^ w7 ^^ w2 ^^ w12);
  let '(d, b) := Round c d e a b (f3 d e a) k3 w10 in
  w11 <== left (w11 ^^ w8 ^^ w3 ^^ w13);
  let '(c, a) := Round b c d e a (f3 c d e) k3 w11 in
  w12 <== left (w12 ^^ w9 ^^ w4 ^^ w14);
  let '(b, e) := Round a b c d e (f2 b c d) k4 w12 in
  w13 <== left (w13 ^^ w10 ^^ w5 ^^ w15);
  let '(a, d) := Round e a b c d (f2 a b c) k4 w13 in
  w14 <== left (w14 ^^ w11 ^^ w6 ^^ w0);
  let '(e, c) := Round d e a b c (f2 e a b) k4 w14 in
  w15 <== left (w15 ^^ w12 ^^ w7 ^^ w1);
  let '(d, b) := Round c d e a b (f2 d e a) k4 w15 in
  w0 <== left (w0 ^^ w13 ^^ w8 ^^ w2);
  let '(c, a) := Round b c d e a (f2 c d e) k4 w0 in
  w1 <== left (w1 ^^ w14 ^^ w9 ^^ w3);
  let '(b, e) := Round a b c d e (f2 b c d) k4 w1 in
  w2 <== left (w2 ^^ w15 ^^ w10 ^^ w4);
  let '(a, d) := Round e a b c d (f2 a b c) k4 w2 in
  w3 <== left (w3 ^^ w0 ^^ w11 ^^ w5);
  let '(e, c) := Round d e a b c (f2 e a b) k4 w3 in
  w4 <== left (w4 ^^ w1 ^^ w12 ^^ w6);
  let '(d, b) := Round c d e a b (f2 d e a) k4 w4 in
  w5 <== left (w5 ^^ w2 ^^ w13 ^^ w7);
  let '(c, a) := Round b c d e a (f2 c d e) k4 w5 in
  w6 <== left (w6 ^^ w3 ^^ w14 ^^ w8);
  let '(b, e) := Round a b c d e (f2 b c d) k4 w6 in
  w7 <== left (w7 ^^ w4 ^^ w15 ^^ w9);
  let '(a, d) := Round e a b c d (f2 a b c) k4 w7 in
  w8 <== left (w8 ^^ w5 ^^ w0 ^^ w10);
  let '(e, c) := Round d e a b c (f2 e a b) k4 w8 in
  w9 <== left (w9 ^^ w6 ^^ w1 ^^ w11);
  let '(d, b) := Round c d e a b (f2 d e a) k4 w9 in
  w10 <== left (w10 ^^ w7 ^^ w2 ^^ w12);
  let '(c, a) := Round b c d e a (f2 c d e) k4 w10 in
  w11 <== left (w11 ^^ w8 ^^ w3 ^^ w13);
  let '(b, e) := Round a b c d e (f2 b c d) k4 w11 in
  w12 <== left (w12 ^^ w9 ^^ w4 ^^ w14);
  let '(a, d) := Round e a b c d (f2 a b c) k4 w12 in
  let '(e, c) := Round d e a b c (f2 e a b) k4 (left (w13 ^^ w10 ^^ w5 ^^ w15)) in
  let '(d, b) := Round c d e a b (f2 d e a) k4 (left (w14 ^^ w11 ^^ w6 ^^ w0)) in
  let '(c, a) := Round b c d e a (f2 c d e) k4 (left (w15 ^^ w12 ^^ w7 ^^ w1)) in
  (u32 (s0 + a), u32 (s1 + b), u32 (s2 + c), u32 (s3 + d), u32 (s4 + e)).
End sha1.

Definition CSHA1_new (buf : bytes) : ctx := Ctx sha1.Initialize buf 0.
Definition CSHA1_Write (c : ctx) (data : bytes) : ctx := Write sha1.Transform c data.
Definition CSHA1_Finalize (c : ctx) : bytes :=
  let sizedesc := WriteBE64 (u64 (Z.shiftl (ctx_bytes c) 3)) in
  let pad := 0x80 :: replicate 63 0 in
  let c := CSHA1_Write c (take (Z.to_nat (1 + (119 - ctx_bytes c mod 64) mod 64)) pad) in
  let c := CSHA1_Write c sizedesc in
  let '(s0, s1, s2, s3, s4) := ctx_s c in
  WriteBE32 s0 ++ WriteBE32 s1 ++ WriteBE32 s2 ++ WriteBE32 s3 ++ WriteBE32 s4.
Definition CSHA1 (m : bytes) : bytes := CSHA1_Finalize (CSHA1_Write (CSHA1_new (replicate 64 0)) m).

(** ** hash.h *)
Definition CHash256_Finalize (sha : ctx) : bytes :=
  let buf := CSHA256_Finalize sha in
  CSHA256_Finalize (CSHA256_Write (CSHA256_Reset sha) buf).

Definition CHash160_Finalize (sha : ctx) : bytes :=
  let buf := CSHA256_Finalize sha in
  CRIPEMD160_Finalize (CRIPEMD160_Write (CRIPEMD160_new (replicate 64 0)) buf).

(** The double hashes of a string: [CHash256().Write(..).Finalize(..)] and likewise. *)
Definition CHash256 (m : bytes) : bytes :=
  CHash256_Finalize (CSHA256_Write (CSHA256_new (replicate 64 0)) m).
Definition CHash160 (m : bytes) : bytes :=
  CHash160_Finalize (CSHA256_Write (CSHA256_new (replicate 64 0)) m).

(** "abc" *)
Example CSHA1_abc : CSHA1 [0x61; 0x62; 0x63] = be_bytes 20 0xa9993e364706816aba3e25717850c26c9cd0d89d.
Proof. vm_compute. reflexivity. Qed.

(** ** RIPEMD-160 *)
Lemma core_ripemd_spec s chunk : ripemd160.Transform s chunk = RIPEMD160.compress s chunk.
Proof.
  unfold RIPEMD160.compress, ripemd160.Transform. destruct s as [[[[a b] c] d] e].
  change (ReadLE32 (drop (?k) chunk)) with (le32_at chunk (k / 4)). cbn [Nat.div Nat.divmod fst].
  generalize (le32_at chunk) as X. intros X.
  let l := eval vm_compute in (seq 0 80) in change (seq 0 80) with l.
  line_steps. reflexivity.
Qed.

Lemma core_ripemd_chain n s m : chain ripemd160.Transform n s m = chain RIPEMD160.compress n s m.
Proof. revert s m. induction n as [|n IH]; intros; simpl; [done|]. by rewrite core_ripemd_spec, IH. Qed.

Lemma CRIPEMD160_spec m : CRIPEMD160 m = RIPEMD160.hash m.
Proof.
  unfold CRIPEMD160. set (c := CRIPEMD160_Write _ m).
  assert (repr ripemd160.Transform RIPEMD160.H0 c m) as H.
  { apply (Write_repr _ _ (CRIPEMD160_new _) []). unfold repr. by rewrite absorb_small by (simpl; lia). }
  apply (Finalize_repr _ _ _ _ (le_bytes 8) (length_le_bytes 8)) in H.
  unfold CRIPEMD160_Finalize, RIPEMD160.hash. rewrite <- core_ripemd_chain, <- H. reflexivity.
Qed.

(** ** SHA-1 *)
Section Rounds.
Context (w : nat -> Z) (expanded : forall t, (16 <= t < 80)%nat -> w t = SHA1.next w t).
Context (chunk : bytes) (initial : forall t, (t < 16)%nat -> be32_at chunk t = w t).

Lemma sha1_update t : (16 <= t < 80)%nat ->
  sha1.left (w (t - 16)%nat ^^ w (t - 3)%nat ^^ w (t - 8)%nat ^^ w (t - 14)%nat) = w t.
Proof using expanded.
  intros Ht. rewrite (expanded t) by done. unfold SHA1.next, sha1.left, ROTL.
  replace (w (t - 16)%nat ^^ w (t - 3)%nat ^^ w (t - 8)%nat ^^ w (t - 14)%nat)
    with (w (t - 3)%nat ^^ w (t - 8)%nat ^^ w (t - 14)%nat ^^ w (t - 16)%nat); [done|].
  rewrite Z.lxor_comm, !Z.lxor_assoc. done.
Qed.

Lemma assign_sha1 (v v' : Z) (k : Z -> SHA1.state) r : v = v' -> k v' = r -> assign v k = r.
Proof using. by intros ->. Qed.

Lemma sha1_round t l a b c d e f k v s (body : Z -> Z -> SHA1.state) :
  f = SHA1.f t b c d -> k = nth (t / 20) SHA1.K 0 -> v = w t ->
  (forall b' e', body b' e' = SHA1.plus s (foldl (SHA1.round w) (e', a, b', c, d) l)) ->
  (let '(b', e') := sha1.Round a b c d e f k v in body b' e')
  = SHA1.plus s (foldl (SHA1.round w) (a, b, c, d, e) (t :: l)).
Proof using.
  intros -> -> -> H. unfold sha1.Round. rewrite H. cbn [foldl]. unfold SHA1.round at 2.
  change (Z.lor (shl32 a 5) (shr32 a 27)) with (ROTL 5 a).
  change (Z.lor (shl32 b 30) (shr32 b 2)) with (ROTL 30 b).
  replace (u32 (e + u32 (ROTL 5 a + SHA1.f t b c d + nth (t / 20) SHA1.K 0 + w t)))
    with (u32 (ROTL 5 a + SHA1.f t b c d + e + nth (t / 20) SHA1.K 0 + w t)); [done|].
  rewrite !u32_mod, Zplus_mod_idemp_r. f_equal. lia.
Qed.

Lemma sha1_f1 b c d : sha1.f1 b c d = SHA1.f 0 b c d.
Proof using.
  apply Z.bits_inj'. intros i Hi. unfold sha1.f1. cbn [SHA1.f Nat.div Nat.divmod fst].
  repeat rewrite ?Z.lxor_spec, ?Z.land_spec, ?Z.lnot_spec by done.
  by destruct (Z.testbit b i), (Z.testbit c i), (Z.testbit d i).
Qed.

Lemma sha1_f3 b c d : sha1.f3 b c d = SHA1.f 40 b c d.
Proof using.
  apply Z.bits_inj'. intros i Hi. unfold sha1.f3. cbn [SHA1.f Nat.div Nat.divmod fst].
  repeat rewrite ?Z.lxor_spec, ?Z.land_spec, ?Z.lor_spec.
  by destruct (Z.testbit b i), (Z.testbit c i), (Z.testbit d i).
Qed.

Ltac sha1_step :=
  lazymatch goal with
  | |- assign _ _ = SHA1.plus _ (foldl _ _ (?t :: _)) =>
      apply (assign_sha1 _ (w t));
      [first [exact (initial t ltac:(lia)) | exact (sha1_update t ltac:(lia))]|]
  | |- _ = SHA1.plus _ (foldl _ _ (?t :: _)) =>
      apply sha1_round;
      [first [reflexivity | exact (sha1_f1 _ _ _) | exact (sha1_f3 _ _ _)]
      |reflexivity
      |first [reflexivity | exact (sha1_update t ltac:(lia))]
      |intros ? ?]
  end.

Lemma sha1_rounds s : sha1.Transform s chunk = SHA1.plus s (foldl (SHA1.round w) s (seq 0 80)).
Proof using Type*.
  destruct s as [[[[a b] c] d] e]. unfold sha1.Transform.
  let l := eval vm_compute in (seq 0 80) in change (seq 0 80) with l.
  repeat sha1_step. reflexivity.
Qed.
End Rounds.

Lemma sha1_transform_spec s chunk : sha1.Transform s chunk = SHA1.compress s chunk.
Proof.
  apply sha1_rounds; intros t Ht; [by apply SHA1.word_expanded80|]. by rewrite word_init.
Qed.

Lemma sha1_chain n s m : chain sha1.Transform n s m = chain SHA1.compress n s m.
Proof. revert s m. induction n as [|n IH]; intros; simpl; [done|]. by rewrite sha1_transform_spec, IH. Qed.

Lemma CSHA1_spec m : CSHA1 m = SHA1.hash m.
Proof.
  unfold CSHA1. set (c := CSHA1_Write _ m).
  assert (repr sha1.Transform SHA1.H0 c m) as H.
  { apply (Write_repr _ _ (CSHA1_new _) []). unfold repr. by rewrite absorb_small by (simpl; lia). }
  apply (Finalize_repr _ _ _ _ (be_bytes 8) (length_be_bytes 8)) in H.
  unfold CSHA1_Finalize, SHA1.hash. rewrite <- sha1_chain, <- H. reflexivity.
Qed.

(** ** The double hashes *)
Lemma CHash256_Finalize_spec sha m : CSHA256_holds sha m ->
  CHash256_Finalize sha = SHA256.hash (SHA256.hash m).
Proof.
  intros H. unfold CHash256_Finalize. rewrite (CSHA256_Finalize_spec sha m) by done.
  apply CSHA256_Finalize_spec. change (SHA256.hash m) with ([] ++ SHA256.hash m) at 2.
  eapply CSHA256_Write_holds, CSHA256_Reset_holds, H.
Qed.

Lemma CHash256_spec m : CHash256 m = SHA256.hash (SHA256.hash m).
Proof.
  apply CHash256_Finalize_spec. change m with ([] ++ m) at 2.
  apply CSHA256_Write_holds, CSHA256_new_holds. done.
Qed.

Lemma CHash160_spec m : CHash160 m = RIPEMD160.hash (SHA256.hash m).
Proof.
  rewrite <- CRIPEMD160_spec, <- CSHA256_spec.
  unfold CHash160, CHash160_Finalize, CRIPEMD160, CSHA256. reflexivity.
Qed.

Lemma length_CSHA256 m : length (CSHA256 m) = 32%nat.
Proof. rewrite CSHA256_spec. apply length_digest. Qed.

Lemma length_CHash256 m : length (CHash256 m) = 32%nat.
Proof. rewrite CHash256_spec. apply length_digest. Qed.

Lemma length_CRIPEMD160 m : length (CRIPEMD160 m) = 20%nat.
Proof. rewrite CRIPEMD160_spec, <- ripemd160_spec. apply length_ripemd160. Qed.

Lemma length_CSHA1 m : length (CSHA1 m) = 20%nat.
Proof. rewrite CSHA1_spec. unfold SHA1.hash. by destruct (chain _ _ _ _) as [[[[? ?] ?] ?] ?]. Qed.

(** C32. The hash functions of Bitcoin Core and those of the node are the functions of the
    standards, so both programs compute the same digests. *)
Theorem hashes_agree m :
  CSHA256 m = SHA256.hash m /\ sha256 m = SHA256.hash m /\
  CRIPEMD160 m = RIPEMD160.hash m /\ ripemd160 m = RIPEMD160.hash m /\
  CSHA1 m = SHA1.hash m /\
  CHash256 m = sha256 (sha256 m) /\ CHash160 m = ripemd160 (sha256 m).
Proof.
  rewrite CHash256_spec, CHash160_spec, !sha256_spec, !ripemd160_spec.
  rewrite CSHA256_spec, CRIPEMD160_spec, CSHA1_spec. done.
Qed.
