(* ===== verification/Secp.v ===== *)
(** * Public and secret keys

    libsecp256k1 is not part of the sources: its operations are the class [Secp256k1]
    and its documented arithmetic (a cyclic group of order [n], 33-byte compressed
    serialization) the class [Secp256k1Laws]. On top of it, src/lightning/bitcoin/pubkey.c.
    [Scalars] is an instance of both, used by the witnesses. *)
From S2P Require Import Prelude Sha256 Ripemd160.
Local Open Scope Z_scope.

(** The operations the code calls; [None] is a return value other than 1. *)
Class Secp256k1 := {
  pubkey : Type;
  pubkey_eq_dec :: EqDecision pubkey;
  secp256k1_ec_pubkey_parse : bytes -> option pubkey;
  secp256k1_ec_pubkey_serialize : pubkey -> bytes;
  secp256k1_ec_pubkey_create : bytes -> option pubkey;
  secp256k1_ec_privkey_tweak_add : bytes -> bytes -> option bytes;
  secp256k1_ec_privkey_tweak_mul : bytes -> bytes -> option bytes;
  secp256k1_ec_pubkey_tweak_add : pubkey -> bytes -> option pubkey;
  secp256k1_ec_pubkey_tweak_mul : pubkey -> bytes -> option pubkey;
  secp256k1_ec_pubkey_combine : list pubkey -> option pubkey;
}.

(** The order of the group (SEC 2, section 2.4.1). *)
Definition secp256k1_n : Z :=
  0xFFFFFFFFFFFFFFFFFFFFFFFFFFFFFFFEBAAEDCE6AF48A03BBFD25E8CD0364141.

(** A 32-byte string as a scalar, and a non-zero scalar modulo the order as one. *)
Definition scalar_in_range (b : bytes) : bool := (0 <? be_val b) && (be_val b <? secp256k1_n).
Definition scalar_bytes (z : Z) : option bytes :=
  if z mod secp256k1_n =? 0 then None else Some (be_bytes 32 (z mod secp256k1_n)).

(** [point_of z] is the multiple z·G of the generator, [None] being the point at
    infinity. Tweaks and keys are 32 bytes long. *)
Class Secp256k1Laws `{Secp256k1} := {
  point_of : Z -> option pubkey;
  point_of_mod a b : point_of a = point_of b <-> a mod secp256k1_n = b mod secp256k1_n;
  point_of_infinity a : point_of a = None <-> a mod secp256k1_n = 0;
  point_of_surj P : exists a, point_of a = Some P;
  serialize_length P : length (secp256k1_ec_pubkey_serialize P) = 33%nat;
  serialize_ok P : bytes_ok (secp256k1_ec_pubkey_serialize P);
  serialize_header P : hd 0 (secp256k1_ec_pubkey_serialize P) = 2 \/
    hd 0 (secp256k1_ec_pubkey_serialize P) = 3;
  parse_serialize P :
    secp256k1_ec_pubkey_parse (secp256k1_ec_pubkey_serialize P) = Some P;
  serialize_parse b P : length b = 33%nat ->
    secp256k1_ec_pubkey_parse b = Some P -> secp256k1_ec_pubkey_serialize P = b;
  create_spec k : length k = 32%nat ->
    secp256k1_ec_pubkey_create k = if scalar_in_range k then point_of (be_val k) else None;
  privkey_tweak_add_spec k t : length k = 32%nat -> length t = 32%nat -> scalar_in_range k ->
    secp256k1_ec_privkey_tweak_add k t =
    if be_val t <? secp256k1_n then scalar_bytes (be_val k + be_val t) else None;
  privkey_tweak_mul_spec k t : length k = 32%nat -> length t = 32%nat -> scalar_in_range k ->
    secp256k1_ec_privkey_tweak_mul k t =
    if scalar_in_range t then scalar_bytes (be_val k * be_val t) else None;
  pubkey_tweak_add_spec P t a : length t = 32%nat -> point_of a = Some P ->
    secp256k1_ec_pubkey_tweak_add P t =
    if be_val t <? secp256k1_n then point_of (a + be_val t) else None;
  pubkey_tweak_mul_spec P t a : length t = 32%nat -> point_of a = Some P ->
    secp256k1_ec_pubkey_tweak_mul P t =
    if scalar_in_range t then point_of (a * be_val t) else None;
  combine_spec P Q a b : point_of a = Some P -> point_of b = Some Q ->
    secp256k1_ec_pubkey_combine [P; Q] = point_of (a + b);
}.

(** ** pubkey.c *)
Definition PUBKEY_DER_LEN : nat := 33.

Section Pubkey.
Context `{Secp256k1}.

Definition pubkey_from_der (der : bytes) : option pubkey :=
  if negb (length der =? PUBKEY_DER_LEN)%nat then None else secp256k1_ec_pubkey_parse der.

Definition pubkey_to_der (key : pubkey) : bytes := secp256k1_ec_pubkey_serialize key.

Definition pubkey_from_secret (secret : bytes) : option pubkey :=
  secp256k1_ec_pubkey_create secret.

Definition pubkey_from_privkey (privkey : bytes) : option pubkey := pubkey_from_secret privkey.

(** [memcmp] of two byte strings of the same length. *)
Fixpoint memcmp (a b : bytes) : comparison :=
  match a, b with
  | x :: a, y :: b => match x ?= y with Eq => memcmp a b | c => c end
  | _, _ => Eq
  end.

Definition pubkey_cmp (a b : pubkey) : comparison := memcmp (pubkey_to_der a) (pubkey_to_der b).

Definition pubkey_to_hash160 (pk : pubkey) : bytes := ripemd160 (sha256 (pubkey_to_der pk)).
End Pubkey.

Lemma memcmp_eq a b : length a = length b -> memcmp a b = Eq -> a = b.
Proof.
  revert b. induction a as [|x a IH]; intros [|y b] L E; simplify_eq/=; [done|].
  destruct (Z.compare_spec x y); try done. subst. f_equal. by apply IH.
Qed.

Lemma memcmp_antisym a b : memcmp b a = CompOpp (memcmp a b).
Proof.
  revert b. induction a as [|x a IH]; intros [|y b]; simpl; try done.
  rewrite (Z.compare_antisym x y). destruct (x ?= y); simpl; auto.
Qed.

Section PubkeyLaws.
Context `{Secp256k1Laws}.

Lemma pubkey_from_to_der P : pubkey_from_der (pubkey_to_der P) = Some P.
Proof.
  unfold pubkey_from_der, pubkey_to_der, PUBKEY_DER_LEN. rewrite serialize_length. simpl.
  apply parse_serialize.
Qed.

Lemma pubkey_to_from_der b P : pubkey_from_der b = Some P -> pubkey_to_der P = b.
Proof.
  unfold pubkey_from_der. destruct (Nat.eqb_spec (length b) PUBKEY_DER_LEN); simpl; [|done].
  by apply serialize_parse.
Qed.

Lemma pubkey_to_der_inj P Q : pubkey_to_der P = pubkey_to_der Q -> P = Q.
Proof. intros E. pose proof (pubkey_from_to_der P). rewrite E, pubkey_from_to_der in *. congruence. Qed.

Lemma length_pubkey_to_der P : length (pubkey_to_der P) = 33%nat.
Proof. apply serialize_length. Qed.

Lemma pubkey_cmp_eq P Q : pubkey_cmp P Q = Eq <-> P = Q.
Proof.
  split.
  - intros E. apply pubkey_to_der_inj, memcmp_eq; [by rewrite !length_pubkey_to_der|done].
  - intros ->. unfold pubkey_cmp. induction (pubkey_to_der Q); simpl; [done|].
    by rewrite Z.compare_refl.
Qed.
End PubkeyLaws.

(** ** An instance

    The group of scalars modulo the order, a point being its own discrete logarithm. *)
Module Scalars.
Definition point : Type := { z : Z | (0 <? z) && (z <? secp256k1_n) = true }.

Definition mk (z : Z) : option point :=
  match bool_dec ((0 <? z) && (z <? secp256k1_n)) true with
  | left H => Some (exist _ z H)
  | right _ => None
  end.

Definition mult (z : Z) : option point := mk (z mod secp256k1_n).

Lemma mk_Some z P : mk z = Some P <-> `P = z.
Proof.
  unfold mk. destruct (bool_dec _ _) as [D|D].
  - split; [by intros [= <-]|]. destruct P as [y Hy]; simpl. intros ->. f_equal.
    f_equal. apply Eqdep_dec.UIP_dec, bool_dec.
  - split; [done|]. destruct P as [y Hy]; simpl. intros ->. done.
Qed.

Lemma mult_spec z : 
  match mult z with
  | Some P => `P = z mod secp256k1_n
  | None => z mod secp256k1_n = 0
  end.
Proof.
  unfold mult. destruct (mk _) eqn:E; [by apply mk_Some in E|].
  unfold mk in E. destruct (bool_dec _ _) as [D|D]; [done|].
  assert (0 <= z mod secp256k1_n < secp256k1_n) by by apply Z.mod_pos_bound.
  destruct (Z.ltb_spec 0 (z mod secp256k1_n)), (Z.ltb_spec (z mod secp256k1_n) secp256k1_n);
    simpl in *; lia.
Qed.

Lemma mult_val (P : point) : mult (`P) = Some P.
Proof.
  unfold mult. apply mk_Some. destruct P as [z Hz]; simpl.
  apply andb_true_iff in Hz as [??]. rewrite Z.mod_small; [done|].
  split; [apply Z.lt_le_incl; by apply Z.ltb_lt|by apply Z.ltb_lt].
Qed.

Definition tweak (f : Z -> Z -> Z) (P : point) (t : bytes) : option point :=
  mult (f (`P) (be_val t)).

#[export] Instance ops : Secp256k1 := {|
  pubkey := point;
  pubkey_eq_dec := sig_eq_dec _;
  secp256k1_ec_pubkey_parse b :=
    match b with
    | 2 :: z => if byte_ok 2 && forallb byte_ok z && (length z =? 32)%nat
                then mk (be_val z) else None
    | _ => None
    end;
  secp256k1_ec_pubkey_serialize P := 2 :: be_bytes 32 (`P);
  secp256k1_ec_pubkey_create k := if scalar_in_range k then mult (be_val k) else None;
  secp256k1_ec_privkey_tweak_add k t :=
    if be_val t <? secp256k1_n then scalar_bytes (be_val k + be_val t) else None;
  secp256k1_ec_privkey_tweak_mul k t :=
    if scalar_in_range t then scalar_bytes (be_val k * be_val t) else None;
  secp256k1_ec_pubkey_tweak_add P t :=
    if be_val t <? secp256k1_n then tweak Z.add P t else None;
  secp256k1_ec_pubkey_tweak_mul P t :=
    if scalar_in_range t then tweak Z.mul P t else None;
  secp256k1_ec_pubkey_combine Ps := mult (zsum proj1_sig Ps);
|}.

Lemma mk_bytes_ok (P : point) : bytes_ok (2 :: be_bytes 32 (`P)).
Proof. constructor; [lia|apply be_bytes_ok]. Qed.

Lemma forallb_byte_ok l : forallb byte_ok l = true <-> bytes_ok l.
Proof.
  unfold bytes_ok, byte_ok. induction l as [|b l IH]; simpl; [by split|].
  rewrite andb_true_iff, Forall_cons, IH, andb_true_iff, Z.leb_le, Z.ltb_lt. done.
Qed.

Lemma be_val_point (P : point) : be_val (be_bytes 32 (`P)) = `P.
Proof.
  rewrite be_val_be_bytes. destruct P as [z Hz]; simpl. apply andb_true_iff in Hz as [H1 H2].
  apply Z.ltb_lt in H1, H2. apply Z.mod_small. unfold secp256k1_n in H2. lia.
Qed.

Lemma mult_congr (f : Z -> Z -> Z) a (P : point) z :
  (forall x y, (f x z) mod secp256k1_n = (f y z) mod secp256k1_n
    <-> (f (x mod secp256k1_n) z) mod secp256k1_n = (f (y mod secp256k1_n) z) mod secp256k1_n) ->
  mult a = Some P -> mult (f (`P) z) = mult (f a z).
Proof.
  intros Hf E. pose proof (mult_spec a) as S. rewrite E in S.
  unfold mult. f_equal. apply Hf. rewrite S, Zmod_mod. done.
Qed.

Lemma add_congr z x y : (x + z) mod secp256k1_n = (y + z) mod secp256k1_n
    <-> (x mod secp256k1_n + z) mod secp256k1_n = (y mod secp256k1_n + z) mod secp256k1_n.
Proof. by rewrite !Zplus_mod_idemp_l. Qed.

Lemma mul_congr z x y : (x * z) mod secp256k1_n = (y * z) mod secp256k1_n
    <-> (x mod secp256k1_n * z) mod secp256k1_n = (y mod secp256k1_n * z) mod secp256k1_n.
Proof. by rewrite !Zmult_mod_idemp_l. Qed.

#[export, refine] Instance laws : Secp256k1Laws := {| point_of := mult |}.
Proof.
  - intros a b. pose proof (mult_spec a) as A. pose proof (mult_spec b) as B.
    split; [|intros E; unfold mult; by rewrite E].
    intros E. rewrite <- E in B. destruct (mult a); congruence.
  - intros a. pose proof (mult_spec a) as A. split; [by intros E; rewrite E in A|].
    intros E. destruct (mult a) as [[z Hz]|]; [|done]. simpl in A.
    exfalso. apply andb_true_iff in Hz as [Hz _]. apply Z.ltb_lt in Hz. lia.
  - intros P. exists (`P). apply mult_val.
  - intros P. cbn [secp256k1_ec_pubkey_serialize ops length]. by rewrite length_be_bytes.
  - apply mk_bytes_ok.
  - by left.
  - intros P. cbn [secp256k1_ec_pubkey_parse secp256k1_ec_pubkey_serialize ops].
    rewrite length_be_bytes, (proj2 (forallb_byte_ok _)) by apply be_bytes_ok. simpl.
    apply mk_Some. by rewrite be_val_point.
  - intros b P L. cbn [secp256k1_ec_pubkey_parse secp256k1_ec_pubkey_serialize ops].
    destruct b as [|[|[[]|[]|]|] b]; try done. simpl in L.
    destruct (byte_ok 2 && _ && _) eqn:E; [|done]. bprop. intros Hp%mk_Some. rewrite Hp.
    f_equal. replace 32%nat with (length b) by lia. apply be_bytes_be_val.
    by apply forallb_byte_ok.
  - done.
  - done.
  - done.
  - intros P t a L E. simpl. case_match; [|done]. unfold tweak.
    exact (mult_congr Z.add a P (be_val t) (add_congr _) E).
  - intros P t a L E. simpl. case_match; [|done]. unfold tweak.
    exact (mult_congr Z.mul a P (be_val t) (mul_congr _) E).
  - intros P Q a b EP EQ. cbn [secp256k1_ec_pubkey_combine ops].
    change (zsum proj1_sig [P; Q]) with (`P + (`Q + 0)). rewrite Z.add_0_r.
    rewrite (mult_congr Z.add a P (`Q) (add_congr _) EP).
    rewrite (Z.add_comm a (`Q)), (Z.add_comm a b).
    exact (mult_congr Z.add b Q a (add_congr _) EQ).
Defined.
End Scalars.
