(* ===== verification/Ecdsa.v ===== *)
(** * Signatures

    The ECDSA operations of libsecp256k1 (class [Signatures], not part of the sources)
    with their documented behaviour ([SignatureLaws]), and what Bitcoin Core makes of them
    in src/bitcoin/src/pubkey.{h,cpp}: the lax DER parser, [CPubKey::Verify] and
    [CPubKey::CheckLowS]. *)
From S2P Require Import Prelude Sha256 Ripemd160 Secp.
Local Open Scope Z_scope.

(** [None]: a return value of 0. [normalize] also tells whether S was high. *)
Class Signatures `{Secp256k1} := {
  signature : Type;
  secp256k1_ecdsa_signature_parse_compact : bytes -> option signature;
  secp256k1_ecdsa_signature_serialize_der : signature -> bytes;
  secp256k1_ecdsa_signature_normalize : signature -> bool * signature;
  secp256k1_ecdsa_verify : signature -> bytes -> pubkey -> bool;
  secp256k1_ecdsa_sign : bytes -> bytes -> option signature
}.

(** ** DER *)

(** An integer in as few bytes as keep it positive. *)
Fixpoint strip (l : bytes) : bytes :=
  match l with
  | 0 :: ((b :: _) as l') => if b <? 0x80 then strip l' else l
  | _ => l
  end.
Definition der_int (v : Z) : bytes := strip (0 :: be_bytes 32 v).

Definition der (r s : Z) : bytes :=
  let rb := der_int r in
  let sb := der_int s in
  0x30 :: Z.of_nat (4 + length rb + length sb) :: 0x02 :: Z.of_nat (length rb) :: rb
    ++ 0x02 :: Z.of_nat (length sb) :: sb.

(** A signature is a pair of scalars; S is low up to half of the order. *)
Class SignatureLaws `{Signatures} := {
  sig_r : signature -> Z;
  sig_s : signature -> Z;
  sig_range sig : 0 <= sig_r sig < secp256k1_n /\ 0 <= sig_s sig < secp256k1_n;
  sig_eq sig sig' : sig_r sig = sig_r sig' -> sig_s sig = sig_s sig' -> sig = sig';
  parse_compact_spec b : length b = 64%nat -> bytes_ok b ->
    match secp256k1_ecdsa_signature_parse_compact b with
    | Some sig => sig_r sig = be_val (take 32 b) /\ sig_s sig = be_val (drop 32 b)
    | None => secp256k1_n <= be_val (take 32 b) \/ secp256k1_n <= be_val (drop 32 b)
    end;
  serialize_der_spec sig : secp256k1_ecdsa_signature_serialize_der sig = der (sig_r sig) (sig_s sig);
  normalize_spec sig : let '(high, sig') := secp256k1_ecdsa_signature_normalize sig in
    high = (secp256k1_n / 2 <? sig_s sig) /\ sig_r sig' = sig_r sig /\
    sig_s sig' = if secp256k1_n / 2 <? sig_s sig then secp256k1_n - sig_s sig else sig_s sig;
  verify_low sig h P : secp256k1_ecdsa_verify sig h P = true -> sig_s sig <= secp256k1_n / 2;
  sign_verifies k h P : length k = 32%nat -> length h = 32%nat ->
    secp256k1_ec_pubkey_create k = Some P ->
    exists sig, secp256k1_ecdsa_sign h k = Some sig /\ secp256k1_ecdsa_verify sig h P = true
}.

(** ** pubkey.h *)
Definition GetLen (chHeader : Z) : nat :=
  if (chHeader =? 2) || (chHeader =? 3) then 33%nat
  else if (chHeader =? 4) || (chHeader =? 6) || (chHeader =? 7) then 65%nat
  else 0%nat.

(** [CPubKey::Set]; the invalid key is the empty one. *)
Definition CPubKey (vch : bytes) : bytes :=
  match vch with
  | [] => []
  | b :: _ => if negb (GetLen b =? 0)%nat && (GetLen b =? length vch)%nat then vch else []
  end.
Definition IsValid (key : bytes) : bool := (0 <? length key)%nat.

(** ** pubkey.cpp

    The input from the position on is a list; [None] is the return value 0. *)
Section Lax.
Context `{Signatures}.

(** The bytes of a long length descriptor: [while (lenbyte > 0 && input[pos] == 0)]. *)
Fixpoint skip_zeros (l : bytes) : bytes :=
  match l with
  | 0 :: l => skip_zeros l
  | l => l
  end.

(** The length of an integer and the input after it. *)
Definition lax_length (input : bytes) : option (nat * bytes) :=
  match input with
  | [] => None
  | lenbyte :: input =>
      if negb (Z.land lenbyte 0x80 =? 0) then
        let lenbyte := Z.to_nat (lenbyte - 0x80) in
        if (length input <? lenbyte)%nat then None
        else
          let digits := skip_zeros (take lenbyte input) in
          if (4 <=? length digits)%nat then None
          else Some (Z.to_nat (be_val digits), drop lenbyte input)
      else Some (Z.to_nat lenbyte, input)
  end.

(** Tag, length and content of an integer. *)
Definition lax_integer (input : bytes) : option (bytes * bytes) :=
  match input with
  | 0x02 :: input =>
      '(len, input) ← lax_length input;
      if (length input <? len)%nat then None else Some (take len input, drop len input)
  | _ => None
  end.

Definition lax_sequence (input : bytes) : option bytes :=
  match input with
  | 0x30 :: lenbyte :: input =>
      if negb (Z.land lenbyte 0x80 =? 0) then
        let lenbyte := Z.to_nat (lenbyte - 0x80) in
        if (length input <? lenbyte)%nat then None else Some (drop lenbyte input)
      else Some input
  | _ => None
  end.

(** One half of [tmpsig]; [None] is an overflow. *)
Definition lax_copy (content : bytes) : option bytes :=
  let l := skip_zeros content in
  if (32 <? length l)%nat then None else Some (replicate (32 - length l) 0 ++ l).

Definition ecdsa_signature_parse_der_lax (input : bytes) : option signature :=
  input ← lax_sequence input;
  '(rbytes, input) ← lax_integer input;
  '(sbytes, _) ← lax_integer input;
  match (r ← lax_copy rbytes; s ← lax_copy sbytes; secp256k1_ecdsa_signature_parse_compact (r ++ s)) with
  | Some sig => Some sig
  | None => secp256k1_ecdsa_signature_parse_compact (replicate 64 0)
  end.

Definition Verify (key hash vchSig : bytes) : bool :=
  if negb (IsValid key) then false
  else match secp256k1_ec_pubkey_parse key, ecdsa_signature_parse_der_lax vchSig with
       | Some P, Some sig =>
           secp256k1_ecdsa_verify (snd (secp256k1_ecdsa_signature_normalize sig)) hash P
       | _, _ => false
       end.

Definition CheckLowS (vchSig : bytes) : bool :=
  match ecdsa_signature_parse_der_lax vchSig with
  | Some sig => negb (fst (secp256k1_ecdsa_signature_normalize sig))
  | None => false
  end.
End Lax.

(** ** Reading DER *)
Lemma strip_cons l : l <> [] -> strip (0 :: l) = if hd 0 l <? 0x80 then strip l else 0 :: l.
Proof. by destruct l. Qed.

Lemma strip_skip l : skip_zeros (strip l) = skip_zeros l.
Proof.
  induction l as [|b l IH]; [done|]. destruct b; try done.
  destruct l as [|c l]; [done|]. rewrite strip_cons by done. cbn [hd]. destruct (c <? 0x80); [|done]. apply IH.
Qed.

Lemma length_strip l : (length (strip l) <= length l)%nat.
Proof.
  induction l as [|b l IH]; [done|]. destruct b; try (cbn; lia).
  destruct l as [|c l]; [done|]. rewrite strip_cons by done. cbn [hd].
  destruct (c <? 0x80); [|done]. change (length (0 :: c :: l)) with (S (length (c :: l))). lia.
Qed.

Lemma strip_ok l : bytes_ok l -> bytes_ok (strip l).
Proof.
  induction l as [|b l IH]; [done|]. intros Hl. inversion Hl as [|? ? Hb Hl']. subst.
  destruct b; try done. destruct l as [|c l]; [done|]. rewrite strip_cons by done. cbn [hd].
  destruct (c <? 0x80); [by apply IH|done].
Qed.

(** The sign bit of the first byte is clear, and the first byte is needed. *)
Lemma strip_positive l : l <> [] -> hd 0 l < 0x80 ->
  exists b t, strip l = b :: t /\ b < 0x80 /\ (t <> [] -> b = 0 -> 0x80 <= hd 0 t).
Proof.
  induction l as [|b l IH]; [done|]. intros _ Hb. cbn [hd] in Hb.
  destruct (decide (b = 0)) as [-> |N].
  - destruct l as [|c l]; [by exists 0, []|]. rewrite strip_cons by done. cbn [hd].
    destruct (Z.ltb_spec c 0x80); [by apply IH|]. by exists 0, (c :: l).
  - exists b, l. split; [by destruct b|]. split; [done|]. done.
Qed.

Lemma der_int_spec v : exists b t, der_int v = b :: t /\ (length t <= 32)%nat /\ bytes_ok (b :: t) /\
  b < 0x80 /\ (t <> [] -> b = 0 -> 0x80 <= hd 0 t).
Proof.
  unfold der_int. destruct (strip_positive (0 :: be_bytes 32 v)) as (b & t & E & Hb & Ht); [done..|].
  exists b, t. split; [done|]. pose proof (length_strip (0 :: be_bytes 32 v)) as L.
  assert (bytes_ok (strip (0 :: be_bytes 32 v))) as Ok
    by (apply strip_ok; constructor; [lia|apply be_bytes_ok]).
  rewrite E in *. cbn [length] in L. rewrite length_be_bytes in L. split; [lia|]. done.
Qed.

Lemma skip_zeros_pad l : replicate (length l - length (skip_zeros l)) 0 ++ skip_zeros l = l.
Proof.
  induction l as [|b l IH]; [done|]. destruct b; try (cbn [skip_zeros]; by rewrite Nat.sub_diag).
  cbn [skip_zeros length]. assert (length (skip_zeros l) <= length l)%nat.
  { clear. induction l as [|b l IH]; [done|]. destruct b; cbn [skip_zeros length] in *; lia. }
  rewrite Nat.sub_succ_l by done. cbn [replicate app]. by rewrite IH.
Qed.

Lemma lax_copy_der v : lax_copy (der_int v) = Some (be_bytes 32 v).
Proof.
  unfold lax_copy, der_int. rewrite strip_skip. cbn [skip_zeros].
  pose proof (skip_zeros_pad (be_bytes 32 v)) as P.
  assert (length (skip_zeros (be_bytes 32 v)) <= 32)%nat as L.
  { apply (f_equal length) in P. rewrite length_app, length_be_bytes in P. lia. }
  destruct (Nat.ltb_spec 32 (length (skip_zeros (be_bytes 32 v)))); [lia|].
  rewrite length_be_bytes in P. by rewrite P.
Qed.

Lemma lax_integer_der v rest :
  lax_integer (0x02 :: Z.of_nat (length (der_int v)) :: der_int v ++ rest) = Some (der_int v, rest).
Proof.
  destruct (der_int_spec v) as (b & t & E & L & _). cbn [lax_integer lax_length].
  assert (Z.land (Z.of_nat (length (der_int v))) 0x80 = 0) as ->.
  { rewrite E. cbn [length]. assert (forall k, (k < 34)%nat -> Z.land (Z.of_nat k) 0x80 = 0) as A; [|apply A; lia].
    intros k Hk. do 34 (destruct k as [|k]; [done|]). lia. }
  cbn [Z.eqb negb mbind option_bind]. rewrite Nat2Z.id, length_app.
  destruct (Nat.ltb_spec (length (der_int v) + length rest) (length (der_int v))); [lia|].
  by rewrite take_app_length, drop_app_length.
Qed.

Section Laws.
Context `{Secp256k1Laws} `{!Signatures} `{!SignatureLaws}.

Lemma scalar_bytes_val v : 0 <= v < secp256k1_n -> be_val (be_bytes 32 v) = v.
Proof using. intros Hv. rewrite be_val_be_bytes. apply Z.mod_small. unfold secp256k1_n in Hv. simpl. lia. Qed.

Lemma parse_compact_scalars sig :
  secp256k1_ecdsa_signature_parse_compact (be_bytes 32 (sig_r sig) ++ be_bytes 32 (sig_s sig)) = Some sig.
Proof using Type*.
  destruct (sig_range sig) as [Hr Hs].
  pose proof (parse_compact_spec (be_bytes 32 (sig_r sig) ++ be_bytes 32 (sig_s sig))) as P.
  rewrite take_app_length', drop_app_length', !scalar_bytes_val in P by (done || by rewrite length_be_bytes).
  rewrite length_app, !length_be_bytes in P. specialize (P eq_refl).
  assert (bytes_ok (be_bytes 32 (sig_r sig) ++ be_bytes 32 (sig_s sig))) as B
    by (apply Forall_app; split; apply be_bytes_ok).
  specialize (P B). destruct (secp256k1_ecdsa_signature_parse_compact _) as [sig'|]; [|lia].
  f_equal. destruct P. by apply sig_eq.
Qed.

(** The lax parser reads what libsecp256k1 writes. *)
Lemma lax_der sig :
  ecdsa_signature_parse_der_lax (secp256k1_ecdsa_signature_serialize_der sig) = Some sig.
Proof using Type*.
  rewrite serialize_der_spec. unfold ecdsa_signature_parse_der_lax, der.
  destruct (der_int_spec (sig_r sig)) as (b & t & E & L & _).
  destruct (der_int_spec (sig_s sig)) as (b' & t' & E' & L' & _).
  cbn [lax_sequence]. rewrite E, E' at 1. cbn [length].
  assert (Z.land (Z.of_nat (4 + S (length t) + S (length t'))) 0x80 = 0) as ->.
  { assert (forall k, (k < 128)%nat -> Z.land (Z.of_nat k) 0x80 = 0) as A; [|apply A; lia].
    intros k Hk. change 0x80 with (2 ^ 7). apply Z.bits_inj'. intros i Hi.
    rewrite Z.land_spec, Z.bits_0, Z.pow2_bits_eqb by lia.
    destruct (Z.eqb_spec 7 i) as [<-|]; [|apply andb_false_r].
    rewrite <- (Z.mod_small (Z.of_nat k) (2 ^ 7)) by lia. by rewrite Z.mod_pow2_bits_high by lia. }
  cbn [Z.eqb negb mbind option_bind]. rewrite lax_integer_der. cbn [mbind option_bind].
  rewrite <- (app_nil_r (der_int (sig_s sig))) at 2. rewrite lax_integer_der. cbn [mbind option_bind].
  rewrite !lax_copy_der. cbn [mbind option_bind]. by rewrite parse_compact_scalars.
Qed.

Lemma CheckLowS_der sig :
  CheckLowS (secp256k1_ecdsa_signature_serialize_der sig) = (sig_s sig <=? secp256k1_n / 2).
Proof using Type*.
  unfold CheckLowS. rewrite lax_der. pose proof (normalize_spec sig) as N.
  destruct (secp256k1_ecdsa_signature_normalize sig) as [high sig']. destruct N as (-> & _). cbn [fst].
  by rewrite Z.ltb_antisym, negb_involutive.
Qed.

Lemma IsValid_der P : IsValid (CPubKey (pubkey_to_der P)) = true /\ CPubKey (pubkey_to_der P) = pubkey_to_der P.
Proof using Type*.
  unfold pubkey_to_der, CPubKey. pose proof (serialize_length P) as L. pose proof (serialize_header P) as Hh.
  destruct (secp256k1_ec_pubkey_serialize P) as [|b t] eqn:E; [done|]. cbn [hd] in Hh. rewrite L.
  by destruct Hh as [-> | ->].
Qed.

(** What the node accepts with [secp256k1_ecdsa_verify], Bitcoin Core accepts. *)
Lemma Verify_der P h sig : secp256k1_ecdsa_verify sig h P = true ->
  Verify (CPubKey (pubkey_to_der P)) h (secp256k1_ecdsa_signature_serialize_der sig) = true.
Proof using Type*.
  intros V. unfold Verify. destruct (IsValid_der P) as [-> ->]. cbn [negb].
  unfold pubkey_to_der. rewrite parse_serialize, lax_der. pose proof (normalize_spec sig) as N.
  destruct (secp256k1_ecdsa_signature_normalize sig) as [high sig']. destruct N as (_ & Er & Es). cbn [snd].
  pose proof (verify_low _ _ _ V). destruct (Z.ltb_spec (secp256k1_n / 2) (sig_s sig)); [lia|].
  by rewrite (sig_eq sig' sig Er Es).
Qed.
End Laws.

(** ** An instance

    Signatures over [Scalars]: R is the scalar of the key, S is low. *)
Module ScalarSigs.
Definition in_range (p : Z * Z) : bool :=
  (0 <=? fst p) && (fst p <? secp256k1_n) && (0 <=? snd p) && (snd p <? secp256k1_n).
Definition sig : Type := { p : Z * Z | in_range p = true }.
Definition mk (p : Z * Z) : option sig :=
  match bool_dec (in_range p) true with
  | left H => Some (exist _ p H)
  | right _ => None
  end.

Lemma sig_ext (a b : sig) : `a = `b -> a = b.
Proof. destruct a as [p Hp], b as [q Hq]; simpl. intros ->. f_equal. apply Eqdep_dec.UIP_dec, bool_dec. Qed.

Lemma range (a : sig) : 0 <= fst (`a) < secp256k1_n /\ 0 <= snd (`a) < secp256k1_n.
Proof. destruct a as [p Hp]. unfold in_range in Hp. simpl. bprop. lia. Qed.

Lemma negate_range (a : sig) : secp256k1_n / 2 < snd (`a) ->
  in_range (fst (`a), secp256k1_n - snd (`a)) = true.
Proof.
  intros Hs. destruct (range a) as [Hr Hs']. unfold in_range. cbn [fst snd].
  assert (0 <= secp256k1_n / 2) by (apply Z.div_pos; lia).
  generalize dependent (secp256k1_n / 2). intros half Hs Hh.
  rewrite !andb_true_iff, !Z.leb_le, !Z.ltb_lt. destruct a as [[r s] Hp]. simpl in *. lia.
Qed.

Definition normalize (a : sig) : bool * sig :=
  match Z_lt_dec (secp256k1_n / 2) (snd (`a)) with
  | left Hs => (true, exist _ _ (negate_range a Hs))
  | right _ => (false, a)
  end.

Definition verify (a : sig) (h : bytes) (P : Scalars.point) : bool :=
  (snd (`a) <=? secp256k1_n / 2) && (fst (`a) =? `P).

#[export] Instance ops : @Signatures Scalars.ops :=
  @Build_Signatures Scalars.ops sig
    (fun b => mk (be_val (take 32 b), be_val (drop 32 b)))
    (fun a => der (fst (`a)) (snd (`a)))
    normalize verify
    (fun h k => mk (be_val k mod secp256k1_n, 1)).

#[export, refine] Instance laws : @SignatureLaws Scalars.ops ops :=
  @Build_SignatureLaws Scalars.ops ops (fun a : sig => fst (`a)) (fun a : sig => snd (`a)) _ _ _ _ _ _ _.
Proof.
  - apply range.
  - intros a b Er Es. apply sig_ext. destruct (`a), (`b); simpl in *; congruence.
  - intros b L Hb. cbn. unfold mk. destruct (bool_dec _ _) as [E|E]; [done|].
    assert (0 <= be_val (take 32 b)) by (apply be_val_bound; by apply Forall_take).
    assert (0 <= be_val (drop 32 b)) by (apply be_val_bound; by apply Forall_drop).
    unfold in_range in E. cbn [fst snd] in E.
    destruct (Z.leb_spec 0 (be_val (take 32 b))), (Z.ltb_spec (be_val (take 32 b)) secp256k1_n),
      (Z.leb_spec 0 (be_val (drop 32 b))), (Z.ltb_spec (be_val (drop 32 b)) secp256k1_n);
      simpl in *; lia.
  - done.
  - intros a. cbn [secp256k1_ecdsa_signature_normalize ops]. unfold normalize.
    destruct (Z_lt_dec _ _) as [E|E].
    + rewrite (proj2 (Z.ltb_lt _ _) E). repeat split.
    + apply Z.nlt_ge, Z.ltb_ge in E. rewrite E. repeat split.
  - intros a h P. cbn [secp256k1_ecdsa_verify ops]. unfold verify. intros [E _]%andb_true_iff. by apply Z.leb_le.
  - intros k h P Lk Lh. cbn [secp256k1_ec_pubkey_create Scalars.ops secp256k1_ecdsa_sign ops].
    destruct (scalar_in_range k); [|done]. intros E. pose proof (Scalars.mult_spec (be_val k)) as S.
    rewrite E in S. unfold mk. destruct (bool_dec _ _) as [R|R].
    + eexists. split; [done|]. cbn [secp256k1_ecdsa_verify ops]. unfold verify.
      cbn [proj1_sig fst snd]. by rewrite S, Z.eqb_refl.
    + exfalso. apply R. unfold in_range. cbn [fst snd]. rewrite <- S. clear E S.
      destruct P as [p Hp]. simpl. apply andb_true_iff in Hp as [H1 H2]. rewrite H2. apply Z.ltb_lt in H1.
      rewrite (proj2 (Z.leb_le 0 p)) by lia. done.
Qed.
End ScalarSigs.
