(* ===== verification/CoreTx.v ===== *)
(** * Transactions of Bitcoin Core

    src/bitcoin/src/primitives/transaction.{h,cpp} and the parts of serialize.h and hash.h
    they use: the two serialisation formats, reading them back, and the two hashes.
    [core_serialisation] relates them to the node's own transactions (src/lightning),
    [core_roundtrip] shows that reading undoes writing. *)
From S2P Require Import Prelude HashSpec BlockHash Sha256 CoreSha256 CoreHash PullPush BitcoinTx.
Local Open Scope Z_scope.

(** ** Data *)
Record COutPoint := OutPoint { COutPoint_hash : bytes; COutPoint_n : Z }.
Record CTxIn := TxIn { prevout : COutPoint; scriptSig : bytes; nSequence : Z; scriptWitness : list bytes }.
Record CTxOut := TxOut { nValue : Z; scriptPubKey : bytes }.
Record CTransaction := Transaction {
  nVersion : Z;
  vin : list CTxIn;
  vout : list CTxOut;
  nLockTime : Z
}.

(** [CTxOut()] *)
Definition CTxOut_null : CTxOut := TxOut (-1) [].

Definition SEQUENCE_FINAL : Z := 0xffffffff.

(** ** serialize.h: what is written *)
Definition WriteCompactSize (nSize : Z) : bytes :=
  if nSize <? 253 then le_bytes 1 nSize
  else if nSize <=? 0xffff then le_bytes 1 253 ++ le_bytes 2 nSize
  else if nSize <=? 0xffffffff then le_bytes 1 254 ++ le_bytes 4 nSize
  else le_bytes 1 255 ++ le_bytes 8 nSize.

Definition Serialize_bytes (v : bytes) : bytes := WriteCompactSize (Z.of_nat (length v)) ++ v.
Definition Serialize_vector {A} (put : A -> bytes) (v : list A) : bytes :=
  WriteCompactSize (Z.of_nat (length v)) ++ concat (put <$> v).

Definition Serialize_outpoint (o : COutPoint) : bytes := COutPoint_hash o ++ le_bytes 4 (COutPoint_n o).
Definition Serialize_txin (i : CTxIn) : bytes :=
  Serialize_outpoint (prevout i) ++ Serialize_bytes (scriptSig i) ++ le_bytes 4 (nSequence i).
Definition Serialize_txout (o : CTxOut) : bytes := le_bytes 8 (nValue o) ++ Serialize_bytes (scriptPubKey o).

Definition HasWitness (tx : CTransaction) : bool :=
  existsb (fun i => negb (match scriptWitness i with [] => true | _ => false end)) (vin tx).

Definition SerializeTransaction (fAllowWitness : bool) (tx : CTransaction) : bytes :=
  let flags := if fAllowWitness then if HasWitness tx then Z.lor 0 1 else 0 else 0 in
  le_bytes 4 (nVersion tx)
    ++ (if flags =? 0 then [] else Serialize_vector Serialize_txin [] ++ le_bytes 1 flags)
    ++ Serialize_vector Serialize_txin (vin tx)
    ++ Serialize_vector Serialize_txout (vout tx)
    ++ (if Z.land flags 1 =? 0 then []
        else concat ((fun i => Serialize_vector Serialize_bytes (scriptWitness i)) <$> vin tx))
    ++ le_bytes 4 (nLockTime tx).

(** ** hash.h: [CHashWriter] *)
Definition CHashWriter : ctx := CSHA256_new (replicate 64 0).
Definition hash_write (ss : ctx) (data : bytes) : ctx := CSHA256_Write ss data.
Definition GetHash (ss : ctx) : bytes := CHash256_Finalize ss.

Definition ComputeHash (tx : CTransaction) : bytes :=
  GetHash (hash_write CHashWriter (SerializeTransaction false tx)).
Definition ComputeWitnessHash (tx : CTransaction) : bytes :=
  if negb (HasWitness tx) then ComputeHash tx
  else GetHash (hash_write CHashWriter (SerializeTransaction true tx)).

(** ** Reading: a stream is the bytes left, [None] an exception *)
Definition reader (A : Type) : Type := bytes -> option (A * bytes).
Definition read_ret {A} (x : A) : reader A := fun s => Some (x, s).
Definition read_bind {A B} (m : reader A) (k : A -> reader B) : reader B :=
  fun s => '(x, s) ← m s; k x s.
Definition read_throw {A} : reader A := fun _ => None.
Notation "'let+' x := m 'in' k" := (read_bind m (fun x => k))
  (at level 10, x name, m at level 100, k at level 200) : Z_scope.

Definition read (size : nat) : reader bytes := fun s =>
  if (size <=? length s)%nat then Some (take size s, drop size s) else None.

Definition ser_readdata (size : nat) : reader Z := let+ b := read size in read_ret (le_val b).

Definition MAX_SIZE : Z := 0x02000000.

Definition ReadCompactSize : reader Z :=
  let+ chSize := ser_readdata 1 in
  let+ nSizeRet :=
    if chSize <? 253 then read_ret chSize
    else if chSize =? 253 then
      let+ v := ser_readdata 2 in if v <? 253 then read_throw else read_ret v
    else if chSize =? 254 then
      let+ v := ser_readdata 4 in if v <? 0x10000 then read_throw else read_ret v
    else
      let+ v := ser_readdata 8 in if v <? 0x100000000 then read_throw else read_ret v in
  if MAX_SIZE <? nSizeRet then read_throw else read_ret nSizeRet.

Fixpoint read_each {A} (count : nat) (get : reader A) : reader (list A) :=
  match count with
  | O => read_ret []
  | S count => let+ x := get in let+ l := read_each count get in read_ret (x :: l)
  end.

(** The sources read a vector in parts of bounded size; the parts together are these. *)
Definition Unserialize_bytes : reader bytes := let+ k := ReadCompactSize in read (Z.to_nat k).
Definition Unserialize_vector {A} (get : reader A) : reader (list A) :=
  let+ k := ReadCompactSize in read_each (Z.to_nat k) get.

Definition s32 (z : Z) : Z := if u32 z <? 2 ^ 31 then u32 z else u32 z - 2 ^ 32.

Definition Unserialize_outpoint : reader COutPoint :=
  let+ h := read 32 in let+ k := ser_readdata 4 in read_ret (OutPoint h k).
Definition Unserialize_txin : reader CTxIn :=
  let+ o := Unserialize_outpoint in
  let+ script := Unserialize_bytes in
  let+ seq := ser_readdata 4 in
  read_ret (TxIn o script seq []).
Definition Unserialize_txout : reader CTxOut :=
  let+ v := ser_readdata 8 in
  let+ script := Unserialize_bytes in
  read_ret (TxOut (s64 v) script).

Fixpoint read_witnesses (l : list CTxIn) : reader (list CTxIn) :=
  match l with
  | [] => read_ret []
  | i :: l =>
      let+ w := Unserialize_vector Unserialize_bytes in
      let+ l := read_witnesses l in
      read_ret (TxIn (prevout i) (scriptSig i) (nSequence i) w :: l)
  end.

Definition UnserializeTransaction (fAllowWitness : bool) : reader CTransaction :=
  let+ version := ser_readdata 4 in
  let+ vin := Unserialize_vector Unserialize_txin in
  let+ r :=
    match vin, fAllowWitness with
    | [], true =>
        let+ flags := ser_readdata 1 in
        if negb (flags =? 0) then
          let+ vin := Unserialize_vector Unserialize_txin in
          let+ vout := Unserialize_vector Unserialize_txout in
          read_ret (vin, vout, flags)
        else read_ret ([], [], flags)
    | _, _ =>
        let+ vout := Unserialize_vector Unserialize_txout in
        read_ret (vin, vout, 0)
    end in
  let '(vin, vout, flags) := r in
  let+ r :=
    if negb (Z.land flags 1 =? 0) && fAllowWitness then
      let+ vin := read_witnesses vin in read_ret (vin, Z.lxor flags 1)
    else read_ret (vin, flags) in
  let '(vin, flags) := r in
  if negb (flags =? 0) then read_throw
  else
    let+ lock := ser_readdata 4 in
    read_ret (Transaction (s32 version) vin vout lock).

(** ** Reading back *)

(** [get] reads the bytes [enc] as [x] and leaves the rest. *)
Definition reads_as {A} (get : reader A) (enc : bytes) (x : A) : Prop :=
  forall rest, get (enc ++ rest) = Some (x, rest).

Lemma parses_ret {A} (x : A) : reads_as (read_ret x) [] x.
Proof. intros rest. done. Qed.

Lemma parses_bind {A B} (get : reader A) (k : A -> reader B) enc enc' x y :
  reads_as get enc x -> reads_as (k x) enc' y -> reads_as (read_bind get k) (enc ++ enc') y.
Proof. intros Hg Hk rest. unfold read_bind. rewrite <- app_assoc, Hg. apply Hk. Qed.

(** A last value computed from what was read. *)
Lemma parses_bind_ret {A B} (get : reader A) (f : A -> B) enc x :
  reads_as get enc x -> reads_as (let+ y := get in read_ret (f y)) enc (f x).
Proof. intros H. rewrite <- (app_nil_r enc). eapply parses_bind; [exact H|apply parses_ret]. Qed.

Lemma reads_read k b : length b = k -> reads_as (read k) b b.
Proof.
  intros L rest. unfold read. rewrite length_app, take_app_length', drop_app_length' by done.
  destruct (Nat.leb_spec k (length b + length rest)); [done|lia].
Qed.

Lemma reads_data k z : 0 <= z < 256 ^ Z.of_nat k -> reads_as (ser_readdata k) (le_bytes k z) z.
Proof.
  intros Hz. replace z with (le_val (le_bytes k z)) at 2 by (rewrite le_val_le_bytes; by apply Z.mod_small).
  apply (parses_bind_ret (read k) le_val), reads_read, length_le_bytes.
Qed.

Lemma reads_compact v : 0 <= v <= MAX_SIZE -> reads_as ReadCompactSize (WriteCompactSize v) v.
Proof.
  unfold MAX_SIZE. intros Hv. rewrite <- (app_nil_r (WriteCompactSize v)).
  assert (reads_as (if MAX_SIZE <? v then read_throw else read_ret v) [] v) as Hlast.
  { unfold MAX_SIZE. destruct (Z.ltb_spec 0x02000000 v); [lia|]. apply parses_ret. }
  unfold WriteCompactSize, ReadCompactSize.
  destruct (Z.ltb_spec v 253); [|destruct (Z.leb_spec v 0xffff); [|destruct (Z.leb_spec v 0xffffffff); [|lia]]].
  - apply (parses_bind _ _ _ _ v); [apply reads_data; simpl; lia|].
    destruct (Z.ltb_spec v 253); [|lia]. eapply (parses_bind _ _ [] [] v); [apply parses_ret|done].
  - rewrite <- !app_assoc. apply (parses_bind _ _ _ _ 253); [apply reads_data; simpl; lia|].
    cbn [Z.ltb Z.compare Z.eqb Pos.compare Pos.compare_cont Pos.eqb].
    eapply (parses_bind _ _ _ _ v); [|done]. rewrite <- (app_nil_r (le_bytes 2 v)).
    eapply (parses_bind _ _ _ _ v); [apply reads_data; simpl; lia|].
    destruct (Z.ltb_spec v 253); [lia|]. apply parses_ret.
  - rewrite <- !app_assoc. apply (parses_bind _ _ _ _ 254); [apply reads_data; simpl; lia|].
    cbn [Z.ltb Z.compare Z.eqb Pos.compare Pos.compare_cont Pos.eqb].
    eapply (parses_bind _ _ _ _ v); [|done]. rewrite <- (app_nil_r (le_bytes 4 v)).
    eapply (parses_bind _ _ _ _ v); [apply reads_data; simpl; lia|].
    destruct (Z.ltb_spec v 0x10000); [lia|]. apply parses_ret.
Qed.

Lemma reads_bytes b : Z.of_nat (length b) <= MAX_SIZE -> reads_as Unserialize_bytes (Serialize_bytes b) b.
Proof.
  intros L. apply (parses_bind _ _ _ _ (Z.of_nat (length b))); [apply reads_compact; lia|].
  apply reads_read. lia.
Qed.

Lemma parses_each {A} (get : reader A) (put : A -> bytes) (f : A -> A) l :
  Forall (fun x => reads_as get (put x) (f x)) l ->
  reads_as (read_each (length l) get) (concat (put <$> l)) (f <$> l).
Proof.
  induction 1 as [|x l Hx _ IH]; [apply parses_ret|]. csimpl.
  apply (parses_bind _ _ _ _ (f x)); [done|]. apply (parses_bind_ret _ (cons (f x))), IH.
Qed.

Lemma reads_vector {A} (get : reader A) (put : A -> bytes) (f : A -> A) l :
  Z.of_nat (length l) <= MAX_SIZE -> Forall (fun x => reads_as get (put x) (f x)) l ->
  reads_as (Unserialize_vector get) (Serialize_vector put l) (f <$> l).
Proof.
  intros L H. apply (parses_bind _ _ _ _ (Z.of_nat (length l))); [apply reads_compact; lia|].
  rewrite Nat2Z.id. by apply parses_each.
Qed.

(** Transactions within the widths and the size limit of the format. *)
Record txin_ok (i : CTxIn) : Prop := {
  ok_hash : length (COutPoint_hash (prevout i)) = 32%nat;
  ok_n : fits 32 (COutPoint_n (prevout i));
  ok_script : Z.of_nat (length (scriptSig i)) <= MAX_SIZE;
  ok_seq : fits 32 (nSequence i);
  ok_stack : Z.of_nat (length (scriptWitness i)) <= MAX_SIZE;
  ok_items : Forall (fun b => Z.of_nat (length b) <= MAX_SIZE) (scriptWitness i)
}.
Definition txout_ok (o : CTxOut) : Prop :=
  - 2 ^ 63 <= nValue o < 2 ^ 63 /\ Z.of_nat (length (scriptPubKey o)) <= MAX_SIZE.
Record core_ok (tx : CTransaction) : Prop := {
  ok_version : - 2 ^ 31 <= nVersion tx < 2 ^ 31;
  ok_vin : vin tx <> [];
  ok_vin_size : Z.of_nat (length (vin tx)) <= MAX_SIZE;
  ok_vout_size : Z.of_nat (length (vout tx)) <= MAX_SIZE;
  ok_inputs : Forall txin_ok (vin tx);
  ok_outputs : Forall txout_ok (vout tx);
  ok_lock : fits 32 (nLockTime tx)
}.

(** What is read of an input before the witnesses. *)
Definition unwitnessed (i : CTxIn) : CTxIn := TxIn (prevout i) (scriptSig i) (nSequence i) [].

Lemma reads_txin i : txin_ok i -> reads_as Unserialize_txin (Serialize_txin i) (unwitnessed i).
Proof.
  intros [Hh Hn Hs Hq _ _]. destruct i as [[h k] script seq w]. cbn in *.
  unfold Serialize_txin, Unserialize_txin. cbn.
  apply (parses_bind _ _ _ _ (OutPoint h k)).
  { apply (parses_bind _ _ _ _ h); [by apply reads_read|].
    by apply (parses_bind_ret _ (OutPoint h)), reads_data. }
  apply (parses_bind _ _ _ _ script); [by apply reads_bytes|].
  by apply (parses_bind_ret _ (fun seq => TxIn (OutPoint h k) script seq [])), reads_data.
Qed.

(** Signed fields are written as their two's complement. *)
Lemma le_bytes_mod k z : le_bytes k z = le_bytes k (z mod 256 ^ Z.of_nat k).
Proof.
  rewrite <- le_val_le_bytes. rewrite <- (length_le_bytes k z) at 2.
  by rewrite le_bytes_le_val by apply le_bytes_ok.
Qed.

Lemma reads_txout o : txout_ok o -> reads_as Unserialize_txout (Serialize_txout o) o.
Proof.
  intros [Hv Hs]. destruct o as [v script]. cbn in *.
  unfold Serialize_txout, Unserialize_txout. cbn [nValue scriptPubKey]. rewrite le_bytes_mod.
  assert (s64 (v mod 256 ^ Z.of_nat 8) = v) as E.
  { change (256 ^ Z.of_nat 8) with (2 ^ 64). fold (u64 v). by rewrite s64_u64, s64_small. }
  pose proof (Z.mod_pos_bound v (256 ^ Z.of_nat 8)) as B.
  generalize dependent (v mod 256 ^ Z.of_nat 8). intros u <- B.
  apply (parses_bind _ _ _ _ u); [apply reads_data, B; lia|].
  by apply (parses_bind_ret _ (TxOut _)), reads_bytes.
Qed.

Lemma reads_witnesses l : Forall txin_ok l ->
  reads_as (read_witnesses (unwitnessed <$> l))
    (concat ((fun i => Serialize_vector Serialize_bytes (scriptWitness i)) <$> l)) l.
Proof.
  induction 1 as [|[o script seq w] l [_ _ _ _ Hw Hi] _ IH]; [apply parses_ret|]. cbn in *.
  apply (parses_bind _ _ _ _ w).
  { rewrite <- (list_fmap_id w) at 2. apply reads_vector; [done|].
    eapply Forall_impl; [exact Hi|]. intros b Hb. by apply reads_bytes. }
  apply (parses_bind_ret _ (cons _)), IH.
Qed.

Definition strip_witnesses (tx : CTransaction) : CTransaction :=
  Transaction (nVersion tx) (unwitnessed <$> vin tx) (vout tx) (nLockTime tx).

Lemma no_witness tx : HasWitness tx = false -> unwitnessed <$> vin tx = vin tx.
Proof.
  unfold HasWitness. intros H. rewrite <- (list_fmap_id (vin tx)) at 2. apply list_fmap_ext.
  intros k [o script seq w] Hk. destruct w as [|b w]; [done|]. exfalso.
  apply not_true_iff_false in H. apply H, existsb_exists. exists (TxIn o script seq (b :: w)).
  split; [|done]. by eapply list_elem_of_In, list_elem_of_lookup_2.
Qed.

Section Tx.
Context (tx : CTransaction) (ok : core_ok tx).

Lemma reads_inputs :
  reads_as (Unserialize_vector Unserialize_txin) (Serialize_vector Serialize_txin (vin tx))
    (unwitnessed <$> vin tx).
Proof using ok.
  destruct ok as [_ _ ? _ Hi _ _]. apply reads_vector; [done|]. eapply Forall_impl; [exact Hi|]. apply reads_txin.
Qed.

Lemma reads_outputs :
  reads_as (Unserialize_vector Unserialize_txout) (Serialize_vector Serialize_txout (vout tx)) (vout tx).
Proof using ok.
  destruct ok as [_ _ _ ? _ Ho _]. rewrite <- (list_fmap_id (vout tx)) at 2. apply reads_vector; [done|].
  eapply Forall_impl; [exact Ho|]. apply reads_txout.
Qed.

(** The end of the transaction, when no flag is left. *)
Lemma reads_end inputs : forall v, s32 v = nVersion tx ->
  reads_as (let+ lock := ser_readdata 4 in read_ret (Transaction (s32 v) inputs (vout tx) lock))
    (le_bytes 4 (nLockTime tx)) (Transaction (nVersion tx) inputs (vout tx) (nLockTime tx)).
Proof using ok.
  intros v <-. destruct ok as [_ _ _ _ _ _ Hl].
  by apply (parses_bind_ret _ (Transaction (s32 v) inputs (vout tx))), reads_data.
Qed.

Lemma version_read : s32 (nVersion tx mod 256 ^ Z.of_nat 4) = nVersion tx /\
  0 <= nVersion tx mod 256 ^ Z.of_nat 4 < 256 ^ Z.of_nat 4.
Proof using ok.
  destruct ok as [Hv _ _ _ _ _ _]. split; [|apply Z.mod_pos_bound; lia].
  change (256 ^ Z.of_nat 4) with (2 ^ 32). unfold s32.
  destruct (Z.ltb_spec (u32 (nVersion tx mod 2 ^ 32)) (2 ^ 31)); width_lia.
Qed.

Lemma reads_basic allow : reads_as (UnserializeTransaction allow)
  (le_bytes 4 (nVersion tx) ++ Serialize_vector Serialize_txin (vin tx)
     ++ Serialize_vector Serialize_txout (vout tx) ++ le_bytes 4 (nLockTime tx)) (strip_witnesses tx).
Proof using ok.
  destruct version_read as [Ev Hv]. rewrite (le_bytes_mod 4 (nVersion tx)).
  apply (parses_bind _ _ _ _ _ _ (reads_data 4 _ Hv)).
  apply (parses_bind _ _ _ _ _ _ reads_inputs).
  destruct (unwitnessed <$> vin tx) as [|i l] eqn:E.
  { apply fmap_nil_inv in E. by destruct ok. }
  apply (parses_bind _ _ _ _ (i :: l, vout tx, 0)).
  { apply (parses_bind_ret _ (fun vout => (i :: l, vout, 0))), reads_outputs. }
  apply (parses_bind _ _ [] _ (i :: l, 0)); [apply parses_ret|].
  unfold strip_witnesses. rewrite E. by apply reads_end.
Qed.

Lemma reads_extended : reads_as (UnserializeTransaction true)
  (le_bytes 4 (nVersion tx) ++ (Serialize_vector Serialize_txin [] ++ le_bytes 1 1)
     ++ Serialize_vector Serialize_txin (vin tx) ++ Serialize_vector Serialize_txout (vout tx)
     ++ concat ((fun i => Serialize_vector Serialize_bytes (scriptWitness i)) <$> vin tx)
     ++ le_bytes 4 (nLockTime tx)) tx.
Proof using ok.
  destruct version_read as [Ev Hv]. rewrite (le_bytes_mod 4 (nVersion tx)).
  apply (parses_bind _ _ _ _ _ _ (reads_data 4 _ Hv)). rewrite <- app_assoc.
  apply (parses_bind _ _ _ _ []). { by apply (reads_vector _ _ unwitnessed []). }
  match goal with |- reads_as _ (?a ++ ?b ++ ?c ++ ?d) _ =>
    replace (a ++ b ++ c ++ d) with ((a ++ b ++ c) ++ d) by (by rewrite <- !app_assoc) end.
  apply (parses_bind _ _ _ _ (unwitnessed <$> vin tx, vout tx, 1)).
  { apply (parses_bind _ _ _ _ 1); [by apply reads_data|]. cbn.
    apply (parses_bind _ _ _ _ _ _ reads_inputs).
    apply (parses_bind_ret _ (fun vout => (unwitnessed <$> vin tx, vout, 1))), reads_outputs. }
  apply (parses_bind _ _ _ _ (vin tx, 0)).
  { apply (parses_bind_ret _ (fun vin => (vin, 0))), reads_witnesses. by destruct ok. }
  pose proof (reads_end (vin tx) _ Ev) as R.
  replace (Transaction (nVersion tx) (vin tx) (vout tx) (nLockTime tx)) with tx in R by (by destruct tx).
  exact R.
Qed.
End Tx.

(** C40. Bitcoin Core reads back what it writes: a transaction in the extended format when it
    has a witness, in the basic one otherwise, and in the basic format without its
    witnesses. *)
Theorem core_roundtrip tx rest : core_ok tx ->
  UnserializeTransaction true (SerializeTransaction true tx ++ rest) = Some (tx, rest) /\
  UnserializeTransaction false (SerializeTransaction false tx ++ rest) = Some (strip_witnesses tx, rest).
Proof.
  intros ok. unfold SerializeTransaction. split; [|by apply (reads_basic tx ok false)].
  destruct (HasWitness tx) eqn:E; [by apply (reads_extended tx ok)|].
  rewrite (reads_basic tx ok true). unfold strip_witnesses. rewrite no_witness by done. by destruct tx.
Qed.

(** ** The node's transactions *)
Definition core_in (i : bitcoin_tx_input) : CTxIn :=
  TxIn (OutPoint (in_txid i) (in_index i)) (default [] (in_script i)) (sequence_number i)
    (default [] (witness i)).
Definition core_out (o : bitcoin_tx_output) : CTxOut := TxOut (s64 (out_amount o)) (out_script o).
Definition core_tx (tx : bitcoin_tx) : CTransaction :=
  Transaction (s32 (version tx)) (core_in <$> input tx) (core_out <$> output tx) (lock_time tx).

Lemma compact_core v : 0 <= v -> WriteCompactSize v = Spec.compact v.
Proof.
  intros Hv. unfold WriteCompactSize, Spec.compact. destruct (Z.ltb_spec v 253); [|done].
  change (le_bytes 1 v) with [v mod 256]. by rewrite Z.mod_small by lia.
Qed.

Lemma blob_core b : Serialize_bytes b = Spec.var_bytes b.
Proof. unfold Serialize_bytes, Spec.var_bytes. by rewrite compact_core by lia. Qed.

Lemma vector_core {A B} (f : A -> bytes) (g : B -> bytes) (c : A -> B) l :
  (forall x, g (c x) = f x) -> Serialize_vector g (c <$> l) = Spec.vector f l.
Proof.
  intros E. unfold Serialize_vector, Spec.vector. rewrite length_fmap, compact_core by lia.
  rewrite <- list_fmap_compose. do 2 f_equal. apply list_fmap_ext. intros k x _. apply E.
Qed.

Lemma le_bytes_s32 z : le_bytes 4 (s32 z) = le_bytes 4 z.
Proof.
  rewrite le_bytes_mod, (le_bytes_mod 4 z). f_equal. change (256 ^ Z.of_nat 4) with (2 ^ 32).
  unfold s32. destruct (Z.ltb_spec (u32 z) (2 ^ 31)); width_lia.
Qed.

Lemma le_bytes_s64 z : le_bytes 8 (s64 z) = le_bytes 8 z.
Proof.
  rewrite le_bytes_mod, (le_bytes_mod 8 z). f_equal. change (256 ^ Z.of_nat 8) with (2 ^ 64).
  pose proof (s64_u64 z). width_lia.
Qed.

Lemma txin_core i : Serialize_txin (core_in i) = Spec.txin i.
Proof. unfold Serialize_txin, Spec.txin. cbn [core_in scriptSig]. by rewrite blob_core. Qed.

Lemma txout_core o : Serialize_txout (core_out o) = Spec.txout o.
Proof. unfold Serialize_txout, Spec.txout. cbn [core_out nValue scriptPubKey]. by rewrite blob_core, le_bytes_s64. Qed.

Lemma stack_core i : Serialize_vector Serialize_bytes (scriptWitness (core_in i)) = Spec.stack i.
Proof.
  unfold Spec.stack. cbn [core_in scriptWitness]. rewrite <- (list_fmap_id (default [] (witness i))) at 1.
  apply vector_core, blob_core.
Qed.

(** The node writes NULL for an empty witness. *)
Definition witnesses_normal (tx : bitcoin_tx) : Prop := Forall (fun i => witness i <> Some []) (input tx).

Lemma has_witness_core tx : witnesses_normal tx -> HasWitness (core_tx tx) = uses_witness tx.
Proof.
  unfold witnesses_normal, HasWitness, uses_witness. cbn [core_tx vin].
  induction 1 as [|i l Hi _ IH]; [done|]. csimpl. rewrite IH. f_equal.
  cbn [core_in scriptWitness]. destruct (witness i) as [[|b w]|]; done.
Qed.

Lemma serialize_core allow tx : witnesses_normal tx ->
  SerializeTransaction allow (core_tx tx) = if allow then Spec.transaction tx else Spec.stripped tx.
Proof.
  intros Hw. unfold SerializeTransaction. rewrite (has_witness_core tx) by done.
  cbn [core_tx nVersion vin vout nLockTime]. rewrite le_bytes_s32.
  rewrite (vector_core _ _ _ _ txin_core), (vector_core _ _ _ _ txout_core), <- list_fmap_compose.
  rewrite (list_fmap_ext _ Spec.stack) by (intros; apply stack_core).
  unfold Spec.transaction. by destruct allow, (uses_witness tx).
Qed.

Lemma hash_once m : GetHash (hash_write CHashWriter m) = Spec.hash256 m.
Proof.
  apply CHash256_Finalize_spec. change m with ([] ++ m) at 2.
  apply CSHA256_Write_holds, CSHA256_new_holds. done.
Qed.

(** C31. The node and Bitcoin Core write the same bytes for a transaction and give it the
    same id. *)
Theorem core_serialisation tx : witnesses_normal tx ->
  SerializeTransaction true (core_tx tx) = linearize_tx tx /\
  ComputeHash (core_tx tx) = bitcoin_txid tx.
Proof.
  intros Hw. rewrite linearize_spec, txid_spec. unfold ComputeHash. rewrite hash_once.
  by rewrite !serialize_core by done.
Qed.

(** ** A transaction with a witness *)
Module DemoCore.
Lemma demo_core_ok : core_ok (core_tx DemoTx.tx).
Proof.
  split; try (cbn; unfold MAX_SIZE; lia); try done.
  - repeat constructor; cbn; unfold fits, MAX_SIZE; try lia.
  - repeat constructor; cbn; unfold MAX_SIZE; try lia; by vm_compute.
Qed.

Lemma core_roundtrip_witness :
  UnserializeTransaction true (SerializeTransaction true (core_tx DemoTx.tx) ++ [42])
  = Some (core_tx DemoTx.tx, [42]).
Proof. apply (core_roundtrip (core_tx DemoTx.tx) [42]), demo_core_ok. Defined.

Lemma core_serialisation_witness : ComputeHash (core_tx DemoTx.tx) = bitcoin_txid DemoTx.tx.
Proof. apply (core_serialisation DemoTx.tx). by repeat constructor. Defined.
End DemoCore.
