(* ===== verification/CScript.v ===== *)
(** * Bitcoin Core scripts (src/bitcoin/src/script/script.h, script.cpp)

    Opcodes, the reading of instructions, the numbers of the script language, and the
    recognisers of output types. A script is its bytes; an iterator into it is the bytes
    from it to the end. *)
From S2P Require Import Prelude.
Local Open Scope Z_scope.

(** ** Limits *)
Definition MAX_SCRIPT_ELEMENT_SIZE : Z := 520.
Definition MAX_OPS_PER_SCRIPT : Z := 201.
Definition MAX_PUBKEYS_PER_MULTISIG : Z := 20.
Definition MAX_SCRIPT_SIZE : Z := 10000.
Definition MAX_STACK_SIZE : Z := 1000.
Definition LOCKTIME_THRESHOLD : Z := 500000000.

(** ** Opcodes *)
Inductive opcodetype :=
  | OP_0 | OP_PUSHDATA1 | OP_PUSHDATA2 | OP_PUSHDATA4 | OP_1NEGATE | OP_RESERVED | OP_1
  | OP_2 | OP_3 | OP_4 | OP_5 | OP_6 | OP_7 | OP_8 | OP_9 | OP_10 | OP_11 | OP_12 | OP_13
  | OP_14 | OP_15 | OP_16 | OP_NOP | OP_VER | OP_IF | OP_NOTIF | OP_VERIF | OP_VERNOTIF
  | OP_ELSE | OP_ENDIF | OP_VERIFY | OP_RETURN | OP_TOALTSTACK | OP_FROMALTSTACK | OP_2DROP
  | OP_2DUP | OP_3DUP | OP_2OVER | OP_2ROT | OP_2SWAP | OP_IFDUP | OP_DEPTH | OP_DROP
  | OP_DUP | OP_NIP | OP_OVER | OP_PICK | OP_ROLL | OP_ROT | OP_SWAP | OP_TUCK | OP_CAT
  | OP_SUBSTR | OP_LEFT | OP_RIGHT | OP_SIZE | OP_INVERT | OP_AND | OP_OR | OP_XOR | OP_EQUAL
  | OP_EQUALVERIFY | OP_RESERVED1 | OP_RESERVED2 | OP_1ADD | OP_1SUB | OP_2MUL | OP_2DIV
  | OP_NEGATE | OP_ABS | OP_NOT | OP_0NOTEQUAL | OP_ADD | OP_SUB | OP_MUL | OP_DIV | OP_MOD
  | OP_LSHIFT | OP_RSHIFT | OP_BOOLAND | OP_BOOLOR | OP_NUMEQUAL | OP_NUMEQUALVERIFY
  | OP_NUMNOTEQUAL | OP_LESSTHAN | OP_GREATERTHAN | OP_LESSTHANOREQUAL
  | OP_GREATERTHANOREQUAL | OP_MIN | OP_MAX | OP_WITHIN | OP_RIPEMD160 | OP_SHA1 | OP_SHA256
  | OP_HASH160 | OP_HASH256 | OP_CODESEPARATOR | OP_CHECKSIG | OP_CHECKSIGVERIFY
  | OP_CHECKMULTISIG | OP_CHECKMULTISIGVERIFY | OP_NOP1 | OP_CHECKLOCKTIMEVERIFY
  | OP_CHECKSEQUENCEVERIFY | OP_NOP4 | OP_NOP5 | OP_NOP6 | OP_NOP7 | OP_NOP8 | OP_NOP9
  | OP_NOP10 | OP_INVALIDOPCODE.

(** The named value of a byte, if it has one. *)
Definition opcode_of (z : Z) : option opcodetype :=
  match z with
  | 0x00 => Some OP_0
  | 0x4c => Some OP_PUSHDATA1
  | 0x4d => Some OP_PUSHDATA2
  | 0x4e => Some OP_PUSHDATA4
  | 0x4f => Some OP_1NEGATE
  | 0x50 => Some OP_RESERVED
  | 0x51 => Some OP_1
  | 0x52 => Some OP_2
  | 0x53 => Some OP_3
  | 0x54 => Some OP_4
  | 0x55 => Some OP_5
  | 0x56 => Some OP_6
  | 0x57 => Some OP_7
  | 0x58 => Some OP_8
  | 0x59 => Some OP_9
  | 0x5a => Some OP_10
  | 0x5b => Some OP_11
  | 0x5c => Some OP_12
  | 0x5d => Some OP_13
  | 0x5e => Some OP_14
  | 0x5f => Some OP_15
  | 0x60 => Some OP_16
  | 0x61 => Some OP_NOP
  | 0x62 => Some OP_VER
  | 0x63 => Some OP_IF
  | 0x64 => Some OP_NOTIF
  | 0x65 => Some OP_VERIF
  | 0x66 => Some OP_VERNOTIF
  | 0x67 => Some OP_ELSE
  | 0x68 => Some OP_ENDIF
  | 0x69 => Some OP_VERIFY
  | 0x6a => Some OP_RETURN
  | 0x6b => Some OP_TOALTSTACK
  | 0x6c => Some OP_FROMALTSTACK
  | 0x6d => Some OP_2DROP
  | 0x6e => Some OP_2DUP
  | 0x6f => Some OP_3DUP
  | 0x70 => Some OP_2OVER
  | 0x71 => Some OP_2ROT
  | 0x72 => Some OP_2SWAP
  | 0x73 => Some OP_IFDUP
  | 0x74 => Some OP_DEPTH
  | 0x75 => Some OP_DROP
  | 0x76 => Some OP_DUP
  | 0x77 => Some OP_NIP
  | 0x78 => Some OP_OVER
  | 0x79 => Some OP_PICK
  | 0x7a => Some OP_ROLL
  | 0x7b => Some OP_ROT
  | 0x7c => Some OP_SWAP
  | 0x7d => Some OP_TUCK
  | 0x7e => Some OP_CAT
  | 0x7f => Some OP_SUBSTR
  | 0x80 => Some OP_LEFT
  | 0x81 => Some OP_RIGHT
  | 0x82 => Some OP_SIZE
  | 0x83 => Some OP_INVERT
  | 0x84 => Some OP_AND
  | 0x85 => Some OP_OR
  | 0x86 => Some OP_XOR
  | 0x87 => Some OP_EQUAL
  | 0x88 => Some OP_EQUALVERIFY
  | 0x89 => Some OP_RESERVED1
  | 0x8a => Some OP_RESERVED2
  | 0x8b => Some OP_1ADD
  | 0x8c => Some OP_1SUB
  | 0x8d => Some OP_2MUL
  | 0x8e => Some OP_2DIV
  | 0x8f => Some OP_NEGATE
  | 0x90 => Some OP_ABS
  | 0x91 => Some OP_NOT
  | 0x92 => Some OP_0NOTEQUAL
  | 0x93 => Some OP_ADD
  | 0x94 => Some OP_SUB
  | 0x95 => Some OP_MUL
  | 0x96 => Some OP_DIV
  | 0x97 => Some OP_MOD
  | 0x98 => Some OP_LSHIFT
  | 0x99 => Some OP_RSHIFT
  | 0x9a => Some OP_BOOLAND
  | 0x9b => Some OP_BOOLOR
  | 0x9c => Some OP_NUMEQUAL
  | 0x9d => Some OP_NUMEQUALVERIFY
  | 0x9e => Some OP_NUMNOTEQUAL
  | 0x9f => Some OP_LESSTHAN
  | 0xa0 => Some OP_GREATERTHAN
  | 0xa1 => Some OP_LESSTHANOREQUAL
  | 0xa2 => Some OP_GREATERTHANOREQUAL
  | 0xa3 => Some OP_MIN
  | 0xa4 => Some OP_MAX
  | 0xa5 => Some OP_WITHIN
  | 0xa6 => Some OP_RIPEMD160
  | 0xa7 => Some OP_SHA1
  | 0xa8 => Some OP_SHA256
  | 0xa9 => Some OP_HASH160
  | 0xaa => Some OP_HASH256
  | 0xab => Some OP_CODESEPARATOR
  | 0xac => Some OP_CHECKSIG
  | 0xad => Some OP_CHECKSIGVERIFY
  | 0xae => Some OP_CHECKMULTISIG
  | 0xaf => Some OP_CHECKMULTISIGVERIFY
  | 0xb0 => Some OP_NOP1
  | 0xb1 => Some OP_CHECKLOCKTIMEVERIFY
  | 0xb2 => Some OP_CHECKSEQUENCEVERIFY
  | 0xb3 => Some OP_NOP4
  | 0xb4 => Some OP_NOP5
  | 0xb5 => Some OP_NOP6
  | 0xb6 => Some OP_NOP7
  | 0xb7 => Some OP_NOP8
  | 0xb8 => Some OP_NOP9
  | 0xb9 => Some OP_NOP10
  | 0xff => Some OP_INVALIDOPCODE
  | _ => None
  end.

(** The values the code compares opcodes with. *)
Definition v_PUSHDATA1 : Z := 0x4c.
Definition v_PUSHDATA2 : Z := 0x4d.
Definition v_PUSHDATA4 : Z := 0x4e.
Definition v_OP_1 : Z := 0x51.
Definition v_OP_16 : Z := 0x60.
Definition v_OP_IF : Z := 0x63.
Definition v_OP_ENDIF : Z := 0x68.

(** ** Reading an instruction

    The opcode and its operand, [None] when the function returns false, and where the
    iterator then is (it has moved also when it returns false). *)
Definition GetScriptOp (pc : bytes) : option (Z * bytes) * bytes :=
  match pc with
  | [] => (None, [])
  | opcode :: pc =>
      if opcode <=? v_PUSHDATA4 then
        let '(nSize, pc) :=
          if opcode <? v_PUSHDATA1 then (Some opcode, pc)
          else if opcode =? v_PUSHDATA1 then
            match pc with
            | [] => (None, pc)
            | n :: pc => (Some n, pc)
            end
          else if opcode =? v_PUSHDATA2 then
            if (length pc <? 2)%nat then (None, pc) else (Some (le_val (take 2 pc)), drop 2 pc)
          else
            if (length pc <? 4)%nat then (None, pc) else (Some (le_val (take 4 pc)), drop 4 pc) in
        match nSize with
        | None => (None, pc)
        | Some nSize =>
            if Z.of_nat (length pc) <? nSize then (None, pc)
            else (Some (opcode, take (Z.to_nat nSize) pc), drop (Z.to_nat nSize) pc)
        end
      else (Some (opcode, []), pc)
  end.

(** [IsPushOnly]; every turn reads at least one byte, so the length is enough fuel. *)
Fixpoint IsPushOnly_from (fuel : nat) (pc : bytes) : bool :=
  match pc, fuel with
  | [], _ => true
  | _, O => false
  | _, S fuel =>
      match GetScriptOp pc with
      | (None, _) => false
      | (Some (opcode, _), pc) => if v_OP_16 <? opcode then false else IsPushOnly_from fuel pc
      end
  end.

Definition IsPushOnly (script : bytes) : bool := IsPushOnly_from (length script) script.

Definition DecodeOP_N (opcode : Z) : Z := if opcode =? 0 then 0 else opcode - (v_OP_1 - 1).

Definition IsPayToScriptHash (s : bytes) : bool :=
  (length s =? 23)%nat && bool_decide (s !! 0%nat = Some 0xa9)
  && bool_decide (s !! 1%nat = Some 0x14) && bool_decide (s !! 22%nat = Some 0x87).

(** The version and the program. *)
Definition IsWitnessProgram (s : bytes) : option (Z * bytes) :=
  match s with
  | op :: n :: program =>
      if (length s <? 4)%nat || (42 <? length s)%nat then None
      else if negb (op =? 0) && ((op <? v_OP_1) || (v_OP_16 <? op)) then None
      else if n + 2 =? Z.of_nat (length s) then Some (DecodeOP_N op, program)
      else None
  | _ => None
  end.

(** [operator<<] of a byte vector. *)
Definition push_vector (b : bytes) (script : bytes) : bytes :=
  let n := Z.of_nat (length b) in
  script ++
    (if n <? v_PUSHDATA1 then [n]
     else if n <=? 0xff then [v_PUSHDATA1; n]
     else if n <=? 0xffff then v_PUSHDATA2 :: le_bytes 2 n
     else v_PUSHDATA4 :: le_bytes 4 n) ++ b.

(** ** Numbers *)

Definition nDefaultMaxNumSize : nat := 4.

(** The bytes combined with [|] at their positions. *)
Definition set_vch_bits (vch : bytes) : Z :=
  foldl Z.lor 0 (imap (fun i b => Z.shiftl b (8 * Z.of_nat i)) vch).

Definition set_vch (vch : bytes) : Z :=
  match last vch with
  | None => 0
  | Some b =>
      let result := set_vch_bits vch in
      if negb (Z.land b 0x80 =? 0)
      then - Z.ldiff result (Z.shiftl 0x80 (8 * (Z.of_nat (length vch) - 1)))
      else result
  end.

(** The constructor from bytes; [None] is the exception. *)
Definition script_num (vch : bytes) (fRequireMinimal : bool) (nMaxNumSize : nat) : option Z :=
  if (nMaxNumSize <? length vch)%nat then None
  else
    let minimal :=
      match last vch with
      | None => true
      | Some b =>
          negb (Z.land b 0x7f =? 0)
          || match vch !! (length vch - 2)%nat with
             | Some c => (1 <? length vch)%nat && negb (Z.land c 0x80 =? 0)
             | None => false
             end
      end in
    if fRequireMinimal && negb minimal then None else Some (set_vch vch).

Definition getint (m_value : Z) : Z :=
  if 2 ^ 31 - 1 <? m_value then 2 ^ 31 - 1
  else if m_value <? - 2 ^ 31 then - 2 ^ 31
  else m_value.

(** The loop of [serialize]: a 64-bit value has at most eight bytes. *)
Fixpoint abs_bytes (fuel : nat) (absvalue : Z) : bytes :=
  match fuel with
  | O => []
  | S fuel =>
      if absvalue =? 0 then []
      else Z.land absvalue 0xff :: abs_bytes fuel (Z.shiftr absvalue 8)
  end.

(** [result.back() |= 0x80] *)
Fixpoint or_back (l : bytes) : bytes :=
  match l with
  | [] => []
  | [b] => [Z.lor b 0x80]
  | b :: l => b :: or_back l
  end.

Definition serialize (value : Z) : bytes :=
  if value =? 0 then []
  else
    let neg := value <? 0 in
    let result := abs_bytes 8 (Z.abs value) in
    if negb (Z.land (default 0 (last result)) 0x80 =? 0)
    then result ++ [if neg then 0x80 else 0]
    else if neg then or_back result
    else result.

(** ** Numbers survive the trip through bytes *)

(** A number below 2^k and a multiple of 2^k do not share bits. *)
Lemma lor_disjoint a b k : 0 <= k -> 0 <= a < 2 ^ k -> Z.lor a (Z.shiftl b k) = a + Z.shiftl b k.
Proof.
  intros Hk Ha. symmetry. rewrite <- Z.lxor_lor; [apply Z.add_nocarry_lxor|].
  all: apply Z.bits_inj'; intros i Hi; rewrite Z.land_spec, Z.bits_0, Z.shiftl_spec by lia.
  all: destruct (decide (i < k)) as [L|L];
    [rewrite (Z.testbit_neg_r b) by lia; apply andb_false_r|].
  all: rewrite <- (Z.mod_small a (2 ^ k)) by lia; rewrite Z.mod_pow2_bits_high by lia; done.
Qed.

Lemma le_val_cons b l : le_val (b :: l) = b + 256 * le_val l.
Proof. done. Qed.

Lemma le_val_snoc l b : le_val (l ++ [b]) = le_val l + 256 ^ Z.of_nat (length l) * b.
Proof.
  induction l as [|x l IH]; [unfold le_val; simpl; lia|]. cbn [app length]. rewrite !le_val_cons, IH, pow256_S. lia.
Qed.

Lemma set_vch_bits_val vch : bytes_ok vch -> set_vch_bits vch = le_val vch.
Proof.
  unfold set_vch_bits. intros H. induction vch as [|b vch IH] using rev_ind; [done|].
  apply Forall_app in H as [H1 H2]. rewrite imap_app, foldl_app, IH by done. cbn.
  pose proof (le_val_bound vch H1) as B. rewrite Nat.add_0_r.
  assert (2 ^ (8 * Z.of_nat (length vch)) = 256 ^ Z.of_nat (length vch)) as P
    by (rewrite Z.pow_mul_r by lia; done).
  rewrite lor_disjoint, Z.shiftl_mul_pow2, P, le_val_snoc by lia. lia.
Qed.

Lemma abs_bytes_spec fuel v : 0 <= v < 256 ^ Z.of_nat fuel ->
  le_val (abs_bytes fuel v) = v /\ bytes_ok (abs_bytes fuel v) /\
  (length (abs_bytes fuel v) <= fuel)%nat /\ (v <> 0 -> exists b, last (abs_bytes fuel v) = Some b /\ b <> 0).
Proof.
  revert v. induction fuel as [|fuel IH]; intros v Hv.
  { simpl in Hv. unfold le_val. cbn. repeat split; [lia|constructor|lia|lia]. }
  rewrite pow256_S in Hv. cbn [abs_bytes]. destruct (Z.eqb_spec v 0) as [->|Hz].
  { unfold le_val. cbn. repeat split; [constructor|lia|done]. }
  change 0xff with (Z.ones 8). rewrite Z.land_ones, Z.shiftr_div_pow2 by lia.
  change (2 ^ 8) with 256.
  destruct (IH (v / 256)) as (V & O & L & N); [Z.div_mod_to_equations; lia|].
  cbn [length]. rewrite le_val_cons, V. repeat split.
  - Z.div_mod_to_equations. lia.
  - constructor; [Z.div_mod_to_equations; lia|done].
  - lia.
  - intros _. destruct (decide (v / 256 = 0)) as [E|E].
    + rewrite E. exists (v mod 256). destruct fuel; cbn; (split; [done|]; Z.div_mod_to_equations; lia).
    + destruct (N E) as (b & Eb & Hb). exists b. by rewrite last_cons, Eb.
Qed.

(** The number of bytes of a value below 2^(8k-1): one for the sign bit at most. *)
Lemma abs_bytes_length fuel k v : 0 <= v < 256 ^ Z.of_nat k -> (k <= fuel)%nat ->
  (length (abs_bytes fuel v) <= k)%nat.
Proof.
  revert k v. induction fuel as [|fuel IH]; intros k v Hv Hk; [simpl; lia|].
  cbn [abs_bytes]. destruct (Z.eqb_spec v 0); [simpl; lia|].
  destruct k as [|k]; [simpl in Hv; lia|]. rewrite pow256_S in Hv. cbn [length].
  rewrite Z.shiftr_div_pow2 by lia. change (2 ^ 8) with 256.
  specialize (IH k (v / 256) ltac:(Z.div_mod_to_equations; lia) ltac:(lia)). lia.
Qed.

Lemma or_back_snoc l b : or_back (l ++ [b]) = l ++ [Z.lor b 0x80].
Proof. induction l as [|x l IH]; [done|]. cbn. rewrite IH. by destruct l. Qed.

(** Bytes by cases: finite checks on all of them at once. *)
Lemma byte_cases (P : Z -> bool) : forallb (fun n => P (Z.of_nat n)) (seq 0 256) = true ->
  forall b, 0 <= b < 256 -> P b = true.
Proof.
  intros H b Hb. rewrite forallb_forall in H. specialize (H (Z.to_nat b)).
  rewrite Z2Nat.id in H by lia. apply H, in_seq. lia.
Qed.

Lemma sign_bit b : 0 <= b < 256 -> negb (Z.land b 0x80 =? 0) = (128 <=? b).
Proof.
  intros Hb. apply eqb_prop. revert b Hb. apply byte_cases. by vm_compute.
Qed.

Lemma low_bits b : 0 <= b < 256 -> (Z.land b 0x7f =? 0) = ((b =? 0) || (b =? 128)).
Proof. intros Hb. apply eqb_prop. revert b Hb. apply byte_cases. by vm_compute. Qed.

Lemma set_sign b : 0 <= b < 128 -> Z.lor b 0x80 = b + 128.
Proof. intros Hb. apply (lor_disjoint b 1 7); lia. Qed.

(** Clearing the top bit. *)
Lemma ldiff_top a k : 0 <= k -> 0 <= a < 2 ^ k -> Z.ldiff (a + 2 ^ k) (2 ^ k) = a.
Proof.
  intros Hk Ha. pose proof (lor_disjoint a 1 k Hk Ha) as E. rewrite Z.shiftl_1_l in E.
  rewrite <- E. apply Z.bits_inj'. intros i Hi. rewrite Z.ldiff_spec, Z.lor_spec.
  destruct (decide (i = k)) as [-> | N].
  - rewrite Z.pow2_bits_true by lia. rewrite <- (Z.mod_small a (2 ^ k)) by lia.
    rewrite Z.mod_pow2_bits_high by lia. done.
  - rewrite Z.pow2_bits_false by lia. by rewrite orb_false_r, andb_true_r.
Qed.

Lemma pow_bytes (n : nat) : 256 ^ Z.of_nat n = 2 ^ (8 * Z.of_nat n).
Proof. rewrite Z.pow_mul_r by lia. done. Qed.

(** The value of bytes whose last one has its sign bit set, and of the others. *)
Lemma set_vch_neg l b : bytes_ok l -> 0 <= b < 128 ->
  set_vch (l ++ [b + 128]) = - (le_val l + 256 ^ Z.of_nat (length l) * b).
Proof.
  intros Hl Hb. unfold set_vch. rewrite last_snoc, sign_bit by lia.
  destruct (Z.leb_spec 128 (b + 128)); [|lia]. f_equal.
  rewrite set_vch_bits_val by (apply Forall_app; split; [done|]; repeat constructor; lia).
  rewrite le_val_snoc, length_app. cbn [length].
  pose proof (le_val_bound l Hl) as B. pose proof (pow256_pos (length l)).
  rewrite pow_bytes in *.
  replace (Z.shiftl 0x80 _) with (2 ^ (8 * Z.of_nat (length l) + 7)).
  2: { rewrite Z.shiftl_mul_pow2 by lia. rewrite Z.pow_add_r by lia. change 0x80 with (2 ^ 7).
       rewrite Z.mul_comm. do 3 f_equal. lia. }
  assert (2 ^ (8 * Z.of_nat (length l) + 7) = 2 ^ (8 * Z.of_nat (length l)) * 128) as E
    by (by rewrite Z.pow_add_r by lia).
  transitivity (Z.ldiff (le_val l + 2 ^ (8 * Z.of_nat (length l)) * b
      + 2 ^ (8 * Z.of_nat (length l) + 7)) (2 ^ (8 * Z.of_nat (length l) + 7))).
  - f_equal. rewrite E. lia.
  - apply ldiff_top; [lia|]. rewrite E. nia.
Qed.

Lemma set_vch_pos l b : bytes_ok l -> 0 <= b < 128 ->
  set_vch (l ++ [b]) = le_val l + 256 ^ Z.of_nat (length l) * b.
Proof.
  intros Hl Hb. unfold set_vch. rewrite last_snoc, sign_bit by lia.
  destruct (Z.leb_spec 128 b); [lia|].
  rewrite set_vch_bits_val by (apply Forall_app; split; [done|]; repeat constructor; lia).
  apply le_val_snoc.
Qed.

(** The encodings that [script_num] takes as minimal: the last byte is not only a sign,
    unless the byte before it uses the sign bit. *)
Definition minimal_num (vch : bytes) : Prop :=
  vch = [] \/
  exists l b, vch = l ++ [b] /\ ((b <> 0 /\ b <> 128) \/ exists l' c, l = l' ++ [c] /\ 128 <= c).

Lemma script_num_minimal vch m k : bytes_ok vch -> minimal_num vch -> (length vch <= k)%nat ->
  script_num vch m k = Some (set_vch vch).
Proof.
  intros Hok Hmin L. unfold script_num. destruct (Nat.ltb_spec k (length vch)); [lia|].
  destruct Hmin as [-> | (l & b & -> & Hmin)]; [by rewrite andb_false_r|].
  apply Forall_app in Hok as [Hl Hb]. inversion Hb as [|? ? Hb' _]; subst.
  rewrite last_snoc, low_bits by done.
  destruct Hmin as [[N0 N1]|(l' & c & -> & Hc)].
  - destruct (Z.eqb_spec b 0), (Z.eqb_spec b 128); try done. cbn. by rewrite andb_false_r.
  - apply Forall_app in Hl as [_ Hc']. inversion Hc'; subst.
    rewrite !length_app. cbn [length]. rewrite <- app_assoc.
    replace (length l' + 1 + 1 - 2)%nat with (length l') by lia.
    cbn [app]. rewrite list_lookup_middle by done. rewrite sign_bit by done.
    destruct (Z.leb_spec 128 c); [|lia]. destruct (Nat.ltb_spec 1 (length l' + 1 + 1)); [|lia].
    cbn. rewrite orb_true_r. cbn. by rewrite andb_false_r.
Qed.

Lemma abs_bytes_le_val fuel l : bytes_ok l -> (length l <= fuel)%nat ->
  (forall b, last l = Some b -> b <> 0) -> abs_bytes fuel (le_val l) = l.
Proof.
  revert fuel. induction l as [|b l IH]; intros fuel Hok L N.
  { by destruct fuel. }
  inversion Hok as [|? ? Hb Hl]; subst. destruct fuel as [|fuel]; [simpl in L; lia|].
  rewrite le_val_cons. pose proof (le_val_bound l Hl) as B. cbn [abs_bytes].
  assert (0 < b + 256 * le_val l) as P.
  { destruct (decide (l = [])) as [-> | Hne]; [specialize (N b eq_refl); unfold le_val; simpl; lia|].
    assert (le_val l <> 0); [|lia]. intros E.
    destruct (exists_last Hne) as (l' & c & ->). rewrite le_val_snoc in E.
    apply Forall_app in Hl as [Hl' Hc]. inversion Hc; subst.
    pose proof (le_val_bound l' Hl'). pose proof (pow256_pos (length l')).
    apply (N c); [by rewrite app_comm_cons, last_snoc|]. nia. }
  destruct (Z.eqb_spec (b + 256 * le_val l) 0); [lia|].
  change 0xff with (Z.ones 8). rewrite Z.land_ones, Z.shiftr_div_pow2 by lia.
  change (2 ^ 8) with 256. f_equal; [Z.div_mod_to_equations; lia|].
  replace ((b + 256 * le_val l) / 256) with (le_val l) by (Z.div_mod_to_equations; lia).
  apply IH; [done|simpl in L; lia|]. intros c E. apply N. by rewrite last_cons, E.
Qed.

(** A value other than 0 as its bytes: the last one is not 0. *)
Lemma abs_bytes_split v : 0 < v < 2 ^ 63 -> exists l b,
  abs_bytes 8 v = l ++ [b] /\ bytes_ok l /\ 0 < b < 256 /\ (length l < 8)%nat /\
  v = le_val l + 256 ^ Z.of_nat (length l) * b.
Proof.
  intros Hv. destruct (abs_bytes_spec 8 v) as (V & O & L & N); [simpl; lia|].
  destruct (N ltac:(lia)) as (b & Eb & Hb). apply last_Some in Eb as [l E].
  rewrite E in *. rewrite le_val_snoc in V. rewrite length_app in L. simpl in L.
  apply Forall_app in O as [Hl Hb']. inversion Hb'; subst. exists l, b. repeat split; auto; lia.
Qed.

Lemma serialize_spec n : - 2 ^ 63 < n < 2 ^ 63 ->
  bytes_ok (serialize n) /\ minimal_num (serialize n) /\ set_vch (serialize n) = n.
Proof.
  intros Hn. unfold serialize. destruct (Z.eqb_spec n 0) as [-> | Hz].
  { repeat split; [constructor|by left]. }
  destruct (abs_bytes_split (Z.abs n)) as (l & b & -> & Hl & Hb & Ll & V); [lia|].
  rewrite last_snoc. cbn [default from_option id]. rewrite sign_bit by lia.
  assert (bytes_ok (l ++ [b])) as Hlb by (apply Forall_app; split; [done|]; repeat constructor; lia).
  destruct (Z.leb_spec 128 b).
  - split; [apply Forall_app; split; [done|]; repeat constructor; destruct (n <? 0); lia|].
    split; [right; exists (l ++ [b]), (if n <? 0 then 128 else 0); split; [done|]; right;
            exists l, b; split; [done|lia]|].
    pose proof (set_vch_neg (l ++ [b]) 0 Hlb ltac:(lia)) as N.
    pose proof (set_vch_pos (l ++ [b]) 0 Hlb ltac:(lia)) as P. rewrite le_val_snoc in *.
    destruct (Z.ltb_spec n 0); [change 0x80 with (0 + 128)|]; rewrite ?N, ?P; lia.
  - destruct (Z.ltb_spec n 0).
    + rewrite or_back_snoc, set_sign by lia.
      split; [apply Forall_app; split; [done|]; repeat constructor; lia|].
      split; [right; exists l, (b + 128); split; [done|]; left; lia|].
      rewrite set_vch_neg by (done || lia). lia.
    + split; [done|]. split; [right; exists l, b; split; [done|]; left; lia|].
      rewrite set_vch_pos by (done || lia). lia.
Qed.

Lemma serialize_length n (k : nat) : (1 <= k <= 8)%nat -> Z.abs n < 2 ^ (8 * Z.of_nat k - 1) ->
  (length (serialize n) <= k)%nat.
Proof.
  intros Hk Hn. unfold serialize. destruct (Z.eqb_spec n 0) as [-> | Hz]; [simpl; lia|].
  assert (2 ^ (8 * Z.of_nat k - 1) <= 2 ^ 63) by (apply Z.pow_le_mono_r; lia).
  assert (2 ^ (8 * Z.of_nat k - 1) <= 256 ^ Z.of_nat k)
    by (rewrite pow_bytes; apply Z.pow_le_mono_r; lia).
  pose proof (abs_bytes_length 8 k (Z.abs n) ltac:(lia) ltac:(lia)) as L.
  destruct (abs_bytes_split (Z.abs n)) as (l & b & E & Hl & Hb & Ll & V); [lia|].
  rewrite E in *. rewrite last_snoc. cbn [default from_option id]. rewrite sign_bit by lia.
  rewrite length_app in L. simpl in L. destruct (Z.leb_spec 128 b) as [Hb'|].
  - rewrite !length_app. cbn [length]. pose proof (le_val_bound l Hl) as B. rewrite pow_bytes in *.
    assert (2 ^ (8 * Z.of_nat (length l) + 7) < 2 ^ (8 * Z.of_nat k - 1)) as P.
    { rewrite Z.pow_add_r by lia. change (2 ^ 7) with 128. nia. }
    apply Z.pow_lt_mono_r_iff in P; lia.
  - destruct (n <? 0); [rewrite or_back_snoc|]; rewrite length_app; simpl; lia.
Qed.

(** [serialize] of a value given by its bytes. *)
Lemma serialize_bytes l b (neg : bool) : bytes_ok l -> 0 < b < 256 -> (length l < 8)%nat ->
  serialize (if neg then - le_val (l ++ [b]) else le_val (l ++ [b])) =
    if 128 <=? b then l ++ [b; if neg then 128 else 0] else l ++ [if neg then b + 128 else b].
Proof.
  intros Hl Hb L.
  assert (0 < le_val (l ++ [b])) as P.
  { rewrite le_val_snoc. pose proof (le_val_bound l Hl). pose proof (pow256_pos (length l)). nia. }
  assert (abs_bytes 8 (le_val (l ++ [b])) = l ++ [b]) as E.
  { apply abs_bytes_le_val; [apply Forall_app; split; [done|]; repeat constructor; lia|
      rewrite length_app; simpl; lia|]. intros x. rewrite last_snoc. intros. simplify_eq. lia. }
  unfold serialize. destruct neg.
  - rewrite Z.abs_opp, Z.abs_eq, E, last_snoc by lia. cbn [default from_option id].
    rewrite sign_bit, or_back_snoc by lia.
    destruct (Z.eqb_spec (- le_val (l ++ [b])) 0), (Z.ltb_spec (- le_val (l ++ [b])) 0); try lia.
    destruct (Z.leb_spec 128 b); [by rewrite <- app_assoc|]. by rewrite set_sign by lia.
  - rewrite Z.abs_eq, E, last_snoc by lia. cbn [default from_option id].
    rewrite sign_bit by lia.
    destruct (Z.eqb_spec (le_val (l ++ [b])) 0), (Z.ltb_spec (le_val (l ++ [b])) 0); try lia.
    destruct (Z.leb_spec 128 b); [by rewrite <- app_assoc|done].
Qed.

Lemma serialize_set_vch vch : bytes_ok vch -> minimal_num vch -> (length vch <= 8)%nat ->
  serialize (set_vch vch) = vch.
Proof.
  intros Hok [-> | (l & b & -> & M)] L; [done|]. apply Forall_app in Hok as [Hl Hb].
  inversion Hb as [|? ? Hb' _]; subst. rewrite length_app in L. simpl in L.
  destruct (decide (b = 0 \/ b = 128)) as [Eb|Nb].
  - destruct M as [[N0 N1]|(l' & c & -> & Hc)]; [lia|].
    pose proof Hl as [Hl' Hc']%Forall_app. inversion Hc' as [|? ? Hc'' _]; subst.
    rewrite length_app in L. simpl in L.
    pose proof (serialize_bytes l' c (128 <=? b) Hl' ltac:(lia) ltac:(lia)) as S.
    rewrite (proj2 (Z.leb_le 128 c)) in S by lia.
    destruct Eb as [-> | ->]; cbn in S.
    + rewrite set_vch_pos by (done || lia). rewrite <- app_assoc. cbn [app]. rewrite <- S. f_equal. lia.
    + change 128 with (0 + 128) at 1. rewrite set_vch_neg by (done || lia).
      rewrite <- app_assoc. cbn [app]. rewrite <- S. f_equal. lia.
  - destruct (decide (b < 128)).
    + pose proof (serialize_bytes l b false Hl ltac:(lia) ltac:(lia)) as S.
      rewrite (proj2 (Z.leb_gt 128 b)) in S by lia. rewrite <- S at 2. f_equal.
      rewrite set_vch_pos, le_val_snoc by (done || lia). lia.
    + pose proof (serialize_bytes l (b - 128) true Hl ltac:(lia) ltac:(lia)) as S.
      rewrite (proj2 (Z.leb_gt 128 (b - 128))) in S by lia.
      replace (b - 128 + 128) with b in S by lia. rewrite <- S at 2. f_equal.
      replace b with (b - 128 + 128) at 1 by lia.
      rewrite set_vch_neg, le_val_snoc by (done || lia). lia.
Qed.

(** The numbers of the script language: a number of at most [k] bytes is written by
    [serialize] in an encoding that the constructor accepts as minimal and reads back,
    with or without the minimality rule; and the encodings accepted under that rule are
    exactly the ones [serialize] writes, so a number has one encoding. *)
Theorem script_num_roundtrip (k : nat) : (1 <= k <= 8)%nat ->
  (forall n m, Z.abs n < 2 ^ (8 * Z.of_nat k - 1) -> script_num (serialize n) m k = Some n) /\
  (forall vch n, bytes_ok vch -> script_num vch true k = Some n -> serialize n = vch).
Proof.
  intros Hk. split.
  - intros n m Hn. assert (2 ^ (8 * Z.of_nat k - 1) <= 2 ^ 63) by (apply Z.pow_le_mono_r; lia).
    destruct (serialize_spec n ltac:(lia)) as (O & M & V).
    rewrite script_num_minimal by (by auto using serialize_length). by rewrite V.
  - intros vch n Hok E. unfold script_num in E.
    destruct (Nat.ltb_spec k (length vch)); [done|].
    destruct (andb _ _) eqn:M; [done|]. simplify_eq. apply serialize_set_vch; [done| |lia].
    cbn in M. apply negb_false_iff in M. destruct (last vch) as [b|] eqn:Lb.
    2: { left. by apply last_None. }
    right. pose proof Lb as [l ->]%last_Some. exists l, b. split; [done|].
    pose proof Hok as [Hl Hb]%Forall_app. inversion Hb as [|? ? Hb' _]; subst.
    rewrite low_bits in M by done. apply orb_true_iff in M as [M|M].
    { left. destruct (Z.eqb_spec b 0), (Z.eqb_spec b 128); done. }
    right. destruct l as [|c l _] using rev_ind; [done|]. exists l, c. split; [done|].
    rewrite !length_app in M. cbn [length] in M. rewrite <- app_assoc in M. cbn [app] in M.
    rewrite list_lookup_middle in M by lia. bprop.
    apply Forall_app in Hl as [_ Hc]. inversion Hc; subst.
    match goal with H : (_ =? _) = false |- _ => apply (f_equal negb) in H; rewrite sign_bit in H by done end.
    by apply Z.leb_le.
Qed.

Lemma script_num_roundtrip_witness : script_num (serialize (-255)) true 4 = Some (-255).
Proof. apply (proj1 (script_num_roundtrip 4 ltac:(lia))). by vm_compute. Defined.
