(* ===== verification/Interp.v ===== *)
(** * The script interpreter of Bitcoin Core (src/bitcoin/src/script/interpreter.cpp)

    [EvalScript], [VerifyWitnessProgram] and [VerifyScript], every opcode included. A
    stack is a list with its top first. The signature checker is the class
    [BaseSignatureChecker] of interpreter.h. *)
From S2P Require Import Prelude CoreSha256 CoreHash Secp Ecdsa CScript.
Local Open Scope Z_scope.

(** ** Errors *)
Inductive ScriptError :=
  | SCRIPT_ERR_UNKNOWN_ERROR | SCRIPT_ERR_EVAL_FALSE | SCRIPT_ERR_OP_RETURN
  | SCRIPT_ERR_SCRIPT_SIZE | SCRIPT_ERR_PUSH_SIZE | SCRIPT_ERR_OP_COUNT | SCRIPT_ERR_STACK_SIZE
  | SCRIPT_ERR_SIG_COUNT | SCRIPT_ERR_PUBKEY_COUNT
  | SCRIPT_ERR_VERIFY | SCRIPT_ERR_EQUALVERIFY | SCRIPT_ERR_CHECKMULTISIGVERIFY
  | SCRIPT_ERR_CHECKSIGVERIFY | SCRIPT_ERR_NUMEQUALVERIFY
  | SCRIPT_ERR_BAD_OPCODE | SCRIPT_ERR_DISABLED_OPCODE | SCRIPT_ERR_INVALID_STACK_OPERATION
  | SCRIPT_ERR_INVALID_ALTSTACK_OPERATION | SCRIPT_ERR_UNBALANCED_CONDITIONAL
  | SCRIPT_ERR_NEGATIVE_LOCKTIME | SCRIPT_ERR_UNSATISFIED_LOCKTIME
  | SCRIPT_ERR_SIG_HASHTYPE | SCRIPT_ERR_SIG_DER | SCRIPT_ERR_MINIMALDATA | SCRIPT_ERR_SIG_PUSHONLY
  | SCRIPT_ERR_SIG_HIGH_S | SCRIPT_ERR_SIG_NULLDUMMY | SCRIPT_ERR_PUBKEYTYPE
  | SCRIPT_ERR_CLEANSTACK | SCRIPT_ERR_MINIMALIF | SCRIPT_ERR_SIG_NULLFAIL
  | SCRIPT_ERR_DISCOURAGE_UPGRADABLE_NOPS | SCRIPT_ERR_DISCOURAGE_UPGRADABLE_WITNESS_PROGRAM
  | SCRIPT_ERR_WITNESS_PROGRAM_WRONG_LENGTH | SCRIPT_ERR_WITNESS_PROGRAM_WITNESS_EMPTY
  | SCRIPT_ERR_WITNESS_PROGRAM_MISMATCH | SCRIPT_ERR_WITNESS_MALLEATED
  | SCRIPT_ERR_WITNESS_MALLEATED_P2SH | SCRIPT_ERR_WITNESS_UNEXPECTED
  | SCRIPT_ERR_WITNESS_PUBKEYTYPE | SCRIPT_ERR_OP_CODESEPARATOR | SCRIPT_ERR_SIG_FINDANDDELETE.

(** A computation that goes on or ends the script with an error; the exceptions that
    [EvalScript] catches are [SCRIPT_ERR_UNKNOWN_ERROR]. *)
Inductive result (A : Type) := Next (x : A) | Fail (e : ScriptError).
Arguments Next {A} x.
Arguments Fail {A} e.

Definition result_bind {A B} (m : result A) (k : A -> result B) : result B :=
  match m with
  | Next x => k x
  | Fail e => Fail e
  end.
Declare Scope script_scope.
Notation "'let!' x := m 'in' k" := (result_bind m (fun x => k))
  (at level 100, x binder, m at level 100, k at level 200, right associativity) : script_scope.
Notation "'require!' b , e ; k" := (if b then k else Fail e)
  (at level 100, b at level 99, e at level 99, k at level 200, right associativity) : script_scope.
Local Open Scope script_scope.

(** ** Flags *)
Definition SCRIPT_VERIFY_P2SH : Z := 2 ^ 0.
Definition SCRIPT_VERIFY_STRICTENC : Z := 2 ^ 1.
Definition SCRIPT_VERIFY_DERSIG : Z := 2 ^ 2.
Definition SCRIPT_VERIFY_LOW_S : Z := 2 ^ 3.
Definition SCRIPT_VERIFY_NULLDUMMY : Z := 2 ^ 4.
Definition SCRIPT_VERIFY_SIGPUSHONLY : Z := 2 ^ 5.
Definition SCRIPT_VERIFY_MINIMALDATA : Z := 2 ^ 6.
Definition SCRIPT_VERIFY_DISCOURAGE_UPGRADABLE_NOPS : Z := 2 ^ 7.
Definition SCRIPT_VERIFY_CLEANSTACK : Z := 2 ^ 8.
Definition SCRIPT_VERIFY_CHECKLOCKTIMEVERIFY : Z := 2 ^ 9.
Definition SCRIPT_VERIFY_CHECKSEQUENCEVERIFY : Z := 2 ^ 10.
Definition SCRIPT_VERIFY_WITNESS : Z := 2 ^ 11.
Definition SCRIPT_VERIFY_DISCOURAGE_UPGRADABLE_WITNESS_PROGRAM : Z := 2 ^ 12.
Definition SCRIPT_VERIFY_MINIMALIF : Z := 2 ^ 13.
Definition SCRIPT_VERIFY_NULLFAIL : Z := 2 ^ 14.
Definition SCRIPT_VERIFY_WITNESS_PUBKEYTYPE : Z := 2 ^ 15.
Definition SCRIPT_VERIFY_CONST_SCRIPTCODE : Z := 2 ^ 16.

(** [(flags & f) != 0] *)
Definition has (flags f : Z) : bool := negb (Z.land flags f =? 0).

Inductive SigVersion := BASE | WITNESS_V0.
#[global] Instance SigVersion_eq_dec : EqDecision SigVersion.
Proof. solve_decision. Defined.

(** ** Interfaces *)
Class BaseSignatureChecker := {
  CheckSig : bytes -> bytes -> bytes -> SigVersion -> bool;
  CheckLockTime : Z -> bool;
  CheckSequence : Z -> bool
}.

(** ** Encodings *)

Fixpoint CastToBool (vch : bytes) : bool :=
  match vch with
  | [] => false
  | b :: vch' =>
      if negb (b =? 0) then
        match vch' with
        | [] => negb (b =? 0x80)
        | _ => true
        end
      else CastToBool vch'
  end.

Definition IsCompressedOrUncompressedPubKey (vchPubKey : bytes) : bool :=
  if (length vchPubKey <? 33)%nat then false
  else match vchPubKey with
       | 0x04 :: _ => (length vchPubKey =? 65)%nat
       | 0x02 :: _ | 0x03 :: _ => (length vchPubKey =? 33)%nat
       | _ => false
       end.

Definition IsCompressedPubKey (vchPubKey : bytes) : bool :=
  if negb (length vchPubKey =? 33)%nat then false
  else match vchPubKey with
       | 0x02 :: _ | 0x03 :: _ => true
       | _ => false
       end.

(** [sig[i]]; the code only indexes inside the signature. *)
Definition at_ (sig : bytes) (i : Z) : Z := default 0 (sig !! Z.to_nat i).

Definition IsValidSignatureEncoding (sig : bytes) : bool :=
  let len := Z.of_nat (length sig) in
  if len <? 9 then false
  else if 73 <? len then false
  else if negb (at_ sig 0 =? 0x30) then false
  else if negb (at_ sig 1 =? len - 3) then false
  else
    let lenR := at_ sig 3 in
    if len <=? 5 + lenR then false
    else
      let lenS := at_ sig (5 + lenR) in
      if negb (lenR + lenS + 7 =? len) then false
      else if negb (at_ sig 2 =? 0x02) then false
      else if lenR =? 0 then false
      else if negb (Z.land (at_ sig 4) 0x80 =? 0) then false
      else if (1 <? lenR) && (at_ sig 4 =? 0x00) && (Z.land (at_ sig 5) 0x80 =? 0) then false
      else if negb (at_ sig (lenR + 4) =? 0x02) then false
      else if lenS =? 0 then false
      else if negb (Z.land (at_ sig (lenR + 6)) 0x80 =? 0) then false
      else if (1 <? lenS) && (at_ sig (lenR + 6) =? 0x00)
              && (Z.land (at_ sig (lenR + 7)) 0x80 =? 0) then false
      else true.

Definition SIGHASH_NONE : Z := 2.
Definition SIGHASH_SINGLE : Z := 3.
Definition SIGHASH_ANYONECANPAY : Z := 0x80.

Definition IsDefinedHashtypeSignature (vchSig : bytes) : bool :=
  match last vchSig with
  | None => false
  | Some b =>
      let nHashType := Z.land b (0xff - SIGHASH_ANYONECANPAY) in
      negb ((nHashType <? 1) || (SIGHASH_SINGLE <? nHashType))
  end.

Section Interpreter.
Context `{Signatures}.

Definition IsLowDERSignature (vchSig : bytes) : result unit :=
  require! IsValidSignatureEncoding vchSig, SCRIPT_ERR_SIG_DER;
  require! CheckLowS (take (length vchSig - 1) vchSig), SCRIPT_ERR_SIG_HIGH_S;
  Next tt.

Definition CheckSignatureEncoding (vchSig : bytes) (flags : Z) : result unit :=
  if (length vchSig =? 0)%nat then Next tt
  else if has flags (Z.lor (Z.lor SCRIPT_VERIFY_DERSIG SCRIPT_VERIFY_LOW_S) SCRIPT_VERIFY_STRICTENC)
          && negb (IsValidSignatureEncoding vchSig) then Fail SCRIPT_ERR_SIG_DER
  else
    match (if has flags SCRIPT_VERIFY_LOW_S then IsLowDERSignature vchSig else Next tt) with
    | Fail e => Fail e
    | Next _ =>
        require! negb (has flags SCRIPT_VERIFY_STRICTENC && negb (IsDefinedHashtypeSignature vchSig)),
          SCRIPT_ERR_SIG_HASHTYPE;
        Next tt
    end.

Definition CheckPubKeyEncoding (vchPubKey : bytes) (flags : Z) (sigversion : SigVersion) : result unit :=
  require! negb (has flags SCRIPT_VERIFY_STRICTENC
                 && negb (IsCompressedOrUncompressedPubKey vchPubKey)), SCRIPT_ERR_PUBKEYTYPE;
  require! negb (has flags SCRIPT_VERIFY_WITNESS_PUBKEYTYPE && bool_decide (sigversion = WITNESS_V0)
                 && negb (IsCompressedPubKey vchPubKey)), SCRIPT_ERR_WITNESS_PUBKEYTYPE;
  Next tt.

Definition CheckMinimalPush (data : bytes) (opcode : Z) : bool :=
  match data with
  | [] => opcode =? 0
  | _ =>
      let size := Z.of_nat (length data) in
      if (size =? 1) && (1 <=? at_ data 0) && (at_ data 0 <=? 16) then false
      else if (size =? 1) && (at_ data 0 =? 0x81) then false
      else if size <=? 75 then opcode =? size
      else if size <=? 255 then opcode =? v_PUSHDATA1
      else if size <=? 65535 then opcode =? v_PUSHDATA2
      else true
  end.

(** ** Removing a signature from a script *)

(** The inner loop: skip occurrences of [b] at [pc]. *)
Fixpoint skip_matches (fuel : nat) (b pc : bytes) (nFound : Z) : bytes * Z :=
  match fuel with
  | O => (pc, nFound)
  | S fuel =>
      if (length b <=? length pc)%nat && bool_decide (take (length b) pc = b)
      then skip_matches fuel b (drop (length b) pc) (nFound + 1)
      else (pc, nFound)
  end.

(** The outer loop: [pc2] and [pc] as in the code, [res] what has been copied. *)
Fixpoint find_loop (fuel : nat) (b pc2 pc res : bytes) (nFound : Z) : bytes * bytes * Z :=
  let res := res ++ take (length pc2 - length pc) pc2 in
  let '(pc, nFound) := skip_matches (length pc) b pc nFound in
  let pc2 := pc in
  match fuel, GetScriptOp pc with
  | S fuel, (Some _, pc) => find_loop fuel b pc2 pc res nFound
  | _, _ => (res, pc2, nFound)
  end.

(** The number of occurrences and the script without them. *)
Definition FindAndDelete (script b : bytes) : Z * bytes :=
  match b with
  | [] => (0, script)
  | _ =>
      let '(res, pc2, nFound) := find_loop (length script) b script script [] 0 in
      (nFound, if 0 <? nFound then res ++ pc2 else script)
  end.

(** ** The machine *)

Record machine := Machine {
  stack : list bytes;
  altstack : list bytes;
  vfExec : list bool;
  nOpCount : Z;
  codehash : bytes  (** from [pbegincodehash] to the end *)
}.

Definition set_stack (s : list bytes) (m : machine) : machine :=
  Machine s (altstack m) (vfExec m) (nOpCount m) (codehash m).
Definition set_altstack (s : list bytes) (m : machine) : machine :=
  Machine (stack m) s (vfExec m) (nOpCount m) (codehash m).
Definition set_vfExec (v : list bool) (m : machine) : machine :=
  Machine (stack m) (altstack m) v (nOpCount m) (codehash m).
Definition set_nOpCount (n : Z) (m : machine) : machine :=
  Machine (stack m) (altstack m) (vfExec m) n (codehash m).
Definition set_codehash (c : bytes) (m : machine) : machine :=
  Machine (stack m) (altstack m) (vfExec m) (nOpCount m) c.

Definition vchFalse : bytes := [].
Definition vchTrue : bytes := [1].
Definition vch_bool (b : bool) : bytes := if b then vchTrue else vchFalse.

(** [CScriptNum(vch, fRequireMinimal, size)] inside [EvalScript]. *)
Definition num_of (flags : Z) (vch : bytes) (size : nat) : result Z :=
  match script_num vch (has flags SCRIPT_VERIFY_MINIMALDATA) size with
  | Some n => Next n
  | None => Fail SCRIPT_ERR_UNKNOWN_ERROR
  end.

Definition bad_stack {A} : result A := Fail SCRIPT_ERR_INVALID_STACK_OPERATION.

(** ** Opcodes

    One definition per group of cases of the switch, in its order. *)
Context `{BaseSignatureChecker}.

Definition SEQUENCE_LOCKTIME_DISABLE_FLAG : Z := 2 ^ 31.

Definition op_checklocktimeverify (flags : Z) (m : machine) : result machine :=
  if negb (has flags SCRIPT_VERIFY_CHECKLOCKTIMEVERIFY) then Next m
  else match stack m with
       | [] => bad_stack
       | vch :: _ =>
           let! nLockTime := num_of flags vch 5 in
           require! negb (nLockTime <? 0), SCRIPT_ERR_NEGATIVE_LOCKTIME;
           require! CheckLockTime nLockTime, SCRIPT_ERR_UNSATISFIED_LOCKTIME;
           Next m
       end.

Definition op_checksequenceverify (flags : Z) (m : machine) : result machine :=
  if negb (has flags SCRIPT_VERIFY_CHECKSEQUENCEVERIFY) then Next m
  else match stack m with
       | [] => bad_stack
       | vch :: _ =>
           let! nSequence := num_of flags vch 5 in
           require! negb (nSequence <? 0), SCRIPT_ERR_NEGATIVE_LOCKTIME;
           if has nSequence SEQUENCE_LOCKTIME_DISABLE_FLAG then Next m
           else require! CheckSequence nSequence, SCRIPT_ERR_UNSATISFIED_LOCKTIME; Next m
       end.

Definition op_upgradable_nop (flags : Z) (m : machine) : result machine :=
  require! negb (has flags SCRIPT_VERIFY_DISCOURAGE_UPGRADABLE_NOPS),
    SCRIPT_ERR_DISCOURAGE_UPGRADABLE_NOPS;
  Next m.

Definition op_if (flags : Z) (sigversion : SigVersion) (fExec notif : bool) (m : machine)
    : result machine :=
  if fExec then
    match stack m with
    | [] => Fail SCRIPT_ERR_UNBALANCED_CONDITIONAL
    | vch :: s =>
        require! negb (bool_decide (sigversion = WITNESS_V0) && has flags SCRIPT_VERIFY_MINIMALIF
                       && ((1 <? length vch)%nat
                           || (length vch =? 1)%nat && negb (at_ vch 0 =? 1))),
          SCRIPT_ERR_MINIMALIF;
        let fValue := if notif then negb (CastToBool vch) else CastToBool vch in
        Next (set_vfExec (fValue :: vfExec m) (set_stack s m))
    end
  else Next (set_vfExec (false :: vfExec m) m).

Definition op_else (m : machine) : result machine :=
  match vfExec m with
  | [] => Fail SCRIPT_ERR_UNBALANCED_CONDITIONAL
  | b :: v => Next (set_vfExec (negb b :: v) m)
  end.

Definition op_endif (m : machine) : result machine :=
  match vfExec m with
  | [] => Fail SCRIPT_ERR_UNBALANCED_CONDITIONAL
  | _ :: v => Next (set_vfExec v m)
  end.

Definition op_verify (m : machine) : result machine :=
  match stack m with
  | [] => bad_stack
  | vch :: s => require! CastToBool vch, SCRIPT_ERR_VERIFY; Next (set_stack s m)
  end.

Definition op_toaltstack (m : machine) : result machine :=
  match stack m with
  | [] => bad_stack
  | vch :: s => Next (set_altstack (vch :: altstack m) (set_stack s m))
  end.

Definition op_fromaltstack (m : machine) : result machine :=
  match altstack m with
  | [] => Fail SCRIPT_ERR_INVALID_ALTSTACK_OPERATION
  | vch :: a => Next (set_stack (vch :: stack m) (set_altstack a m))
  end.

(** [OP_PICK] and [OP_ROLL] *)
Definition op_pick (flags : Z) (roll : bool) (s : list bytes) : result (list bytes) :=
  match s with
  | vn :: s =>
      require! (1 <=? length s)%nat, SCRIPT_ERR_INVALID_STACK_OPERATION;
      let! n := num_of flags vn nDefaultMaxNumSize in
      let n := getint n in
      require! negb ((n <? 0) || (Z.of_nat (length s) <=? n)), SCRIPT_ERR_INVALID_STACK_OPERATION;
      match s !! Z.to_nat n with
      | Some vch =>
          Next (vch :: if roll then take (Z.to_nat n) s ++ drop (S (Z.to_nat n)) s else s)
      | None => Fail SCRIPT_ERR_UNKNOWN_ERROR
      end
  | [] => bad_stack
  end.

(** The opcodes that rearrange the stack. *)
Definition op_stack (flags : Z) (op : opcodetype) (s : list bytes) : result (list bytes) :=
  match op with
  | OP_2DROP => match s with _ :: _ :: s => Next s | _ => bad_stack end
  | OP_2DUP => match s with v2 :: v1 :: _ => Next (v2 :: v1 :: s) | _ => bad_stack end
  | OP_3DUP =>
      match s with v3 :: v2 :: v1 :: _ => Next (v3 :: v2 :: v1 :: s) | _ => bad_stack end
  | OP_2OVER =>
      match s with _ :: _ :: v2 :: v1 :: _ => Next (v2 :: v1 :: s) | _ => bad_stack end
  | OP_2ROT =>
      match s with
      | v6 :: v5 :: v4 :: v3 :: v2 :: v1 :: s => Next (v2 :: v1 :: v6 :: v5 :: v4 :: v3 :: s)
      | _ => bad_stack
      end
  | OP_2SWAP =>
      match s with
      | v4 :: v3 :: v2 :: v1 :: s => Next (v2 :: v1 :: v4 :: v3 :: s)
      | _ => bad_stack
      end
  | OP_IFDUP =>
      match s with
      | vch :: _ => Next (if CastToBool vch then vch :: s else s)
      | [] => bad_stack
      end
  | OP_DEPTH => Next (serialize (Z.of_nat (length s)) :: s)
  | OP_DROP => match s with _ :: s => Next s | [] => bad_stack end
  | OP_DUP => match s with vch :: _ => Next (vch :: s) | [] => bad_stack end
  | OP_NIP => match s with v2 :: _ :: s => Next (v2 :: s) | _ => bad_stack end
  | OP_OVER => match s with _ :: v1 :: _ => Next (v1 :: s) | _ => bad_stack end
  | OP_PICK => op_pick flags false s
  | OP_ROLL => op_pick flags true s
  | OP_ROT => match s with v3 :: v2 :: v1 :: s => Next (v1 :: v3 :: v2 :: s) | _ => bad_stack end
  | OP_SWAP => match s with v2 :: v1 :: s => Next (v1 :: v2 :: s) | _ => bad_stack end
  | OP_TUCK => match s with v2 :: v1 :: s => Next (v2 :: v1 :: v2 :: s) | _ => bad_stack end
  | OP_SIZE =>
      match s with
      | vch :: _ => Next (serialize (Z.of_nat (length vch)) :: s)
      | [] => bad_stack
      end
  | _ => Fail SCRIPT_ERR_BAD_OPCODE
  end.

Definition op_equal (verify : bool) (s : list bytes) : result (list bytes) :=
  match s with
  | v2 :: v1 :: s =>
      let fEqual := bool_decide (v1 = v2) in
      if verify then require! fEqual, SCRIPT_ERR_EQUALVERIFY; Next s
      else Next (vch_bool fEqual :: s)
  | _ => bad_stack
  end.

Definition b2z (b : bool) : Z := if b then 1 else 0.

(** The numeric opcodes. Operands have at most four bytes, so no 64-bit result wraps. *)
Definition op_unary (flags : Z) (op : opcodetype) (s : list bytes) : result (list bytes) :=
  match s with
  | vch :: s =>
      let! bn := num_of flags vch nDefaultMaxNumSize in
      let! bn := match op with
                 | OP_1ADD => Next (bn + 1)
                 | OP_1SUB => Next (bn - 1)
                 | OP_NEGATE => Next (- bn)
                 | OP_ABS => Next (if bn <? 0 then - bn else bn)
                 | OP_NOT => Next (b2z (bn =? 0))
                 | OP_0NOTEQUAL => Next (b2z (negb (bn =? 0)))
                 | _ => Fail SCRIPT_ERR_BAD_OPCODE
                 end in
      Next (serialize bn :: s)
  | [] => bad_stack
  end.

Definition op_binary (flags : Z) (op : opcodetype) (s : list bytes) : result (list bytes) :=
  match s with
  | v2 :: v1 :: s =>
      let! bn1 := num_of flags v1 nDefaultMaxNumSize in
      let! bn2 := num_of flags v2 nDefaultMaxNumSize in
      let! bn := match op with
                 | OP_ADD => Next (bn1 + bn2)
                 | OP_SUB => Next (bn1 - bn2)
                 | OP_BOOLAND => Next (b2z (negb (bn1 =? 0) && negb (bn2 =? 0)))
                 | OP_BOOLOR => Next (b2z (negb (bn1 =? 0) || negb (bn2 =? 0)))
                 | OP_NUMEQUAL | OP_NUMEQUALVERIFY => Next (b2z (bn1 =? bn2))
                 | OP_NUMNOTEQUAL => Next (b2z (negb (bn1 =? bn2)))
                 | OP_LESSTHAN => Next (b2z (bn1 <? bn2))
                 | OP_GREATERTHAN => Next (b2z (bn2 <? bn1))
                 | OP_LESSTHANOREQUAL => Next (b2z (bn1 <=? bn2))
                 | OP_GREATERTHANOREQUAL => Next (b2z (bn2 <=? bn1))
                 | OP_MIN => Next (if bn1 <? bn2 then bn1 else bn2)
                 | OP_MAX => Next (if bn2 <? bn1 then bn1 else bn2)
                 | _ => Fail SCRIPT_ERR_BAD_OPCODE
                 end in
      match op with
      | OP_NUMEQUALVERIFY => require! CastToBool (serialize bn), SCRIPT_ERR_NUMEQUALVERIFY; Next s
      | _ => Next (serialize bn :: s)
      end
  | _ => bad_stack
  end.

Definition op_within (flags : Z) (s : list bytes) : result (list bytes) :=
  match s with
  | v3 :: v2 :: v1 :: s =>
      let! bn1 := num_of flags v1 nDefaultMaxNumSize in
      let! bn2 := num_of flags v2 nDefaultMaxNumSize in
      let! bn3 := num_of flags v3 nDefaultMaxNumSize in
      Next (vch_bool ((bn2 <=? bn1) && (bn1 <? bn3)) :: s)
  | _ => bad_stack
  end.

Definition op_hash (op : opcodetype) (s : list bytes) : result (list bytes) :=
  match s with
  | vch :: s =>
      let! h := match op with
                | OP_RIPEMD160 => Next (CRIPEMD160 vch)
                | OP_SHA1 => Next (CSHA1 vch)
                | OP_SHA256 => Next (CSHA256 vch)
                | OP_HASH160 => Next (CHash160 vch)
                | OP_HASH256 => Next (CHash256 vch)
                | _ => Fail SCRIPT_ERR_BAD_OPCODE
                end in
      Next (h :: s)
  | [] => bad_stack
  end.

(** Drop a signature from the script code of a pre-segwit script. *)
Definition drop_signature (flags : Z) (sigversion : SigVersion) (vchSig scriptCode : bytes)
    : result bytes :=
  match sigversion with
  | BASE =>
      let '(found, code) := FindAndDelete scriptCode (push_vector vchSig []) in
      require! negb ((0 <? found) && has flags SCRIPT_VERIFY_CONST_SCRIPTCODE),
        SCRIPT_ERR_SIG_FINDANDDELETE;
      Next code
  | WITNESS_V0 => Next scriptCode
  end.

Definition op_checksig (flags : Z) (sigversion : SigVersion) (verify : bool) (m : machine)
    : result machine :=
  match stack m with
  | vchPubKey :: vchSig :: s =>
      let! scriptCode := drop_signature flags sigversion vchSig (codehash m) in
      let! _ := CheckSignatureEncoding vchSig flags in
      let! _ := CheckPubKeyEncoding vchPubKey flags sigversion in
      let fSuccess := CheckSig vchSig vchPubKey scriptCode sigversion in
      require! negb (negb fSuccess && has flags SCRIPT_VERIFY_NULLFAIL
                     && negb (length vchSig =? 0)%nat), SCRIPT_ERR_SIG_NULLFAIL;
      if verify then require! fSuccess, SCRIPT_ERR_CHECKSIGVERIFY; Next (set_stack s m)
      else Next (set_stack (vch_bool fSuccess :: s) m)
  | _ => bad_stack
  end.

Fixpoint drop_signatures (flags : Z) (sigversion : SigVersion) (sigs : list bytes)
    (scriptCode : bytes) : result bytes :=
  match sigs with
  | [] => Next scriptCode
  | vchSig :: sigs =>
      let! scriptCode := drop_signature flags sigversion vchSig scriptCode in
      drop_signatures flags sigversion sigs scriptCode
  end.

(** The loop over keys and signatures. A key is used up in every turn, and the loop ends
    before there are fewer keys than signatures left. *)
Fixpoint multisig_loop (flags : Z) (sigversion : SigVersion) (scriptCode : bytes)
    (sigs keys : list bytes) : result bool :=
  match sigs with
  | [] => Next true
  | vchSig :: sigs' =>
      match keys with
      | [] => Next false
      | vchPubKey :: keys =>
          let! _ := CheckSignatureEncoding vchSig flags in
          let! _ := CheckPubKeyEncoding vchPubKey flags sigversion in
          let fOk := CheckSig vchSig vchPubKey scriptCode sigversion in
          let sigs := if fOk then sigs' else sigs in
          if (length keys <? length sigs)%nat then Next false
          else multisig_loop flags sigversion scriptCode sigs keys
      end
  end.

(** The loop that pops the arguments; [ikey2] counts down to the signatures. *)
Fixpoint multisig_cleanup (flags : Z) (fSuccess : bool) (n ikey2 : nat) (s : list bytes)
    : result (list bytes) :=
  match n with
  | O => Next s
  | S n =>
      match s with
      | [] => Fail SCRIPT_ERR_UNKNOWN_ERROR
      | vch :: s =>
          require! negb (negb fSuccess && has flags SCRIPT_VERIFY_NULLFAIL && (ikey2 =? 0)%nat
                         && negb (length vch =? 0)%nat), SCRIPT_ERR_SIG_NULLFAIL;
          multisig_cleanup flags fSuccess n (pred ikey2) s
      end
  end.

Definition op_checkmultisig (flags : Z) (sigversion : SigVersion) (verify : bool) (m : machine)
    : result machine :=
  let s := stack m in
  match s with
  | [] => bad_stack
  | vch :: _ =>
      let! n := num_of flags vch nDefaultMaxNumSize in
      let nKeysCount := getint n in
      require! negb ((nKeysCount <? 0) || (MAX_PUBKEYS_PER_MULTISIG <? nKeysCount)),
        SCRIPT_ERR_PUBKEY_COUNT;
      let m := set_nOpCount (nOpCount m + nKeysCount) m in
      require! nOpCount m <=? MAX_OPS_PER_SCRIPT, SCRIPT_ERR_OP_COUNT;
      let keys := Z.to_nat nKeysCount in
      match s !! (1 + keys)%nat with
      | None => bad_stack
      | Some vch =>
          let! n := num_of flags vch nDefaultMaxNumSize in
          let nSigsCount := getint n in
          require! negb ((nSigsCount <? 0) || (nKeysCount <? nSigsCount)), SCRIPT_ERR_SIG_COUNT;
          let sigs := Z.to_nat nSigsCount in
          require! (2 + keys + sigs <? length s)%nat, SCRIPT_ERR_INVALID_STACK_OPERATION;
          let vsigs := take sigs (drop (2 + keys) s) in
          let! scriptCode := drop_signatures flags sigversion vsigs (codehash m) in
          let! fSuccess :=
            multisig_loop flags sigversion scriptCode vsigs (take keys (drop 1 s)) in
          let! s := multisig_cleanup flags fSuccess (2 + keys + sigs) (keys + 2) s in
          match s with
          | [] => bad_stack
          | dummy :: s =>
              require! negb (has flags SCRIPT_VERIFY_NULLDUMMY && negb (length dummy =? 0)%nat),
                SCRIPT_ERR_SIG_NULLDUMMY;
              if verify then require! fSuccess, SCRIPT_ERR_CHECKMULTISIGVERIFY; Next (set_stack s m)
              else Next (set_stack (vch_bool fSuccess :: s) m)
          end
      end
  end.

(** An opcode that only works on the stack. *)
Definition on_stack (f : list bytes -> result (list bytes)) (m : machine) : result machine :=
  let! s := f (stack m) in Next (set_stack s m).

(** The switch; [pc] is behind the instruction. *)
Definition exec_op (flags : Z) (sigversion : SigVersion) (fExec : bool) (pc : bytes) (opcode : Z)
    (m : machine) : result machine :=
  match opcode_of opcode with
  | Some op =>
      match op with
      | OP_1NEGATE | OP_1 | OP_2 | OP_3 | OP_4 | OP_5 | OP_6 | OP_7 | OP_8 | OP_9 | OP_10
      | OP_11 | OP_12 | OP_13 | OP_14 | OP_15 | OP_16 =>
          Next (set_stack (serialize (opcode - (v_OP_1 - 1)) :: stack m) m)
      | OP_NOP => Next m
      | OP_CHECKLOCKTIMEVERIFY => op_checklocktimeverify flags m
      | OP_CHECKSEQUENCEVERIFY => op_checksequenceverify flags m
      | OP_NOP1 | OP_NOP4 | OP_NOP5 | OP_NOP6 | OP_NOP7 | OP_NOP8 | OP_NOP9 | OP_NOP10 =>
          op_upgradable_nop flags m
      | OP_IF => op_if flags sigversion fExec false m
      | OP_NOTIF => op_if flags sigversion fExec true m
      | OP_ELSE => op_else m
      | OP_ENDIF => op_endif m
      | OP_VERIFY => op_verify m
      | OP_RETURN => Fail SCRIPT_ERR_OP_RETURN
      | OP_TOALTSTACK => op_toaltstack m
      | OP_FROMALTSTACK => op_fromaltstack m
      | OP_2DROP | OP_2DUP | OP_3DUP | OP_2OVER | OP_2ROT | OP_2SWAP | OP_IFDUP | OP_DEPTH
      | OP_DROP | OP_DUP | OP_NIP | OP_OVER | OP_PICK | OP_ROLL | OP_ROT | OP_SWAP | OP_TUCK
      | OP_SIZE => on_stack (op_stack flags op) m
      | OP_EQUAL => on_stack (op_equal false) m
      | OP_EQUALVERIFY => on_stack (op_equal true) m
      | OP_1ADD | OP_1SUB | OP_NEGATE | OP_ABS | OP_NOT | OP_0NOTEQUAL =>
          on_stack (op_unary flags op) m
      | OP_ADD | OP_SUB | OP_BOOLAND | OP_BOOLOR | OP_NUMEQUAL | OP_NUMEQUALVERIFY
      | OP_NUMNOTEQUAL | OP_LESSTHAN | OP_GREATERTHAN | OP_LESSTHANOREQUAL
      | OP_GREATERTHANOREQUAL | OP_MIN | OP_MAX => on_stack (op_binary flags op) m
      | OP_WITHIN => on_stack (op_within flags) m
      | OP_RIPEMD160 | OP_SHA1 | OP_SHA256 | OP_HASH160 | OP_HASH256 => on_stack (op_hash op) m
      | OP_CODESEPARATOR => Next (set_codehash pc m)
      | OP_CHECKSIG => op_checksig flags sigversion false m
      | OP_CHECKSIGVERIFY => op_checksig flags sigversion true m
      | OP_CHECKMULTISIG => op_checkmultisig flags sigversion false m
      | OP_CHECKMULTISIGVERIFY => op_checkmultisig flags sigversion true m
      | _ => Fail SCRIPT_ERR_BAD_OPCODE
      end
  | None => Fail SCRIPT_ERR_BAD_OPCODE
  end.

Definition disabled (opcode : Z) : bool :=
  match opcode_of opcode with
  | Some (OP_CAT | OP_SUBSTR | OP_LEFT | OP_RIGHT | OP_INVERT | OP_AND | OP_OR | OP_XOR | OP_2MUL
         | OP_2DIV | OP_MUL | OP_DIV | OP_MOD | OP_LSHIFT | OP_RSHIFT) => true
  | _ => false
  end.

Definition is_codeseparator (opcode : Z) : bool := opcode =? 0xab.

(** One turn of the loop: the rest of the script and the machine after it. *)
Definition eval_step (flags : Z) (sigversion : SigVersion) (pc : bytes) (m : machine)
    : result (bytes * machine) :=
  let fExec := forallb id (vfExec m) in
  match GetScriptOp pc with
  | (None, _) => Fail SCRIPT_ERR_BAD_OPCODE
  | (Some (opcode, vchPushValue), pc) =>
      require! Z.of_nat (length vchPushValue) <=? MAX_SCRIPT_ELEMENT_SIZE, SCRIPT_ERR_PUSH_SIZE;
      let m := if v_OP_16 <? opcode then set_nOpCount (nOpCount m + 1) m else m in
      require! negb ((v_OP_16 <? opcode) && (MAX_OPS_PER_SCRIPT <? nOpCount m)), SCRIPT_ERR_OP_COUNT;
      require! negb (disabled opcode), SCRIPT_ERR_DISABLED_OPCODE;
      require! negb (is_codeseparator opcode && bool_decide (sigversion = BASE)
                     && has flags SCRIPT_VERIFY_CONST_SCRIPTCODE), SCRIPT_ERR_OP_CODESEPARATOR;
      let! m :=
        if fExec && (opcode <=? v_PUSHDATA4) then
          require! negb (has flags SCRIPT_VERIFY_MINIMALDATA
                         && negb (CheckMinimalPush vchPushValue opcode)), SCRIPT_ERR_MINIMALDATA;
          Next (set_stack (vchPushValue :: stack m) m)
        else if fExec || (v_OP_IF <=? opcode) && (opcode <=? v_OP_ENDIF)
        then exec_op flags sigversion fExec pc opcode m
        else Next m in
      require! Z.of_nat (length (stack m) + length (altstack m)) <=? MAX_STACK_SIZE,
        SCRIPT_ERR_STACK_SIZE;
      Next (pc, m)
  end.

(** The loop. A turn reads at least one byte, so the length of the script is enough fuel
    ([eval_loop_fuel]). *)
Fixpoint eval_loop (fuel : nat) (flags : Z) (sigversion : SigVersion) (pc : bytes) (m : machine)
    : result machine :=
  match pc with
  | [] => Next m
  | _ =>
      match fuel with
      | O => Fail SCRIPT_ERR_UNKNOWN_ERROR
      | S fuel =>
          let! r := eval_step flags sigversion pc m in
          eval_loop fuel flags sigversion r.1 r.2
      end
  end.

Definition EvalScript (s : list bytes) (script : bytes) (flags : Z) (sigversion : SigVersion)
    : result (list bytes) :=
  require! Z.of_nat (length script) <=? MAX_SCRIPT_SIZE, SCRIPT_ERR_SCRIPT_SIZE;
  let! m := eval_loop (length script) flags sigversion script (Machine s [] [] 0 script) in
  match vfExec m with
  | [] => Next (stack m)
  | _ => Fail SCRIPT_ERR_UNBALANCED_CONDITIONAL
  end.

(** ** Verification *)

Definition WITNESS_V0_SCRIPTHASH_SIZE : nat := 32.
Definition WITNESS_V0_KEYHASH_SIZE : nat := 20.

(** The script a program stands for and the stack it starts with; [wstack] is the witness,
    bottom first. [None]: a future version. *)
Definition witness_script (wstack : list bytes) (witversion : Z) (program : bytes) (flags : Z)
    : result (option (bytes * list bytes)) :=
  if witversion =? 0 then
    if (length program =? WITNESS_V0_SCRIPTHASH_SIZE)%nat then
      match last wstack with
      | None => Fail SCRIPT_ERR_WITNESS_PROGRAM_WITNESS_EMPTY
      | Some script =>
          require! bool_decide (CSHA256 script = program), SCRIPT_ERR_WITNESS_PROGRAM_MISMATCH;
          Next (Some (script, take (length wstack - 1) wstack))
      end
    else if (length program =? WITNESS_V0_KEYHASH_SIZE)%nat then
      require! (length wstack =? 2)%nat, SCRIPT_ERR_WITNESS_PROGRAM_MISMATCH;
      Next (Some (push_vector program [0x76; 0xa9] ++ [0x88; 0xac], wstack))
    else Fail SCRIPT_ERR_WITNESS_PROGRAM_WRONG_LENGTH
  else
    require! negb (has flags SCRIPT_VERIFY_DISCOURAGE_UPGRADABLE_WITNESS_PROGRAM),
      SCRIPT_ERR_DISCOURAGE_UPGRADABLE_WITNESS_PROGRAM;
    Next None.

Definition VerifyWitnessProgram (wstack : list bytes) (witversion : Z) (program : bytes)
    (flags : Z) : result unit :=
  let! sp := witness_script wstack witversion program flags in
  match sp with
  | None => Next tt
  | Some (script, s) =>
      require! forallb (fun e => Z.of_nat (length e) <=? MAX_SCRIPT_ELEMENT_SIZE) s,
        SCRIPT_ERR_PUSH_SIZE;
      let! s := EvalScript (rev s) script flags WITNESS_V0 in
      match s with
      | [vch] => require! CastToBool vch, SCRIPT_ERR_EVAL_FALSE; Next tt
      | _ => Fail SCRIPT_ERR_CLEANSTACK
      end
  end.

(** A script run for its verdict: the stack must end with a true top. *)
Definition eval_true (s : list bytes) (script : bytes) (flags : Z) : result (list bytes) :=
  let! s := EvalScript s script flags BASE in
  match s with
  | [] => Fail SCRIPT_ERR_EVAL_FALSE
  | vch :: _ => require! CastToBool vch, SCRIPT_ERR_EVAL_FALSE; Next s
  end.

(** A witness program met in [VerifyScript]: the scriptSig must be as required. The stack
    is then cut to its first element. *)
Definition verify_program (script : bytes) (sig_ok : bool) (malleated : ScriptError)
    (wstack : list bytes) (flags : Z) (s : list bytes) : result (list bytes * bool) :=
  if has flags SCRIPT_VERIFY_WITNESS then
    match IsWitnessProgram script with
    | Some (version, program) =>
        require! sig_ok, malleated;
        let! _ := VerifyWitnessProgram wstack version program flags in
        Next (drop (length s - 1) s, true)
    | None => Next (s, false)
    end
  else Next (s, false).

(** The pay-to-script-hash part, from the stack that the scriptSig left; [None] is the
    failing [assert]. *)
Definition verify_p2sh (scriptSig : bytes) (wstack : list bytes) (flags : Z)
    (stackCopy : list bytes) : option (result (list bytes * bool)) :=
  if negb (IsPushOnly scriptSig) then Some (Fail SCRIPT_ERR_SIG_PUSHONLY)
  else match stackCopy with
       | [] => None
       | pubKey2 :: s =>
           Some (let! s := eval_true s pubKey2 flags in
                 verify_program pubKey2 (bool_decide (scriptSig = push_vector pubKey2 []))
                   SCRIPT_ERR_WITNESS_MALLEATED_P2SH wstack flags s)
       end.

(** The checks at the end, with their [assert]s on the flags. *)
Definition verify_end (wstack : list bytes) (flags : Z) (s : list bytes) (hadWitness : bool)
    : option (result unit) :=
  assert! negb (has flags SCRIPT_VERIFY_CLEANSTACK)
          || has flags SCRIPT_VERIFY_P2SH && has flags SCRIPT_VERIFY_WITNESS;
  if has flags SCRIPT_VERIFY_CLEANSTACK && negb (length s =? 1)%nat
  then Some (Fail SCRIPT_ERR_CLEANSTACK)
  else
    assert! negb (has flags SCRIPT_VERIFY_WITNESS) || has flags SCRIPT_VERIFY_P2SH;
    Some (require! negb (has flags SCRIPT_VERIFY_WITNESS && negb hadWitness
                         && negb (length wstack =? 0)%nat), SCRIPT_ERR_WITNESS_UNEXPECTED;
          Next tt).

(** [None] is a failing [assert]. *)
Definition VerifyScript (scriptSig scriptPubKey : bytes) (wstack : list bytes) (flags : Z)
    : option (result unit) :=
  if has flags SCRIPT_VERIFY_SIGPUSHONLY && negb (IsPushOnly scriptSig)
  then Some (Fail SCRIPT_ERR_SIG_PUSHONLY)
  else
    match (let! stackCopy := EvalScript [] scriptSig flags BASE in
           let! s := eval_true stackCopy scriptPubKey flags in
           let! r := verify_program scriptPubKey (length scriptSig =? 0)%nat
                       SCRIPT_ERR_WITNESS_MALLEATED wstack flags s in
           Next (stackCopy, r)) with
    | Fail e => Some (Fail e)
    | Next (stackCopy, (s, hadWitness)) =>
        if has flags SCRIPT_VERIFY_P2SH && IsPayToScriptHash scriptPubKey then
          r ← verify_p2sh scriptSig wstack flags stackCopy;
          match r with
          | Fail e => Some (Fail e)
          | Next (s, had) => verify_end wstack flags s (hadWitness || had)
          end
        else verify_end wstack flags s hadWitness
    end.
End Interpreter.
