(* ===== verification/InterpFacts.v ===== *)
(** * Facts about the script interpreter

    It terminates: every instruction shortens the script. It keeps its limits: the depth of
    the stacks, the size of their elements, the number of operations. And the rule for one
    instruction, which the proofs about particular scripts run. *)
From S2P Require Import Prelude CoreSha256 CoreHash Secp Ecdsa CScript Interp.
#[local] Opaque CRIPEMD160 CSHA1 CSHA256 CHash160 CHash256.
Local Open Scope Z_scope.
Local Open Scope script_scope.

Lemma GetScriptOp_shorter pc op pc' : GetScriptOp pc = (Some op, pc') -> (length pc' < length pc)%nat.
Proof.
  unfold GetScriptOp. intros E. destruct pc as [|opcode pc]; [done|].
  destruct (opcode <=? v_PUSHDATA4); [|simplify_eq; simpl; lia].
  destruct (if opcode <? v_PUSHDATA1 then _ else _) as [[n|] pc1] eqn:S; [|done].
  destruct (Z.of_nat (length pc1) <? n); [done|]. simplify_eq. rewrite length_drop. simpl.
  enough (length pc1 <= length pc)%nat by lia.
  repeat case_match; simplify_eq; simpl; rewrite ?length_drop; lia.
Qed.

Section Facts.
Context `{Signatures} `{BaseSignatureChecker}.

Lemma eval_step_shorter flags sv pc m pc' m' :
  eval_step flags sv pc m = Next (pc', m') -> (length pc' < length pc)%nat.
Proof.
  unfold eval_step. destruct (GetScriptOp pc) as [[[opcode v]|] pc1] eqn:G; [|done].
  apply GetScriptOp_shorter in G. intros E. unfold result_bind in E.
  repeat case_match; simplify_eq; done.
Qed.

(** The fuel of [EvalScript] is enough: more of it changes nothing. *)
Lemma eval_loop_fuel flags sv fuel pc m : (length pc <= fuel)%nat ->
  eval_loop fuel flags sv pc m = eval_loop (length pc) flags sv pc m.
Proof.
  remember (length pc) as k eqn:Ek. revert fuel pc m Ek.
  induction k as [k IH] using (well_founded_ind lt_wf). intros fuel pc m -> Hf.
  destruct pc as [|b pc]; [by destruct fuel|]. destruct fuel as [|fuel]; [simpl in Hf; lia|].
  cbn [eval_loop length]. unfold result_bind.
  destruct (eval_step flags sv (b :: pc) m) as [[pc' m']|e] eqn:E; [|done]. cbn [fst snd].
  apply eval_step_shorter in E. simpl in E, Hf.
  rewrite (IH (length pc') ltac:(simpl; lia) fuel), (IH (length pc') ltac:(simpl; lia) (length pc)) by lia.
  done.
Qed.

(** The loop without fuel. *)
Definition eval (flags : Z) (sv : SigVersion) (pc : bytes) (m : machine) : result machine :=
  eval_loop (length pc) flags sv pc m.

Lemma eval_nil flags sv m : eval flags sv [] m = Next m.
Proof. done. Qed.

Lemma eval_unfold flags sv pc m : pc <> [] ->
  eval flags sv pc m = (let! r := eval_step flags sv pc m in eval flags sv r.1 r.2).
Proof.
  intros Hne. unfold eval. destruct pc as [|b pc]; [done|]. cbn [length eval_loop]. unfold result_bind.
  destruct (eval_step flags sv (b :: pc) m) as [[pc' m']|e] eqn:E; [|done]. cbn [fst snd].
  apply eval_step_shorter in E. simpl in E. by apply eval_loop_fuel; lia.
Qed.

(** ** Limits *)

Definition elem_ok (e : bytes) : Prop := Z.of_nat (length e) <= MAX_SCRIPT_ELEMENT_SIZE.

Record machine_ok (m : machine) : Prop := {
  ok_stack : Forall elem_ok (stack m);
  ok_altstack : Forall elem_ok (altstack m);
  ok_ops : 0 <= nOpCount m <= MAX_OPS_PER_SCRIPT
}.

Lemma hash_sizes m : (length (CRIPEMD160 m) = 20 /\ length (CSHA1 m) = 20 /\ length (CSHA256 m) = 32 /\
  length (CHash160 m) = 20 /\ length (CHash256 m) = 32)%nat.
Proof using.
  rewrite CHash160_spec, <- CRIPEMD160_spec, !length_CRIPEMD160, length_CSHA1, length_CSHA256.
  by rewrite length_CHash256.
Qed.

Lemma serialize_size n : elem_ok (serialize n).
Proof using.
  assert (forall fuel v, length (abs_bytes fuel v) <= fuel)%nat as A.
  { induction fuel as [|fuel IH]; intros v; simpl; [lia|]. case_match; simpl; [lia|].
    specialize (IH (Z.shiftr v 8)). lia. }
  assert (forall l, length (or_back l) = length l) as O.
  { induction l as [|b l IH]; [done|]. simpl. destruct l; [done|]. simpl in *. by rewrite IH. }
  specialize (A 8%nat (Z.abs n)). unfold elem_ok, serialize, MAX_SCRIPT_ELEMENT_SIZE.
  destruct (n =? 0); [simpl; lia|]. revert A. generalize (abs_bytes 8 (Z.abs n)) as r. intros r A.
  destruct (negb _); [rewrite length_app; simpl; lia|]. destruct (n <? 0); rewrite ?O; lia.
Qed.

Lemma vch_bool_size b : elem_ok (vch_bool b).
Proof using. unfold elem_ok, MAX_SCRIPT_ELEMENT_SIZE. destruct b; simpl; lia. Qed.

(** Takes [Forall] hypotheses and goals apart. *)
Ltac foralls :=
  repeat match goal with
  | H : Forall _ (_ :: _) |- _ => apply Forall_cons_1 in H as [? ?]
  | |- Forall _ (_ :: _) => apply Forall_cons_2
  end; eauto using serialize_size, vch_bool_size.

Lemma op_pick_ok flags roll s s' : Forall elem_ok s -> op_pick flags roll s = Next s' -> Forall elem_ok s'.
Proof using.
  unfold op_pick. intros Hs E. destruct s as [|vn s]; [done|]. apply Forall_cons_1 in Hs as [_ Hs].
  unfold result_bind in E. repeat (case_match; simplify_eq); foralls.
  - by eapply Forall_lookup_1.
  - apply Forall_app. split; [by apply Forall_take|by apply Forall_drop].
  - by eapply Forall_lookup_1.
Qed.

Lemma op_stack_ok flags op s s' : Forall elem_ok s -> op_stack flags op s = Next s' -> Forall elem_ok s'.
Proof using.
  intros Hs E. destruct op; cbn [op_stack] in E; try done;
    first [exact (op_pick_ok _ _ _ _ Hs E) | simplify_eq; repeat (case_match; simplify_eq; try done); foralls].
Qed.

Lemma op_equal_ok verify s s' : Forall elem_ok s -> op_equal verify s = Next s' -> Forall elem_ok s'.
Proof using. intros Hs E. unfold op_equal in E. repeat (case_match; simplify_eq; try done); foralls. Qed.

Lemma op_unary_ok flags op s s' : Forall elem_ok s -> op_unary flags op s = Next s' -> Forall elem_ok s'.
Proof using.
  intros Hs E; unfold op_unary, result_bind in E; repeat (case_match; simplify_eq; try done); foralls.
Qed.

Lemma op_binary_ok flags op s s' : Forall elem_ok s -> op_binary flags op s = Next s' -> Forall elem_ok s'.
Proof using.
  intros Hs E; unfold op_binary, result_bind in E; repeat (case_match; simplify_eq; try done); foralls.
Qed.

Lemma op_within_ok flags s s' : Forall elem_ok s -> op_within flags s = Next s' -> Forall elem_ok s'.
Proof using.
  intros Hs E; unfold op_within, result_bind in E; repeat (case_match; simplify_eq; try done); foralls.
Qed.

Lemma op_hash_ok op s s' : Forall elem_ok s -> op_hash op s = Next s' -> Forall elem_ok s'.
Proof using.
  intros Hs E. unfold op_hash, result_bind in E. repeat (case_match; simplify_eq; try done); foralls;
    unfold elem_ok, MAX_SCRIPT_ELEMENT_SIZE;
    match goal with |- Z.of_nat (length (_ ?x)) <= _ => destruct (hash_sizes x) as (? & ? & ? & ? & ?) end; lia.
Qed.

Lemma multisig_cleanup_ok flags b n k s s' : Forall elem_ok s ->
  multisig_cleanup flags b n k s = Next s' -> Forall elem_ok s'.
Proof using.
  revert k s. induction n as [|n IH]; intros k s Hs E; simpl in E; [by simplify_eq|].
  destruct s as [|v s]; [done|]. apply Forall_cons_1 in Hs as [_ Hs].
  case_match; [|done]. by eapply IH.
Qed.

Lemma op_checkmultisig_ok flags sv verify m m' : machine_ok m ->
  op_checkmultisig flags sv verify m = Next m' -> machine_ok m'.
Proof using.
  intros [Hs Ha Ho] E. unfold op_checkmultisig, result_bind in E.
  destruct (stack m) as [|vch s]; [done|].
  destruct (num_of flags vch nDefaultMaxNumSize) as [n|]; [|done].
  destruct (negb _) eqn:B1 in E; [|done]. bprop.
  destruct (Z.leb_spec (nOpCount (set_nOpCount (nOpCount m + getint n) m)) MAX_OPS_PER_SCRIPT)
    as [B2|]; [|done].
  destruct ((vch :: s) !! _) as [vs|]; [|done].
  destruct (num_of flags vs nDefaultMaxNumSize) as [k|]; [|done].
  destruct (negb _) in E; [|done]. destruct (_ <? _)%nat in E; [|done].
  destruct (drop_signatures _ _ _ _) as [code|]; [|done].
  destruct (multisig_loop _ _ _ _ _) as [ok|]; [|done].
  destruct (multisig_cleanup _ _ _ _ _) as [s'|] eqn:C; [|done].
  apply multisig_cleanup_ok in C; [|done]. cbn in B2.
  destruct s' as [|d s']; [done|]. destruct (negb _) in E; [|done]. apply Forall_cons_1 in C as [_ C].
  repeat (case_match; simplify_eq; try done); split; cbn; foralls; lia.
Qed.

(** The opcodes that work on the whole machine. *)
Ltac machine_op :=
  intros Hm E; pose proof Hm as [Hs Ha Ho];
  unfold op_checklocktimeverify, op_checksequenceverify, op_upgradable_nop, op_if, op_else,
    op_endif, op_verify, op_toaltstack, op_fromaltstack, op_checksig, result_bind in E;
  repeat (case_match; simplify_eq; try done); split; cbn; foralls; lia.

Lemma op_locktime_ok flags m m' : machine_ok m -> op_checklocktimeverify flags m = Next m' -> machine_ok m'.
Proof using. machine_op. Qed.
Lemma op_sequence_ok flags m m' : machine_ok m -> op_checksequenceverify flags m = Next m' -> machine_ok m'.
Proof using. machine_op. Qed.
Lemma op_nop_ok flags m m' : machine_ok m -> op_upgradable_nop flags m = Next m' -> machine_ok m'.
Proof using. machine_op. Qed.
Lemma op_if_ok flags sv x n m m' : machine_ok m -> op_if flags sv x n m = Next m' -> machine_ok m'.
Proof using. machine_op. Qed.
Lemma op_else_ok m m' : machine_ok m -> op_else m = Next m' -> machine_ok m'.
Proof using. machine_op. Qed.
Lemma op_endif_ok m m' : machine_ok m -> op_endif m = Next m' -> machine_ok m'.
Proof using. machine_op. Qed.
Lemma op_verify_ok m m' : machine_ok m -> op_verify m = Next m' -> machine_ok m'.
Proof using. machine_op. Qed.
Lemma op_toaltstack_ok m m' : machine_ok m -> op_toaltstack m = Next m' -> machine_ok m'.
Proof using. machine_op. Qed.
Lemma op_fromaltstack_ok m m' : machine_ok m -> op_fromaltstack m = Next m' -> machine_ok m'.
Proof using. machine_op. Qed.
Lemma op_checksig_ok flags sv v m m' : machine_ok m -> op_checksig flags sv v m = Next m' -> machine_ok m'.
Proof using. machine_op. Qed.

Lemma on_stack_ok f m m' : (forall s s', Forall elem_ok s -> f s = Next s' -> Forall elem_ok s') ->
  machine_ok m -> on_stack f m = Next m' -> machine_ok m'.
Proof using.
  intros Hf [Hs Ha Ho]. unfold on_stack, result_bind. destruct (f (stack m)) as [s|] eqn:Ef; [|done].
  intros. simplify_eq. split; cbn; eauto.
Qed.

Lemma exec_op_ok flags sv fExec pc opcode m m' : machine_ok m ->
  exec_op flags sv fExec pc opcode m = Next m' -> machine_ok m'.
Proof using.
  intros Hm. unfold exec_op. generalize (serialize_size (opcode - (v_OP_1 - 1))).
  generalize (serialize (opcode - (v_OP_1 - 1))) as n. intros n Hn.
  destruct (opcode_of opcode) as [op|]; [|discriminate].
  destruct op; cbv iota; intros E;
    lazymatch type of E with
    | Fail _ = _ => discriminate E
    | Next m = _ => injection E as <-; exact Hm
    | Next (set_stack _ _) = _ =>
        injection E as <-; destruct Hm; split; [constructor; [exact Hn|assumption]|assumption..]
    | Next (set_codehash _ _) = _ => injection E as <-; destruct Hm; split; assumption
    | on_stack ?f _ = _ =>
        refine (on_stack_ok f _ _ _ Hm E);
        lazymatch f with
        | op_stack _ _ => apply op_stack_ok
        | op_equal _ => apply op_equal_ok
        | op_unary _ _ => apply op_unary_ok
        | op_binary _ _ => apply op_binary_ok
        | op_within _ => apply op_within_ok
        | op_hash _ => apply op_hash_ok
        end
    | op_checklocktimeverify _ _ = _ => exact (op_locktime_ok _ _ _ Hm E)
    | op_checksequenceverify _ _ = _ => exact (op_sequence_ok _ _ _ Hm E)
    | op_upgradable_nop _ _ = _ => exact (op_nop_ok _ _ _ Hm E)
    | op_if _ _ _ _ _ = _ => exact (op_if_ok _ _ _ _ _ _ Hm E)
    | op_else _ = _ => exact (op_else_ok _ _ Hm E)
    | op_endif _ = _ => exact (op_endif_ok _ _ Hm E)
    | op_verify _ = _ => exact (op_verify_ok _ _ Hm E)
    | op_toaltstack _ = _ => exact (op_toaltstack_ok _ _ Hm E)
    | op_fromaltstack _ = _ => exact (op_fromaltstack_ok _ _ Hm E)
    | op_checksig _ _ _ _ = _ => exact (op_checksig_ok _ _ _ _ _ Hm E)
    | op_checkmultisig _ _ _ _ = _ => exact (op_checkmultisig_ok _ _ _ _ _ Hm E)
    end.
Qed.

Lemma eval_step_ok flags sv pc m pc' m' : machine_ok m ->
  eval_step flags sv pc m = Next (pc', m') ->
  machine_ok m' /\ Z.of_nat (length (stack m') + length (altstack m')) <= MAX_STACK_SIZE.
Proof using.
  intros Hm E. pose proof Hm as [Hs Ha Ho]. unfold eval_step in E.
  destruct (GetScriptOp pc) as [[[opcode v]|] pc1]; [|done].
  destruct (Z.leb_spec (Z.of_nat (length v)) MAX_SCRIPT_ELEMENT_SIZE) as [Lv|]; [|done].
  set (m1 := if v_OP_16 <? opcode then set_nOpCount (nOpCount m + 1) m else m) in E.
  destruct (negb (_ && _)) eqn:B1 in E; [|done].
  assert (machine_ok m1) as Hm1.
  { unfold m1 in *. destruct (Z.ltb_spec v_OP_16 opcode); [|done]. split; cbn; [done|done|].
    apply negb_true_iff in B1. cbn in B1. apply Z.ltb_ge in B1. lia. }
  clearbody m1. repeat (destruct (negb _) in E; [|done]). unfold result_bind in E.
  destruct (if _ && _ then _ else _) as [m2|] eqn:X in E; [|done].
  destruct (Z.leb_spec (Z.of_nat (length (stack m2) + length (altstack m2))) MAX_STACK_SIZE); [|done].
  simplify_eq. split; [|done]. destruct Hm1. repeat (case_match; simplify_eq; try done).
  - split; cbn; foralls.
  - eapply exec_op_ok; [|done]. by split.
Qed.

(** ** The loop, without fuel

    [turns pc m n r]: from the iterator [pc], the loop of [EvalScript] takes [n] turns and
    leaves with [r]. *)
Inductive turns (flags : Z) (sv : SigVersion) : bytes -> machine -> nat -> result machine -> Prop :=
  | turns_end m : turns flags sv [] m 0 (Next m)
  | turns_fail pc m e : pc <> [] -> eval_step flags sv pc m = Fail e -> turns flags sv pc m 1 (Fail e)
  | turns_step pc m pc' m' n r : pc <> [] -> eval_step flags sv pc m = Next (pc', m') ->
      turns flags sv pc' m' n r -> turns flags sv pc m (S n) r.

Lemma eval_turns flags sv pc m :
  exists n, (n <= length pc)%nat /\ turns flags sv pc m n (eval flags sv pc m).
Proof using.
  remember (length pc) as k eqn:Ek. revert pc m Ek.
  induction k as [k IH] using (well_founded_ind lt_wf). intros pc m ->.
  destruct (decide (pc = [])) as [-> | Hne]; [exists 0%nat; split; [done|constructor]|].
  rewrite eval_unfold by done. destruct (eval_step flags sv pc m) as [[pc' m']|e] eqn:E.
  - pose proof (eval_step_shorter _ _ _ _ _ _ E) as L.
    destruct (IH (length pc') L pc' m' eq_refl) as (n & Hn & T).
    exists (S n). split; [lia|]. by eapply turns_step.
  - exists 1%nat. split; [destruct pc; [done|simpl; lia]|]. by apply turns_fail.
Qed.

Lemma turns_eval flags sv pc m n r : turns flags sv pc m n r ->
  (n <= length pc)%nat /\ r = eval flags sv pc m.
Proof using.
  induction 1 as [m|pc m e Hne E|pc m pc' m' n r Hne E T [L ->]].
  - split; [simpl; lia|done].
  - rewrite eval_unfold, E by done. split; [|done]. destruct pc; [done|simpl; lia].
  - rewrite (eval_unfold _ _ pc), E by done. apply eval_step_shorter in E. split; [lia|done].
Qed.

(** C29. [EvalScript] terminates on every script, stack and set of flags: its loop leaves
    after at most as many turns as the script has bytes, with one outcome, which is the
    one [EvalScript] reports. *)
Theorem eval_script_terminates s script flags sv :
  exists n r, (n <= length script)%nat /\
    turns flags sv script (Machine s [] [] 0 script) n r /\
    (forall n' r', turns flags sv script (Machine s [] [] 0 script) n' r' -> (n' <= length script)%nat /\ r' = r) /\
    EvalScript s script flags sv =
      (require! Z.of_nat (length script) <=? MAX_SCRIPT_SIZE, SCRIPT_ERR_SCRIPT_SIZE;
       let! m := r in
       match vfExec m with
       | [] => Next (stack m)
       | _ => Fail SCRIPT_ERR_UNBALANCED_CONDITIONAL
       end).
Proof using.
  destruct (eval_turns flags sv script (Machine s [] [] 0 script)) as (n & Hn & T).
  exists n, (eval flags sv script (Machine s [] [] 0 script)). repeat split; [done|done| |].
  - by eapply turns_eval.
  - by eapply turns_eval.
Qed.

Lemma turns_ok flags sv pc m n m' : turns flags sv pc m n (Next m') -> machine_ok m ->
  Z.of_nat (length (stack m) + length (altstack m)) <= MAX_STACK_SIZE ->
  machine_ok m' /\ Z.of_nat (length (stack m') + length (altstack m')) <= MAX_STACK_SIZE.
Proof using.
  intros T. remember (Next m') as r eqn:Er. revert Er.
  induction T as [m|pc m e Hne E|pc m pc' m1 n r Hne E T IH]; intros Er Hm L; simplify_eq; [done|].
  apply eval_step_ok in E as [Hm1 L1]; [|done]. by apply IH.
Qed.

(** C30. The limits of a script are kept: from a stack of at most 1000 elements of at most
    520 bytes, every successful run ends with such a stack, having counted at most 201
    operations, whatever the script. *)
Theorem script_limits s script flags sv m :
  Forall elem_ok s -> Z.of_nat (length s) <= MAX_STACK_SIZE ->
  eval_loop (length script) flags sv script (Machine s [] [] 0 script) = Next m ->
  Forall elem_ok (stack m) /\ Forall elem_ok (altstack m) /\
  Z.of_nat (length (stack m) + length (altstack m)) <= MAX_STACK_SIZE /\
  nOpCount m <= MAX_OPS_PER_SCRIPT.
Proof using.
  intros Hs L E. destruct (eval_turns flags sv script (Machine s [] [] 0 script)) as (n & _ & T).
  unfold eval in T. rewrite E in T. apply turns_ok in T as [[Ok1 Ok2 Ok3] L'].
  - repeat split; [done|done|done|lia].
  - split; cbn; [done|constructor|]. unfold MAX_OPS_PER_SCRIPT. lia.
  - cbn. lia.
Qed.
End Facts.

(** ** A run: 1 2 OP_ADD *)
Module DemoRun.
(** interpreter.h: the methods of the base class refuse everything. *)
Definition no_checker : BaseSignatureChecker :=
  Build_BaseSignatureChecker (fun _ _ _ _ => false) (fun _ => false) (fun _ => false).
#[local] Existing Instances no_checker Scalars.ops ScalarSigs.ops.

Lemma script_limits_witness :
  let m := Machine [[3]; [7]] [] [] 1 [0x51; 0x52; 0x93] in
  eval_loop 3 0 BASE [0x51; 0x52; 0x93] (Machine [[7]] [] [] 0 [0x51; 0x52; 0x93]) = Next m /\
  nOpCount m <= MAX_OPS_PER_SCRIPT.
Proof.
  intros m.
  assert (eval_loop 3 0 BASE [0x51; 0x52; 0x93] (Machine [[7]] [] [] 0 [0x51; 0x52; 0x93]) = Next m) as E
    by (vm_compute; reflexivity).
  split; [exact E|]. apply (script_limits [[7]] [0x51; 0x52; 0x93] 0 BASE m).
  - repeat constructor. unfold elem_ok, MAX_SCRIPT_ELEMENT_SIZE. cbn. lia.
  - unfold MAX_STACK_SIZE. cbn. lia.
  - exact E.
Defined.
End DemoRun.
