(* ===== verification/Hkdf.v ===== *)
(** * HMAC-SHA256 and HKDF

    src/lightning/ccan/ccan/crypto/hmac_sha256/hmac_sha256.c and
    src/lightning/ccan/ccan/crypto/hkdf_sha256/hkdf_sha256.c, against RFC 2104 and
    RFC 5869. *)
From S2P Require Import Prelude HashSpec BlockHash Sha256.
Local Open Scope Z_scope.

Definition HMAC_SHA256_BLOCKSIZE : nat := 64.
Definition IPAD : Z := 0x3636363636363636.
Definition OPAD : Z := 0x5C5C5C5C5C5C5C5C.

(** [block[i] ^= pad] on the first [n] little-endian 64-bit words of [block]. *)
Fixpoint xor_words (n : nat) (block : bytes) (pad : Z) : bytes :=
  match n with
  | O => []
  | S n => le_bytes 8 (Z.lxor (le_val (take 8 block)) pad) ++ xor_words n (drop 8 block) pad
  end.

Definition xor_block (block : bytes) (pad : Z) : bytes := xor_words 8 block pad.

Record hmac_sha256_ctx := HmacCtx { hmac_sha : ctx (St := sha_state); k_opad : bytes }.

(** The key as a block: hashed if longer than one, then filled with zeros. *)
Definition key_block (k : bytes) : bytes :=
  let k := if (HMAC_SHA256_BLOCKSIZE <? length k)%nat then sha256 k else k in
  k ++ replicate (HMAC_SHA256_BLOCKSIZE - length k) 0.

Definition hmac_sha256_init (k : bytes) : hmac_sha256_ctx :=
  let k_ipad := xor_block (key_block k) IPAD in
  HmacCtx (sha256_update sha256_init k_ipad) (xor_block k_ipad (Z.lxor IPAD OPAD)).

Definition hmac_sha256_update (c : hmac_sha256_ctx) (p : bytes) : hmac_sha256_ctx :=
  HmacCtx (sha256_update (hmac_sha c) p) (k_opad c).

Definition hmac_sha256_done (c : hmac_sha256_ctx) : bytes :=
  let h := sha256_done (hmac_sha c) in
  sha256_done (sha256_update (sha256_update sha256_init (k_opad c)) h).

Definition hmac_sha256 (k d : bytes) : bytes :=
  hmac_sha256_done (hmac_sha256_update (hmac_sha256_init k) d).

(** One step of the expansion, [t] being the previous block (absent the first time). *)
Definition hkdf_block (prk t info : bytes) (c : Z) : bytes :=
  hmac_sha256_done
    (hmac_sha256_update (hmac_sha256_update (hmac_sha256_update (hmac_sha256_init prk) t) info)
       [c]).

(** [while (okm_size > sizeof(t))], then the last, partial, copy; [fuel] bounds the
    iterations. *)
Fixpoint hkdf_loop (fuel : nat) (prk info t : bytes) (c : Z) (okm_size : nat) : bytes :=
  match fuel with
  | S fuel =>
      if (32 <? okm_size)%nat
      then t ++ (let c := u8 (c + 1) in
                 hkdf_loop fuel prk info (hkdf_block prk t info c) c (okm_size - 32))
      else take okm_size t
  | O => take okm_size t
  end.

(** [None] is the failed assertion. *)
Definition hkdf_sha256 (okm_size : nat) (s k info : bytes) : option bytes :=
  assert! (okm_size <? 255 * 32)%nat;
  let prk := hmac_sha256 s k in
  let t := hmac_sha256_done
             (hmac_sha256_update (hmac_sha256_update (hmac_sha256_init prk) info) [1]) in
  Some (hkdf_loop okm_size prk info t 1 okm_size).

(** ** What they compute *)
Module Spec.
(** RFC 2104, section 2, with H = SHA-256 of FIPS 180-4 and B = 64: a key of more than B
    bytes is first hashed; K is the key with zeros appended to B bytes; the result is
    H(K xor opad, H(K xor ipad, text)), ipad being the byte 0x36 and opad the byte 0x5C,
    B times each. *)
Definition hmac_key (k : bytes) : bytes :=
  if decide (length k <= 64)%nat then k else SHA256.hash k.

Definition hmac (k text : bytes) : bytes :=
  let xor_pad b := (fun i => Z.lxor (nth i (hmac_key k) 0) b) <$> seq 0 64 in
  SHA256.hash (xor_pad 0x5C ++ SHA256.hash (xor_pad 0x36 ++ text)).

(** RFC 5869: T(0) is empty, T(n+1) = HMAC(PRK, T(n) | info | n+1). *)
Fixpoint T (prk info : bytes) (n : nat) : bytes :=
  match n with
  | O => []
  | S m => hmac prk (T prk info m ++ info ++ [Z.of_nat n])
  end.

Definition okm (n : nat) (s k info : bytes) : bytes :=
  let prk := hmac s k in take n (concat (T prk info <$> seq 1 255)).
End Spec.

(** ** Proofs *)

Lemma length_xor_words n block pad : length (xor_words n block pad) = (8 * n)%nat.
Proof.
  revert block. induction n as [|n IH]; intros; [done|]. cbn [xor_words].
  rewrite length_app, length_le_bytes, IH. lia.
Qed.

Lemma length_key_block k : length (key_block k) = 64%nat.
Proof.
  unfold key_block. rewrite length_app, length_replicate. case_match eqn:E.
  - by rewrite length_sha256.
  - apply Nat.ltb_ge in E. unfold HMAC_SHA256_BLOCKSIZE in *. lia.
Qed.

Lemma key_block_ok k : bytes_ok k -> bytes_ok (key_block k).
Proof.
  intros H. unfold key_block, bytes_ok. apply Forall_app. split.
  - case_match; [apply sha256_ok|done].
  - apply Forall_replicate. lia.
Qed.

(** Word by word or byte by byte, the same exclusive or. *)
Lemma xor_words_spec n block b : length block = (8 * n)%nat -> bytes_ok block -> 0 <= b < 256 ->
  xor_words n block (le_val (replicate 8 b)) = zip_with Z.lxor block (replicate (8 * n) b).
Proof.
  intros L Hok Hb. revert block L Hok. induction n as [|n IH]; intros block L Hok.
  { by destruct block. }
  assert (bytes_ok (replicate 8 b)) as Hr by (apply Forall_replicate; lia).
  assert (length (take 8 block) = 8%nat) as L8 by (rewrite length_take; lia).
  cbn [xor_words]. replace (8 * S n)%nat with (8 + 8 * n)%nat by lia.
  rewrite replicate_add. rewrite <- (take_drop 8 block) at 3.
  rewrite zip_with_app by (rewrite length_replicate; done).
  f_equal.
  - rewrite <- le_val_lxor by (try apply Forall_take; done).
    assert (bytes_ok (zip_with Z.lxor (take 8 block) (replicate 8 b))) as Hz
      by (apply bytes_ok_lxor; [by apply Forall_take|done]).
    pose proof (le_bytes_le_val _ Hz) as E. rewrite length_zip_with, L8 in E. exact E.
  - apply IH; [rewrite length_drop; lia|by apply Forall_drop].
Qed.

Lemma zip_with_lxor_twice l k1 k2 : length l = length k1 -> length l = length k2 ->
  zip_with Z.lxor (zip_with Z.lxor l k1) (zip_with Z.lxor k1 k2) = zip_with Z.lxor l k2.
Proof.
  revert k1 k2. induction l as [|a l IH]; intros [|b k1] [|c k2] ? ?; simplify_eq/=; [done|].
  rewrite IH by done. by rewrite (Z.lxor_assoc a), <- (Z.lxor_assoc b), Z.lxor_nilpotent, Z.lxor_0_l.
Qed.

Lemma IPAD_bytes : IPAD = le_val (replicate 8 0x36).
Proof. reflexivity. Qed.

Lemma pad_diff_bytes : Z.lxor IPAD OPAD = le_val (replicate 8 (Z.lxor 0x36 0x5C)).
Proof. reflexivity. Qed.

(** The state after [init] and any updates is the inner hash of the padded key. *)
Definition hmac_absorbed (c : hmac_sha256_ctx) (k m : bytes) : Prop :=
  absorbed (hmac_sha c) (zip_with Z.lxor (key_block k) (replicate 64 0x36) ++ m) /\
  k_opad c = zip_with Z.lxor (key_block k) (replicate 64 0x5C).

Lemma hmac_absorbed_init k : bytes_ok k -> hmac_absorbed (hmac_sha256_init k) k [].
Proof.
  intros Hk. unfold hmac_absorbed, hmac_sha256_init, xor_block. cbn [hmac_sha k_opad].
  pose proof (length_key_block k) as L. pose proof (key_block_ok k Hk) as Hok.
  rewrite IPAD_bytes, xor_words_spec by (done || lia).
  change (8 * 8)%nat with 64%nat. split.
  - rewrite app_nil_r. exact (absorbed_update sha256_init [] _ absorbed_init).
  - rewrite <- IPAD_bytes, pad_diff_bytes, xor_words_spec.
    + change (replicate (8 * 8) (Z.lxor 0x36 0x5C))
        with (zip_with Z.lxor (replicate 64 0x36) (replicate 64 0x5C)).
      by apply zip_with_lxor_twice.
    + by rewrite length_zip_with, L.
    + apply bytes_ok_lxor; [done|]. apply Forall_replicate. lia.
    + change (Z.lxor 0x36 0x5C) with 106. lia.
Qed.

Lemma hmac_absorbed_update c k m p :
  hmac_absorbed c k m -> hmac_absorbed (hmac_sha256_update c p) k (m ++ p).
Proof. intros [H E]. split; [|done]. rewrite app_assoc. by apply absorbed_update. Qed.

Lemma zip_with_pad (f : Z -> Z -> Z) l b n : (length l <= n)%nat ->
  zip_with f (l ++ replicate (n - length l) 0) (replicate n b) =
  (fun i => f (nth i l 0) b) <$> seq 0 n.
Proof.
  revert n. induction l as [|a l IH]; intros n L.
  - cbn [length app]. rewrite Nat.sub_0_r. clear L. generalize 0%nat as j.
    induction n as [|n IHn]; intros j; [done|]. cbn. rewrite (IHn (S j)). by destruct j.
  - destruct n as [|n]; cbn in L; [lia|]. cbn [length app Nat.sub replicate zip_with seq].
    rewrite fmap_cons, <- seq_shift, <- list_fmap_compose, IH by lia. done.
Qed.

(** The code's block is RFC 2104's K, a byte at a time. *)
Lemma key_block_pad k b :
  zip_with Z.lxor (key_block k) (replicate 64 b) =
  (fun i => Z.lxor (nth i (Spec.hmac_key k) 0) b) <$> seq 0 64.
Proof.
  unfold key_block, Spec.hmac_key, HMAC_SHA256_BLOCKSIZE. rewrite sha256_spec.
  destruct (Nat.ltb_spec 64 (length k)) as [L|L].
  - rewrite decide_False by lia. apply zip_with_pad. rewrite <- sha256_spec, length_sha256. lia.
  - rewrite decide_True by done. by apply zip_with_pad.
Qed.

Lemma hmac_sha256_done_spec c k m : hmac_absorbed c k m -> hmac_sha256_done c = Spec.hmac k m.
Proof.
  intros [H E]. unfold hmac_sha256_done, Spec.hmac. rewrite <- !key_block_pad.
  rewrite (sha256_done_absorbed _ _ H), E. apply sha256_done_absorbed, absorbed_update.
  exact (absorbed_update sha256_init [] _ absorbed_init).
Qed.

Lemma hmac_sha256_spec k d : bytes_ok k -> hmac_sha256 k d = Spec.hmac k d.
Proof.
  intros Hk. apply hmac_sha256_done_spec.
  exact (hmac_absorbed_update _ _ [] d (hmac_absorbed_init k Hk)).
Qed.

Lemma length_hmac k d : length (Spec.hmac k d) = 32%nat.
Proof. unfold Spec.hmac. rewrite <- sha256_spec. apply length_sha256. Qed.

Lemma hmac_ok k d : bytes_ok (Spec.hmac k d).
Proof. unfold Spec.hmac. rewrite <- sha256_spec. apply sha256_ok. Qed.

Lemma hkdf_block_spec prk t info c : bytes_ok prk ->
  hkdf_block prk t info c = Spec.hmac prk (t ++ info ++ [c]).
Proof.
  intros H. unfold hkdf_block. rewrite app_assoc. apply hmac_sha256_done_spec.
  do 2 apply hmac_absorbed_update. exact (hmac_absorbed_update _ _ [] t (hmac_absorbed_init _ H)).
Qed.

Lemma length_T prk info n : length (Spec.T prk info (S n)) = 32%nat.
Proof. apply length_hmac. Qed.

(** The loop entered with T(n) and the counter n yields T(n) | T(n+1) | ... cut to size. *)
Lemma hkdf_loop_spec prk info (m n fuel size : nat) :
  bytes_ok prk -> (n + m < 255)%nat -> (size <= 32 * S m)%nat -> (size <= 32 * S fuel)%nat ->
  hkdf_loop fuel prk info (Spec.T prk info (S n)) (Z.of_nat (S n)) size
  = take size (concat (Spec.T prk info <$> seq (S n) (S m))).
Proof.
  intros Hprk. revert n fuel size. induction m as [|m IH]; intros n fuel size Hn Hm Hf.
  - assert ((32 <? size)%nat = false) as E by (apply Nat.ltb_ge; lia).
    cbn [seq fmap list_fmap concat]. rewrite app_nil_r.
    destruct fuel; cbn [hkdf_loop]; [|rewrite E]; done.
  - destruct (Nat.ltb_spec 32 size) as [L|L].
    + destruct fuel as [|fuel]; [lia|]. cbn [hkdf_loop].
      assert ((32 <? size)%nat = true) as -> by by apply Nat.ltb_lt.
      assert (u8 (Z.of_nat (S n) + 1) = Z.of_nat (S (S n))) as ->
        by (rewrite u8_small; [lia|unfold fits; lia]).
      rewrite hkdf_block_spec by done.
      change (Spec.hmac prk (Spec.T prk info (S n) ++ info ++ [Z.of_nat (S (S n))]))
        with (Spec.T prk info (S (S n))).
      cbv zeta. rewrite IH by lia. change (seq (S n) (S (S m))) with (S n :: seq (S (S n)) (S m)).
      rewrite fmap_cons. cbn [concat]. rewrite take_app, length_T.
      rewrite (take_ge (Spec.T prk info (S n))) by (rewrite length_T; lia). done.
    + assert ((32 <? size)%nat = false) as E by (apply Nat.ltb_ge; lia).
      change (seq (S n) (S (S m))) with (S n :: seq (S (S n)) (S m)).
      rewrite fmap_cons. cbn [concat]. rewrite take_app_le by (rewrite length_T; lia).
      destruct fuel; cbn [hkdf_loop]; [|rewrite E]; done.
Qed.

Lemma hkdf_small okm_size s k info : bytes_ok s -> (okm_size < 255 * 32)%nat ->
  hkdf_sha256 okm_size s k info = Some (Spec.okm okm_size s k info).
Proof.
  intros Hs L. unfold hkdf_sha256. rewrite c_assert_true by by apply Nat.ltb_lt. f_equal.
  rewrite hmac_sha256_spec by done. unfold Spec.okm. set (prk := Spec.hmac s k).
  assert (bytes_ok prk) as Hprk by apply hmac_ok.
  assert (hmac_sha256_done (hmac_sha256_update (hmac_sha256_update (hmac_sha256_init prk) info) [1])
    = Spec.T prk info 1) as ->.
  { apply (hmac_sha256_done_spec _ prk (info ++ [1])), hmac_absorbed_update.
    exact (hmac_absorbed_update _ _ [] info (hmac_absorbed_init _ Hprk)). }
  exact (hkdf_loop_spec prk info 254 0 okm_size okm_size Hprk ltac:(lia) ltac:(lia) ltac:(lia)).
Qed.

(** Less output is a prefix of more. *)
Lemma hkdf_prefix m n s k info : bytes_ok s -> (m <= n < 255 * 32)%nat ->
  hkdf_sha256 m s k info = take m <$> hkdf_sha256 n s k info.
Proof.
  intros Hs L. rewrite !hkdf_small by (done || lia). simpl. unfold Spec.okm.
  by rewrite take_take, Nat.min_l by lia.
Qed.

(** C34. [hkdf_sha256] is HKDF: for every output size the assertion admits, its result is
    the first [okm_size] bytes of T(1) | T(2) | ... of RFC 5869 over the HMAC of RFC
    2104 (keys of more than 64 bytes hashed first) and the SHA-256 of FIPS 180-4; at
    larger sizes it aborts. *)
Theorem hkdf_sha256_spec okm_size s k info : bytes_ok s ->
  hkdf_sha256 okm_size s k info =
  if (okm_size <? 255 * 32)%nat then Some (Spec.okm okm_size s k info) else None.
Proof.
  intros Hs. destruct (Nat.ltb_spec okm_size (255 * 32)) as [L|L]; [by apply hkdf_small|].
  unfold hkdf_sha256. by rewrite (proj2 (Nat.ltb_ge _ _)).
Qed.

Definition rfc5869_range (first : nat) : bytes := Z.of_nat <$> seq first 80.

(** RFC 5869, test case 2 (a salt of 80 bytes, which HMAC hashes) and test case 3. *)
Lemma hkdf_sha256_spec_witness :
  hkdf_sha256 82 (rfc5869_range 0x60) (rfc5869_range 0) (rfc5869_range 0xb0) =
    Some (Spec.okm 82 (rfc5869_range 0x60) (rfc5869_range 0) (rfc5869_range 0xb0)) /\
  hkdf_sha256 82 (rfc5869_range 0x60) (rfc5869_range 0) (rfc5869_range 0xb0) = Some (be_bytes 82
    0xb11e398dc80327a1c8e7f78c596a49344f012eda2d4efad8a050cc4c19afa97c59045a99cac7827271cb41c65e590e09da3275600c2f09b8367793a9aca3db71cc30c58179ec3e87c14c01d5c1f3434f1d87) /\
  hkdf_sha256 42 [] (replicate 22 0x0b) [] = Some (Spec.okm 42 [] (replicate 22 0x0b) []) /\
  hkdf_sha256 42 [] (replicate 22 0x0b) [] = Some (be_bytes 42
    0x8da4e775a563c18f715f802a063c5a31b8a11f5c5ee1879ec3454e5f3c738d2d9d201395faa4b61a96c8).
Proof.
  assert (bytes_ok (rfc5869_range 0x60)) as H
    by (apply Forall_fmap, Forall_seq; intros j Hj; unfold compose; lia).
  split; [exact (hkdf_sha256_spec 82 (rfc5869_range 0x60) (rfc5869_range 0) (rfc5869_range 0xb0) H)|].
  split; [vm_compute; reflexivity|].
  split; [exact (hkdf_sha256_spec 42 [] (replicate 22 0x0b) [] (Forall_nil_2 _))|].
  vm_compute. reflexivity.
Defined.
