(* ===== verification/LnScript.v ===== *)
(** * The scripts of the Lightning node (src/lightning/bitcoin/script.c, signature.c)

    The builders of output scripts, witness scripts and witnesses, and the recognisers of
    output types. *)
From S2P Require Import Prelude Sha256 Ripemd160 Secp Ecdsa BitcoinTx.
Local Open Scope Z_scope.

Definition OP_0 : Z := 0x00.
Definition OP_PUSHBYTES (val : Z) : Z := val.
Definition OP_PUSHDATA1 : Z := 0x4C.
Definition OP_PUSHDATA2 : Z := 0x4D.
Definition OP_PUSHDATA4 : Z := 0x4E.
Definition OP_IF : Z := 0x63.
Definition OP_NOTIF : Z := 0x64.
Definition OP_ELSE : Z := 0x67.
Definition OP_ENDIF : Z := 0x68.
Definition OP_RETURN : Z := 0x6a.
Definition OP_DROP : Z := 0x75.
Definition OP_DUP : Z := 0x76.
Definition OP_SWAP : Z := 0x7c.
Definition OP_EQUAL : Z := 0x87.
Definition OP_EQUALVERIFY : Z := 0x88.
Definition OP_SIZE : Z := 0x82.
Definition OP_CHECKSIG : Z := 0xAC.
Definition OP_CHECKMULTISIG : Z := 0xAE.
Definition OP_HASH160 : Z := 0xA9.
Definition OP_CHECKSEQUENCEVERIFY : Z := 0xB2.
Definition OP_CHECKLOCKTIMEVERIFY : Z := 0xB1.

Definition hash160 (mem : bytes) : bytes := ripemd160 (sha256 mem).

(** ** Appending to a script *)
Definition add (mem script : bytes) : bytes := script ++ mem.
Definition add_op (op : Z) (script : bytes) : bytes := add [u8 op] script.

Definition add_push_bytes (mem script : bytes) : bytes :=
  let len := Z.of_nat (length mem) in
  let script :=
    if len <? 76 then add_op (OP_PUSHBYTES len) script
    else if len <? 256 then add [u8 len] (add_op OP_PUSHDATA1 script)
    else if len <? 65536 then add (le_bytes 2 len) (add_op OP_PUSHDATA2 script)
    else add (le_bytes 4 len) (add_op OP_PUSHDATA4 script) in
  add mem script.

Definition add_number (num : Z) (script : bytes) : bytes :=
  if num =? 0 then add_op 0 script
  else if num <=? 16 then add_op (0x50 + num) script
  else
    let n := le_bytes 8 num in
    if num <=? 0x0000007F then add_push_bytes (take 1 n) script
    else if num <=? 0x00007FFF then add_push_bytes (take 2 n) script
    else if num <=? 0x007FFFFF then add_push_bytes (take 3 n) script
    else if num <=? 0x7FFFFFFF then add_push_bytes (take 4 n) script
    else add_push_bytes (take 5 n) script.

(** A script from the calls that append to it. *)
Definition script_of (calls : list (bytes -> bytes)) : bytes := foldl (fun s f => f s) [] calls.

(** ** Signatures *)

Definition sig_at (sig : bytes) (i : Z) : Z := default 0 (sig !! Z.to_nat i).

Definition IsValidSignatureEncoding (sig : bytes) (len : Z) : bool :=
  if len <? 9 then false
  else if 73 <? len then false
  else if negb (sig_at sig 0 =? 0x30) then false
  else if negb (sig_at sig 1 =? len - 3) then false
  else
    let lenR := sig_at sig 3 in
    if len <=? 5 + lenR then false
    else
      let lenS := sig_at sig (5 + lenR) in
      if negb (lenR + lenS + 7 =? len) then false
      else if negb (sig_at sig 2 =? 0x02) then false
      else if lenR =? 0 then false
      else if negb (Z.land (sig_at sig 4) 0x80 =? 0) then false
      else if (1 <? lenR) && (sig_at sig 4 =? 0x00) && (Z.land (sig_at sig 5) 0x80 =? 0) then false
      else if negb (sig_at sig (lenR + 4) =? 0x02) then false
      else if lenS =? 0 then false
      else if negb (Z.land (sig_at sig (lenR + 6)) 0x80 =? 0) then false
      else if (1 <? lenS) && (sig_at sig (lenR + 6) =? 0x00)
              && (Z.land (sig_at sig (lenR + 7)) 0x80 =? 0) then false
      else true.

Section Builders.
Context `{Signatures}.

(** [None]: the [assert] fails. *)
Definition signature_to_der (sig : signature) : option bytes :=
  let der := secp256k1_ecdsa_signature_serialize_der sig in
  assert! IsValidSignatureEncoding der (Z.of_nat (length der) + 1); Some der.

Definition add_push_key (key : pubkey) (script : bytes) : bytes :=
  add_push_bytes (pubkey_to_der key) script.

Definition stack_key (key : pubkey) : bytes := pubkey_to_der key.

(** The DER form with the signature type appended. *)
Definition stack_sig (sig : signature) : option bytes :=
  der ← signature_to_der sig; Some (der ++ [SIGHASH_ALL]).

Definition add_push_sig (sig : signature) (script : bytes) : option bytes :=
  der ← stack_sig sig; Some (add_push_bytes der script).

Definition stack_preimage (preimage : bytes) : bytes := preimage.

(** Only single bytes: [None] is the failing [assert]. *)
Definition stack_number (num : Z) : option bytes :=
  if num =? 0 then Some [] else assert! u8 num =? num; Some [u8 num].

(** ** Output scripts *)

Definition bitcoin_redeem_2of2 (key1 key2 : pubkey) : bytes :=
  script_of (
    [add_number 2]
    ++ match pubkey_cmp key1 key2 with
       | Lt => [add_push_key key1; add_push_key key2]
       | _ => [add_push_key key2; add_push_key key1]
       end
    ++ [add_number 2; add_op OP_CHECKMULTISIG]).

Definition scriptpubkey_p2sh_hash (redeemhash : bytes) : bytes :=
  script_of [add_op OP_HASH160; add_push_bytes redeemhash; add_op OP_EQUAL].

Definition scriptpubkey_p2sh (redeemscript : bytes) : bytes :=
  scriptpubkey_p2sh_hash (hash160 redeemscript).

Definition scriptpubkey_p2pkh (addr : bytes) : bytes :=
  script_of [add_op OP_DUP; add_op OP_HASH160; add_push_bytes addr; add_op OP_EQUALVERIFY;
             add_op OP_CHECKSIG].

Definition scriptpubkey_opreturn : bytes := script_of [add_op OP_RETURN].

Definition bitcoin_redeem_p2pkh (key : pubkey) (sig : signature) : option bytes :=
  script ← add_push_sig sig []; Some (add_push_key key script).

Definition bitcoin_redeem_p2sh_p2wpkh (key : pubkey) : bytes :=
  script_of [add_number 0; add_push_bytes (pubkey_to_hash160 key)].

Definition bitcoin_scriptsig_p2sh_p2wpkh (key : pubkey) : bytes :=
  script_of [add_push_bytes (bitcoin_redeem_p2sh_p2wpkh key)].

Definition bitcoin_witness_p2wpkh (sig : signature) (key : pubkey) : option (list bytes) :=
  s ← stack_sig sig; Some [s; stack_key key].

Definition scriptpubkey_p2wsh (witnessscript : bytes) : bytes :=
  script_of [add_op OP_0; add_push_bytes (sha256 witnessscript)].

Definition scriptpubkey_p2wpkh (key : pubkey) : bytes :=
  script_of [add_op OP_0; add_push_bytes (pubkey_to_hash160 key)].

Definition scriptpubkey_p2wpkh_derkey (der : bytes) : bytes :=
  script_of [add_op OP_0; add_push_bytes (hash160 (take 33 der))].

Definition scriptpubkey_witness_raw (version : Z) (wprog : bytes) : bytes :=
  script_of [add_number version; add_push_bytes wprog].

Definition bitcoin_witness_2of2 (sig1 sig2 : signature) (key1 key2 : pubkey)
    : option (list bytes) :=
  zero ← stack_number 0;
  s1 ← stack_sig sig1;
  s2 ← stack_sig sig2;
  Some (zero :: match pubkey_cmp key1 key2 with
                | Lt => [s1; s2]
                | _ => [s2; s1]
                end ++ [bitcoin_redeem_2of2 key1 key2]).

Definition p2wpkh_scriptcode (key : pubkey) : bytes :=
  script_of [add_op OP_DUP; add_op OP_HASH160; add_push_bytes (pubkey_to_hash160 key);
             add_op OP_EQUALVERIFY; add_op OP_CHECKSIG].

(** ** Recognisers

    The address copied out when the function returns true. *)
Definition BITCOIN_SCRIPTPUBKEY_P2PKH_LEN : nat := 1 + 1 + 1 + 20 + 1 + 1.
Definition BITCOIN_SCRIPTPUBKEY_P2SH_LEN : nat := 1 + 1 + 20 + 1.
Definition BITCOIN_SCRIPTPUBKEY_P2WPKH_LEN : nat := 1 + 1 + 20.
Definition BITCOIN_SCRIPTPUBKEY_P2WSH_LEN : nat := 1 + 1 + 32.

Definition byte_is (script : bytes) (i : nat) (b : Z) : bool := bool_decide (script !! i = Some b).

Definition is_p2pkh (script : bytes) : option bytes :=
  if negb (length script =? BITCOIN_SCRIPTPUBKEY_P2PKH_LEN)%nat then None
  else if negb (byte_is script 0 OP_DUP) then None
  else if negb (byte_is script 1 OP_HASH160) then None
  else if negb (byte_is script 2 (OP_PUSHBYTES 20)) then None
  else if negb (byte_is script 23 OP_EQUALVERIFY) then None
  else if negb (byte_is script 24 OP_CHECKSIG) then None
  else Some (take 20 (drop 3 script)).

Definition is_p2sh (script : bytes) : option bytes :=
  if negb (length script =? BITCOIN_SCRIPTPUBKEY_P2SH_LEN)%nat then None
  else if negb (byte_is script 0 OP_HASH160) then None
  else if negb (byte_is script 1 (OP_PUSHBYTES 20)) then None
  else if negb (byte_is script 22 OP_EQUAL) then None
  else Some (take 20 (drop 2 script)).

Definition is_p2wsh (script : bytes) : option bytes :=
  if negb (length script =? BITCOIN_SCRIPTPUBKEY_P2WSH_LEN)%nat then None
  else if negb (byte_is script 0 OP_0) then None
  else if negb (byte_is script 1 (OP_PUSHBYTES 32)) then None
  else Some (take 32 (drop 2 script)).

Definition is_p2wpkh (script : bytes) : option bytes :=
  if negb (length script =? BITCOIN_SCRIPTPUBKEY_P2WPKH_LEN)%nat then None
  else if negb (byte_is script 0 OP_0) then None
  else if negb (byte_is script 1 (OP_PUSHBYTES 20)) then None
  else Some (take 20 (drop 2 script)).

(** ** Witness scripts *)

Definition bitcoin_witness_sig_and_element (sig : signature) (elem witnessscript : bytes)
    : option (list bytes) :=
  s ← stack_sig sig; Some [s; elem; witnessscript].

Definition bitcoin_wscript_to_local (to_self_delay : Z) (revocation_pubkey local_delayedkey : pubkey)
    : bytes :=
  script_of [
    add_op OP_IF;
    add_push_key revocation_pubkey;
    add_op OP_ELSE;
    add_number to_self_delay;
    add_op OP_CHECKSEQUENCEVERIFY;
    add_op OP_DROP;
    add_push_key local_delayedkey;
    add_op OP_ENDIF;
    add_op OP_CHECKSIG].

Definition bitcoin_wscript_htlc_offer_ripemd160 (localhtlckey remotehtlckey : pubkey)
    (payment_ripemd : bytes) (revocationkey : pubkey) : bytes :=
  script_of [
    add_op OP_DUP;
    add_op OP_HASH160;
    add_push_bytes (pubkey_to_hash160 revocationkey);
    add_op OP_EQUAL;
    add_op OP_IF;
    add_op OP_CHECKSIG;
    add_op OP_ELSE;
    add_push_key remotehtlckey;
    add_op OP_SWAP;
    add_op OP_SIZE;
    add_number 32;
    add_op OP_EQUAL;
    add_op OP_NOTIF;
    add_op OP_DROP;
    add_number 2;
    add_op OP_SWAP;
    add_push_key localhtlckey;
    add_number 2;
    add_op OP_CHECKMULTISIG;
    add_op OP_ELSE;
    add_op OP_HASH160;
    add_push_bytes payment_ripemd;
    add_op OP_EQUALVERIFY;
    add_op OP_CHECKSIG;
    add_op OP_ENDIF;
    add_op OP_ENDIF].

Definition bitcoin_wscript_htlc_offer (localhtlckey remotehtlckey : pubkey) (payment_hash : bytes)
    (revocationkey : pubkey) : bytes :=
  bitcoin_wscript_htlc_offer_ripemd160 localhtlckey remotehtlckey (ripemd160 payment_hash)
    revocationkey.

(** [locktime] is the field of the [struct abs_locktime]. *)
Definition bitcoin_wscript_htlc_receive_ripemd (locktime : Z) (localhtlckey remotehtlckey : pubkey)
    (payment_ripemd : bytes) (revocationkey : pubkey) : bytes :=
  script_of [
    add_op OP_DUP;
    add_op OP_HASH160;
    add_push_bytes (pubkey_to_hash160 revocationkey);
    add_op OP_EQUAL;
    add_op OP_IF;
    add_op OP_CHECKSIG;
    add_op OP_ELSE;
    add_push_key remotehtlckey;
    add_op OP_SWAP;
    add_op OP_SIZE;
    add_number 32;
    add_op OP_EQUAL;
    add_op OP_IF;
    add_op OP_HASH160;
    add_push_bytes payment_ripemd;
    add_op OP_EQUALVERIFY;
    add_number 2;
    add_op OP_SWAP;
    add_push_key localhtlckey;
    add_number 2;
    add_op OP_CHECKMULTISIG;
    add_op OP_ELSE;
    add_op OP_DROP;
    add_number locktime;
    add_op OP_CHECKLOCKTIMEVERIFY;
    add_op OP_DROP;
    add_op OP_CHECKSIG;
    add_op OP_ENDIF;
    add_op OP_ENDIF].

Definition bitcoin_wscript_htlc_receive (locktime : Z) (localhtlckey remotehtlckey : pubkey)
    (payment_hash : bytes) (revocationkey : pubkey) : bytes :=
  bitcoin_wscript_htlc_receive_ripemd locktime localhtlckey remotehtlckey (ripemd160 payment_hash)
    revocationkey.

Definition bitcoin_witness_htlc_timeout_tx (localhtlcsig remotehtlcsig : signature) (wscript : bytes)
    : option (list bytes) :=
  zero ← stack_number 0;
  r ← stack_sig remotehtlcsig;
  l ← stack_sig localhtlcsig;
  Some [zero; r; l; zero; wscript].

Definition bitcoin_witness_htlc_success_tx (localhtlcsig remotesig : signature)
    (preimage wscript : bytes) : option (list bytes) :=
  zero ← stack_number 0;
  r ← stack_sig remotesig;
  l ← stack_sig localhtlcsig;
  Some [zero; r; l; stack_preimage preimage; wscript].

Definition bitcoin_wscript_htlc_tx (to_self_delay : Z) (revocation_pubkey local_delayedkey : pubkey)
    : bytes :=
  script_of [
    add_op OP_IF;
    add_push_key revocation_pubkey;
    add_op OP_ELSE;
    add_number to_self_delay;
    add_op OP_CHECKSEQUENCEVERIFY;
    add_op OP_DROP;
    add_push_key local_delayedkey;
    add_op OP_ENDIF;
    add_op OP_CHECKSIG].

Definition scripteq (s1 s2 : bytes) : bool :=
  if negb (length s1 =? length s2)%nat then false
  else match memcmp s1 s2 with
       | Eq => true
       | _ => false
       end.
End Builders.

(** ** What the pushes write

    Each appending call writes the same bytes wherever the script is. *)
Definition push_of (mem : bytes) : bytes := add_push_bytes mem [].
Definition number_of (num : Z) : bytes := add_number num [].

Lemma add_push_bytes_app mem script : add_push_bytes mem script = script ++ push_of mem.
Proof.
  unfold push_of, add_push_bytes, add_op, add. repeat case_match; by rewrite <- ?app_assoc.
Qed.

Lemma add_number_app num script : add_number num script = script ++ number_of num.
Proof.
  unfold number_of, add_number. repeat case_match; rewrite ?(add_push_bytes_app _ script); done.
Qed.

Lemma memcmp_refl a : memcmp a a = Eq.
Proof. induction a as [|x a IH]; [done|]. simpl. by rewrite Z.compare_refl. Qed.

Lemma scripteq_spec s1 s2 : scripteq s1 s2 = true <-> s1 = s2.
Proof.
  unfold scripteq. destruct (Nat.eqb_spec (length s1) (length s2)) as [L|L]; cbn [negb].
  - destruct (memcmp s1 s2) eqn:E; split; try done.
    + intros _. by apply memcmp_eq.
    + intros ->. by rewrite memcmp_refl in E.
    + intros ->. by rewrite memcmp_refl in E.
  - split; [done|]. by intros ->.
Qed.
