(* ===== verification/ScriptRun.v ===== *)
(** * Running the node's scripts in the interpreter

    What the interpreter of Bitcoin Core does with the pieces that the builders of
    script.c write: one rule for an opcode, one for a push, one for a number. *)
From S2P Require Import Prelude Sha256 Ripemd160 CoreSha256 CoreHash Secp Ecdsa BitcoinTx.
From S2P Require Import CScript Interp InterpFacts LnScript.
Local Open Scope Z_scope.
Local Open Scope script_scope.

(** ** Reading the pieces *)

Lemma GetScriptOp_op op pc : v_PUSHDATA4 < op -> GetScriptOp (op :: pc) = (Some (op, []), pc).
Proof. intros Hop. unfold GetScriptOp. destruct (Z.leb_spec op v_PUSHDATA4); [lia|done]. Qed.

Lemma GetScriptOp_push d pc : (length d <= 75)%nat ->
  GetScriptOp (Z.of_nat (length d) :: d ++ pc) = (Some (Z.of_nat (length d), d), pc).
Proof.
  intros L. unfold GetScriptOp, v_PUSHDATA4, v_PUSHDATA1.
  destruct (Z.leb_spec (Z.of_nat (length d)) 0x4e); [|lia].
  destruct (Z.ltb_spec (Z.of_nat (length d)) 0x4c); [|lia]. rewrite length_app.
  destruct (Z.ltb_spec (Z.of_nat (length d + length pc)) (Z.of_nat (length d))); [lia|].
  by rewrite Nat2Z.id, take_app_length, drop_app_length.
Qed.

Lemma push_of_short d : (length d <= 75)%nat -> push_of d = Z.of_nat (length d) :: d.
Proof.
  intros L. unfold push_of, add_push_bytes, add_op, add, OP_PUSHBYTES.
  destruct (Z.ltb_spec (Z.of_nat (length d)) 76); [|lia]. cbn. rewrite u8_small; [done|].
  unfold fits. lia.
Qed.

(** ** Numbers *)

Lemma le_bytes_snoc j k : 0 <= k -> le_bytes (S j) k = le_bytes j k ++ [(k / 256 ^ Z.of_nat j) mod 256].
Proof.
  revert k. induction j as [|j IH]; intros k Hk; [cbn; by rewrite Z.div_1_r|].
  change (le_bytes (S (S j)) k) with (k mod 256 :: le_bytes (S j) (k / 256)).
  rewrite IH by (apply Z.div_pos; lia).
  change (le_bytes (S j) k) with (k mod 256 :: le_bytes j (k / 256)). cbn [app].
  rewrite pow256_S, Z.div_div by (pose proof (pow256_pos j); lia). done.
Qed.

(** A positive number in [S j] bytes whose top bit is clear is its encoding, if fewer
    bytes would not do. *)
Lemma le_bytes_serialize j k : (S j <= 8)%nat -> 0 < k < 2 ^ (8 * Z.of_nat j + 7) ->
  (forall i, j = S i -> 2 ^ (8 * Z.of_nat i + 7) <= k) -> le_bytes (S j) k = serialize k.
Proof.
  intros Hj Hk Hmin. pose proof (pow256_pos j) as P. rewrite Z.pow_add_r in Hk by lia.
  rewrite <- pow_bytes in Hk. change (2 ^ 7) with 128 in Hk.
  set (b := k / 256 ^ Z.of_nat j).
  assert (0 <= b < 128) as Hb by (split; [apply Z.div_pos; lia|apply Z.div_lt_upper_bound; lia]).
  assert (le_bytes (S j) k = le_bytes j k ++ [b]) as E
    by (rewrite le_bytes_snoc, (Z.mod_small b) by lia; done).
  assert (set_vch (le_bytes (S j) k) = k) as V.
  { rewrite E, set_vch_pos, le_val_le_bytes, length_le_bytes by (done || apply le_bytes_ok). unfold b.
    pose proof (Z.div_mod k (256 ^ Z.of_nat j)). lia. }
  rewrite <- V at 2. rewrite serialize_set_vch; [done|apply le_bytes_ok| |by rewrite length_le_bytes].
  right. exists (le_bytes j k), b. split; [done|].
  destruct (decide (b = 0)) as [Hb0|]; [right|left; lia]. unfold b in Hb0.
  destruct j as [|i]; [change (256 ^ Z.of_nat 0) with 1 in Hb0; rewrite Z.div_1_r in Hb0; lia|].
  exists (le_bytes i k), (k / 256 ^ Z.of_nat i). specialize (Hmin i eq_refl).
  apply Z.div_small_iff in Hb0; [|lia]. destruct Hb0 as [Hb0|]; [|lia].
  rewrite pow256_S in Hb0. pose proof (pow256_pos i). rewrite Z.pow_add_r, <- pow_bytes in Hmin by lia.
  change (2 ^ 7) with 128 in Hmin.
  assert (128 <= k / 256 ^ Z.of_nat i < 256) as B
    by (split; [apply Z.div_le_lower_bound; lia|apply Z.div_lt_upper_bound; lia]).
  rewrite le_bytes_snoc, Z.mod_small by lia. split; [done|lia].
Qed.

(** What [add_number] writes: an opcode for small numbers, else a push of the encoding. *)
Lemma number_of_spec k : fits 32 k ->
  number_of k = if (1 <=? k) && (k <=? 16) then [0x50 + k] else push_of (serialize k).
Proof.
  intros [H0 H1]. unfold number_of, add_number.
  destruct (Z.eqb_spec k 0) as [-> | Hz]; [done|].
  destruct (Z.leb_spec 1 k); [|lia]. destruct (Z.leb_spec k 16); cbn [andb].
  { unfold add_op, add. rewrite u8_small; [done|]. unfold fits. lia. }
  repeat match goal with |- context [k <=? ?c] => destruct (Z.leb_spec k c) end;
    unfold push_of; f_equal;
    [apply (le_bytes_serialize 0)|apply (le_bytes_serialize 1)|apply (le_bytes_serialize 2)
    |apply (le_bytes_serialize 3)|apply (le_bytes_serialize 4)];
    try lia; simpl; try lia; intros [|[|[|[|?]]]] ?; simpl; lia.
Qed.

(** The push of a number above 16 is the one the minimality rule asks for. *)
Lemma number_minimal k : 16 < k -> (length (serialize k) <= 5)%nat -> k < 2 ^ 63 ->
  CheckMinimalPush (serialize k) (Z.of_nat (length (serialize k))) = true.
Proof.
  intros Hk L Hb. destruct (serialize_spec k ltac:(lia)) as (O & M & V). unfold CheckMinimalPush.
  destruct (serialize k) as [|b [|c l]] eqn:E; [by rewrite <- V in Hk| |].
  - cbn [length]. change (Z.of_nat 1 =? 1) with true. cbn [andb]. change (at_ [b] 0) with b.
    apply Forall_cons_1 in O as [Hb' _].
    assert (bytes_ok []) as N by constructor. destruct (decide (b < 128)).
    + pose proof (set_vch_pos [] b N ltac:(lia)) as P. cbn [app length] in P. rewrite V in P.
      change (le_val []) with 0 in P. change (256 ^ Z.of_nat 0) with 1 in P.
      destruct (Z.leb_spec 1 b), (Z.leb_spec b 16), (Z.eqb_spec b 0x81); try lia; done.
    + pose proof (set_vch_neg [] (b - 128) N ltac:(lia)) as P. cbn [app length] in P.
      replace (b - 128 + 128) with b in P by lia. rewrite V in P.
      change (le_val []) with 0 in P. change (256 ^ Z.of_nat 0) with 1 in P. lia.
  - set (z := Z.of_nat (length (b :: c :: l))). assert (2 <= z <= 5) as Z2 by (unfold z; simpl in *; lia).
    destruct (Z.eqb_spec z 1); [lia|]. cbn [andb]. destruct (Z.leb_spec z 75); [|lia]. apply Z.eqb_refl.
Qed.

Section Run.
Context `{Signatures} `{BaseSignatureChecker}.
Implicit Types (s a : list bytes) (v : list bool) (n flags : Z) (pc code : bytes).

Definition executing v : bool := forallb id v.

(** The check at the end of a turn, and the rest of the loop. *)
Definition next flags sv pc (m : machine) : result machine :=
  require! Z.of_nat (length (stack m) + length (altstack m)) <=? MAX_STACK_SIZE, SCRIPT_ERR_STACK_SIZE;
  eval flags sv pc m.

(** An opcode behind the pushes: counted if it is above [OP_16], executed or skipped. *)
Lemma eval_op flags sv op pc s a v n code :
  v_PUSHDATA4 < op -> disabled op = false -> is_codeseparator op = false ->
  eval flags sv (op :: pc) (Machine s a v n code) =
    let n' := if v_OP_16 <? op then n + 1 else n in
    if (v_OP_16 <? op) && (MAX_OPS_PER_SCRIPT <? n') then Fail SCRIPT_ERR_OP_COUNT
    else if executing v || (v_OP_IF <=? op) && (op <=? v_OP_ENDIF)
    then let! m := exec_op flags sv (executing v) pc op (Machine s a v n' code) in next flags sv pc m
    else next flags sv pc (Machine s a v n' code).
Proof using.
  intros Hop Hd Hc. rewrite eval_unfold by done. unfold eval_step.
  rewrite GetScriptOp_op, Hd, Hc by done. unfold executing. cbn [vfExec length].
  replace (op <=? v_PUSHDATA4) with false by (symmetry; apply Z.leb_gt; lia).
  rewrite andb_false_r. cbn [negb andb]. change (Z.of_nat 0 <=? MAX_SCRIPT_ELEMENT_SIZE) with true.
  destruct (v_OP_16 <? op); cbn [andb negb set_nOpCount nOpCount stack altstack vfExec codehash].
  - destruct (MAX_OPS_PER_SCRIPT <? n + 1); cbn [negb]; [done|].
    destruct (forallb id v || _); cbn [result_bind].
    + unfold result_bind. destruct (exec_op _ _ _ _ _ _); [|done]. unfold next. by destruct (_ <=? _).
    + unfold next. by destruct (_ <=? _).
  - destruct (forallb id v || _); cbn [result_bind].
    + unfold result_bind. destruct (exec_op _ _ _ _ _ _); [|done]. unfold next. by destruct (_ <=? _).
    + unfold next. by destruct (_ <=? _).
Qed.

(** A push of at most 75 bytes. *)
Lemma eval_push flags sv d pc s a v n code : (length d <= 75)%nat ->
  CheckMinimalPush d (Z.of_nat (length d)) = true ->
  eval flags sv (push_of d ++ pc) (Machine s a v n code) =
    next flags sv pc (Machine (if executing v then d :: s else s) a v n code).
Proof using.
  intros L M. rewrite push_of_short by done. rewrite eval_unfold by done. unfold eval_step.
  cbn [app]. rewrite GetScriptOp_push by done.
  assert (disabled (Z.of_nat (length d)) = false /\ is_codeseparator (Z.of_nat (length d)) = false) as [-> ->].
  { do 76 (destruct d; [done|]). simpl in L. lia. }
  destruct (Z.leb_spec (Z.of_nat (length d)) MAX_SCRIPT_ELEMENT_SIZE) as [_|]; [|unfold MAX_SCRIPT_ELEMENT_SIZE in *; lia].
  destruct (Z.ltb_spec v_OP_16 (Z.of_nat (length d))) as [X|_]; [unfold v_OP_16 in X; lia|].
  cbn [andb negb]. rewrite M. cbn [negb]. rewrite andb_false_r. cbn [negb vfExec].
  destruct (Z.leb_spec (Z.of_nat (length d)) v_PUSHDATA4) as [_|]; [|unfold v_PUSHDATA4 in *; lia].
  destruct (Z.leb_spec v_OP_IF (Z.of_nat (length d))) as [X|_]; [unfold v_OP_IF in X; lia|].
  unfold executing. rewrite andb_true_r. cbn [andb]. rewrite orb_false_r.
  destruct (forallb id v); cbn [result_bind]; unfold next; by destruct (_ <=? _).
Qed.

(** A number, pushed by an opcode or by its bytes. *)
Lemma eval_number flags sv k pc s a v n code : fits 32 k ->
  eval flags sv (number_of k ++ pc) (Machine s a v n code) =
    next flags sv pc (Machine (if executing v then serialize k :: s else s) a v n code).
Proof using.
  intros Hk. rewrite number_of_spec by done.
  destruct (Z.leb_spec 1 k) as [L1|L1]; [destruct (Z.leb_spec k 16) as [L2|L2]|]; cbn [andb].
  - cbn [app]. assert (exists op, opcode_of (0x50 + k) = Some op /\
      forall m, exec_op flags sv (executing v) pc (0x50 + k) m = Next (set_stack (serialize k :: stack m) m))
      as (op & Eop & X).
    { assert (forall j, (1 <= j <= 16)%nat -> k = Z.of_nat j -> exists op, opcode_of (0x50 + k) = Some op /\
      forall m, exec_op flags sv (executing v) pc (0x50 + k) m = Next (set_stack (serialize k :: stack m) m))
        as A; [|apply (A (Z.to_nat k)); lia].
      intros j Hj ->. do 17 (destruct j as [|j]; [first [lia | eexists; split; [reflexivity|intros; reflexivity]]|]). lia. }
    rewrite eval_op; [|unfold v_PUSHDATA4; lia| |unfold is_codeseparator; apply Z.eqb_neq; lia].
    + destruct (Z.ltb_spec v_OP_16 (0x50 + k)) as [L|_]; [unfold v_OP_16 in L; lia|]. cbn [andb].
      destruct (Z.leb_spec v_OP_IF (0x50 + k)) as [L|_]; [unfold v_OP_IF in L; lia|].
      cbn [andb]. rewrite orb_false_r. destruct (executing v); [|done]. rewrite X. done.
    + unfold disabled. rewrite Eop.
      enough (negb (disabled (0x50 + k))) as E by (unfold disabled in E; rewrite Eop in E; by destruct op).
      assert (forall j, (1 <= j <= 16)%nat -> k = Z.of_nat j -> negb (disabled (0x50 + k))) as A.
      { intros j Hj ->. do 17 (destruct j as [|j]; [first [lia | done]|]). lia. }
      apply (A (Z.to_nat k)); lia.
  - assert (k < 2 ^ 39) by (unfold fits in Hk; lia).
    pose proof (serialize_length k 5 ltac:(lia) ltac:(change (2 ^ _) with (2 ^ 39); lia)).
    rewrite eval_push; [done|lia|]. apply number_minimal; lia.
  - assert (k = 0) as -> by (unfold fits in Hk; lia). rewrite eval_push; [done|cbn; lia|done].
Qed.

(** ** Rules for the opcodes of the node's scripts *)

Lemma next_inv flags sv pc m r : next flags sv pc m = Next r -> eval flags sv pc m = Next r.
Proof using. unfold next. by destruct (_ <=? _). Qed.

Lemma next_eval flags sv pc m : (length (stack m) + length (altstack m) <= 1000)%nat ->
  next flags sv pc m = eval flags sv pc m.
Proof using.
  intros L. unfold next, MAX_STACK_SIZE. destruct (Z.leb_spec (Z.of_nat (length (stack m) + length (altstack m))) 1000);
    [done|lia].
Qed.

(** An opcode that is counted, while executing or among the conditionals, and one skipped. *)
Lemma ev_exec flags sv op pc s a v n code :
  v_OP_16 < op -> disabled op = false -> is_codeseparator op = false -> n < 201 ->
  executing v || (v_OP_IF <=? op) && (op <=? v_OP_ENDIF) = true ->
  eval flags sv (op :: pc) (Machine s a v n code) =
    (let! m := exec_op flags sv (executing v) pc op (Machine s a v (n + 1) code) in next flags sv pc m).
Proof using.
  intros Ho Hd Hc Hn Hx. rewrite eval_op by (done || unfold v_OP_16, v_PUSHDATA4 in *; lia).
  destruct (Z.ltb_spec v_OP_16 op) as [_|]; [|lia]. cbn [andb]. rewrite Hx.
  unfold MAX_OPS_PER_SCRIPT. destruct (Z.ltb_spec 201 (n + 1)); [lia|done].
Qed.

Lemma ev_skip flags sv op pc s a v n code :
  v_OP_16 < op -> disabled op = false -> is_codeseparator op = false -> n < 201 ->
  executing v || (v_OP_IF <=? op) && (op <=? v_OP_ENDIF) = false ->
  eval flags sv (op :: pc) (Machine s a v n code) = next flags sv pc (Machine s a v (n + 1) code).
Proof using.
  intros Ho Hd Hc Hn Hx. rewrite eval_op by (done || unfold v_OP_16, v_PUSHDATA4 in *; lia).
  destruct (Z.ltb_spec v_OP_16 op) as [_|]; [|lia]. cbn [andb]. rewrite Hx.
  unfold MAX_OPS_PER_SCRIPT. destruct (Z.ltb_spec 201 (n + 1)); [lia|done].
Qed.

(** Signature checks in a witness script. *)
Definition sig_checks (flags : Z) (code sig key : bytes) : Prop :=
  CheckSignatureEncoding sig flags = Next tt /\
  CheckPubKeyEncoding key flags WITNESS_V0 = Next tt /\
  CheckSig sig key code WITNESS_V0 = true.

Lemma op_checksig_true flags s a v n code key m :
  op_checksig flags WITNESS_V0 false (Machine (key :: s) a v n code) = Next m ->
  exists (sig : bytes) s' b, s = sig :: s' /\ m = Machine (vch_bool b :: s') a v n code /\
    (b = true <-> sig_checks flags code sig key).
Proof using.
  unfold op_checksig, sig_checks. cbn [stack]. intros E. destruct s as [|sig s]; [done|]. cbn in E.
  destruct (CheckSignatureEncoding sig flags) as [[]|] eqn:E1; [|done].
  destruct (CheckPubKeyEncoding key flags WITNESS_V0) as [[]|] eqn:E2; [|done]. cbn in E.
  destruct (negb _) in E; [|done]. simplify_eq. eexists sig, s, _. split; [done|]. split; [done|].
  split; [done|]. by intros (_ & _ & ->).
Qed.

Lemma op_checksig_ok_run flags s a v n code key sig : sig_checks flags code sig key ->
  op_checksig flags WITNESS_V0 false (Machine (key :: sig :: s) a v n code)
  = Next (Machine (vchTrue :: s) a v n code).
Proof using.
  intros (E1 & E2 & E3). unfold op_checksig. cbn. by rewrite E1, E2, E3.
Qed.

(** 2-of-2: both signatures, in the order of the keys. *)
Lemma multisig_2_true flags code (s1 s2 k1 k2 : bytes) b :
  multisig_loop flags WITNESS_V0 code [s2; s1] [k2; k1] = Next b ->
  b = true <-> sig_checks flags code s1 k1 /\ sig_checks flags code s2 k2.
Proof using.
  unfold sig_checks. cbn. intros E.
  destruct (CheckSignatureEncoding s2 flags) as [[]|]; [|done].
  destruct (CheckPubKeyEncoding k2 flags WITNESS_V0) as [[]|]; [|done]. cbn in E.
  destruct (CheckSig s2 k2 code WITNESS_V0); cbn in E.
  - destruct (CheckSignatureEncoding s1 flags) as [[]|]; [|done].
    destruct (CheckPubKeyEncoding k1 flags WITNESS_V0) as [[]|]; [|done]. cbn in E.
    destruct (CheckSig s1 k1 code WITNESS_V0); cbn in E; simplify_eq; split; try done. by intros [(_ & _ & ?) _].
  - simplify_eq. split; [done|]. by intros [_ (_ & _ & ?)].
Qed.

Lemma multisig_2_run flags code (s1 s2 k1 k2 : bytes) :
  sig_checks flags code s1 k1 -> sig_checks flags code s2 k2 ->
  multisig_loop flags WITNESS_V0 code [s2; s1] [k2; k1] = Next true.
Proof using. intros (A1 & A2 & A3) (B1 & B2 & B3). cbn. rewrite B1, B2, B3. cbn. by rewrite A1, A2, A3. Qed.

Definition dummy_ok (flags : Z) (dummy : bytes) : Prop :=
  has flags SCRIPT_VERIFY_NULLDUMMY = true -> dummy = [].

Lemma num_of_two flags : num_of flags [2] nDefaultMaxNumSize = Next 2.
Proof using. unfold num_of. by destruct (has flags SCRIPT_VERIFY_MINIMALDATA). Qed.

(** [OP_CHECKMULTISIG] on two signatures and two keys. *)
Lemma op_checkmultisig_2 flags a v n code s (k1 k2 s1 s2 : bytes) : n + 2 <= 201 ->
  op_checkmultisig flags WITNESS_V0 false (Machine ([2] :: k2 :: k1 :: [2] :: s2 :: s1 :: s) a v n code)
  = match s with
    | [] => bad_stack
    | dummy :: s =>
        let! b := multisig_loop flags WITNESS_V0 code [s2; s1] [k2; k1] in
        if negb b && has flags SCRIPT_VERIFY_NULLFAIL && negb ((length s2 =? 0)%nat && (length s1 =? 0)%nat)
        then Fail SCRIPT_ERR_SIG_NULLFAIL
        else if has flags SCRIPT_VERIFY_NULLDUMMY && negb (length dummy =? 0)%nat
        then Fail SCRIPT_ERR_SIG_NULLDUMMY
        else Next (Machine (vch_bool b :: s) a v (n + 2) code)
    end.
Proof using.
  intros Hn. unfold op_checkmultisig. cbn -[num_of multisig_loop multisig_cleanup Z.add Z.leb getint].
  rewrite num_of_two. cbn -[num_of multisig_loop multisig_cleanup Z.add Z.leb getint].
  change (getint 2) with 2. change (Z.to_nat 2) with 2%nat.
  cbn -[num_of multisig_loop multisig_cleanup Z.add Z.leb getint].
  rewrite num_of_two. cbn -[num_of multisig_loop multisig_cleanup Z.add Z.leb getint].
  change (getint 2) with 2. change (Z.to_nat 2) with 2%nat.
  cbn -[num_of multisig_loop multisig_cleanup Z.add Z.leb getint].
  unfold MAX_OPS_PER_SCRIPT. destruct (Z.leb_spec (n + 2) 201); [|lia].
  change (Pos.to_nat 2) with 2%nat. destruct s as [|dummy s]; [done|].
  cbn -[multisig_loop Z.add]. destruct (multisig_loop _ _ _ _ _) as [b|]; [|done].
  cbn -[Z.add]. rewrite ?andb_false_r. cbn -[Z.add].
  destruct b; cbn -[Z.add]; [by destruct (has _ _ && _)|].
  destruct (has flags SCRIPT_VERIFY_NULLFAIL); cbn -[Z.add]; [|by destruct (has _ _ && _)].
  destruct (length s2 =? 0)%nat; cbn -[Z.add]; [|done].
  destruct (length s1 =? 0)%nat; cbn -[Z.add]; [|done]. by destruct (has _ _ && _).
Qed.

Lemma op_checkmultisig_true flags a v n code s (k1 k2 : bytes) m : n + 2 <= 201 ->
  op_checkmultisig flags WITNESS_V0 false (Machine ([2] :: k2 :: k1 :: [2] :: s) a v n code) = Next m ->
  exists (s1 s2 dummy : bytes) s' b, s = s2 :: s1 :: dummy :: s' /\ dummy_ok flags dummy /\
    m = Machine (vch_bool b :: s') a v (n + 2) code /\
    (b = true <-> sig_checks flags code s1 k1 /\ sig_checks flags code s2 k2).
Proof using.
  intros Hn E. destruct s as [|s2 [|s1 s]].
  1,2: unfold op_checkmultisig in E; cbn -[num_of multisig_loop multisig_cleanup Z.add Z.leb getint] in E;
    rewrite num_of_two in E; cbn [result_bind] in E; change (getint 2) with 2 in E; change (Z.to_nat 2) with 2%nat in E;
    cbn -[num_of multisig_loop multisig_cleanup Z.add Z.leb getint] in E;
    destruct (_ <=? _) in E; [|done]; rewrite num_of_two in E; by cbn in E.
  rewrite op_checkmultisig_2 in E by done. destruct s as [|dummy s]; [done|].
  exists s1, s2, dummy, s. unfold result_bind in E.
  destruct (multisig_loop _ _ _ _ _) as [b|] eqn:L; [|done]. apply multisig_2_true in L. exists b.
  destruct (_ && _) in E; [done|]. destruct (_ && _) eqn:D in E; [done|]. simplify_eq.
  split; [done|]. split; [|done]. intros N. rewrite N in D. by destruct dummy.
Qed.

Lemma op_checkmultisig_run flags a v n code s (dummy k1 k2 s1 s2 : bytes) : n + 2 <= 201 ->
  dummy_ok flags dummy -> sig_checks flags code s1 k1 -> sig_checks flags code s2 k2 ->
  op_checkmultisig flags WITNESS_V0 false
    (Machine ([2] :: k2 :: k1 :: [2] :: s2 :: s1 :: dummy :: s) a v n code)
  = Next (Machine (vchTrue :: s) a v (n + 2) code).
Proof using.
  intros Hn Hd B1 B2. rewrite op_checkmultisig_2, multisig_2_run by done. cbn [result_bind negb andb].
  unfold dummy_ok in Hd. destruct (has flags SCRIPT_VERIFY_NULLDUMMY); [|done]. by rewrite Hd.
Qed.

(** Data of 2 to 75 bytes: keys and hashes. *)
Lemma eval_data flags sv d pc s a v n code : (2 <= length d <= 75)%nat ->
  eval flags sv (push_of d ++ pc) (Machine s a v n code) =
    next flags sv pc (Machine (if executing v then d :: s else s) a v n code).
Proof using.
  intros L. apply eval_push; [lia|]. unfold CheckMinimalPush. destruct d as [|x d]; [simpl in L; lia|].
  set (z := Z.of_nat (length (x :: d))). assert (2 <= z <= 75) by (unfold z; lia).
  destruct (Z.eqb_spec z 1); [lia|]. cbn [andb]. destruct (Z.leb_spec z 75); [|lia]. apply Z.eqb_refl.
Qed.

(** ** Witness programs of a script *)

Lemma EvalScript_spec s script flags sv s' :
  EvalScript s script flags sv = Next s' <->
  Z.of_nat (length script) <= MAX_SCRIPT_SIZE /\
  exists a n code, eval flags sv script (Machine s [] [] 0 script) = Next (Machine s' a [] n code).
Proof using.
  unfold EvalScript. fold (eval flags sv script (Machine s [] [] 0 script)).
  destruct (Z.leb_spec (Z.of_nat (length script)) MAX_SCRIPT_SIZE); [|split; [done|lia]].
  unfold result_bind. destruct (eval _ _ _ _) as [[s1 a [|] n code]|]; cbn.
  - split; [intros; simplify_eq; split; [done|]; by eexists _, _, _|].
    by intros (_ & ? & ? & ? & [= -> ]).
  - split; [done|]. by intros (_ & ? & ? & ? & ?).
  - split; [done|]. by intros (_ & ? & ? & ? & ?).
Qed.

(** A witness of arguments and script is accepted when the arguments are not too large and
    the script leaves exactly a true value. *)
Lemma verify_script_hash args script flags : length (CSHA256 script) = 32%nat ->
  VerifyWitnessProgram (args ++ [script]) 0 (CSHA256 script) flags = Next tt <->
  Forall elem_ok args /\ Z.of_nat (length script) <= MAX_SCRIPT_SIZE /\
  exists x a n code, CastToBool x = true /\
    eval flags WITNESS_V0 script (Machine (rev args) [] [] 0 script) = Next (Machine [x] a [] n code).
Proof using.
  intros L. unfold VerifyWitnessProgram, witness_script. rewrite L, last_snoc. cbn [Z.eqb].
  change (32 =? WITNESS_V0_SCRIPTHASH_SIZE)%nat with true. cbn [result_bind].
  rewrite bool_decide_true by done. cbn [result_bind]. rewrite length_app. cbn [length].
  replace (length args + 1 - 1)%nat with (length args) by lia. rewrite take_app_length.
  assert (forallb (fun e => Z.of_nat (length e) <=? MAX_SCRIPT_ELEMENT_SIZE) args = true <->
          Forall elem_ok args) as F.
  { rewrite forallb_forall, Forall_forall. unfold elem_ok.
    split; intros X e He; [apply Z.leb_le, X|apply Z.leb_le, X]; by apply list_elem_of_In. }
  destruct (forallb _ args); [|split; [done|]; intros [X _]; by apply F in X].
  pose proof (proj1 F eq_refl) as Fa. unfold result_bind.
  destruct (EvalScript (rev args) script flags WITNESS_V0) as [s'|] eqn:E.
  - apply EvalScript_spec in E as (Ls & a & n & code & E). rewrite E. split.
    + intros V. destruct s' as [|x [|]]; [done| |done]. destruct (CastToBool x) eqn:C; [|done].
      split; [done|]. split; [done|]. by exists x, a, n, code.
    + intros (_ & _ & x & a' & n' & code' & C & [= -> _ _ _]). by rewrite C.
  - split; [done|]. intros (_ & Ls & x & a & n & code & C & E').
    assert (EvalScript (rev args) script flags WITNESS_V0 = Next [x]) as E2
      by (apply EvalScript_spec; split; [done|]; by exists a, n, code). congruence.
Qed.

(** ** One rule for each opcode of the node's scripts *)
Section Rules.
Context (flags n : Z) (pc code : bytes) (s a : list bytes) (v : list bool).
Hypothesis few_ops : n < 201.

Ltac rule :=
  rewrite ev_exec by first [assumption | reflexivity | apply orb_true_iff; first [right; reflexivity | left; assumption]].

Lemma ev_if : executing v = true -> eval flags WITNESS_V0 (OP_IF :: pc) (Machine s a v n code) =
  (let! m := op_if flags WITNESS_V0 true false (Machine s a v (n + 1) code) in next flags WITNESS_V0 pc m).
Proof using few_ops. intros Hx. rule. by rewrite Hx. Qed.

Lemma ev_notif : executing v = true -> eval flags WITNESS_V0 (OP_NOTIF :: pc) (Machine s a v n code) =
  (let! m := op_if flags WITNESS_V0 true true (Machine s a v (n + 1) code) in next flags WITNESS_V0 pc m).
Proof using few_ops. intros Hx. rule. by rewrite Hx. Qed.

(** A conditional inside a part that is skipped. *)
Lemma ev_if_skipped op : executing v = false -> op = OP_IF \/ op = OP_NOTIF ->
  eval flags WITNESS_V0 (op :: pc) (Machine s a v n code) =
  next flags WITNESS_V0 pc (Machine s a (false :: v) (n + 1) code).
Proof using few_ops. intros Hx [-> | ->]; rule; by rewrite Hx. Qed.

Lemma ev_else b : eval flags WITNESS_V0 (OP_ELSE :: pc) (Machine s a (b :: v) n code) =
  next flags WITNESS_V0 pc (Machine s a (negb b :: v) (n + 1) code).
Proof using few_ops. by rule. Qed.

Lemma ev_endif b : eval flags WITNESS_V0 (OP_ENDIF :: pc) (Machine s a (b :: v) n code) =
  next flags WITNESS_V0 pc (Machine s a v (n + 1) code).
Proof using few_ops. by rule. Qed.

Hypothesis exec : executing v = true.

Lemma ev_dup : eval flags WITNESS_V0 (OP_DUP :: pc) (Machine s a v n code) =
  match s with
  | x :: _ => next flags WITNESS_V0 pc (Machine (x :: s) a v (n + 1) code)
  | [] => bad_stack
  end.
Proof using few_ops exec. rule. by destruct s. Qed.

Lemma ev_drop : eval flags WITNESS_V0 (OP_DROP :: pc) (Machine s a v n code) =
  match s with
  | _ :: s => next flags WITNESS_V0 pc (Machine s a v (n + 1) code)
  | [] => bad_stack
  end.
Proof using few_ops exec. rule. by destruct s. Qed.

Lemma ev_swap : eval flags WITNESS_V0 (OP_SWAP :: pc) (Machine s a v n code) =
  match s with
  | x :: y :: s => next flags WITNESS_V0 pc (Machine (y :: x :: s) a v (n + 1) code)
  | _ => bad_stack
  end.
Proof using few_ops exec. rule. by destruct s as [|? [|? ?]]. Qed.

Lemma ev_size : eval flags WITNESS_V0 (OP_SIZE :: pc) (Machine s a v n code) =
  match s with
  | x :: _ =>
      next flags WITNESS_V0 pc (Machine (serialize (Z.of_nat (length x)) :: s) a v (n + 1) code)
  | [] => bad_stack
  end.
Proof using few_ops exec. rule. by destruct s. Qed.

Lemma ev_equal : eval flags WITNESS_V0 (OP_EQUAL :: pc) (Machine s a v n code) =
  match s with
  | x :: y :: s =>
      next flags WITNESS_V0 pc (Machine (vch_bool (bool_decide (y = x)) :: s) a v (n + 1) code)
  | _ => bad_stack
  end.
Proof using few_ops exec. rule. by destruct s as [|? [|? ?]]. Qed.

Lemma ev_equalverify : eval flags WITNESS_V0 (OP_EQUALVERIFY :: pc) (Machine s a v n code) =
  match s with
  | x :: y :: s =>
      require! bool_decide (y = x), SCRIPT_ERR_EQUALVERIFY;
      next flags WITNESS_V0 pc (Machine s a v (n + 1) code)
  | _ => bad_stack
  end.
Proof using few_ops exec.
  rule. destruct s as [|x [|y ?]]; [done|done|].
  change (exec_op _ _ _ _ _ ?m) with (on_stack (op_equal true) m).
  unfold on_stack, op_equal. cbn [stack]. by destruct (bool_decide (y = x)).
Qed.

Lemma ev_hash160 : eval flags WITNESS_V0 (OP_HASH160 :: pc) (Machine s a v n code) =
  match s with
  | x :: s => next flags WITNESS_V0 pc (Machine (CHash160 x :: s) a v (n + 1) code)
  | [] => bad_stack
  end.
Proof using few_ops exec. rule. by destruct s. Qed.

Lemma ev_checksig : eval flags WITNESS_V0 (OP_CHECKSIG :: pc) (Machine s a v n code) =
  (let! m := op_checksig flags WITNESS_V0 false (Machine s a v (n + 1) code) in
   next flags WITNESS_V0 pc m).
Proof using few_ops exec. by rule. Qed.

Lemma ev_checkmultisig : eval flags WITNESS_V0 (OP_CHECKMULTISIG :: pc) (Machine s a v n code) =
  (let! m := op_checkmultisig flags WITNESS_V0 false (Machine s a v (n + 1) code) in
   next flags WITNESS_V0 pc m).
Proof using few_ops exec. by rule. Qed.

Lemma ev_cltv : eval flags WITNESS_V0 (OP_CHECKLOCKTIMEVERIFY :: pc) (Machine s a v n code) =
  (let! m := op_checklocktimeverify flags (Machine s a v (n + 1) code) in next flags WITNESS_V0 pc m).
Proof using few_ops exec. by rule. Qed.

Lemma ev_csv : eval flags WITNESS_V0 (OP_CHECKSEQUENCEVERIFY :: pc) (Machine s a v n code) =
  (let! m := op_checksequenceverify flags (Machine s a v (n + 1) code) in next flags WITNESS_V0 pc m).
Proof using few_ops exec. by rule. Qed.
End Rules.
End Run.
