(* ===== verification/ScriptSpend.v ===== *)
(** * Who can spend the outputs of a channel

    The witness scripts that the node puts in its outputs, run by the interpreter of
    Bitcoin Core: the witnesses that are accepted, exactly, for the funding output, the
    delayed output to the owner of a commitment and the two kinds of HTLC output. *)
From S2P Require Import Prelude Sha256 Ripemd160 CoreSha256 CoreHash Secp Ecdsa BitcoinTx.
From S2P Require Import CScript Interp InterpFacts LnScript ScriptRun.
Local Open Scope Z_scope.
Local Open Scope script_scope.

#[local] Opaque sha256 ripemd160 CSHA256 CHash160.

Section Spend.
Context `{Secp256k1Laws} `{!Signatures} `{BaseSignatureChecker}.
Implicit Types (flags : Z) (key revocation local remote : pubkey).

Lemma CSHA256_sha256 m : CSHA256 m = sha256 m.
Proof using. by rewrite CSHA256_spec, sha256_spec. Qed.

Lemma CHash160_hash160 m : CHash160 m = hash160 m.
Proof using. unfold hash160. by rewrite CHash160_spec, ripemd160_spec, sha256_spec. Qed.

Lemma push_key key script : add_push_key key script = script ++ push_of (pubkey_to_der key).
Proof using. apply add_push_bytes_app. Qed.

Lemma der_size key : (2 <= length (pubkey_to_der key) <= 75)%nat.
Proof using Type*. rewrite length_pubkey_to_der. lia. Qed.

Lemma hash160_size m : (2 <= length (hash160 m) <= 75)%nat.
Proof using. unfold hash160. rewrite length_ripemd160. lia. Qed.

Lemma key_hash_size key : (2 <= length (pubkey_to_hash160 key) <= 75)%nat.
Proof using. apply hash160_size. Qed.

(** [OP_IF] on a result of the interpreter. *)
Lemma op_if_bool flags notif b s a v n code :
  op_if flags WITNESS_V0 true notif (Machine (vch_bool b :: s) a v n code)
  = Next (Machine s a ((if notif then negb b else b) :: v) n code).
Proof using. unfold op_if. cbn. destruct b, notif; cbn; by rewrite ?andb_false_r. Qed.

(** ** Running a script

    In a hypothesis that a run succeeds: [fwd] takes steps until the stack has to be
    looked at; in a goal: [run]. *)
Ltac rule_side :=
  lazymatch goal with
  | |- (2 <= length (pubkey_to_der _) <= 75)%nat => apply der_size
  | |- (2 <= length (pubkey_to_hash160 _) <= 75)%nat => apply key_hash_size
  | |- (2 <= length (ripemd160 _) <= 75)%nat => rewrite length_ripemd160; lia
  | |- (2 <= length _ <= 75)%nat => assumption
  | |- fits _ _ => first [assumption | unfold fits; lia]
  | |- _ < _ => first [lia | reflexivity]
  | |- _ = _ => reflexivity
  | |- _ \/ _ => first [left; reflexivity | right; reflexivity]
  end.

Ltac fwd1 E :=
  lazymatch type of E with
  | next _ _ _ _ = _ => apply next_inv in E
  | eval _ _ (number_of _ ++ _) _ = _ => rewrite eval_number in E by rule_side
  | eval _ _ (push_of _ ++ _) _ = _ => rewrite eval_data in E by rule_side
  | eval _ _ (OP_ELSE :: _) _ = _ => rewrite ev_else in E by rule_side
  | eval _ _ (OP_ENDIF :: _) _ = _ => rewrite ev_endif in E by rule_side
  | eval _ _ (OP_IF :: _) _ = _ =>
      first [rewrite ev_if in E by rule_side | rewrite ev_if_skipped in E by rule_side]
  | eval _ _ (OP_NOTIF :: _) _ = _ =>
      first [rewrite ev_notif in E by rule_side | rewrite ev_if_skipped in E by rule_side]
  | eval _ _ (?op :: _) _ = _ =>
      first [ rewrite ev_skip in E by rule_side
            | lazymatch op with
              | OP_DUP => rewrite ev_dup in E by rule_side
              | OP_DROP => rewrite ev_drop in E by rule_side
              | OP_SWAP => rewrite ev_swap in E by rule_side
              | OP_SIZE => rewrite ev_size in E by rule_side
              | OP_EQUAL => rewrite ev_equal in E by rule_side
              | OP_EQUALVERIFY => rewrite ev_equalverify in E by rule_side
              | OP_HASH160 => rewrite ev_hash160 in E by rule_side
              | OP_CHECKSIG => rewrite ev_checksig in E by rule_side
              | OP_CHECKMULTISIG => rewrite ev_checkmultisig in E by rule_side
              | OP_CHECKLOCKTIMEVERIFY => rewrite ev_cltv in E by rule_side
              | OP_CHECKSEQUENCEVERIFY => rewrite ev_csv in E by rule_side
              end ]
  | eval _ _ [] _ = _ => rewrite eval_nil in E
  | (let! _ := op_if _ _ _ _ (Machine (vch_bool _ :: _) _ _ _ _) in _) = _ =>
      rewrite op_if_bool in E; cbn [result_bind] in E
  end; cbn [executing forallb id andb negb] in E.

Ltac fwd E := repeat fwd1 E.

Ltac run1 :=
  lazymatch goal with
  | |- next _ _ _ _ = _ => rewrite next_eval by (cbn [stack altstack length]; lia)
  | |- eval _ _ (number_of _ ++ _) _ = _ => rewrite eval_number by rule_side
  | |- eval _ _ (push_of _ ++ _) _ = _ => rewrite eval_data by rule_side
  | |- eval _ _ (OP_ELSE :: _) _ = _ => rewrite ev_else by rule_side
  | |- eval _ _ (OP_ENDIF :: _) _ = _ => rewrite ev_endif by rule_side
  | |- eval _ _ (OP_IF :: _) _ = _ =>
      first [rewrite ev_if by rule_side | rewrite ev_if_skipped by rule_side]
  | |- eval _ _ (OP_NOTIF :: _) _ = _ =>
      first [rewrite ev_notif by rule_side | rewrite ev_if_skipped by rule_side]
  | |- eval _ _ (?op :: _) _ = _ =>
      first [ rewrite ev_skip by rule_side
            | lazymatch op with
              | OP_DUP => rewrite ev_dup by rule_side
              | OP_DROP => rewrite ev_drop by rule_side
              | OP_SWAP => rewrite ev_swap by rule_side
              | OP_SIZE => rewrite ev_size by rule_side
              | OP_EQUAL => rewrite ev_equal by rule_side
              | OP_EQUALVERIFY => rewrite ev_equalverify by rule_side
              | OP_HASH160 => rewrite ev_hash160 by rule_side
              | OP_CHECKSIG => rewrite ev_checksig by rule_side
              | OP_CHECKMULTISIG => rewrite ev_checkmultisig by rule_side
              | OP_CHECKLOCKTIMEVERIFY => rewrite ev_cltv by rule_side
              | OP_CHECKSEQUENCEVERIFY => rewrite ev_csv by rule_side
              end ]
  | |- eval _ _ [] _ = _ => rewrite eval_nil
  | |- (let! _ := op_if _ _ _ _ (Machine (vch_bool _ :: _) _ _ _ _) in _) = _ =>
      rewrite op_if_bool; cbn [result_bind]
  end; cbn [executing forallb id andb negb].

Ltac run := repeat run1.

(** ** The funding output *)

(** The keys in the order of the script. *)
Definition first_key key1 key2 : pubkey := match pubkey_cmp key1 key2 with Lt => key1 | _ => key2 end.
Definition second_key key1 key2 : pubkey := match pubkey_cmp key1 key2 with Lt => key2 | _ => key1 end.

Lemma redeem_2of2_pieces key1 key2 : bitcoin_redeem_2of2 key1 key2 =
  number_of 2 ++ push_of (pubkey_to_der (first_key key1 key2))
    ++ push_of (pubkey_to_der (second_key key1 key2)) ++ number_of 2 ++ [OP_CHECKMULTISIG].
Proof using.
  unfold bitcoin_redeem_2of2, script_of, first_key, second_key.
  destruct (pubkey_cmp key1 key2); cbn [foldl app];
    rewrite !push_key; unfold add_op, add; rewrite !(add_number_app 2), <- !app_assoc; done.
Qed.

Lemma run_2of2 flags key1 key2 s code m :
  eval flags WITNESS_V0 (bitcoin_redeem_2of2 key1 key2) (Machine s [] [] 0 code) = Next m ->
  exists (s1 s2 dummy : bytes) s' b, s = s2 :: s1 :: dummy :: s' /\ dummy_ok flags dummy /\
    m = Machine (vch_bool b :: s') [] [] 3 code /\
    (b = true <-> sig_checks flags code s1 (pubkey_to_der (first_key key1 key2)) /\
                  sig_checks flags code s2 (pubkey_to_der (second_key key1 key2))).
Proof using Type*.
  rewrite redeem_2of2_pieces. intros E. fwd E.
  unfold result_bind in E. destruct (op_checkmultisig _ _ _ _) as [m1|] eqn:C; [|done].
  apply op_checkmultisig_true in C as (s1 & s2 & dummy & s' & b & -> & Hd & -> & Hb); [|lia].
  fwd E. simplify_eq. by exists s1, s2, dummy, s', b.
Qed.

Lemma run_2of2_ok flags key1 key2 (s1 s2 dummy : bytes) code : dummy_ok flags dummy ->
  sig_checks flags code s1 (pubkey_to_der (first_key key1 key2)) ->
  sig_checks flags code s2 (pubkey_to_der (second_key key1 key2)) ->
  eval flags WITNESS_V0 (bitcoin_redeem_2of2 key1 key2) (Machine [s2; s1; dummy] [] [] 0 code)
  = Next (Machine [vchTrue] [] [] 3 code).
Proof using Type*.
  intros Hd H5 H6. rewrite redeem_2of2_pieces. run.
  change (serialize 2) with [2]. rewrite op_checkmultisig_run by (done || lia). cbn [result_bind]. run. done.
Qed.

Lemma CSHA256_length m : length (CSHA256 m) = 32%nat.
Proof using Type*. rewrite CSHA256_sha256. apply length_sha256. Qed.

(** The size of a script in pieces. *)
Lemma push_of_size d : (length d <= 75)%nat -> length (push_of d) = S (length d).
Proof using. intros. by rewrite push_of_short. Qed.

Lemma number_of_size k : fits 32 k -> (length (number_of k) <= 6)%nat.
Proof using.
  intros Hk. rewrite number_of_spec by done. case_match; [simpl; lia|].
  assert (length (serialize k) <= 5)%nat; [|rewrite push_of_size; lia].
  apply serialize_length; [lia|]. change (2 ^ _) with (2 ^ 39). unfold fits in Hk. lia.
Qed.

Ltac script_size :=
  repeat (progress (rewrite ?length_app; cbn [length]));
  rewrite ?push_of_size by (rewrite ?length_pubkey_to_der, ?length_ripemd160; lia);
  rewrite ?length_pubkey_to_der, ?length_ripemd160;
  repeat match goal with
  | |- context [length (number_of ?k)] =>
      lazymatch goal with
      | H : (length (number_of k) <= 6)%nat |- _ => fail
      | _ => pose proof (number_of_size k ltac:(rule_side))
      end
  end; unfold MAX_SCRIPT_SIZE; lia.

Lemma redeem_2of2_size key1 key2 :
  Z.of_nat (length (bitcoin_redeem_2of2 key1 key2)) <= MAX_SCRIPT_SIZE.
Proof using Type*. rewrite redeem_2of2_pieces. script_size. Qed.

(** A spend of the output of a witness script, with the script as the last element. *)
Definition spends flags (wscript : bytes) (args : list bytes) : Prop :=
  VerifyWitnessProgram (args ++ [wscript]) 0 (sha256 wscript) flags = Next tt.

Lemma spends_spec flags wscript args : Z.of_nat (length wscript) <= MAX_SCRIPT_SIZE ->
  spends flags wscript args <-> Forall elem_ok args /\
  exists x a n code, CastToBool x = true /\
    eval flags WITNESS_V0 wscript (Machine (rev args) [] [] 0 wscript) = Next (Machine [x] a [] n code).
Proof using Type*.
  intros L. unfold spends. rewrite <- CSHA256_sha256, verify_script_hash by apply CSHA256_length.
  split; [by intros (? & _ & ?)|by intros (? & ?)].
Qed.

Lemma rev_eq {A} (l k : list A) : rev l = k -> l = rev k.
Proof using. intros <-. by rewrite rev_involutive. Qed.

Lemma funding_iff flags key1 key2 args :
  let wscript := bitcoin_redeem_2of2 key1 key2 in
  spends flags wscript args <->
  exists dummy s1 s2, args = [dummy; s1; s2] /\ Forall elem_ok args /\ dummy_ok flags dummy /\
    sig_checks flags wscript s1 (pubkey_to_der (first_key key1 key2)) /\
    sig_checks flags wscript s2 (pubkey_to_der (second_key key1 key2)).
Proof using Type*.
  intros wscript. rewrite spends_spec by apply redeem_2of2_size. split.
  - intros (Ha & x & a & n & code & Hx & E).
    apply run_2of2 in E as (s1 & s2 & dummy & s' & b & Er%rev_eq & Hd & Em & Hb). simplify_eq.
    destruct b; [|done]. destruct (proj1 Hb eq_refl) as [B1 B2]. by exists dummy, s1, s2.
  - intros (dummy & s1 & s2 & -> & Ha & Hd & B1 & B2). split; [done|].
    eexists _, _, _, _. split; [|by apply run_2of2_ok]. done.
Qed.

(** C25. The funding output is spent by exactly the witnesses that hold, behind a dummy
    element, a valid signature for each of the two keys in the order of the script. *)
Theorem funding_spend flags key1 key2 args :
  let wscript := bitcoin_redeem_2of2 key1 key2 in
  spends flags wscript args <->
  exists dummy s1 s2, args = [dummy; s1; s2] /\ Forall elem_ok args /\ dummy_ok flags dummy /\
    sig_checks flags wscript s1 (pubkey_to_der (first_key key1 key2)) /\
    sig_checks flags wscript s2 (pubkey_to_der (second_key key1 key2)).
Proof using Type*. apply funding_iff. Qed.

(** ** The output to the owner of a commitment, and the output of an HTLC transaction *)

(** The argument of a conditional under the rule that it is exactly true or empty. *)
Definition minimal_if flags (x : bytes) : Prop :=
  has flags SCRIPT_VERIFY_MINIMALIF = true -> x = [] \/ x = [1].

Lemma op_if_spec flags notif (x : bytes) s a v n code :
  (minimal_if flags x /\
   op_if flags WITNESS_V0 true notif (Machine (x :: s) a v n code)
   = Next (Machine s a ((if notif then negb (CastToBool x) else CastToBool x) :: v) n code))
  \/ (~ minimal_if flags x /\
      op_if flags WITNESS_V0 true notif (Machine (x :: s) a v n code) = Fail SCRIPT_ERR_MINIMALIF).
Proof using.
  unfold minimal_if, op_if. cbn [stack]. rewrite bool_decide_true by done. cbn [andb].
  destruct (has flags SCRIPT_VERIFY_MINIMALIF); cbn [andb]; [|left; split; [done|]; by destruct notif].
  destruct x as [|b [|c x]]; cbn -[CastToBool].
  - left. split; [by left|]. by destruct notif.
  - change (at_ [b] 0) with b. destruct (Z.eqb_spec b 1) as [-> | N]; cbn -[CastToBool].
    + left. split; [by right|]. by destruct notif.
    + right. split; [|done]. intros X. destruct (X eq_refl); simplify_eq.
  - right. split; [|done]. intros X. destruct (X eq_refl); simplify_eq.
Qed.

(** The relative lock of [delay] blocks, where the rule is enforced. *)
Definition csv_ok flags (delay : Z) : Prop :=
  has flags SCRIPT_VERIFY_CHECKSEQUENCEVERIFY = true -> CheckSequence delay = true.

Lemma num_of_serialize flags k : 0 <= k < 2 ^ 39 -> num_of flags (serialize k) 5 = Next k.
Proof using.
  intros Hk. unfold num_of. destruct (serialize_spec k) as (O & M & V); [lia|].
  rewrite script_num_minimal; [by rewrite V|done|done|]. apply serialize_length; [lia|].
  change (2 ^ _) with (2 ^ 39). lia.
Qed.

Lemma op_csv_spec flags delay s a v n code : 0 <= delay < 2 ^ 31 ->
  let m := Machine (serialize delay :: s) a v n code in
  (csv_ok flags delay /\ op_checksequenceverify flags m = Next m) \/
  (~ csv_ok flags delay /\ op_checksequenceverify flags m = Fail SCRIPT_ERR_UNSATISFIED_LOCKTIME).
Proof using.
  intros Hd m. unfold op_checksequenceverify, csv_ok. cbn [stack m].
  destruct (has flags SCRIPT_VERIFY_CHECKSEQUENCEVERIFY); cbn [negb]; [|by left].
  rewrite num_of_serialize by lia. cbn [result_bind]. destruct (Z.ltb_spec delay 0); [lia|]. cbn [negb].
  assert (has delay SEQUENCE_LOCKTIME_DISABLE_FLAG = false) as ->.
  { unfold has. apply negb_false_iff, Z.eqb_eq, Z.bits_inj'. intros i Hi.
    rewrite Z.land_spec, Z.bits_0. unfold SEQUENCE_LOCKTIME_DISABLE_FLAG.
    destruct (decide (i = 31)) as [-> |].
    - rewrite <- (Z.mod_small delay (2 ^ 31)), Z.mod_pow2_bits_high by lia. done.
    - rewrite Z.pow2_bits_false by lia. apply andb_false_r. }
  destruct (CheckSequence delay); [by left|]. right. split; [|done]. intros X. by specialize (X eq_refl).
Qed.

Lemma to_local_pieces delay revocation key : bitcoin_wscript_to_local delay revocation key =
  OP_IF :: push_of (pubkey_to_der revocation) ++ OP_ELSE :: number_of delay ++
  OP_CHECKSEQUENCEVERIFY :: OP_DROP :: push_of (pubkey_to_der key) ++ [OP_ENDIF; OP_CHECKSIG].
Proof using.
  unfold bitcoin_wscript_to_local, script_of. cbn [foldl]. unfold add_op, add.
  rewrite !push_key, add_number_app, <- !app_assoc. done.
Qed.

(** What is checked, in words of the arguments. *)
Definition to_local_ok flags code delay revocation key (sig x : bytes) : Prop :=
  minimal_if flags x /\
  if CastToBool x then sig_checks flags code sig (pubkey_to_der revocation)
  else csv_ok flags delay /\ sig_checks flags code sig (pubkey_to_der key).

Lemma run_to_local flags delay revocation key s code m : fits 16 delay ->
  eval flags WITNESS_V0 (bitcoin_wscript_to_local delay revocation key) (Machine s [] [] 0 code) = Next m ->
  exists (sig x : bytes) s' b n, s = x :: sig :: s' /\ m = Machine (vch_bool b :: s') [] [] n code /\
    (b = true -> to_local_ok flags code delay revocation key sig x).
Proof using Type*.
  intros Hd E. assert (fits 32 delay) by (unfold fits in *; lia). rewrite to_local_pieces in E.
  destruct s as [|x s].
  { rewrite ev_if in E by done. done. }
  rewrite ev_if in E by rule_side.
  destruct (op_if_spec flags false x s [] [] (0 + 1) code) as [[Hm Ei]|[_ Ei]]; rewrite Ei in E; [|done].
  cbn [result_bind] in E. unfold to_local_ok. destruct (CastToBool x) eqn:Cx.
  - fwd E. unfold result_bind in E. destruct (op_checksig _ _ _ _) as [m1|] eqn:C; [|done].
    apply op_checksig_true in C as (sig & s' & b & -> & -> & Hb). fwd E. simplify_eq.
    eexists sig, x, s', b, _. split; [done|]. split; [done|]. intros ->.
    by rewrite Cx; split; [|apply Hb].
  - fwd E. unfold result_bind in E at 1.
    destruct (op_csv_spec flags delay s [] [true] (0 + 1 + 1 + 1) code) as [[Hc Ec]|[_ Ec]];
      [unfold fits in *; lia| |]; rewrite Ec in E; [|done].
    fwd E. unfold result_bind in E. destruct (op_checksig _ _ _ _) as [m1|] eqn:C; [|done].
    apply op_checksig_true in C as (sig & s' & b & -> & -> & Hb). fwd E. simplify_eq.
    eexists sig, x, s', b, _. split; [done|]. split; [done|]. intros ->.
    by rewrite Cx; split; [|split; [|apply Hb]].
Qed.

Lemma run_to_local_ok flags delay revocation key (sig x : bytes) code : fits 16 delay ->
  to_local_ok flags code delay revocation key sig x ->
  exists n, eval flags WITNESS_V0 (bitcoin_wscript_to_local delay revocation key)
    (Machine [x; sig] [] [] 0 code) = Next (Machine [vchTrue] [] [] n code).
Proof using Type*.
  intros Hd [Hm Hok]. assert (fits 32 delay) by (unfold fits in *; lia). rewrite to_local_pieces.
  eexists. rewrite ev_if by rule_side.
  destruct (op_if_spec flags false x [sig] [] [] (0 + 1) code) as [[_ ->]|[N _]]; [|done].
  cbn [result_bind]. destruct (CastToBool x).
  - run. rewrite op_checksig_ok_run by done. cbn [result_bind]. run. done.
  - destruct Hok as [Hc Hok]. run.
    destruct (op_csv_spec flags delay [sig] [] [true] (0 + 1 + 1 + 1) code) as [[_ ->]|[N _]];
      [unfold fits in *; lia| |done].
    cbn [result_bind]. run. rewrite op_checksig_ok_run by done. cbn [result_bind]. run. done.
Qed.

Lemma to_local_size delay revocation key : fits 16 delay ->
  Z.of_nat (length (bitcoin_wscript_to_local delay revocation key)) <= MAX_SCRIPT_SIZE.
Proof using Type*.
  intros Hd. assert (fits 32 delay) by (unfold fits in *; lia). rewrite to_local_pieces. script_size.
Qed.

Lemma to_local_iff flags delay revocation key args : fits 16 delay ->
  let wscript := bitcoin_wscript_to_local delay revocation key in
  bitcoin_wscript_htlc_tx delay revocation key = wscript /\
  (spends flags wscript args <->
   exists sig x, args = [sig; x] /\ Forall elem_ok args /\
     to_local_ok flags wscript delay revocation key sig x).
Proof using Type*.
  intros Hd wscript. split; [done|]. rewrite spends_spec by (by apply to_local_size). split.
  - intros (Ha & x & a & n & code & Hx & E).
    apply run_to_local in E as (sig & y & s' & b & n' & Er%rev_eq & Em & Hb); [|done]. simplify_eq.
    destruct b; [|done]. by exists sig, y; auto.
  - intros (sig & x & -> & Ha & Hok). split; [done|].
    destruct (run_to_local_ok _ _ _ _ _ _ wscript Hd Hok) as [n E].
    eexists _, _, n, _. split; [|exact E]. done.
Qed.

(** C24. The owner's output of a commitment (and the output of an HTLC transaction, which has
    the same script) is spent by exactly a signature for the revocation key with a true
    selector, or one for the delayed key with a false selector in a transaction whose
    relative lock has passed. *)
Theorem to_local_spend flags delay revocation key args : fits 16 delay ->
  let wscript := bitcoin_wscript_to_local delay revocation key in
  bitcoin_wscript_htlc_tx delay revocation key = wscript /\
  (spends flags wscript args <->
   exists sig x, args = [sig; x] /\ Forall elem_ok args /\
     to_local_ok flags wscript delay revocation key sig x).
Proof using Type*. apply to_local_iff. Qed.

(** ** HTLC outputs *)

(** The common start of both scripts: is the element on top the revocation key? *)
Definition htlc_prefix revocation (rest : bytes) : bytes :=
  OP_DUP :: OP_HASH160 :: push_of (pubkey_to_hash160 revocation) ++ OP_EQUAL :: OP_IF :: OP_CHECKSIG
    :: OP_ELSE :: rest.

Lemma offer_pieces local remote ripemd revocation :
  bitcoin_wscript_htlc_offer_ripemd160 local remote ripemd revocation =
  htlc_prefix revocation
    (push_of (pubkey_to_der remote) ++ OP_SWAP :: OP_SIZE :: number_of 32 ++ OP_EQUAL :: OP_NOTIF
      :: OP_DROP :: number_of 2 ++ OP_SWAP :: push_of (pubkey_to_der local) ++ number_of 2
      ++ OP_CHECKMULTISIG :: OP_ELSE :: OP_HASH160 :: push_of ripemd ++ OP_EQUALVERIFY
      :: OP_CHECKSIG :: [OP_ENDIF; OP_ENDIF]).
Proof using.
  unfold bitcoin_wscript_htlc_offer_ripemd160, script_of, htlc_prefix. cbn [foldl]. unfold add_op, add.
  rewrite !push_key, !add_push_bytes_app, !add_number_app, <- !app_assoc. done.
Qed.

Lemma receive_pieces locktime local remote ripemd revocation :
  bitcoin_wscript_htlc_receive_ripemd locktime local remote ripemd revocation =
  htlc_prefix revocation
    (push_of (pubkey_to_der remote) ++ OP_SWAP :: OP_SIZE :: number_of 32 ++ OP_EQUAL :: OP_IF
      :: OP_HASH160 :: push_of ripemd ++ OP_EQUALVERIFY :: number_of 2 ++ OP_SWAP
      :: push_of (pubkey_to_der local) ++ number_of 2 ++ OP_CHECKMULTISIG :: OP_ELSE :: OP_DROP
      :: number_of locktime ++ OP_CHECKLOCKTIMEVERIFY :: OP_DROP :: OP_CHECKSIG
      :: [OP_ENDIF; OP_ENDIF]).
Proof using.
  unfold bitcoin_wscript_htlc_receive_ripemd, script_of, htlc_prefix. cbn [foldl]. unfold add_op, add.
  rewrite !push_key, !add_push_bytes_app, !add_number_app, <- !app_assoc. done.
Qed.

(** The size of an element as the interpreter compares it. *)
Lemma size_is_32 (x : bytes) : elem_ok x ->
  bool_decide (serialize (Z.of_nat (length x)) = serialize 32) = (length x =? 32)%nat.
Proof using.
  unfold elem_ok, MAX_SCRIPT_ELEMENT_SIZE. intros L. apply eq_true_iff_eq.
  rewrite bool_decide_eq_true, Nat.eqb_eq. split; [|by intros ->]. intros E.
  apply (f_equal set_vch) in E.
  destruct (serialize_spec (Z.of_nat (length x)) ltac:(lia)) as (_ & _ & V). rewrite V in E.
  change (set_vch (serialize 32)) with 32 in E. lia.
Qed.

(** The revocation branch. *)
Definition revoked_ok flags (code : bytes) revocation (args : list bytes) : Prop :=
  exists sig pk : bytes, args = [sig; pk] /\ hash160 pk = pubkey_to_hash160 revocation /\
    sig_checks flags code sig pk.

Definition offered_ok flags (code : bytes) local remote (ripemd : bytes) revocation (args : list bytes) : Prop :=
  revoked_ok flags code revocation args \/
  (exists sig preimage, args = [sig; preimage] /\ length preimage = 32%nat /\
     hash160 preimage = ripemd /\ hash160 preimage <> pubkey_to_hash160 revocation /\
     sig_checks flags code sig (pubkey_to_der remote)) \/
  (exists dummy rsig lsig x, args = [dummy; rsig; lsig; x] /\ length x <> 32%nat /\
     hash160 x <> pubkey_to_hash160 revocation /\ dummy_ok flags dummy /\
     sig_checks flags code rsig (pubkey_to_der remote) /\
     sig_checks flags code lsig (pubkey_to_der local)).

(** A run that leaves [m]: if that is one true value, [P] holds. *)
Definition accepts (m : machine) (P : Prop) : Prop :=
  forall x a n code, m = Machine [x] a [] n code -> CastToBool x = true -> P.

Lemma accepts_bool b s a v n code (P : Prop) : (b = true -> s = [] -> P) ->
  accepts (Machine (vch_bool b :: s) a v n code) P.
Proof using. intros HP x a' n' code' ? Hx. simplify_eq. apply HP; [by destruct b|done]. Qed.

(** The last check of a branch, then only skipped code. *)
Ltac ends_checksig E :=
  unfold result_bind in E; destruct (op_checksig _ _ _ _) eqn:C; [|done];
  apply op_checksig_true in C as (sig & s' & b & -> & -> & Hb); fwd E; simplify_eq;
  apply accepts_bool; intros -> ->.
Ltac ends_checkmultisig E :=
  unfold result_bind in E; destruct (op_checkmultisig _ _ _ _) eqn:C; [|done];
  apply op_checkmultisig_true in C as (rsig & lsig & dummy & s' & b & -> & Hd & -> & Hb); [|lia];
  fwd E; simplify_eq; apply accepts_bool; intros -> ->.

Lemma run_offer flags local remote (ripemd : bytes) revocation s code m :
  (2 <= length ripemd <= 75)%nat -> Forall elem_ok s ->
  eval flags WITNESS_V0 (bitcoin_wscript_htlc_offer_ripemd160 local remote ripemd revocation)
    (Machine s [] [] 0 code) = Next m ->
  accepts m (offered_ok flags code local remote ripemd revocation (rev s)).
Proof using Type*.
  intros Hr Hs E. rewrite offer_pieces in E. unfold htlc_prefix in E.
  destruct s as [|x s]; [by rewrite ev_dup in E by done|]. apply Forall_cons_1 in Hs as [Hx Hs].
  fwd E. rewrite CHash160_hash160 in E.
  destruct (bool_decide (hash160 x = pubkey_to_hash160 revocation)) eqn:B.
  - apply bool_decide_eq_true in B. fwd E. ends_checksig E.
    left. exists sig, x. split; [done|]. split; [done|]. by apply Hb.
  - apply bool_decide_eq_false in B. fwd E. rewrite size_is_32 in E by done.
    destruct (Nat.eqb_spec (length x) 32) as [L|L].
    + fwd E. rewrite CHash160_hash160 in E.
      destruct (bool_decide (hash160 x = ripemd)) eqn:P; [|done]. apply bool_decide_eq_true in P.
      fwd E. ends_checksig E. right. left. exists sig, x.
      split; [done|]. split; [done|]. split; [done|]. split; [done|]. by apply Hb.
    + fwd E. ends_checkmultisig E. right. right. exists dummy, rsig, lsig, x.
      destruct (proj1 Hb eq_refl). done.
Qed.

(** The start of a run with the revocation key on top, and with something else. *)
Ltac run_prefix x :=
  unfold htlc_prefix; run; rewrite (CHash160_hash160 x);
  first [rewrite bool_decide_true by assumption | rewrite bool_decide_false by assumption]; run.

Lemma run_offer_ok flags local remote (ripemd : bytes) revocation args code :
  (2 <= length ripemd <= 75)%nat -> Forall elem_ok args ->
  offered_ok flags code local remote ripemd revocation args ->
  exists n, eval flags WITNESS_V0 (bitcoin_wscript_htlc_offer_ripemd160 local remote ripemd revocation)
    (Machine (rev args) [] [] 0 code) = Next (Machine [vchTrue] [] [] n code).
Proof using Type*.
  intros Hr Hs Hok. rewrite offer_pieces.
  destruct Hok as [(sig & pk & -> & B & Hc)|[(sig & x & -> & L & P & B & Hc)|
    (dummy & rsig & lsig & x & -> & L & B & Hd & Hc1 & Hc2)]]; cbn [rev app]; eexists.
  - run_prefix pk. rewrite op_checksig_ok_run by done. cbn [result_bind]. run. done.
  - run_prefix x. rewrite size_is_32 by (by inversion Hs as [|? ? ? Hs']; inversion Hs').
    rewrite (proj2 (Nat.eqb_eq _ _) L). run. rewrite CHash160_hash160, bool_decide_true by done.
    run. rewrite op_checksig_ok_run by done. cbn [result_bind]. run. done.
  - run_prefix x. rewrite size_is_32 by (by rewrite !Forall_cons in Hs; destruct Hs as (_ & _ & _ & ? & _)).
    rewrite (proj2 (Nat.eqb_neq _ _) L). run. change (serialize 2) with [2].
    rewrite op_checkmultisig_run by (done || lia). cbn [result_bind]. run. done.
Qed.

Lemma offer_size local remote payment_hash revocation :
  Z.of_nat (length (bitcoin_wscript_htlc_offer local remote payment_hash revocation)) <= MAX_SCRIPT_SIZE.
Proof using Type*.
  unfold bitcoin_wscript_htlc_offer. rewrite offer_pieces. unfold htlc_prefix.
  unfold pubkey_to_hash160. script_size.
Qed.

Lemma offered_iff flags local remote payment_hash revocation args :
  let wscript := bitcoin_wscript_htlc_offer local remote payment_hash revocation in
  spends flags wscript args <->
  Forall elem_ok args /\
  offered_ok flags wscript local remote (ripemd160 payment_hash) revocation args.
Proof using Type*.
  intros wscript. rewrite spends_spec by apply offer_size.
  assert (2 <= length (ripemd160 payment_hash) <= 75)%nat by rule_side.
  split; intros [Ha Hs]; (split; [done|]).
  - destruct Hs as (x & a & n & code & Hx & E). rewrite <- (rev_involutive args).
    eapply run_offer in E; [|done|by apply Forall_rev]. by eapply E.
  - eapply run_offer_ok in Hs as [n E]; [|done..]. eexists _, _, n, _. split; [|exact E]. done.
Qed.

(** C22. The output of an HTLC that the owner of the commitment offered is spent by exactly:
    a signature for the revocation key together with the key; a 32-byte preimage of the
    payment hash with a signature for the other side's key; or both sides' signatures
    (for the timeout transaction) with something that is not 32 bytes long. *)
Theorem offered_htlc_spend flags local remote payment_hash revocation args :
  let wscript := bitcoin_wscript_htlc_offer local remote payment_hash revocation in
  spends flags wscript args <->
  Forall elem_ok args /\
  offered_ok flags wscript local remote (ripemd160 payment_hash) revocation args.
Proof using Type*. apply offered_iff. Qed.

(** The absolute lock, where the rule is enforced. *)
Definition cltv_ok flags (locktime : Z) : Prop :=
  has flags SCRIPT_VERIFY_CHECKLOCKTIMEVERIFY = true -> CheckLockTime locktime = true.

Lemma op_cltv_spec flags locktime s a v n code : fits 32 locktime ->
  let m := Machine (serialize locktime :: s) a v n code in
  (cltv_ok flags locktime /\ op_checklocktimeverify flags m = Next m) \/
  (~ cltv_ok flags locktime /\ op_checklocktimeverify flags m = Fail SCRIPT_ERR_UNSATISFIED_LOCKTIME).
Proof using.
  intros Hd m. unfold fits in Hd. unfold op_checklocktimeverify, cltv_ok. cbn [stack m].
  destruct (has flags SCRIPT_VERIFY_CHECKLOCKTIMEVERIFY); cbn [negb]; [|by left].
  rewrite num_of_serialize by lia. cbn [result_bind]. destruct (Z.ltb_spec locktime 0); [lia|]. cbn [negb].
  destruct (CheckLockTime locktime); [by left|]. right. split; [|done]. intros X. by specialize (X eq_refl).
Qed.

Definition received_ok flags (code : bytes) locktime local remote (ripemd : bytes) revocation
    (args : list bytes) : Prop :=
  revoked_ok flags code revocation args \/
  (exists dummy rsig lsig preimage, args = [dummy; rsig; lsig; preimage] /\ length preimage = 32%nat /\
  hash160 preimage = ripemd /\ hash160 preimage <> pubkey_to_hash160 revocation /\
     dummy_ok flags dummy /\ sig_checks flags code rsig (pubkey_to_der remote) /\
     sig_checks flags code lsig (pubkey_to_der local)) \/
  (exists sig x, args = [sig; x] /\ length x <> 32%nat /\
  hash160 x <> pubkey_to_hash160 revocation /\ cltv_ok flags locktime /\
     sig_checks flags code sig (pubkey_to_der remote)).

Lemma run_receive flags locktime local remote (ripemd : bytes) revocation s code m :
  fits 32 locktime -> (2 <= length ripemd <= 75)%nat -> Forall elem_ok s ->
  eval flags WITNESS_V0 (bitcoin_wscript_htlc_receive_ripemd locktime local remote ripemd revocation)
    (Machine s [] [] 0 code) = Next m ->
  accepts m (received_ok flags code locktime local remote ripemd revocation (rev s)).
Proof using Type*.
  intros Hl Hr Hs E. rewrite receive_pieces in E. unfold htlc_prefix in E.
  destruct s as [|x s]; [by rewrite ev_dup in E by done|]. apply Forall_cons_1 in Hs as [Hx Hs].
  fwd E. rewrite CHash160_hash160 in E.
  destruct (bool_decide (hash160 x = pubkey_to_hash160 revocation)) eqn:B.
  - apply bool_decide_eq_true in B. fwd E. ends_checksig E.
    left. exists sig, x. split; [done|]. split; [done|]. by apply Hb.
  - apply bool_decide_eq_false in B. fwd E. rewrite size_is_32 in E by done.
    destruct (Nat.eqb_spec (length x) 32) as [L|L].
    + fwd E. rewrite CHash160_hash160 in E.
      destruct (bool_decide (hash160 x = ripemd)) eqn:P; [|done]. apply bool_decide_eq_true in P.
      fwd E. ends_checkmultisig E. right. left. exists dummy, rsig, lsig, x.
      destruct (proj1 Hb eq_refl). done.
    + fwd E. unfold result_bind in E at 1.
      match type of E with context [op_checklocktimeverify _ (Machine (_ :: ?s) ?a ?v ?n ?c)] =>
        destruct (op_cltv_spec flags locktime s a v n c Hl) as [[Hc Ec]|[_ Ec]] end;
        rewrite Ec in E; [|done].
      fwd E. ends_checksig E. right. right. exists sig, x.
      split; [done|]. split; [done|]. split; [done|]. split; [done|]. by apply Hb.
Qed.

Lemma run_receive_ok flags locktime local remote (ripemd : bytes) revocation args code :
  fits 32 locktime -> (2 <= length ripemd <= 75)%nat -> Forall elem_ok args ->
  received_ok flags code locktime local remote ripemd revocation args ->
  exists n, eval flags WITNESS_V0
    (bitcoin_wscript_htlc_receive_ripemd locktime local remote ripemd revocation)
    (Machine (rev args) [] [] 0 code) = Next (Machine [vchTrue] [] [] n code).
Proof using Type*.
  intros Hl Hr Hs Hok. rewrite receive_pieces.
  destruct Hok as [(sig & pk & -> & B & Hc)|[(dummy & rsig & lsig & x & -> & L & P & B & Hd & Hc1 & Hc2)|
    (sig & x & -> & L & B & Ht & Hc)]]; cbn [rev app]; eexists.
  - run_prefix pk. rewrite op_checksig_ok_run by done. cbn [result_bind]. run. done.
  - run_prefix x. rewrite size_is_32 by (by rewrite !Forall_cons in Hs; destruct Hs as (_ & _ & _ & ? & _)).
    rewrite (proj2 (Nat.eqb_eq _ _) L). run. rewrite CHash160_hash160, bool_decide_true by done.
    run. change (serialize 2) with [2].
    rewrite op_checkmultisig_run by (done || lia). cbn [result_bind]. run. done.
  - run_prefix x. rewrite size_is_32 by (by inversion Hs as [|? ? ? Hs']; inversion Hs').
    rewrite (proj2 (Nat.eqb_neq _ _) L). run.
    match goal with |- context [op_checklocktimeverify _ (Machine (_ :: ?s) ?a ?v ?n ?c)] =>
      destruct (op_cltv_spec flags locktime s a v n c Hl) as [[_ ->]|[N _]] end; [|done].
    cbn [result_bind]. run. rewrite op_checksig_ok_run by done. cbn [result_bind]. run. done.
Qed.

Lemma receive_size locktime local remote payment_hash revocation : fits 32 locktime ->
  Z.of_nat (length (bitcoin_wscript_htlc_receive locktime local remote payment_hash revocation))
  <= MAX_SCRIPT_SIZE.
Proof using Type*.
  intros. unfold bitcoin_wscript_htlc_receive. rewrite receive_pieces. unfold htlc_prefix.
  unfold pubkey_to_hash160. script_size.
Qed.

Lemma received_iff flags locktime local remote payment_hash revocation args :
  fits 32 locktime ->
  let wscript := bitcoin_wscript_htlc_receive locktime local remote payment_hash revocation in
  spends flags wscript args <->
  Forall elem_ok args /\
  received_ok flags wscript locktime local remote (ripemd160 payment_hash) revocation args.
Proof using Type*.
  intros Hl wscript. rewrite spends_spec by (by apply receive_size).
  assert (2 <= length (ripemd160 payment_hash) <= 75)%nat by rule_side.
  split; intros [Ha Hs]; (split; [done|]).
  - destruct Hs as (x & a & n & code & Hx & E). rewrite <- (rev_involutive args).
    eapply run_receive in E; [|done|done|by apply Forall_rev]. by eapply E.
  - eapply run_receive_ok in Hs as [n E]; [|done..]. eexists _, _, n, _. split; [|exact E]. done.
Qed.

(** C23. The output of an HTLC that the owner of the commitment received is spent by exactly:
    a signature for the revocation key together with the key; both sides' signatures (for
    the success transaction) with a 32-byte preimage of the payment hash; or a signature for
    the other side's key, with something that is not 32 bytes long, in a transaction that is
    locked until the expiry. *)
Theorem received_htlc_spend flags locktime local remote payment_hash revocation args :
  fits 32 locktime ->
  let wscript := bitcoin_wscript_htlc_receive locktime local remote payment_hash revocation in
  spends flags wscript args <->
  Forall elem_ok args /\
  received_ok flags wscript locktime local remote (ripemd160 payment_hash) revocation args.
Proof using Type*. apply received_iff. Qed.
End Spend.

(** ** Spends with a checker that grants everything, at the group of scalars *)
Module DemoSpend.
Definition granting : BaseSignatureChecker :=
  Build_BaseSignatureChecker (fun _ _ _ _ => true) (fun _ => true) (fun _ => true).
#[local] Existing Instances granting Scalars.ops Scalars.laws ScalarSigs.ops.
Definition key (z : Z) (H : (0 <? z) && (z <? secp256k1_n) = true) : pubkey := exist _ z H : Scalars.point.
Definition k5 : pubkey := key 5 eq_refl.
Definition k9 : pubkey := key 9 eq_refl.

Lemma small_ok (l : list bytes) : forallb (fun b => length b <=? 32)%nat l = true -> Forall elem_ok l.
Proof.
  intros F. apply Forall_forall. intros b Hb%list_elem_of_In. rewrite forallb_forall in F.
  specialize (F b Hb). apply Nat.leb_le in F. unfold elem_ok, MAX_SCRIPT_ELEMENT_SIZE. lia.
Qed.

Lemma granted code sig k : sig_checks 0 code sig (pubkey_to_der k).
Proof. by destruct sig. Qed.

Lemma funding_spend_witness : spends 0 (bitcoin_redeem_2of2 k5 k9) [[]; [1]; [2]].
Proof.
  apply (proj2 (funding_spend 0 k5 k9 [[]; [1]; [2]])). exists [], [1], [2].
  split; [done|]. split; [by apply small_ok|]. split; [done|]. split; apply granted.
Defined.

Lemma to_local_spend_witness : spends 0 (bitcoin_wscript_to_local 144 k5 k9) [[2]; []].
Proof.
  apply (proj2 (to_local_spend 0 144 k5 k9 [[2]; []] ltac:(unfold fits; lia))). exists [2], [].
  split; [done|]. split; [by apply small_ok|]. split; [done|]. split; [done|]. apply granted.
Defined.

Lemma offered_htlc_spend_witness :
  spends 0 (bitcoin_wscript_htlc_offer k5 k9 (sha256 (replicate 32 1)) k5) [[2]; replicate 32 1].
Proof.
  apply (proj2 (offered_htlc_spend 0 k5 k9 (sha256 (replicate 32 1)) k5 [[2]; replicate 32 1])).
  split; [by apply small_ok|]. right. left. exists [2], (replicate 32 1).
  split; [done|]. split; [done|]. split; [done|]. split; [by vm_compute|]. apply granted.
Defined.

Lemma received_htlc_spend_witness :
  spends 0 (bitcoin_wscript_htlc_receive 500000 k5 k9 (sha256 (replicate 32 1)) k5) [[2]; []].
Proof.
  apply (proj2 (received_htlc_spend 0 500000 k5 k9 (sha256 (replicate 32 1)) k5 [[2]; []]
    ltac:(unfold fits; lia))).
  split; [by apply small_ok|]. right. right. exists [2], [].
  split; [done|]. split; [done|]. split; [by vm_compute|]. split; [done|]. apply granted.
Defined.
End DemoSpend.
