(* ===== verification/SigCheck.v ===== *)
(** * What a signature commits to, and who checks it

    The transaction signature checker of Bitcoin Core
    (src/bitcoin/src/script/interpreter.cpp): [SignatureHash] with every hash type, its
    precomputed data, [CheckSig], [CheckLockTime] and [CheckSequence]; and the node's own
    signing and checking (src/lightning/bitcoin/signature.c). [core_sighash] shows that both
    sides hash the same bytes, [encodings_agree] that both know the same signature
    encodings, [encoding_accepted] and [key_accepted] that the interpreter's encoding
    rules take the node's signatures and keys. *)
From S2P Require Import Prelude HashSpec BlockHash Sha256 Ripemd160 CoreSha256 CoreHash Secp Ecdsa PullPush.
From S2P Require Import BitcoinTx CoreTx CScript Interp InterpFacts LnScript ScriptRun.
Local Open Scope Z_scope.

(** ** The legacy serialisation

    [SerializeScriptCode]: the positions are what is left of the script. *)
Fixpoint count_separators (fuel : nat) (it : bytes) : nat :=
  match fuel with
  | O => O
  | S fuel =>
      match GetScriptOp it with
      | (Some (opcode, _), it) =>
          ((if opcode_of opcode is Some CScript.OP_CODESEPARATOR then 1 else 0)
           + count_separators fuel it)%nat
      | (None, _) => O
      end
  end.

(** The bytes from [itBegin] to [it]. *)
Definition between (itBegin it : bytes) : bytes := take (length itBegin - length it) itBegin.

Fixpoint code_pieces (fuel : nat) (itBegin it : bytes) : bytes :=
  match fuel with
  | O => []
  | S fuel =>
      match GetScriptOp it with
      | (Some (opcode, _), it) =>
          if opcode_of opcode is Some CScript.OP_CODESEPARATOR
          then take (length itBegin - length it - 1) itBegin ++ code_pieces fuel it it
          else code_pieces fuel itBegin it
      | (None, it) => if (length itBegin =? 0)%nat then [] else between itBegin it
      end
  end.

(** Every turn of the loops reads a byte; the last one finds the end. *)
Definition SerializeScriptCode (scriptCode : bytes) : bytes :=
  let fuel := S (length scriptCode) in
  WriteCompactSize (Z.of_nat (length scriptCode) - Z.of_nat (count_separators fuel scriptCode))
    ++ code_pieces fuel scriptCode scriptCode.

(** [CTransactionSignatureSerializer] *)
Section Serializer.
Context (txTo : CTransaction) (scriptCode : bytes) (nIn : nat) (nHashType : Z).

Definition fAnyoneCanPay : bool := has nHashType SIGHASH_ANYONECANPAY.
Definition fHashSingle : bool := Z.land nHashType 0x1f =? SIGHASH_SINGLE.
Definition fHashNone : bool := Z.land nHashType 0x1f =? SIGHASH_NONE.

(** [None]: an index out of range. *)
Definition SerializeInput (nInput : nat) : option bytes :=
  let nInput := if fAnyoneCanPay then nIn else nInput in
  i ← vin txTo !! nInput;
  Some (Serialize_outpoint (prevout i)
    ++ (if negb (nInput =? nIn)%nat then Serialize_bytes [] else SerializeScriptCode scriptCode)
    ++ (if negb (nInput =? nIn)%nat && (fHashSingle || fHashNone) then le_bytes 4 0
        else le_bytes 4 (nSequence i))).

Definition SerializeOutput (nOutput : nat) : option bytes :=
  if fHashSingle && negb (nOutput =? nIn)%nat then Some (Serialize_txout CTxOut_null)
  else o ← vout txTo !! nOutput; Some (Serialize_txout o).

Definition Serialize_for_signature : option bytes :=
  let nInputs := if fAnyoneCanPay then 1%nat else length (vin txTo) in
  inputs ← mapM SerializeInput (seq 0 nInputs);
  let nOutputs := if fHashNone then O else if fHashSingle then S nIn else length (vout txTo) in
  outputs ← mapM SerializeOutput (seq 0 nOutputs);
  Some (le_bytes 4 (nVersion txTo)
    ++ WriteCompactSize (Z.of_nat nInputs) ++ concat inputs
    ++ WriteCompactSize (Z.of_nat nOutputs) ++ concat outputs
    ++ le_bytes 4 (nLockTime txTo)).
End Serializer.

(** ** The hash *)
Definition GetPrevoutHash (txTo : CTransaction) : bytes :=
  GetHash (foldl (fun ss i => hash_write ss (Serialize_outpoint (prevout i))) CHashWriter (vin txTo)).
Definition GetSequenceHash (txTo : CTransaction) : bytes :=
  GetHash (foldl (fun ss i => hash_write ss (le_bytes 4 (nSequence i))) CHashWriter (vin txTo)).
Definition GetOutputsHash (txTo : CTransaction) : bytes :=
  GetHash (foldl (fun ss o => hash_write ss (Serialize_txout o)) CHashWriter (vout txTo)).

Record PrecomputedTransactionData := Precomputed {
  hashPrevouts : bytes; hashSequence : bytes; hashOutputs : bytes; ready : bool
}.

Definition uint256_null : bytes := replicate 32 0.

Definition new_PrecomputedTransactionData (txTo : CTransaction) : PrecomputedTransactionData :=
  if HasWitness txTo
  then Precomputed (GetPrevoutHash txTo) (GetSequenceHash txTo) (GetOutputsHash txTo) true
  else Precomputed uint256_null uint256_null uint256_null false.

(** [None]: the assertion fails, or an index is out of range. *)
Definition SignatureHash (scriptCode : bytes) (txTo : CTransaction) (nIn : nat) (nHashType : Z)
    (amount : Z) (sigversion : SigVersion) (cache : option PrecomputedTransactionData) : option bytes :=
  i ← vin txTo !! nIn;
  let single := fHashSingle nHashType in
  let none := fHashNone nHashType in
  match sigversion with
  | WITNESS_V0 =>
      let cached (f : PrecomputedTransactionData -> bytes) (compute : CTransaction -> bytes) :=
        match cache with
        | Some c => if ready c then f c else compute txTo
        | None => compute txTo
        end in
      let anyone := has nHashType SIGHASH_ANYONECANPAY in
      let hash_prevouts := if negb anyone then cached hashPrevouts GetPrevoutHash else uint256_null in
      let hash_sequence :=
        if negb anyone && negb single && negb none then cached hashSequence GetSequenceHash
        else uint256_null in
      let hash_outputs :=
        if negb single && negb none then cached hashOutputs GetOutputsHash
        else if single then
          match vout txTo !! nIn with
          | Some o => GetHash (hash_write CHashWriter (Serialize_txout o))
          | None => uint256_null
          end
        else uint256_null in
      let ss := hash_write CHashWriter (le_bytes 4 (nVersion txTo)) in
      let ss := hash_write ss hash_prevouts in
      let ss := hash_write ss hash_sequence in
      let ss := hash_write ss (Serialize_outpoint (prevout i)) in
      let ss := hash_write ss (Serialize_bytes scriptCode) in
      let ss := hash_write ss (le_bytes 8 amount) in
      let ss := hash_write ss (le_bytes 4 (nSequence i)) in
      let ss := hash_write ss hash_outputs in
      let ss := hash_write ss (le_bytes 4 (nLockTime txTo)) in
      let ss := hash_write ss (le_bytes 4 nHashType) in
      Some (GetHash ss)
  | BASE =>
      if single && (length (vout txTo) <=? nIn)%nat then Some (1 :: replicate 31 0)
      else
        txTmp ← Serialize_for_signature txTo scriptCode nIn nHashType;
        Some (GetHash (hash_write (hash_write CHashWriter txTmp) (le_bytes 4 nHashType)))
  end.

(** ** [GenericTransactionSignatureChecker]

    [nIn] is the index of an input: where [SignatureHash] has no result the check fails. *)
Definition SEQUENCE_LOCKTIME_TYPE_FLAG : Z := 2 ^ 22.
Definition SEQUENCE_LOCKTIME_MASK : Z := 0x0000ffff.

Section Checker.
Context `{Signatures}.
Context (txTo : CTransaction) (nIn : nat) (amount : Z) (txdata : option PrecomputedTransactionData).

Definition VerifySignature (vchSig pubkey sighash : bytes) : bool := Verify pubkey sighash vchSig.

Definition checker_CheckSig (vchSigIn vchPubKey scriptCode : bytes) (sigversion : SigVersion) : bool :=
  let pubkey := CPubKey vchPubKey in
  if negb (IsValid pubkey) then false
  else match last vchSigIn with
       | None => false
       | Some nHashType =>
           let vchSig := take (length vchSigIn - 1) vchSigIn in
           match SignatureHash scriptCode txTo nIn nHashType amount sigversion txdata with
           | Some sighash => if negb (VerifySignature vchSig pubkey sighash) then false else true
           | None => false
           end
       end.

(** The sequence number of the input; it exists. *)
Definition input_sequence : Z := match vin txTo !! nIn with Some i => nSequence i | None => 0 end.

Definition checker_CheckLockTime (lockTime : Z) : bool :=
  if negb (((nLockTime txTo <? LOCKTIME_THRESHOLD) && (lockTime <? LOCKTIME_THRESHOLD))
           || ((LOCKTIME_THRESHOLD <=? nLockTime txTo) && (LOCKTIME_THRESHOLD <=? lockTime)))
  then false
  else if nLockTime txTo <? lockTime then false
  else if SEQUENCE_FINAL =? input_sequence then false
  else true.

Definition checker_CheckSequence (sequence : Z) : bool :=
  let txToSequence := input_sequence in
  if u32 (nVersion txTo) <? 2 then false
  else if has txToSequence SEQUENCE_LOCKTIME_DISABLE_FLAG then false
  else
    let nLockTimeMask := Z.lor SEQUENCE_LOCKTIME_TYPE_FLAG SEQUENCE_LOCKTIME_MASK in
    let txToSequenceMasked := Z.land txToSequence nLockTimeMask in
    let nSequenceMasked := Z.land sequence nLockTimeMask in
    if negb (((txToSequenceMasked <? SEQUENCE_LOCKTIME_TYPE_FLAG)
              && (nSequenceMasked <? SEQUENCE_LOCKTIME_TYPE_FLAG))
             || ((SEQUENCE_LOCKTIME_TYPE_FLAG <=? txToSequenceMasked)
                 && (SEQUENCE_LOCKTIME_TYPE_FLAG <=? nSequenceMasked)))
    then false
    else if txToSequenceMasked <? nSequenceMasked then false
    else true.

Definition TransactionSignatureChecker : BaseSignatureChecker := {|
  CheckSig := checker_CheckSig;
  CheckLockTime := checker_CheckLockTime;
  CheckSequence := checker_CheckSequence
|}.
End Checker.

(** ** signature.c *)
Section Node.
Context `{Signatures}.

(** [None]: [assert(ok)] fails. *)
Definition sign_hash (privkey h : bytes) : option signature := secp256k1_ecdsa_sign h privkey.

Definition set_script (script : option bytes) (i : bitcoin_tx_input) : bitcoin_tx_input :=
  TxInput (in_txid i) (in_index i) script (sequence_number i) (in_amount i) (witness i).

(** The script is stored in the input while hashing and reset after it. *)
Definition sha256_tx_one_input (tx : bitcoin_tx) (input_num : nat) (script witness_script : option bytes)
    : option bytes :=
  i ← input tx !! input_num;
  assert! forallb (fun i => match in_script i with None => true | Some _ => false end) (input tx);
  sha256_tx_for_sig (set_input (<[input_num := set_script script i]> (input tx)) tx) input_num witness_script.

Definition sign_tx_input (tx : bitcoin_tx) (in_ : nat) (subscript witness_script : option bytes)
    (privkey : bytes) : option signature :=
  hash ← sha256_tx_one_input tx in_ subscript witness_script;
  sign_hash privkey hash.

Definition check_signed_hash (hash : bytes) (sig : signature) (key : pubkey) : bool :=
  secp256k1_ecdsa_verify sig hash key.

Definition check_tx_sig (tx : bitcoin_tx) (input_num : nat) (redeemscript witness_script : option bytes)
    (key : pubkey) (sig : signature) : option bool :=
  _ ← input tx !! input_num;
  hash ← sha256_tx_one_input tx input_num redeemscript witness_script;
  Some (check_signed_hash hash sig key).
End Node.

(** ** Both sides hash the same bytes *)
Lemma holds_foldl {A} (enc : A -> bytes) l ss m : CSHA256_holds ss m ->
  CSHA256_holds (foldl (fun ss x => hash_write ss (enc x)) ss l) (m ++ concat (enc <$> l)).
Proof.
  apply (taken_foldl CSHA256_holds (fun x ss => hash_write ss (enc x))).
  intros x st m'. apply CSHA256_Write_holds.
Qed.

Lemma writer_holds : CSHA256_holds CHashWriter [].
Proof. by apply CSHA256_new_holds. Qed.

Lemma hash_each {A} (enc : A -> bytes) l :
  GetHash (foldl (fun ss x => hash_write ss (enc x)) CHashWriter l) = Spec.hash256 (concat (enc <$> l)).
Proof. apply CHash256_Finalize_spec, (holds_foldl enc l CHashWriter []), writer_holds. Qed.

Section Agree.
Context (tx : bitcoin_tx).

Lemma prevouts_core : GetPrevoutHash (core_tx tx) = Spec.hash256 (concat (Spec.outpoint <$> input tx)).
Proof.
  unfold GetPrevoutHash. rewrite (hash_each (fun i => Serialize_outpoint (prevout i))).
  cbn [core_tx vin]. by rewrite <- list_fmap_compose.
Qed.

Lemma sequence_core : GetSequenceHash (core_tx tx) =
  Spec.hash256 (concat ((fun i => le_bytes 4 (sequence_number i)) <$> input tx)).
Proof.
  unfold GetSequenceHash. rewrite (hash_each (fun i => le_bytes 4 (nSequence i))).
  cbn [core_tx vin]. by rewrite <- list_fmap_compose.
Qed.

Lemma outputs_core : GetOutputsHash (core_tx tx) = Spec.hash256 (concat (Spec.txout <$> output tx)).
Proof.
  unfold GetOutputsHash. rewrite hash_each. cbn [core_tx vout]. rewrite <- list_fmap_compose.
  do 2 f_equal. apply list_fmap_ext. intros. apply txout_core.
Qed.

(** The cache may be absent, or made from the transaction. *)
Definition cache_ok (cache : option PrecomputedTransactionData) : Prop :=
  cache = None \/ cache = Some (new_PrecomputedTransactionData (core_tx tx)).

Lemma segwit_core n i code amount cache : input tx !! n = Some i -> cache_ok cache ->
  SignatureHash code (core_tx tx) n SIGHASH_ALL amount WITNESS_V0 cache
  = Some (Spec.hash256 (Spec.sig_preimage tx i amount code)).
Proof.
  intros Hi Hc. unfold SignatureHash. cbn [core_tx vin]. rewrite list_lookup_fmap, Hi.
  cbn [fmap option_fmap option_map mbind option_bind].
  change (has SIGHASH_ALL SIGHASH_ANYONECANPAY) with false. change (fHashSingle SIGHASH_ALL) with false.
  change (fHashNone SIGHASH_ALL) with false. cbn [negb andb].
  assert (forall (f : PrecomputedTransactionData -> bytes) compute,
    (HasWitness (core_tx tx) = true -> f (new_PrecomputedTransactionData (core_tx tx)) = compute (core_tx tx)) ->
    match cache with
    | Some c => if ready c then f c else compute (core_tx tx)
    | None => compute (core_tx tx)
    end = compute (core_tx tx)) as C.
  { intros f compute E. destruct Hc as [-> | ->]; [done|]. unfold new_PrecomputedTransactionData in *.
    destruct (HasWitness (core_tx tx)); cbn [ready]; [by apply E|done]. }
  fold (core_tx tx). rewrite !C
    by (intros E; unfold new_PrecomputedTransactionData; by rewrite E).
  rewrite prevouts_core, sequence_core, outputs_core. f_equal. apply CHash256_Finalize_spec.
  unfold Spec.sig_preimage. rewrite !app_assoc. cbn [core_tx nVersion nLockTime]. rewrite le_bytes_s32.
  change (Serialize_outpoint (prevout (core_in i))) with (Spec.outpoint i). rewrite blob_core.
  repeat apply CSHA256_Write_holds. apply (CSHA256_Write_holds _ []), writer_holds.
Qed.

(** A script that can be read to its end and has no [OP_CODESEPARATOR]. *)
Fixpoint clean_from (fuel : nat) (it : bytes) : bool :=
  match it, fuel with
  | [], _ => true
  | _, O => false
  | _, S fuel =>
      match GetScriptOp it with
      | (Some (opcode, _), it) =>
          negb (if opcode_of opcode is Some CScript.OP_CODESEPARATOR then true else false)
          && clean_from fuel it
      | (None, _) => false
      end
  end.
Definition clean_code (script : bytes) : bool := clean_from (length script) script.

Lemma clean_count fuel it : clean_from fuel it = true -> count_separators (S fuel) it = 0%nat.
Proof using.
  revert it. induction fuel as [|fuel IH]; intros it Hc; destruct it as [|b it]; try done.
  cbn [clean_from] in Hc. cbn [count_separators].
  destruct (GetScriptOp (b :: it)) as [[[opcode v]|] it']; [|done].
  apply andb_true_iff in Hc as [Hn Hc]. specialize (IH it' Hc). cbn [count_separators] in IH.
  destruct (opcode_of opcode) as [[]|]; done.
Qed.

Lemma clean_pieces fuel itBegin it : clean_from fuel it = true -> itBegin <> [] ->
  code_pieces (S fuel) itBegin it = itBegin.
Proof using.
  revert it. induction fuel as [|fuel IH]; intros it Hc Hb.
  - destruct it; [|done]. cbn. destruct (Nat.eqb_spec (length itBegin) 0) as [E|E].
    + by destruct itBegin.
    + unfold between. by rewrite Nat.sub_0_r, take_ge.
  - destruct it as [|b it].
    { cbn. destruct (Nat.eqb_spec (length itBegin) 0) as [E|E]; [by destruct itBegin|].
      unfold between. by rewrite Nat.sub_0_r, take_ge. }
    cbn [clean_from] in Hc. change (code_pieces (S (S fuel)) itBegin (b :: it)) with
      (match GetScriptOp (b :: it) with
       | (Some (opcode, _), it) =>
           if opcode_of opcode is Some CScript.OP_CODESEPARATOR
           then take (length itBegin - length it - 1) itBegin ++ code_pieces (S fuel) it it
           else code_pieces (S fuel) itBegin it
       | (None, it) => if (length itBegin =? 0)%nat then [] else between itBegin it
       end).
    destruct (GetScriptOp (b :: it)) as [[[opcode v]|] it']; [|done].
    apply andb_true_iff in Hc as [Hn Hc]. specialize (IH it' Hc Hb).
    destruct (opcode_of opcode) as [[]|]; done.
Qed.

Lemma clean_script code : clean_code code = true -> SerializeScriptCode code = Serialize_bytes code.
Proof using.
  intros Hc. unfold SerializeScriptCode, Serialize_bytes. rewrite clean_count by done.
  rewrite Z.sub_0_r. f_equal. destruct code as [|b code]; [done|]. by apply clean_pieces.
Qed.

Lemma mapM_seq {A B} (f : nat -> option B) (g : A -> B) (l : list A) :
  (forall k x, l !! k = Some x -> f k = Some (g x)) -> mapM f (seq 0 (length l)) = Some (g <$> l).
Proof using.
  intros E. apply mapM_Some_2. apply Forall2_same_length_lookup.
  rewrite length_seq, length_fmap. split; [done|]. intros k y z [-> Hk]%lookup_seq Hz.
  rewrite list_lookup_fmap in Hz. destruct (l !! k) as [x|] eqn:El; [|done]. simplify_eq/=. by apply E.
Qed.

Lemma legacy_core n i amount cache : input tx !! n = Some i -> others_unsigned n (input tx) = true ->
  clean_code (default [] (in_script i)) = true ->
  SignatureHash (default [] (in_script i)) (core_tx tx) n SIGHASH_ALL amount BASE cache
  = Some (Spec.hash256 (Spec.stripped tx ++ le_bytes 4 SIGHASH_ALL)).
Proof using.
  intros Hi Ho Hc. unfold SignatureHash. cbn [core_tx vin]. rewrite list_lookup_fmap, Hi.
  cbn [fmap option_fmap option_map mbind option_bind]. change (fHashSingle SIGHASH_ALL) with false.
  cbn [andb]. fold (core_tx tx). unfold Serialize_for_signature.
  change (fAnyoneCanPay SIGHASH_ALL) with false. change (fHashNone SIGHASH_ALL) with false.
  change (fHashSingle SIGHASH_ALL) with false. cbn [core_tx vin vout].
  rewrite (mapM_seq _ Serialize_txin).
  - cbn [mbind option_bind]. rewrite (mapM_seq _ Serialize_txout).
    + cbn [mbind option_bind]. f_equal. apply CHash256_Finalize_spec.
      apply CSHA256_Write_holds. unfold Spec.stripped. cbn [core_tx nVersion nLockTime].
      rewrite le_bytes_s32, (app_assoc (WriteCompactSize _)), (app_assoc (WriteCompactSize _)).
      fold (Serialize_vector Serialize_txin (core_in <$> input tx)).
      fold (Serialize_vector Serialize_txout (core_out <$> output tx)).
      rewrite (vector_core _ _ _ _ txin_core), (vector_core _ _ _ _ txout_core).
      apply (CSHA256_Write_holds _ []), writer_holds.
    + intros k x Hx. unfold SerializeOutput. change (fHashSingle SIGHASH_ALL) with false. cbn [andb].
      cbn [core_tx vout]. by rewrite Hx.
  - intros k x Hx. unfold SerializeInput. change (fAnyoneCanPay SIGHASH_ALL) with false.
    change (fHashSingle SIGHASH_ALL) with false. change (fHashNone SIGHASH_ALL) with false.
    cbn [core_tx vin orb]. rewrite Hx. cbn [mbind option_bind]. rewrite andb_false_r.
    unfold Serialize_txin. do 3 f_equal. rewrite list_lookup_fmap in Hx.
    destruct (input tx !! k) as [j|] eqn:Ej; [|done]. cbn in Hx. injection Hx as <-. cbn [core_in scriptSig].
    destruct (Nat.eqb_spec k n) as [-> |N]; cbn [negb].
    + simplify_eq. by apply clean_script.
    + assert (in_script j = None) as ->; [|done]. unfold others_unsigned in Ho.
      rewrite forallb_forall in Ho. specialize (Ho ((k =? n)%nat || match in_script j with None => true | Some _ => false end)).
      rewrite (proj2 (Nat.eqb_neq k n) N) in Ho. cbn [orb id] in Ho. destruct (in_script j) eqn:Es; [|done].
      discriminate Ho. apply list_elem_of_In, list_elem_of_lookup. exists k.
      rewrite list_lookup_imap, Ej. cbn. by rewrite (proj2 (Nat.eqb_neq k n) N), Es.
Qed.
End Agree.

(** C26. The hash that the node signs is the one Bitcoin Core checks: BIP 143 for a witness
    script (with or without the precomputed data), and the legacy hash for a script
    without [OP_CODESEPARATOR]. *)
Theorem core_sighash tx n ws h cache : sha256_tx_for_sig tx n ws = Some h -> cache_ok tx cache ->
  exists i, input tx !! n = Some i /\
  match ws with
  | Some code => exists amount, in_amount i = Some amount /\
      SignatureHash code (core_tx tx) n SIGHASH_ALL amount WITNESS_V0 cache = Some h
  | None => clean_code (default [] (in_script i)) = true -> forall amount,
      SignatureHash (default [] (in_script i)) (core_tx tx) n SIGHASH_ALL amount BASE cache = Some h
  end.
Proof.
  intros E Hc. rewrite sighash_eq in E. destruct (input tx !! n) as [i|] eqn:Hi; [|done].
  exists i. split; [done|]. cbn [mbind option_bind] in E.
  destruct (others_unsigned n (input tx)) eqn:Ho; [|done]. cbn [c_assert] in E. destruct ws as [code|].
  - destruct (in_amount i) as [amount|]; [|done]. exists amount. split; [done|].
    rewrite (segwit_core tx n i) by done. exact E.
  - intros Hcl amount. rewrite (legacy_core tx n i) by done. exact E.
Qed.

(** ** Encodings *)
Lemma at_app_l (sig rest : bytes) i : 0 <= i < Z.of_nat (length sig) -> at_ (sig ++ rest) i = at_ sig i.
Proof. intros Hi. unfold at_. by rewrite lookup_app_l by lia. Qed.

Lemma at_nonneg (sig : bytes) i : bytes_ok sig -> 0 <= at_ sig i.
Proof.
  intros Hs. unfold at_. destruct (sig !! Z.to_nat i) as [b|] eqn:E; [|done]. cbn.
  by eapply Forall_lookup_1 in Hs as [? _].
Qed.

Lemma encoding_eq sig h : bytes_ok (sig ++ [h]) ->
  LnScript.IsValidSignatureEncoding sig (Z.of_nat (length sig) + 1)
  = Interp.IsValidSignatureEncoding (sig ++ [h]).
Proof.
  intros Hb. unfold LnScript.IsValidSignatureEncoding, Interp.IsValidSignatureEncoding.
  change sig_at with at_. rewrite length_app, Nat2Z.inj_add. change (Z.of_nat (length [h])) with 1.
  set (L := Z.of_nat (length sig)). destruct (Z.ltb_spec (L + 1) 9); [done|].
  assert (forall i, 0 <= i < L -> at_ (sig ++ [h]) i = at_ sig i) as A by (intros; by apply at_app_l).
  rewrite !(A 0), !(A 1), !(A 2), !(A 3), !(A 4), !(A 5) by lia.
  apply Forall_app in Hb as [Hs Hh]. apply Forall_inv in Hh.
  pose proof (at_nonneg sig 3 Hs) as HR. set (R := at_ sig 3) in *.
  destruct (73 <? L + 1); [done|]. destruct (negb (at_ sig 0 =? 48)); [done|].
  destruct (negb (at_ sig 1 =? L + 1 - 3)); [done|].
  destruct (Z.leb_spec (L + 1) (5 + R)); [done|].
  destruct (decide (5 + R < L)).
  - rewrite !(A (5 + R)) by lia. pose proof (at_nonneg sig (5 + R) Hs) as HS. set (S := at_ sig (5 + R)) in *.
    destruct (Z.eqb_spec (R + S + 7) (L + 1)); [|done]. cbn [negb].
    destruct (negb (at_ sig 2 =? 2)); [done|]. rewrite !(A (R + 4)) by lia.
    destruct (Z.eqb_spec S 0); [reflexivity|].
    rewrite !(A (R + 6)) by lia. destruct (Z.ltb_spec 1 S); [|done]. by rewrite !(A (R + 7)) by lia.
  - assert (at_ (sig ++ [h]) (5 + R) = h) as ->.
    { unfold at_. rewrite lookup_app_r by lia. by replace (Z.to_nat (5 + R) - length sig)%nat with 0%nat by lia. }
    assert (at_ sig (5 + R) = 0) as ->.
    { unfold at_. by rewrite lookup_ge_None_2 by lia. }
    destruct (Z.eqb_spec (R + 0 + 7) (L + 1)); [lia|]. destruct (Z.eqb_spec (R + h + 7) (L + 1)); [lia|]. done.
Qed.

(** The node's copy of [IsValidSignatureEncoding], which is given the signature without
    its type byte, accepts exactly what Bitcoin Core accepts with any type byte. *)
Theorem encodings_agree sig h : bytes_ok (sig ++ [h]) ->
  LnScript.IsValidSignatureEncoding sig (Z.of_nat (length sig) + 1)
  = Interp.IsValidSignatureEncoding (sig ++ [h]).
Proof. apply encoding_eq. Qed.

Lemma at_skip (p q : bytes) i k : i = Z.of_nat (length p) + k -> 0 <= k -> at_ (p ++ q) i = at_ q k.
Proof. intros -> Hk. unfold at_. rewrite lookup_app_r by lia. do 2 f_equal. lia. Qed.

Lemma land_sign b : 0 <= b < 256 -> (Z.land b 0x80 =? 0) = (b <? 0x80).
Proof.
  intros Hb. assert (forallb (fun k => Bool.eqb (Z.land (Z.of_nat k) 0x80 =? 0) (Z.of_nat k <? 0x80)) (seq 0 256) = true)
    as A by (vm_compute; reflexivity).
  rewrite forallb_forall in A. specialize (A (Z.to_nat b)). rewrite Z2Nat.id in A by lia.
  apply Bool.eqb_prop, A, in_seq. lia.
Qed.

(** The encoding that libsecp256k1 produces is valid. *)
Lemma der_valid r s h : Interp.IsValidSignatureEncoding (der r s ++ [h]) = true.
Proof.
  unfold der. destruct (der_int_spec r) as (b & t & -> & Lt & Ok & Hb & Hz).
  destruct (der_int_spec s) as (b' & t' & -> & Lt' & Ok' & Hb' & Hz').
  apply Forall_cons in Ok as [Hb0 Ok], Ok' as [Hb0' Ok'].
  set (R := Z.of_nat (length (b :: t))). set (S := Z.of_nat (length (b' :: t'))).
  assert (R = Z.of_nat (length t) + 1 /\ S = Z.of_nat (length t') + 1) as [ER ES]
    by (unfold R, S; cbn [length]; lia).
  set (N := Z.of_nat (4 + _ + _)). assert (N = 4 + R + S) as EN by (unfold N, R, S; lia).
  change ((0x30 :: N :: 0x02 :: R :: (b :: t) ++ 0x02 :: S :: b' :: t') ++ [h])
    with (0x30 :: N :: 0x02 :: R :: b :: (t ++ 0x02 :: S :: b' :: t') ++ [h]).
  rewrite <- app_assoc. set (q := (0x02 :: S :: b' :: t') ++ [h]).
  set (X := 0x30 :: _). assert (X = [0x30; N; 0x02; R; b] ++ t ++ q) as EX by done.
  assert (forall k, 0 <= k -> at_ X (4 + R + k) = at_ q k) as Aq.
  { intros k Hk. rewrite EX, app_assoc. apply at_skip; [|done]. rewrite length_app. cbn [length]. lia. }
  assert (Z.of_nat (length X) = R + S + 7) as EL.
  { rewrite EX, !length_app. unfold q. rewrite length_app. cbn [length]. lia. }
  unfold Interp.IsValidSignatureEncoding. rewrite EL.
  change (at_ X 0) with 0x30. change (at_ X 1) with N. change (at_ X 2) with 0x02.
  change (at_ X 3) with R. change (at_ X 4) with b.
  rewrite (Z.add_comm R 4), (Z.add_comm R 6), (Z.add_comm R 7).
  replace (4 + R) with (4 + R + 0) by lia. replace (5 + R) with (4 + R + 1) by lia.
  replace (6 + R) with (4 + R + 2) by lia. replace (7 + R) with (4 + R + 3) by lia.
  rewrite !Aq by lia. change (at_ q 0) with 0x02. change (at_ q 1) with S. change (at_ q 2) with b'.
  rewrite (land_sign b), (land_sign b') by lia.
  assert ((1 <? R) && (b =? 0x00) && (Z.land (at_ X 5) 0x80 =? 0) = false) as ->.
  { destruct t as [|c t]; [destruct (Z.ltb_spec 1 R); [cbn [length] in *; lia|done]|].
    change (at_ X 5) with c. apply Forall_inv in Ok. rewrite land_sign by lia.
    destruct (Z.eqb_spec b 0); [|by rewrite andb_false_r]. specialize (Hz ltac:(done) ltac:(done)).
    destruct (Z.ltb_spec c 0x80); [cbn [hd] in Hz; lia|]. by rewrite !andb_false_r. }
  assert ((1 <? S) && (b' =? 0x00) && (Z.land (at_ q 3) 0x80 =? 0) = false) as ->.
  { destruct t' as [|c t']; [destruct (Z.ltb_spec 1 S); [cbn [length] in *; lia|done]|].
    change (at_ q 3) with c. apply Forall_inv in Ok'. rewrite land_sign by lia.
    destruct (Z.eqb_spec b' 0); [|by rewrite andb_false_r]. specialize (Hz' ltac:(done) ltac:(done)).
    destruct (Z.ltb_spec c 0x80); [cbn [hd] in Hz'; lia|]. by rewrite !andb_false_r. }
  destruct (Z.ltb_spec (R + S + 7) 9); [lia|]. destruct (Z.ltb_spec 73 (R + S + 7)); [lia|].
  destruct (Z.eqb_spec N (R + S + 7 - 3)); [|lia]. destruct (Z.leb_spec (R + S + 7) (4 + R + 1)); [lia|].
  rewrite !Z.eqb_refl. destruct (Z.eqb_spec R 0); [lia|]. destruct (Z.eqb_spec S 0); [lia|].
  destruct (Z.ltb_spec b 0x80); [|lia]. destruct (Z.ltb_spec b' 0x80); [|lia]. done.
Qed.

Lemma der_ok r s : bytes_ok (der r s).
Proof.
  unfold der. destruct (der_int_spec r) as (b & t & -> & Lt & Ok & _).
  destruct (der_int_spec s) as (b' & t' & -> & Lt' & Ok' & _).
  cbn [length]. repeat (constructor; [lia|]). apply Forall_app. split; [done|].
  repeat (constructor; [cbn [length]; lia|]). done.
Qed.

Section Accepted.
Context `{Secp256k1Laws} `{!Signatures} `{!SignatureLaws}.

(** [signature_to_der] does not abort. *)
Lemma signature_to_der_ok sig :
  signature_to_der sig = Some (secp256k1_ecdsa_signature_serialize_der sig).
Proof using Type*.
  unfold signature_to_der. rewrite serialize_der_spec.
  rewrite (encoding_eq _ 1), der_valid; [done|]. apply Forall_app. split; [apply der_ok|].
  constructor; [lia|done].
Qed.

Lemma stack_sig_ok sig : stack_sig sig = Some (secp256k1_ecdsa_signature_serialize_der sig ++ [SIGHASH_ALL]).
Proof using Type*. unfold stack_sig. by rewrite signature_to_der_ok. Qed.

Lemma encoding_accepted sig flags : sig_s sig <= secp256k1_n / 2 ->
  CheckSignatureEncoding (secp256k1_ecdsa_signature_serialize_der sig ++ [SIGHASH_ALL]) flags = Next tt.
Proof using Type*.
  intros Low. unfold CheckSignatureEncoding.
  assert (Interp.IsValidSignatureEncoding (secp256k1_ecdsa_signature_serialize_der sig ++ [SIGHASH_ALL]) = true) as V
    by (rewrite serialize_der_spec; apply der_valid).
  unfold IsLowDERSignature. rewrite V. cbn [negb]. rewrite andb_false_r.
  rewrite !length_app, Nat.add_sub, take_app_length, CheckLowS_der.
  rewrite (proj2 (Z.leb_le _ _) Low). rewrite Nat.add_1_r. cbn [Nat.eqb].
  assert (IsDefinedHashtypeSignature (secp256k1_ecdsa_signature_serialize_der sig ++ [SIGHASH_ALL]) = true) as ->.
  { unfold IsDefinedHashtypeSignature. by rewrite last_snoc. }
  by destruct (has flags SCRIPT_VERIFY_LOW_S), (has flags SCRIPT_VERIFY_STRICTENC).
Qed.

Lemma key_accepted P flags : CheckPubKeyEncoding (pubkey_to_der P) flags WITNESS_V0 = Next tt.
Proof using Type*.
  assert (IsCompressedPubKey (pubkey_to_der P) = true /\ IsCompressedOrUncompressedPubKey (pubkey_to_der P) = true)
    as [Ec Eu].
  { unfold pubkey_to_der, IsCompressedPubKey, IsCompressedOrUncompressedPubKey.
    pose proof (Secp.serialize_length P) as L. pose proof (serialize_header P) as Hh.
    destruct (secp256k1_ec_pubkey_serialize P) as [|b t]; [done|]. rewrite L. cbn [hd] in Hh.
    by destruct Hh as [-> | ->]. }
  unfold CheckPubKeyEncoding. rewrite Ec, Eu. cbn [negb]. by rewrite !andb_false_r.
Qed.
End Accepted.

Module DemoSig.
Lemma core_sighash_witness : exists h,
  SignatureHash [0x51] (core_tx DemoTx.tx) 0 SIGHASH_ALL 5000 WITNESS_V0 None = Some h.
Proof.
  assert (exists h, sha256_tx_for_sig DemoTx.tx 0 (Some [0x51]) = Some h) as [h E]
    by (eexists; vm_compute; reflexivity).
  exists h. destruct (core_sighash DemoTx.tx 0 (Some [0x51]) h None E (or_introl eq_refl)) as (i & [= <-] & a & [= <-] & S).
  exact S.
Defined.

Lemma encodings_agree_witness :
  LnScript.IsValidSignatureEncoding (der 1 1) 9 = Interp.IsValidSignatureEncoding (der 1 1 ++ [1]).
Proof. apply (encodings_agree (der 1 1) 1). vm_compute; repeat constructor; done. Defined.
End DemoSig.
