(* ===== verification/ChannelSpend.v ===== *)
(** * Spending the outputs of a channel, from the node's signatures to Bitcoin Core's verdict

    [SigCheck] and [ScriptSpend] put together: the witnesses that the node builds
    (src/lightning/bitcoin/script.c) from signatures that it has checked
    (bitcoin/signature.c) are accepted by [VerifyScript] under the transaction signature
    checker, and the time locks of the scripts are those of the transaction. *)
From S2P Require Import Prelude HashSpec Sha256 Ripemd160 CoreSha256 CoreHash Secp Ecdsa PullPush BitcoinTx CoreTx.
From S2P Require Import CScript Interp InterpFacts LnScript ScriptRun ScriptSpend SigCheck.
Local Open Scope Z_scope.
Local Open Scope script_scope.

#[local] Opaque sha256 ripemd160 CSHA256 CHash160.

(** ** Pay to witness script hash *)
Section P2wsh.
Context `{Secp256k1Laws} `{!Signatures} `{BaseSignatureChecker}.

Lemma p2wsh_pieces wscript :
  scriptpubkey_p2wsh wscript = push_of [] ++ push_of (sha256 wscript) ++ [].
Proof using.
  unfold scriptpubkey_p2wsh, script_of. cbn [foldl]. unfold add_op, add.
  rewrite add_push_bytes_app, app_nil_r. done.
Qed.

Lemma p2wsh_bytes wscript : scriptpubkey_p2wsh wscript = 0 :: 32 :: sha256 wscript.
Proof using.
  rewrite p2wsh_pieces, app_nil_r, push_of_short, push_of_short by (rewrite ?length_sha256; cbn; lia).
  by rewrite length_sha256.
Qed.

(** An output of the node's making is spent when its witness program accepts. *)
Lemma p2wsh_verify flags wscript args :
  has flags SCRIPT_VERIFY_P2SH = true -> has flags SCRIPT_VERIFY_WITNESS = true ->
  CastToBool (sha256 wscript) = true -> spends flags wscript args ->
  VerifyScript [] (scriptpubkey_p2wsh wscript) (args ++ [wscript]) flags = Some (Next tt).
Proof using Type*.
  intros Fp Fw Hh Hs. unfold VerifyScript. cbn [IsPushOnly IsPushOnly_from length negb]. rewrite andb_false_r.
  assert (EvalScript [] [] flags BASE = Next []) as -> by done. cbn [result_bind].
  unfold eval_true.
  assert (EvalScript [] (scriptpubkey_p2wsh wscript) flags BASE = Next [sha256 wscript; []]) as ->.
  { apply EvalScript_spec. split; [rewrite p2wsh_bytes; cbn [length]; rewrite length_sha256; done|].
    rewrite p2wsh_pieces. eexists _, _, _. rewrite eval_push by (done || cbn; lia).
    rewrite next_eval by (cbn; lia). rewrite eval_data by (rewrite length_sha256; lia).
    rewrite next_eval by (cbn; lia). cbn [executing forallb]. by rewrite eval_nil. }
  cbn [result_bind]. rewrite Hh. cbn [result_bind]. unfold verify_program. rewrite Fw.
  assert (IsWitnessProgram (scriptpubkey_p2wsh wscript) = Some (0, sha256 wscript)) as ->.
  { rewrite p2wsh_bytes. unfold IsWitnessProgram. cbn [length]. by rewrite length_sha256. }
  cbn [result_bind Nat.eqb]. unfold spends in Hs. rewrite Hs. cbn [result_bind].
  assert (IsPayToScriptHash (scriptpubkey_p2wsh wscript) = false) as ->.
  { rewrite p2wsh_bytes. unfold IsPayToScriptHash. cbn [length]. by rewrite length_sha256. }
  rewrite andb_false_r. unfold verify_end. rewrite Fp, Fw. cbn [length drop Nat.sub Nat.eqb negb andb orb].
  by rewrite orb_true_r, andb_false_r.
Qed.
End P2wsh.

Section Accepted.
Context `{Secp256k1Laws} `{!Signatures} `{!SignatureLaws}.
Implicit Types (flags : Z) (key revocation local remote : pubkey) (sig : signature).

(** ** Signatures *)
Lemma one_input_none tx n ws h : sha256_tx_one_input tx n None ws = Some h ->
  sha256_tx_for_sig tx n ws = Some h.
Proof using.
  unfold sha256_tx_one_input. destruct (input tx !! n) as [i|] eqn:Hi; [|done]. cbn [mbind option_bind].
  destruct (forallb _ _) eqn:F; [|done]. cbn [c_assert]. intros <-. f_equal.
  assert (set_script None i = i) as ->.
  { rewrite forallb_forall in F. specialize (F i). rewrite <- list_elem_of_In in F.
    specialize (F ltac:(by eapply list_elem_of_lookup_2)). destruct i as [? ? [] ? ? ?]; done. }
  rewrite list_insert_id by done. by destruct tx.
Qed.

(** A checked signature, as the stack element that the node makes of it. *)
Definition stack_element sig : bytes := secp256k1_ecdsa_signature_serialize_der sig ++ [SIGHASH_ALL].

Section Tx.
Context (tx : bitcoin_tx) (n : nat) (amount : Z) (cache : option PrecomputedTransactionData).
Context (i : bitcoin_tx_input) (Hi : input tx !! n = Some i) (Ha : in_amount i = Some amount)
  (Hc : cache_ok tx cache).
#[local] Instance checker : BaseSignatureChecker := TransactionSignatureChecker (core_tx tx) n amount cache.

Lemma checked_sig wscript key sig flags :
  check_tx_sig tx n None (Some wscript) key sig = Some true ->
  sig_checks flags wscript (stack_element sig) (pubkey_to_der key).
Proof using Type*.
  unfold check_tx_sig. rewrite Hi. cbn [mbind option_bind].
  destruct (sha256_tx_one_input tx n None (Some wscript)) as [h|] eqn:E; [|done]. cbn [mbind option_bind].
  intros [= V]. apply one_input_none in E. rewrite sighash_eq, Hi in E. cbn [mbind option_bind] in E.
  destruct (others_unsigned n (input tx)); [|done]. cbn [c_assert] in E. rewrite Ha in E.
  cbn [mbind option_bind] in E. unfold check_signed_hash in V. unfold stack_element. split; [|split].
  - apply encoding_accepted. by eapply verify_low.
  - apply key_accepted.
  - cbn [CheckSig checker TransactionSignatureChecker]. unfold checker_CheckSig.
    destruct (IsValid_der key) as [-> _]. cbn [negb]. rewrite last_snoc, length_app, Nat.add_sub, take_app_length.
    rewrite (segwit_core tx n i) by done. unfold VerifySignature. injection E as ->.
    by rewrite Verify_der.
Qed.

Lemma element_size sig : elem_ok (stack_element sig).
Proof using Type*.
  unfold stack_element. rewrite serialize_der_spec. unfold der.
  destruct (der_int_spec (sig_r sig)) as (b & t & -> & L & _).
  destruct (der_int_spec (sig_s sig)) as (b' & t' & -> & L' & _).
  unfold elem_ok, MAX_SCRIPT_ELEMENT_SIZE. rewrite length_app. cbn [length]. rewrite length_app. cbn [length]. lia.
Qed.

Lemma small_elem (b : bytes) : (length b <= 33)%nat -> elem_ok b.
Proof using. unfold elem_ok, MAX_SCRIPT_ELEMENT_SIZE. lia. Qed.

Lemma no_dummy flags : dummy_ok flags [].
Proof using. done. Qed.

Context (flags : Z) (Fp : has flags SCRIPT_VERIFY_P2SH = true) (Fw : has flags SCRIPT_VERIFY_WITNESS = true).

(** The witness [w] spends the output of [wscript]. *)
Definition spends_output (w : option (list bytes)) (wscript : bytes) : Prop :=
  exists stack, w = Some stack /\
    VerifyScript [] (scriptpubkey_p2wsh wscript) stack flags = Some (Next tt).

Lemma spends_output_intro w wscript args : w = Some (args ++ [wscript]) ->
  CastToBool (sha256 wscript) = true -> spends flags wscript args -> spends_output w wscript.
Proof using Type*. intros -> Hh Hs. eexists. split; [done|]. by apply p2wsh_verify. Qed.

(** With a signature of each side that the node has checked, the witness it builds for
    the funding output is accepted by Bitcoin Core, whatever other rules are enforced. *)
Lemma funding_accepted key1 key2 sig1 sig2 :
  let wscript := bitcoin_redeem_2of2 key1 key2 in
  CastToBool (sha256 wscript) = true ->
  check_tx_sig tx n None (Some wscript) key1 sig1 = Some true ->
  check_tx_sig tx n None (Some wscript) key2 sig2 = Some true ->
  spends_output (bitcoin_witness_2of2 sig1 sig2 key1 key2) wscript.
Proof using Type*.
  intros wscript Hh C1 C2. unfold bitcoin_witness_2of2. change (stack_number 0) with (Some (@nil Z)).
  rewrite !stack_sig_ok. cbn [mbind option_bind]. fold (stack_element sig1) (stack_element sig2).
  set (args := [] :: match pubkey_cmp key1 key2 with
                     | Lt => [stack_element sig1; stack_element sig2]
                     | _ => [stack_element sig2; stack_element sig1]
                     end).
  apply (spends_output_intro _ wscript args); [by destruct (pubkey_cmp key1 key2)|done|].
  apply funding_iff. exists [].
  pose proof (checked_sig _ _ _ flags C1) as S1. pose proof (checked_sig _ _ _ flags C2) as S2.
  pose proof (element_size sig1). pose proof (element_size sig2). pose proof (small_elem [] ltac:(cbn; lia)).
  unfold first_key, second_key, args. destruct (pubkey_cmp key1 key2);
    eexists _, _; (split; [reflexivity|]); (split; [by repeat constructor|]); done.
Qed.

(** C17. The two HTLC transactions: with both sides' checked signatures, the node's witnesses
    for an offered HTLC that timed out, and for a received HTLC whose preimage is known,
    are accepted. (The element under test must not hash to the revocation key.) *)
Theorem htlc_txs_accepted local remote payment_hash revocation locktime preimage lsig rsig :
  let offer := bitcoin_wscript_htlc_offer local remote payment_hash revocation in
  let receive := bitcoin_wscript_htlc_receive locktime local remote payment_hash revocation in
  hash160 [] <> pubkey_to_hash160 revocation -> hash160 preimage <> pubkey_to_hash160 revocation ->
  (CastToBool (sha256 offer) = true ->
   check_tx_sig tx n None (Some offer) local lsig = Some true ->
   check_tx_sig tx n None (Some offer) remote rsig = Some true ->
   spends_output (bitcoin_witness_htlc_timeout_tx lsig rsig offer) offer) /\
  (CastToBool (sha256 receive) = true -> fits 32 locktime ->
   length preimage = 32%nat -> sha256 preimage = payment_hash ->
   check_tx_sig tx n None (Some receive) local lsig = Some true ->
   check_tx_sig tx n None (Some receive) remote rsig = Some true ->
   spends_output (bitcoin_witness_htlc_success_tx lsig rsig preimage receive) receive).
Proof using Type*.
  intros offer receive N0 Np. pose proof (element_size lsig). pose proof (element_size rsig).
  pose proof (small_elem [] ltac:(cbn; lia)). split.
  - intros Hh C1 C2. unfold bitcoin_witness_htlc_timeout_tx. change (stack_number 0) with (Some (@nil Z)).
    rewrite !stack_sig_ok. cbn [mbind option_bind].
    apply (spends_output_intro _ offer [[]; stack_element rsig; stack_element lsig; []]); [done|done|].
    apply offered_iff. split; [by repeat constructor|]. right. right. eexists _, _, _, _.
    split; [reflexivity|]. repeat (split; [done || by apply checked_sig|]). by apply checked_sig.
  - intros Hh Hl Lp Hp C1 C2. unfold bitcoin_witness_htlc_success_tx.
    change (stack_number 0) with (Some (@nil Z)). rewrite !stack_sig_ok. cbn [mbind option_bind stack_preimage].
    apply (spends_output_intro _ receive [[]; stack_element rsig; stack_element lsig; preimage]); [done|done|].
    pose proof (small_elem preimage ltac:(lia)).
    apply received_iff; [done|]. split; [by repeat constructor|]. right. left. eexists _, _, _, _.
    split; [reflexivity|]. split; [done|]. split; [unfold hash160; by rewrite Hp|].
    repeat (split; [done || by apply checked_sig|]). by apply checked_sig.
Qed.

(** C13. Whoever holds the revocation key of a commitment can take its output to the owner
    and both kinds of HTLC output at once: the witnesses that the node builds for them are
    accepted, with no time lock. *)
Theorem penalty_accepted delay key local remote payment_hash revocation locktime sig :
  let one := [1] in
  let to_local := bitcoin_wscript_to_local delay revocation key in
  let offer := bitcoin_wscript_htlc_offer local remote payment_hash revocation in
  let receive := bitcoin_wscript_htlc_receive locktime local remote payment_hash revocation in
  fits 16 delay -> fits 32 locktime -> forall wscript elem,
  In (wscript, elem) [(to_local, one); (offer, pubkey_to_der revocation); (receive, pubkey_to_der revocation)] ->
  CastToBool (sha256 wscript) = true ->
  check_tx_sig tx n None (Some wscript) revocation sig = Some true ->
  spends_output (bitcoin_witness_sig_and_element sig elem wscript) wscript.
Proof using Type*.
  intros one to_local offer receive Hd Hl wscript elem Hin Hh C.
  pose proof (element_size sig). pose proof (checked_sig _ _ _ flags C) as S.
  unfold bitcoin_witness_sig_and_element. rewrite stack_sig_ok. cbn [mbind option_bind].
  apply (spends_output_intro _ wscript [stack_element sig; elem]); [done|done|].
  assert (elem_ok (pubkey_to_der revocation)) by (apply small_elem; rewrite length_pubkey_to_der; lia).
  assert (elem_ok [1]) by (apply small_elem; cbn; lia).
  destruct Hin as [[= <- <-]|[[= <- <-]|[[= <- <-]|[]]]].
  - apply (to_local_iff flags delay revocation key _ Hd). eexists _, _. split; [reflexivity|].
    split; [by repeat constructor|]. split; [by right|]. exact S.
  - apply offered_iff. split; [by repeat constructor|]. left. by eexists _, _.
  - apply received_iff; [done|]. split; [by repeat constructor|]. left. by eexists _, _.
Qed.
End Tx.

(** ** Time locks *)
Section Locks.
Context (txTo : CTransaction) (nIn : nat) (amount : Z) (cache : option PrecomputedTransactionData).
#[local] Instance lock_checker : BaseSignatureChecker := TransactionSignatureChecker txTo nIn amount cache.
Context (flags : Z).

(** The input may be mined when the spent output is [delay] blocks deep. *)
Definition waits_blocks (delay : Z) : Prop :=
  let sequence := input_sequence txTo nIn in
  2 <= u32 (nVersion txTo) /\ Z.testbit sequence 31 = false /\ Z.testbit sequence 22 = false /\
  delay <= Z.land sequence 0xffff.

Lemma has_pow2 s k : 0 <= k -> has s (2 ^ k) = false -> Z.testbit s k = false.
Proof using.
  intros Hk. unfold has. intros E.
  apply negb_false_iff, Z.eqb_eq, (f_equal (fun z => Z.testbit z k)) in E.
  by rewrite Z.land_spec, Z.pow2_bits_true, andb_true_r, Z.testbit_0_l in E.
Qed.

Lemma sequence_masked s : Z.land s 0x40ffff < 2 ^ 22 ->
  Z.testbit s 22 = false /\ Z.land s 0x40ffff = Z.land s 0xffff.
Proof using.
  intros L. set (m := Z.land s 0x40ffff) in *. assert (0 <= m) by (apply Z.land_nonneg; lia).
  assert (Z.testbit m 22 = false) as B.
  { destruct (decide (m = 0)) as [->|]; [by rewrite Z.testbit_0_l|].
    apply Z.bits_above_log2; [done|]. apply Z.log2_lt_pow2; lia. }
  unfold m in B. rewrite Z.land_spec in B. change (Z.testbit 0x40ffff 22) with true in B.
  rewrite andb_true_r in B. split; [done|]. apply Z.bits_inj. intros k.
  unfold m. rewrite !Z.land_spec. destruct (decide (k = 22)) as [->|Nk]; [by rewrite B|]. f_equal.
  change 0x40ffff with (Z.lor (Z.ones 16) (2 ^ 22)). change 0xffff with (Z.ones 16).
  rewrite Z.lor_spec. destruct (decide (k < 0)); [by rewrite !Z.testbit_neg_r by lia|].
  rewrite Z.pow2_bits_false by lia. apply orb_false_r.
Qed.

Lemma CheckSequence_waits delay : fits 16 delay -> CheckSequence delay = true -> waits_blocks delay.
Proof using.
  intros Hd. cbn [CheckSequence lock_checker TransactionSignatureChecker].
  unfold checker_CheckSequence, waits_blocks. generalize (input_sequence txTo nIn). intros s.
  change (Z.lor _ _) with 0x40ffff. change SEQUENCE_LOCKTIME_TYPE_FLAG with (2 ^ 22).
  assert (Z.land delay 0x40ffff = delay) as ->.
  { apply Z.bits_inj. intros k. rewrite Z.land_spec. destruct (decide (k < 0)); [by rewrite !Z.testbit_neg_r by lia|].
    destruct (decide (k < 16)).
    - change 0x40ffff with (Z.lor (Z.ones 16) (2 ^ 22)). rewrite Z.lor_spec, Z.ones_spec_low by lia. apply andb_true_r.
    - unfold fits in Hd. rewrite (Z.bits_above_log2 delay k); [done|lia|].
      destruct (decide (delay = 0)) as [->|]; [cbn; lia|]. apply Z.log2_lt_pow2; [lia|].
      pose proof (Z.pow_le_mono_r 2 16 k). lia. }
  destruct (_ <? 2) eqn:V; [done|]. destruct (has s _) eqn:D; [done|].
  destruct (negb _) eqn:C; [done|]. destruct (_ <? delay) eqn:L; [done|]. intros _.
  unfold fits in Hd. assert (Z.land s 0x40ffff < 2 ^ 22) as [B E]%sequence_masked by lia.
  rewrite E in L. repeat split; [lia|by apply (has_pow2 s 31)|done|lia].
Qed.

(** C18. The owner of a commitment waits: in a transaction whose input spends its output, or
    the output of an HTLC transaction, without a signature for the revocation key, the
    signature is for the delayed key and the input is locked for at least [delay] blocks. *)
Theorem to_local_waits delay revocation key args :
  let wscript := bitcoin_wscript_to_local delay revocation key in
  has flags SCRIPT_VERIFY_CHECKSEQUENCEVERIFY = true -> fits 16 delay ->
  spends flags wscript args ->
  exists (sig x : bytes), args = [sig; x] /\
    (sig_checks flags wscript sig (pubkey_to_der revocation) \/
     sig_checks flags wscript sig (pubkey_to_der key) /\ waits_blocks delay).
Proof using Type*.
  intros wscript Hf Hd Hs. apply (to_local_iff flags delay revocation key _ Hd) in Hs as (sig & x & -> & _ & _ & Hok).
  exists sig, x. split; [done|]. destruct (CastToBool x); [by left|]. right. destruct Hok as [Hw ?].
  split; [done|]. by apply CheckSequence_waits, Hw.
Qed.

(** C19. The other side waits for the expiry: a transaction whose input spends the output of
    an HTLC that the owner of the commitment received holds a signature for the revocation
    key, or a preimage of the payment hash with both sides' signatures, or is locked until
    at least [locktime], a height or a time as that is one. *)
Theorem received_htlc_waits locktime local remote payment_hash revocation args :
  let wscript := bitcoin_wscript_htlc_receive locktime local remote payment_hash revocation in
  has flags SCRIPT_VERIFY_CHECKLOCKTIMEVERIFY = true -> fits 32 locktime ->
  spends flags wscript args ->
  revoked_ok flags wscript revocation args \/
  (exists dummy rsig lsig preimage, args = [dummy; rsig; lsig; preimage] /\ length preimage = 32%nat /\
     hash160 preimage = ripemd160 payment_hash /\ sig_checks flags wscript rsig (pubkey_to_der remote) /\
     sig_checks flags wscript lsig (pubkey_to_der local)) \/
  (exists (sig x : bytes), args = [sig; x] /\ sig_checks flags wscript sig (pubkey_to_der remote) /\
     locktime <= nLockTime txTo /\ input_sequence txTo nIn <> SEQUENCE_FINAL /\
     (locktime < LOCKTIME_THRESHOLD <-> nLockTime txTo < LOCKTIME_THRESHOLD)).
Proof using Type*.
  intros wscript Hf Hl [_ Hs]%received_iff; [|done].
  destruct Hs as [?|[(dummy & r & l & p & ? & ? & ? & _ & _ & ? & ?)|(sig & x & ? & _ & _ & Hw & ?)]].
  - by left.
  - right. left. by exists dummy, r, l, p.
  - right. right. exists sig, x. split; [done|]. split; [done|]. specialize (Hw Hf). revert Hw.
    cbn [CheckLockTime lock_checker TransactionSignatureChecker]. unfold checker_CheckLockTime.
    destruct (negb _) eqn:C; [done|]. destruct (_ <? locktime) eqn:L; [done|]. destruct (_ =? _) eqn:Q; [done|]. lia.
Qed.
End Locks.
End Accepted.

(** ** Spends at the group of scalars *)
Module DemoAccepted.
Import DemoSpend.
#[local] Existing Instances Scalars.ops Scalars.laws ScalarSigs.ops ScalarSigs.laws.
Definition sig_of (z : Z) (H : ScalarSigs.in_range (z, 1) = true) : signature := exist _ (z, 1) H : ScalarSigs.sig.
Definition s5 : signature := sig_of 5 eq_refl.
Definition s9 : signature := sig_of 9 eq_refl.
Definition flags : Z := Z.lor SCRIPT_VERIFY_P2SH SCRIPT_VERIFY_WITNESS.
Definition locks : Z := Z.lor SCRIPT_VERIFY_CHECKSEQUENCEVERIFY SCRIPT_VERIFY_CHECKLOCKTIMEVERIFY.
Definition spend_tx : bitcoin_tx := DemoTx.tx.

Lemma no_cache : cache_ok spend_tx None.
Proof. by left. Qed.

Lemma funding_accepted_witness :
  spends_output spend_tx 0 5000 None flags (bitcoin_witness_2of2 s5 s9 k5 k9) (bitcoin_redeem_2of2 k5 k9).
Proof.
  apply (funding_accepted spend_tx 0 5000 None _ eq_refl eq_refl no_cache flags eq_refl eq_refl k5 k9 s5 s9);
    by vm_compute.
Defined.

Definition preimage : bytes := replicate 32 1.

Lemma htlc_txs_accepted_witness :
  let offer := bitcoin_wscript_htlc_offer k5 k9 (sha256 preimage) k5 in
  let receive := bitcoin_wscript_htlc_receive 500000 k5 k9 (sha256 preimage) k5 in
  spends_output spend_tx 0 5000 None flags (bitcoin_witness_htlc_timeout_tx s5 s9 offer) offer /\
  spends_output spend_tx 0 5000 None flags (bitcoin_witness_htlc_success_tx s5 s9 preimage receive) receive.
Proof.
  destruct (htlc_txs_accepted spend_tx 0 5000 None _ eq_refl eq_refl no_cache flags eq_refl eq_refl
    k5 k9 (sha256 preimage) k5 500000 preimage s5 s9) as [A B]; [by vm_compute|by vm_compute|].
  split; [apply A|apply B]; by vm_compute.
Defined.

Lemma penalty_accepted_witness :
  let wscript := bitcoin_wscript_to_local 144 k5 k9 in
  spends_output spend_tx 0 5000 None flags (bitcoin_witness_sig_and_element s5 [1] wscript) wscript.
Proof.
  apply (penalty_accepted spend_tx 0 5000 None _ eq_refl eq_refl no_cache flags eq_refl eq_refl
    144 k9 k5 k9 (sha256 preimage) k5 500000 s5); try by vm_compute.
  by left.
Defined.

(** Locked for 200 blocks, and until block 500000. *)
Definition late_tx : CTransaction :=
  Transaction 2 [TxIn (OutPoint (replicate 32 7) 1) [] 200 []] [TxOut 1000 [0; 20]] 500000.

Lemma to_local_waits_witness :
  let wscript := bitcoin_wscript_to_local 144 k5 k9 in
  let checker := lock_checker late_tx 0 5000 None in
  spends locks wscript [stack_element s9; []] /\
  exists sig x, [stack_element s9; []] = [sig; x] /\
    (sig_checks locks wscript sig (pubkey_to_der k5) \/
     sig_checks locks wscript sig (pubkey_to_der k9) /\ waits_blocks late_tx 0 144).
Proof.
  intros wscript checker. subst wscript checker.
  assert (fits 16 144) as F by (unfold fits; lia).
  assert (@spends _ _ (lock_checker late_tx 0 5000 None) locks (bitcoin_wscript_to_local 144 k5 k9)
    [stack_element s9; []]) as S by by vm_compute.
  split; [exact S|].
  exact (to_local_waits late_tx 0 5000 None locks 144 k5 k9 _ eq_refl F S).
Defined.

Lemma received_htlc_waits_witness :
  let wscript := bitcoin_wscript_htlc_receive 499000 k5 k9 (sha256 preimage) k5 in
  let args := [stack_element s9; []] in
  let checker := lock_checker late_tx 0 5000 None in
  spends locks wscript args /\
  (revoked_ok locks wscript k5 args \/
   (exists dummy rsig lsig preimage', args = [dummy; rsig; lsig; preimage'] /\ length preimage' = 32%nat /\
      hash160 preimage' = ripemd160 (sha256 preimage) /\ sig_checks locks wscript rsig (pubkey_to_der k9) /\
      sig_checks locks wscript lsig (pubkey_to_der k5)) \/
   (exists (sig x : bytes), args = [sig; x] /\ sig_checks locks wscript sig (pubkey_to_der k9) /\
      499000 <= nLockTime late_tx /\ input_sequence late_tx 0 <> SEQUENCE_FINAL /\
      (499000 < LOCKTIME_THRESHOLD <-> nLockTime late_tx < LOCKTIME_THRESHOLD))).
Proof.
  intros wscript args checker. subst wscript args checker.
  assert (fits 32 499000) as F by (unfold fits; lia).
  assert (@spends _ _ (lock_checker late_tx 0 5000 None) locks
    (bitcoin_wscript_htlc_receive 499000 k5 k9 (sha256 preimage) k5) [stack_element s9; []]) as S by by vm_compute.
  split; [exact S|].
  exact (received_htlc_waits late_tx 0 5000 None locks 499000 k5 k9 (sha256 preimage) k5
    [stack_element s9; []] eq_refl F S).
Defined.
End DemoAccepted.
