(* ===== verification/Shachain.v ===== *)
(** * Storing revocation secrets compactly

    src/lightning/ccan/ccan/crypto/shachain/shachain.c, built with SHACHAIN_BITS=48
    (src/lightning/Makefile). *)
From S2P Require Import Prelude Sha256.
Local Open Scope Z_scope.

Definition SHACHAIN_BITS : nat := 48.

(** [arr[index / CHAR_BIT] ^= (1 << (index % CHAR_BIT))], on a 32-byte array and an
    index below 256. *)
Definition change_bit (arr : bytes) (index : nat) : bytes :=
  alter (fun b => Z.lxor b (Z.shiftl 1 (Z.of_nat (index mod 8)))) (index / 8)%nat arr.

(** [__builtin_ctzll] *)
Fixpoint ctz (p : positive) : nat := match p with xO p => S (ctz p) | _ => 0 end.

Definition count_trailing_zeroes (index : Z) : nat :=
  match index with Zpos p => ctz p | _ => SHACHAIN_BITS end.

Definition can_derive (from to : Z) : bool :=
  if from =? 0 then true
  else
    let mask := u64 (Z.lnot (Z.shiftl 1 (Z.of_nat (count_trailing_zeroes from)) - 1)) in
    Z.land (Z.lxor from to) mask =? 0.

(** One step of the loop of [derive]. *)
Definition derive_bit (branches : Z) (hash : bytes) (i : nat) : bytes :=
  if Z.testbit branches (Z.of_nat i) then sha256 (change_bit hash i) else hash.

(** [for (i = n - 1; i >= 0; i--)] *)
Fixpoint derive_loop (n : nat) (branches : Z) (hash : bytes) : bytes :=
  match n with
  | O => hash
  | S i => derive_loop i branches (derive_bit branches hash i)
  end.

(** The bits needed to represent a 64-bit value. *)
Definition ilog64 (v : Z) : nat := match v with Z0 => 0 | _ => S (Z.to_nat (Z.log2 v)) end.

Definition derive (from to : Z) (from_hash : bytes) : option bytes :=
  assert! can_derive from to;
  let branches := Z.lxor from to in
  Some (derive_loop (ilog64 branches) branches from_hash).

Definition shachain_from_seed (seed : bytes) (index : Z) : option bytes := derive 0 index seed.

(** [known] has SHACHAIN_BITS + 1 entries. *)
Record shachain := Shachain {
  min_index : Z;
  num_valid : nat;
  known : list (Z * bytes)
}.

Definition shachain_next_index (chain : shachain) : Z := u64 (min_index chain - 1).

(** [known] keeps whatever the memory held. *)
Definition shachain_init (known : list (Z * bytes)) : shachain :=
  Shachain (u64 (Z.shiftr (2 ^ 64 - 1) (64 - Z.of_nat SHACHAIN_BITS) + 1)) 0 known.

(** The loop that checks what the new hash derives, over [known[0..pos)]. *)
Fixpoint check_known (index : Z) (hash : bytes) (l : list (Z * bytes)) : option bool :=
  match l with
  | [] => Some true
  | (idx, h) :: l =>
      expect ← derive index idx hash;
      if bool_decide (expect = h) then check_known index hash l else Some false
  end.

Definition shachain_add_hash (chain : shachain) (index : Z) (hash : bytes)
  : option (bool * shachain) :=
  assert! index =? shachain_next_index chain;
  let pos := count_trailing_zeroes index in
  ok ← check_known index hash (take pos (known chain));
  if negb ok then Some (false, chain)
  else Some (true, Shachain index
                     (if (num_valid chain <? pos + 1)%nat then (pos + 1)%nat else num_valid chain)
                     (<[pos := (index, hash)]> (known chain))).

Fixpoint get_known (index : Z) (l : list (Z * bytes)) : option (option bytes) :=
  match l with
  | [] => Some None
  | (idx, h) :: l =>
      if negb (can_derive idx index) then get_known index l
      else hash ← derive idx index h; Some (Some hash)
  end.

(** [None] is an abort, [Some None] the return value false. *)
Definition shachain_get_hash (chain : shachain) (index : Z) : option (option bytes) :=
  get_known index (take (num_valid chain) (known chain)).

(** Feeds hashes for the successive next indexes until one is refused. *)
Fixpoint add_all (chain : shachain) (hs : list bytes) : option (bool * shachain) :=
  match hs with
  | [] => Some (true, chain)
  | h :: hs =>
      r ← shachain_add_hash chain (shachain_next_index chain) h;
      if r.1 : bool then add_all r.2 hs else Some r
  end.

(** ** Trailing zeroes *)

Lemma ctz_spec p : exists o, 0 <= o /\ Zpos p = 2 ^ Z.of_nat (ctz p) * (2 * o + 1).
Proof.
  induction p as [p IH|p IH|]; simpl ctz.
  - exists (Zpos p). lia.
  - destruct IH as (o & Ho & E). exists o. split; [done|].
    rewrite Nat2Z.inj_succ, Z.pow_succ_r, Pos2Z.inj_xO, E by lia. lia.
  - exists 0. lia.
Qed.

Lemma pow2_pos n : 0 < 2 ^ Z.of_nat n.
Proof. apply Z.pow_pos_nonneg; lia. Qed.

Lemma pow2_nz n : 2 ^ Z.of_nat n <> 0.
Proof. intros E. pose proof (pow2_pos n) as P. rewrite E in P. lia. Qed.

Lemma pow2_S n : 2 ^ Z.of_nat (S n) = 2 * 2 ^ Z.of_nat n.
Proof. rewrite Nat2Z.inj_succ, Z.pow_succ_r; lia. Qed.

Lemma pow2_divide m n : (m <= n)%nat -> (2 ^ Z.of_nat m | 2 ^ Z.of_nat n).
Proof.
  intros L. exists (2 ^ Z.of_nat (n - m)). rewrite <- Z.pow_add_r by lia. f_equal. lia.
Qed.

Lemma pow2_le m n : (m <= n)%nat -> 2 ^ Z.of_nat m <= 2 ^ Z.of_nat n.
Proof. intros. apply Z.pow_le_mono_r; lia. Qed.

Lemma pow2_lt m n : (m < n)%nat -> 2 ^ Z.of_nat m < 2 ^ Z.of_nat n.
Proof. intros. apply Z.pow_lt_mono_r; lia. Qed.

(** The size of the index space. *)
Definition N : Z := 2 ^ Z.of_nat SHACHAIN_BITS.

(** [index] is 2^k times an odd number (or zero, for the last k). *)
Definition level (k : nat) (x : Z) : Prop :=
  (x = 0 /\ k = SHACHAIN_BITS) \/ (0 < x /\ x mod 2 ^ Z.of_nat (S k) = 2 ^ Z.of_nat k).

Lemma level_ctz x : 0 <= x -> level (count_trailing_zeroes x) x.
Proof.
  intros Hx. destruct x as [|p|p]; [by left| |lia]. right. split; [lia|].
  simpl. destruct (ctz_spec p) as (o & Ho & E). rewrite E, pow2_S.
  pose proof (pow2_pos (ctz p)).
  replace (2 ^ Z.of_nat (ctz p) * (2 * o + 1))
    with (2 ^ Z.of_nat (ctz p) + o * (2 * 2 ^ Z.of_nat (ctz p))) by lia.
  rewrite Z.mod_add by lia. apply Z.mod_small. lia.
Qed.

Lemma level_divide k x : level k x -> (2 ^ Z.of_nat k | x).
Proof.
  intros [[-> _]|[_ E]]; [apply Z.divide_0_r|].
  pose proof (Z.div_mod x _ (pow2_nz (S k))) as D.
  rewrite E in D. exists (2 * (x / 2 ^ Z.of_nat (S k)) + 1). rewrite D at 1. rewrite pow2_S. ring.
Qed.

(** A multiple of 2^k is at level k or above. *)
Lemma level_ge j k x : level j x -> (2 ^ Z.of_nat k | x) -> 0 <= x < N -> (k <= j)%nat \/ x = 0.
Proof.
  intros [[-> _]|[Hx E]] D B; [by right|]. left.
  destruct (decide (k <= j)%nat) as [|L]; [done|]. exfalso.
  assert (2 ^ Z.of_nat (S j) | x) as D2
    by (apply (Z.divide_trans _ (2 ^ Z.of_nat k)); [apply pow2_divide; lia|exact D]).
  apply Z.mod_divide in D2; [|apply pow2_nz].
  pose proof (pow2_pos j). lia.
Qed.

Lemma level_bound k x : level k x -> 0 <= x < N -> (k <= SHACHAIN_BITS)%nat.
Proof.
  intros L B. destruct (decide (k <= SHACHAIN_BITS)%nat) as [|G]; [done|]. exfalso.
  pose proof (level_divide k x L) as [q E]. destruct L as [[_ ?]|[Hx _]]; [lia|].
  assert (N < 2 ^ Z.of_nat k) by (apply pow2_lt; lia). pose proof (pow2_pos k).
  generalize dependent (2 ^ Z.of_nat k). intros P -> ? ?. assert (0 < q) by nia. nia.
Qed.

(** Multiples of 2^k below the size of the space leave room for 2^k. *)
Lemma divide_room k x : (k <= SHACHAIN_BITS)%nat -> (2 ^ Z.of_nat k | x) -> x < N ->
  x + 2 ^ Z.of_nat k <= N.
Proof.
  intros K [q ->] L. destruct (pow2_divide k SHACHAIN_BITS K) as [r R].
  fold N in R. rewrite R in L |- *. pose proof (pow2_pos k) as P.
  apply Z.mul_lt_mono_pos_r in L; [|done].
  pose proof (Z.mul_le_mono_nonneg_r (q + 1) r (2 ^ Z.of_nat k)). lia.
Qed.

(** ** Derivation *)

Lemma mask_spec x k : 0 <= x < 2 ^ 64 -> (k <= SHACHAIN_BITS)%nat ->
  (Z.land x (u64 (Z.lnot (Z.shiftl 1 (Z.of_nat k) - 1))) =? 0) = (x <? 2 ^ Z.of_nat k).
Proof.
  intros Hx Hk. rewrite Z.shiftl_1_l.
  replace (2 ^ Z.of_nat k - 1) with (Z.ones (Z.of_nat k)) by (rewrite Z.ones_equiv; lia).
  assert (Z.land x (u64 (Z.lnot (Z.ones (Z.of_nat k))))
          = Z.shiftl (Z.shiftr x (Z.of_nat k)) (Z.of_nat k)) as ->.
  { rewrite <- Z.ldiff_ones_r, Z.ldiff_land by lia. unfold u64.
    rewrite <- Z.land_ones by lia. apply Z.bits_inj'. intros i Hi.
    rewrite !Z.land_spec. destruct (decide (i < 64)) as [L|L].
    - rewrite (Z.ones_spec_low 64 i) by lia. by rewrite andb_true_r.
    - rewrite (Z.bits_above_log2 x i); [done|lia|].
      destruct (decide (x = 0)) as [->|]; [simpl; lia|].
      apply (Z.lt_le_trans _ 64); [|lia]. apply Z.log2_lt_pow2; lia. }
  rewrite Z.shiftl_mul_pow2, Z.shiftr_div_pow2 by lia. pose proof (pow2_pos k).
  destruct (Z.ltb_spec x (2 ^ Z.of_nat k)).
  - rewrite Z.div_small by lia. done.
  - apply Z.eqb_neq. assert (1 <= x / 2 ^ Z.of_nat k) by (apply Z.div_le_lower_bound; lia). nia.
Qed.

(** Exclusive or of indexes that agree above the low [k] bits. *)
Lemma lxor_lt_pow2 x y k : 0 <= x -> 0 <= y ->
  (Z.lxor x y < 2 ^ Z.of_nat k <-> x / 2 ^ Z.of_nat k = y / 2 ^ Z.of_nat k).
Proof.
  intros Hx Hy. rewrite <- !Z.shiftr_div_pow2 by lia.
  assert (0 <= Z.lxor x y) by (apply Z.lxor_nonneg; lia). pose proof (pow2_pos k).
  rewrite <- Z.lxor_eq_0_iff, <- Z.shiftr_lxor, Z.shiftr_div_pow2 by lia. split; intros E.
  - apply Z.div_small. lia.
  - apply Z.div_small_iff in E; lia.
Qed.

Lemma same_block x y k : (2 ^ Z.of_nat k | x) ->
  (x / 2 ^ Z.of_nat k = y / 2 ^ Z.of_nat k <-> x <= y < x + 2 ^ Z.of_nat k).
Proof.
  intros [q ->]. pose proof (pow2_pos k). rewrite Z.div_mul by lia. split; intros E.
  - subst q. pose proof (Z.div_mod y (2 ^ Z.of_nat k)). pose proof (Z.mod_pos_bound y (2 ^ Z.of_nat k)).
    nia.
  - apply Z.div_unique with (r := y - q * 2 ^ Z.of_nat k); lia.
Qed.

(** What can be derived from an index: the block of 2^k indexes it starts. *)
Lemma can_derive_spec x y k : 0 <= x < N -> 0 <= y < N -> level k x ->
  can_derive x y = true <-> x <= y < x + 2 ^ Z.of_nat k.
Proof.
  intros Hx Hy L. unfold can_derive. destruct (Z.eqb_spec x 0) as [->|Hnz].
  - destruct L as [[_ ->]|[? _]]; [|lia]. fold N. split; [lia|done].
  - assert (count_trailing_zeroes x = k) as ->.
    { pose proof (level_ctz x ltac:(lia)) as L'.
      pose proof (level_ge _ _ _ L (level_divide _ _ L') Hx).
      pose proof (level_ge _ _ _ L' (level_divide _ _ L) Hx). lia. }
    assert (0 <= Z.lxor x y < 2 ^ 64).
    { assert (N < 2 ^ 64) by done. apply lxor_bound; lia. }
    rewrite mask_spec, Z.ltb_lt, lxor_lt_pow2, same_block; try done; try lia.
    + by apply level_divide.
    + by apply (level_bound k x).
Qed.

Lemma derive_loop_app m n b h :
  derive_loop (m + n) b h = derive_loop n b (foldl (derive_bit b) h (rev (seq n m))).
Proof.
  revert h. induction m as [|m IH]; intros h; [done|].
  cbn [Nat.add derive_loop]. rewrite IH, seq_S, rev_app_distr. cbn. by rewrite Nat.add_comm.
Qed.

Lemma derive_loop_ext n b b' h :
  (forall i, (i < n)%nat -> Z.testbit b (Z.of_nat i) = Z.testbit b' (Z.of_nat i)) ->
  derive_loop n b h = derive_loop n b' h.
Proof.
  revert h. induction n as [|n IH]; intros h E; [done|]. cbn [derive_loop].
  unfold derive_bit. rewrite E by lia. apply IH. auto with lia.
Qed.

Lemma derive_bits_ext l b b' h :
  (forall i, i ∈ l -> Z.testbit b (Z.of_nat i) = Z.testbit b' (Z.of_nat i)) ->
  foldl (derive_bit b) h l = foldl (derive_bit b') h l.
Proof.
  revert h. induction l as [|i l IH]; intros h E; [done|]. cbn [foldl].
  unfold derive_bit at 2 4. rewrite E by set_solver. apply IH. set_solver.
Qed.

Lemma derive_bits_skip l b h :
  (forall i, i ∈ l -> Z.testbit b (Z.of_nat i) = false) -> foldl (derive_bit b) h l = h.
Proof.
  intros E. rewrite (derive_bits_ext l b 0) by (intros; rewrite Z.bits_0; auto).
  clear. induction l; [done|]. cbn [foldl]. unfold derive_bit at 2. by rewrite Z.bits_0.
Qed.

(** The starting bit does not matter as long as it is above every branch. *)
Lemma derive_loop_ilog n b h : 0 <= b < 2 ^ Z.of_nat n ->
  derive_loop (ilog64 b) b h = derive_loop n b h.
Proof.
  intros Hb. assert (ilog64 b <= n)%nat as L.
  { destruct b as [|p|p]; cbn [ilog64]; [lia| |lia].
    pose proof (Z.log2_lt_pow2 (Zpos p) (Z.of_nat n) ltac:(lia)) as [E _].
    pose proof (Z.log2_nonneg (Zpos p)). specialize (E ltac:(lia)). lia. }
  replace n with (n - ilog64 b + ilog64 b)%nat by lia. rewrite derive_loop_app.
  rewrite derive_bits_skip; [done|]. intros i Hi%list_elem_of_In%in_rev%in_seq.
  destruct b as [|p|p]; [| |lia].
  - apply Z.bits_0.
  - apply Z.bits_above_log2; [lia|]. cbn [ilog64] in Hi. pose proof (Z.log2_nonneg (Zpos p)). lia.
Qed.

Lemma derive_eq x y h : 0 <= x < N -> 0 <= y < N -> can_derive x y = true ->
  derive x y h = Some (derive_loop 64 (Z.lxor x y) h).
Proof.
  intros Hx Hy E. unfold derive. rewrite c_assert_true by done. f_equal.
  apply derive_loop_ilog. change (2 ^ Z.of_nat 64) with (2 ^ 64).
  assert (N < 2 ^ 64) by done. apply lxor_bound; lia.
Qed.

Lemma derive_refl x h : 0 <= x < N -> derive x x h = Some h.
Proof.
  intros Hx. rewrite derive_eq; try done.
  - by rewrite Z.lxor_nilpotent, <- (derive_loop_ilog 64 0).
  - pose proof (level_ctz x ltac:(lia)). eapply can_derive_spec; try done.
    pose proof (pow2_pos (count_trailing_zeroes x)). lia.
Qed.

Lemma testbit_low k x i : (2 ^ Z.of_nat k | x) -> (i < k)%nat -> Z.testbit x (Z.of_nat i) = false.
Proof. intros [q ->] L. apply Z.mul_pow2_bits_low. lia. Qed.

Lemma testbit_high k x y i : x / 2 ^ Z.of_nat k = y / 2 ^ Z.of_nat k -> (k <= i)%nat ->
  Z.testbit x (Z.of_nat i) = Z.testbit y (Z.of_nat i).
Proof.
  rewrite <- !Z.shiftr_div_pow2 by lia. intros E L.
  replace (Z.of_nat i) with (Z.of_nat (i - k) + Z.of_nat k) by lia.
  by rewrite <- !Z.shiftr_spec, E by lia.
Qed.

(** A block that starts inside another is contained in it. *)
Lemma level_nest j k x y : 0 <= x < N -> 0 <= y < N -> level j x -> level k y ->
  x <= y < x + 2 ^ Z.of_nat j -> (2 ^ Z.of_nat k | x) /\ y + 2 ^ Z.of_nat k <= x + 2 ^ Z.of_nat j.
Proof.
  intros Hx Hy Lx Ly B. pose proof (level_divide _ _ Lx) as Dx. pose proof (level_divide _ _ Ly) as Dy.
  destruct (decide (k <= j)%nat) as [L|L].
  - pose proof (pow2_divide k j L) as D. split; [by apply (Z.divide_trans _ (2 ^ Z.of_nat j))|].
    assert (2 ^ Z.of_nat k | x + 2 ^ Z.of_nat j) as [q Hq]
      by (apply Z.divide_add_r; [by apply (Z.divide_trans _ (2 ^ Z.of_nat j))|done]).
    destruct Dy as [r ->]. rewrite Hq in *. pose proof (pow2_pos k) as P.
    assert (r < q) by (apply (Z.mul_lt_mono_pos_r (2 ^ Z.of_nat k)); lia).
    pose proof (Z.mul_le_mono_nonneg_r (r + 1) q (2 ^ Z.of_nat k)). lia.
  - assert (x = y) as ->.
    { assert (x / 2 ^ Z.of_nat j = y / 2 ^ Z.of_nat j) as E by by apply same_block.
      assert (2 ^ Z.of_nat j | y) as [r Hr]
        by (apply (Z.divide_trans _ (2 ^ Z.of_nat k)); [apply pow2_divide; lia|done]).
      destruct Dx as [q Hq]. subst x y. pose proof (pow2_pos j).
      rewrite !Z.div_mul in E by lia. by rewrite E. }
    pose proof (level_ge _ _ _ Lx Dy Hx). destruct H as [| ->]; [lia|].
    destruct Lx as [[_ ->]|[? _]], Ly as [[_ ->]|[? _]]; lia.
Qed.

Lemma derive_trans j k x y z h :
  0 <= x < N -> 0 <= y < N -> 0 <= z < N -> level j x -> level k y ->
  can_derive x y = true -> can_derive y z = true ->
  can_derive x z = true /\ derive x z h = (derive x y h ≫= derive y z).
Proof.
  intros Hx Hy Hz Lx Ly Exy Eyz.
  pose proof (proj1 (can_derive_spec x y j Hx Hy Lx) Exy) as Bxy.
  pose proof (proj1 (can_derive_spec y z k Hy Hz Ly) Eyz) as Byz.
  destruct (level_nest j k x y) as [D R]; try done.
  assert (can_derive x z = true) as Exz by (apply (can_derive_spec x z j); try done; lia).
  split; [done|]. rewrite !(derive_eq _ _ h) by done. cbn [mbind option_bind].
  rewrite derive_eq by done. f_equal.
  pose proof (level_bound k y Ly Hy) as K. unfold SHACHAIN_BITS in K.
  pose proof (level_divide k y Ly) as Dy.
  assert (y / 2 ^ Z.of_nat k = z / 2 ^ Z.of_nat k) as Q by by apply same_block.
  replace 64%nat with (64 - k + k)%nat by lia. rewrite !(derive_loop_app (64 - k) k).
  rewrite (derive_bits_skip _ (Z.lxor y z)).
  - rewrite (derive_bits_ext _ (Z.lxor x z) (Z.lxor x y)).
    + assert (forall i, (i < k)%nat -> Z.testbit x (Z.of_nat i) = false
        /\ Z.testbit y (Z.of_nat i) = false) as Z0 by (intros; split; by apply (testbit_low k)).
      rewrite (derive_loop_ext k (Z.lxor x z) (Z.lxor y z)).
      * f_equal. rewrite (derive_loop_ext k (Z.lxor x y) 0).
        -- clear. generalize (foldl (derive_bit (Z.lxor x y)) h (rev (seq k (64 - k)))).
           induction k as [|k IH]; intros g; [done|]. cbn [derive_loop]. unfold derive_bit.
           by rewrite Z.bits_0.
        -- intros i L. destruct (Z0 i L) as [A B]. by rewrite Z.lxor_spec, A, B, Z.bits_0.
      * intros i L. destruct (Z0 i L) as [A B]. by rewrite !Z.lxor_spec, A, B.
    + intros i Hi%list_elem_of_In%in_rev%in_seq.
      by rewrite !Z.lxor_spec, (testbit_high k y z) by lia || done.
  - intros i Hi%list_elem_of_In%in_rev%in_seq.
    rewrite Z.lxor_spec, (testbit_high k y z) by (done || lia). apply xorb_nilpotent.
Qed.

(** ** The invariant

    [hist] is the hash added for each index from [min_index] on. Entry [k] is the lowest
    such index at level [k], with its hash, from which the hash of every index of its
    block is derived; and the blocks cover every index added. *)
Record chain_inv (hist : Z -> bytes) (c : shachain) : Prop := {
  inv_min : 0 <= min_index c <= N;
  inv_len : length (known c) = S SHACHAIN_BITS;
  inv_num : (num_valid c <= S SHACHAIN_BITS)%nat /\
    (forall k, (k <= SHACHAIN_BITS)%nat ->
       (k < num_valid c)%nat <-> min_index c + 2 ^ Z.of_nat k <= N);
  inv_known : forall k idx h, (k < num_valid c)%nat -> known c !! k = Some (idx, h) ->
    level k idx /\ (min_index c <= idx < min_index c + 2 ^ Z.of_nat (S k)) /\ idx < N /\
    (forall j, 0 <= j < N -> can_derive idx j = true -> derive idx j h = Some (hist j));
  inv_cover : forall j, min_index c <= j < N ->
    exists k idx h, (k < num_valid c)%nat /\ known c !! k = Some (idx, h) /\
      can_derive idx j = true
}.

Definition fupd (f : Z -> bytes) (x : Z) (h : bytes) : Z -> bytes :=
  fun j => if j =? x then h else f j.

Lemma init_min known : min_index (shachain_init known) = N.
Proof. reflexivity. Qed.

Lemma chain_inv_init hist known :
  length known = S SHACHAIN_BITS -> chain_inv hist (shachain_init known).
Proof.
  intros L. constructor; rewrite ?init_min.
  - unfold N. pose proof (pow2_pos SHACHAIN_BITS). lia.
  - done.
  - split; [simpl; lia|]. intros k Hk. cbn [num_valid shachain_init].
    pose proof (pow2_pos k). lia.
  - cbn. lia.
  - lia.
Qed.

Lemma check_known_spec x h l :
  Forall (fun e => can_derive x e.1 = true) l ->
  exists b, check_known x h l = Some b /\
    (b = true <-> Forall (fun e => derive x e.1 h = Some e.2) l).
Proof.
  induction 1 as [|[idx g] l E _ (b & Eb & Hb)]; [by exists true|].
  simpl in E. cbn [check_known]. unfold derive at 1. rewrite E. simpl.
  set (d := derive_loop _ _ _). assert (derive x idx h = Some d) as Hd.
  { unfold derive. by rewrite E. }
  case_bool_decide as Q.
  - exists b. split; [done|]. rewrite Hb, Forall_cons. simpl. rewrite Hd.
    split; [intros ?; split; [by f_equal|done]|by intros [_ ?]].
  - exists false. split; [done|]. rewrite Forall_cons. simpl. rewrite Hd.
    split; [done|]. by intros [[= ?] _].
Qed.

Lemma get_known_spec hist j l :
  (forall idx h, (idx, h) ∈ l -> can_derive idx j = true -> derive idx j h = Some (hist j)) ->
  get_known j l = Some (if existsb (fun e => can_derive e.1 j) l then Some (hist j) else None).
Proof.
  induction l as [|[idx h] l IH]; intros H; [done|]. cbn [get_known existsb fst].
  destruct (can_derive idx j) eqn:E; simpl.
  - rewrite (H idx h) by (done || set_solver). done.
  - apply IH. set_solver.
Qed.

(** Retrieval: exactly the indexes added are found, with their hash. *)
Lemma get_hash_inv hist c j : chain_inv hist c -> 0 <= j < N ->
  shachain_get_hash c j = Some (if min_index c <=? j then Some (hist j) else None).
Proof.
  intros I Hj. unfold shachain_get_hash. pose proof (inv_min _ _ I).
  rewrite (get_known_spec hist).
  - f_equal. enough (existsb (fun e => can_derive e.1 j) (take (num_valid c) (known c))
      = (min_index c <=? j)) as -> by done. destruct (Z.leb_spec (min_index c) j) as [L|L].
    + apply existsb_exists. destruct (inv_cover _ _ I j ltac:(lia)) as (k & idx & h & Hk & Hl & E).
      exists (idx, h). split; [|done]. apply list_elem_of_In, list_elem_of_lookup. exists k.
      by rewrite lookup_take_lt.
    + apply not_true_iff_false. intros ([idx h] & Hin & E)%existsb_exists.
      apply list_elem_of_In, list_elem_of_lookup in Hin as [k Hk].
      apply lookup_take_Some in Hk as [Hk Hlt].
      destruct (inv_known _ _ I k idx h Hlt Hk) as (Lv & B & B' & _). simpl in E.
      apply (can_derive_spec idx j k) in E; try done; lia.
  - intros idx h Hin E. apply list_elem_of_lookup in Hin as [k Hk].
    apply lookup_take_Some in Hk as [Hk Hlt]. by apply (inv_known _ _ I k idx h Hlt Hk).
Qed.

(** The entries below the level of the next index all lie in its block. *)
Lemma known_below hist c x p k idx h : chain_inv hist c -> x = min_index c - 1 -> 0 <= x ->
  level p x -> (k < p)%nat -> known c !! k = Some (idx, h) ->
  (k < num_valid c)%nat /\ can_derive x idx = true.
Proof.
  intros I Ex Hx Lp Hk Hl. pose proof (inv_min _ _ I).
  pose proof (level_bound p x Lp ltac:(lia)) as Hp. pose proof (level_divide p x Lp) as Dp.
  pose proof (divide_room p x Hp Dp ltac:(lia)). pose proof (pow2_lt k p Hk).
  assert (k < num_valid c)%nat as Hv by (apply (inv_num _ _ I); lia). split; [done|].
  destruct (inv_known _ _ I k idx h Hv Hl) as (Lk & B & B' & _).
  apply (can_derive_spec x idx p); try done; try lia.
  pose proof (pow2_le (S k) p ltac:(lia)).
  assert (idx <> x + 2 ^ Z.of_nat p) as NE; [|lia]. intros E.
  assert (2 ^ Z.of_nat p | idx) as D by (rewrite E; apply Z.divide_add_r; [done|apply Z.divide_refl]).
  destruct (level_ge _ _ _ Lk D ltac:(lia)); lia.
Qed.

(** Only entries below its level lie in the block of the next index. *)
Lemma known_inside hist c x p k idx h j : chain_inv hist c -> x = min_index c - 1 -> 0 <= x ->
  level p x -> (k < num_valid c)%nat -> known c !! k = Some (idx, h) ->
  can_derive idx j = true -> x < j < x + 2 ^ Z.of_nat p -> 0 <= j < N -> (k < p)%nat.
Proof.
  intros I Ex Hx Lp Hv Hl Ed Bj Hj. pose proof (inv_min _ _ I).
  destruct (inv_known _ _ I k idx h Hv Hl) as (Lk & B & B' & _).
  apply (can_derive_spec idx j k) in Ed; try done; [|lia].
  destruct (decide (k < p)%nat) as [|G]; [done|]. exfalso.
  pose proof (level_divide p x Lp) as Dp.
  assert (2 ^ Z.of_nat p | idx) as D
    by (apply (Z.divide_trans _ (2 ^ Z.of_nat k)); [apply pow2_divide; lia|by apply level_divide]).
  assert (x / 2 ^ Z.of_nat p = idx / 2 ^ Z.of_nat p) as E by (apply same_block; [done|lia]).
  destruct D as [r Hr], Dp as [q Hq]. pose proof (pow2_nz p).
  rewrite Hr, Hq, !Z.div_mul in E by done. subst r. lia.
Qed.

Lemma level_unique j k x : 0 <= x < N -> level j x -> level k x -> j = k.
Proof.
  intros Hx Lj Lk. pose proof (level_ge _ _ _ Lj (level_divide _ _ Lk) Hx).
  pose proof (level_ge _ _ _ Lk (level_divide _ _ Lj) Hx).
  destruct Lj as [[-> ->]|[? _]], Lk as [[? ->]|[? _]]; lia.
Qed.

(** Indexes of a level are 2^(k+1) apart. *)
Lemma level_apart k a b : 0 < a -> 0 < b -> level k a -> level k b -> (2 ^ Z.of_nat (S k) | b - a).
Proof.
  intros Ha Hb [[? _]|[_ Ea]] [[? _]|[_ Eb]]; try lia.
  apply Z.mod_divide; [apply pow2_nz|]. rewrite Zminus_mod, Ea, Eb, Z.sub_diag. apply Z.mod_0_l, pow2_nz.
Qed.

Lemma divide_between P d : 0 < P -> (P | d) -> - P < d < P -> d = 0.
Proof. intros HP [q ->] B. assert (-1 < q < 1) by nia. replace q with 0 by lia. lia. Qed.

Section AddHash.
Context (hist : Z -> bytes) (c : shachain) (h : bytes) (x : Z) (p : nat).
Context (I : chain_inv hist c) (Ex : x = min_index c - 1) (Hx : 0 <= x) (Lp : level p x).

Lemma x_bounds : 0 <= x < N /\ (p <= SHACHAIN_BITS)%nat /\ x + 2 ^ Z.of_nat p <= N.
Proof using I Ex Hx Lp.
  pose proof (inv_min _ _ I). assert (0 <= x < N) as B by lia. split; [done|].
  pose proof (level_bound p x Lp B). split; [done|].
  apply divide_room; [done|by apply level_divide|lia].
Qed.

(** The array after the addition. *)
Definition added : shachain :=
  Shachain x (if (num_valid c <? p + 1)%nat then (p + 1)%nat else num_valid c)
    (<[p := (x, h)]> (known c)).

Lemma added_num k : (k <= SHACHAIN_BITS)%nat ->
  (k < num_valid added)%nat <-> x + 2 ^ Z.of_nat k <= N.
Proof using I Ex Hx Lp.
  intros Hk. destruct x_bounds as (B & Hp & R). cbn [num_valid added].
  pose proof (proj2 (inv_num _ _ I) k Hk) as Q.
  assert ((k < p + 1)%nat -> x + 2 ^ Z.of_nat k <= N).
  { intros. pose proof (pow2_le k p ltac:(lia)). lia. }
  assert (~ (k < p + 1)%nat -> x + 2 ^ Z.of_nat k <> N).
  { intros G E. assert (2 ^ Z.of_nat k | x) as D.
    { replace x with (N - 2 ^ Z.of_nat k) by lia. apply Z.divide_sub_r; [by apply pow2_divide|].
      apply Z.divide_refl. }
    destruct (level_ge _ _ _ Lp D B) as [|E0]; [lia|].
    destruct Lp as [[_ ->]|[? _]]; lia. }
  destruct (Nat.ltb_spec (num_valid c) (p + 1)); lia.
Qed.

Lemma old_entry k idx g : (k < num_valid added)%nat -> k <> p -> known c !! k = Some (idx, g) ->
  (k < num_valid c)%nat.
Proof using I Ex Hx Lp.
  intros Hk Hn Hl. destruct (decide (k < p)%nat) as [L|L].
  - by apply (known_below hist c x p k idx g).
  - cbn [num_valid added] in Hk. destruct (Nat.ltb_spec (num_valid c) (p + 1)); lia.
Qed.

Lemma old_bound k idx g : (k < num_valid c)%nat -> k <> p -> known c !! k = Some (idx, g) ->
  idx < x + 2 ^ Z.of_nat (S k).
Proof using I Ex Hx Lp.
  intros Hk Hn Hl. destruct (inv_known _ _ I k idx g Hk Hl) as (Lk & B & B' & _).
  destruct x_bounds as (Bx & _ & _).
  assert (idx <> x + 2 ^ Z.of_nat (S k)) as NE; [|lia]. intros E. apply Hn.
  destruct Lk as [[-> _]|[Hi Em]]; [lia|].
  assert (x mod 2 ^ Z.of_nat (S k) = 2 ^ Z.of_nat k) as Xm.
  { rewrite <- Em, E. replace (x + 2 ^ Z.of_nat (S k)) with (x + 1 * 2 ^ Z.of_nat (S k)) by lia.
    by rewrite Z.mod_add by apply pow2_nz. }
  apply (level_unique k p x Bx); [|done]. right. split; [|done].
  assert (x <> 0) as ?; [|lia]. intros ->. rewrite Z.mod_0_l in Xm by apply pow2_nz.
  pose proof (pow2_pos k). lia.
Qed.

(** Where the entry the new one replaces was used, one of a higher level serves. *)
Lemma cover_replaced idx g j : known c !! p = Some (idx, g) -> (p < num_valid c)%nat ->
  can_derive idx j = true -> 0 <= j < N ->
  exists k idx' g', (k < num_valid c)%nat /\ k <> p /\ known c !! k = Some (idx', g') /\
    can_derive idx' j = true.
Proof using I Ex Hx Lp.
  intros Hl Hv Ed Hj. destruct x_bounds as (Bx & Hp & R).
  destruct (inv_known _ _ I p idx g Hv Hl) as (Lk & B & B' & _).
  assert (0 < x) as Hx0.
  { assert (x <> 0) as ?; [|lia]. intros E0. destruct Lp as [[_ E48]|[? _]]; [|lia].
    rewrite E48 in R, Hv. pose proof (proj1 (proj2 (inv_num _ _ I) SHACHAIN_BITS ltac:(done)) Hv).
    fold N in *. lia. }
  assert (idx = x + 2 ^ Z.of_nat (S p)) as Ei.
  { pose proof (level_apart p x idx ltac:(lia) ltac:(lia) Lp Lk) as [q Hq].
    pose proof (pow2_pos (S p)) as P. assert (q = 1) as ->; [|lia].
    generalize dependent (2 ^ Z.of_nat (S p)). intros. nia. }
  apply (can_derive_spec idx j p) in Ed; try done; [|lia].
  set (y := x + 2 ^ Z.of_nat p). pose proof (pow2_pos p).
  assert (idx = y + 2 ^ Z.of_nat p) as Ey by (rewrite Ei, pow2_S; unfold y; lia).
  assert (0 <= y < N) as By by (unfold y in *; lia).
  set (q := count_trailing_zeroes y). assert (level q y) as Lq by (apply level_ctz; lia).
  assert (2 ^ Z.of_nat (S p) | y) as Dy.
  { destruct Lp as [[? _]|[_ Em]]; [lia|]. unfold y.
    rewrite (Z.div_mod x (2 ^ Z.of_nat (S p))) by apply pow2_nz. rewrite Em.
    exists (x / 2 ^ Z.of_nat (S p) + 1). rewrite !pow2_S. lia. }
  assert (S p <= q)%nat as Hq by (destruct (level_ge _ _ _ Lq Dy By); [done|unfold y in *; lia]).
  pose proof (level_bound q y Lq By) as Hq48.
  pose proof (divide_room q y Hq48 (level_divide _ _ Lq) ltac:(lia)) as Rq.
  assert (q < num_valid c)%nat as Hvq by (apply (inv_num _ _ I); [done|unfold y in *; lia]).
  destruct (lookup_lt_is_Some_2 (known c) q) as [[iq gq] Hlq].
  { rewrite (inv_len _ _ I). lia. }
  exists q, iq, gq. split; [done|]. split; [lia|]. split; [done|].
  destruct (inv_known _ _ I q iq gq Hvq Hlq) as (Lq' & B2 & B2' & _).
  pose proof (pow2_le (S p) q Hq). rewrite pow2_S in *.
  assert (iq = y) as ->.
  { pose proof (level_apart q y iq ltac:(unfold y in *; lia) ltac:(lia) Lq Lq') as D.
    pose proof (pow2_pos (S q)). rewrite pow2_S in *.
    apply divide_between in D; [lia|lia|]. unfold y in *. lia. }
  apply (can_derive_spec y j q); try done. lia.
Qed.
End AddHash.

(** The new entry derives what was recorded for its whole block. *)
Lemma new_entry_derives hist c h x p j :
  chain_inv hist c -> x = min_index c - 1 -> 0 <= x -> level p x ->
  Forall (fun e => derive x e.1 h = Some e.2) (take p (known c)) ->
  0 <= j < N -> can_derive x j = true -> derive x j h = Some (fupd hist x h j).
Proof.
  intros I Ex Hx Lp Hc Hj Ed. destruct (x_bounds hist c x p I Ex Hx Lp) as (Bx & Hp & R).
  unfold fupd. destruct (Z.eqb_spec j x) as [->|NE]; [by apply derive_refl|].
  pose proof (proj1 (can_derive_spec x j p Bx Hj Lp) Ed) as Bj.
  destruct (inv_cover _ _ I j ltac:(lia)) as (k & idx & g & Hk & Hl & Ek).
  assert (k < p)%nat as Hkp by (apply (known_inside hist c x p k idx g j); try done; lia).
  destruct (inv_known _ _ I k idx g Hk Hl) as (Lk & B & B' & Hder).
  destruct (known_below hist c x p k idx g I Ex Hx Lp Hkp Hl) as [_ Exi].
  destruct (derive_trans p k x idx j h) as [_ ->]; try done; [lia|].
  rewrite Forall_lookup in Hc. specialize (Hc k (idx, g)).
  rewrite lookup_take_lt in Hc by done. simpl in Hc. rewrite Hc by done. simpl. by apply Hder.
Qed.

Lemma added_inv hist c h x p :
  chain_inv hist c -> x = min_index c - 1 -> 0 <= x -> level p x ->
  Forall (fun e => derive x e.1 h = Some e.2) (take p (known c)) ->
  chain_inv (fupd hist x h) (added c h x p).
Proof.
  intros I Ex Hx Lp Hc. destruct (x_bounds hist c x p I Ex Hx Lp) as (Bx & Hp & R).
  pose proof (inv_len _ _ I) as Len.
  assert (p < num_valid (added c h x p))%nat as Hpv by (by apply (added_num hist)).
  assert (known (added c h x p) !! p = Some (x, h)) as Hlp
    by (apply list_lookup_insert_eq; rewrite Len; lia).
  assert (forall k, k <> p -> known (added c h x p) !! k = known c !! k) as Hln
    by (intros; by apply list_lookup_insert_ne).
  constructor; cbn [min_index].
  - cbn [min_index added]. lia.
  - cbn [known added]. by rewrite length_insert.
  - split; [|intros; by apply (added_num hist)]. pose proof (proj1 (inv_num _ _ I)).
    cbn [num_valid added]. destruct (Nat.ltb_spec (num_valid c) (p + 1)); lia.
  - intros k idx g Hk Hl. destruct (decide (k = p)) as [->|NE].
    + rewrite Hlp in Hl. injection Hl as <- <-. cbn [min_index added].
      pose proof (pow2_pos (S p)). split; [done|]. split; [lia|]. split; [lia|].
      intros. by apply (new_entry_derives hist c h x p).
    + rewrite Hln in Hl by done. pose proof (old_entry hist c h x p I Ex Hx Lp k idx g Hk NE Hl) as Hv.
      destruct (inv_known _ _ I k idx g Hv Hl) as (Lk & B & B' & Hder). split; [done|].
      pose proof (old_bound hist c x p I Ex Hx Lp k idx g Hv NE Hl). cbn [min_index added].
      split; [lia|]. split; [done|]. intros j Hj Ed. rewrite (Hder j Hj Ed). f_equal. unfold fupd.
      apply (can_derive_spec idx j k) in Ed; try done; [|lia].
      destruct (Z.eqb_spec j x); [lia|done].
  - intros j Hj. cbn [min_index added] in Hj. destruct (decide (j = x)) as [->|NE].
    + exists p, x, h. split; [done|]. split; [done|]. apply (can_derive_spec x x p); try done.
      pose proof (pow2_pos p). lia.
    + destruct (inv_cover _ _ I j ltac:(lia)) as (k & idx & g & Hk & Hl & Ek).
      assert (exists k idx g, (k < num_valid c)%nat /\ k <> p /\ known c !! k = Some (idx, g) /\
        can_derive idx j = true) as (k' & i' & g' & Hk' & Nk & Hl' & E').
      { destruct (decide (k = p)) as [->|Nk]; [|by exists k, idx, g].
        apply (cover_replaced hist c x p I Ex Hx Lp idx g); try done. lia. }
      exists k', i', g'. rewrite Hln by done. split; [|done]. cbn [num_valid added].
      destruct (Nat.ltb_spec (num_valid c) (p + 1)); lia.
Qed.

(** Adding at the next index never aborts; it is refused without a change, or extends
    the history by one; and it is accepted if it derives what was recorded. *)
Lemma add_hash_inv hist c h : chain_inv hist c -> 1 <= min_index c ->
  let x := min_index c - 1 in
  shachain_next_index c = x /\
  exists b c', shachain_add_hash c x h = Some (b, c') /\
    (if b then chain_inv (fupd hist x h) c' /\ min_index c' = x else c' = c) /\
    ((forall j, 0 <= j < N -> can_derive x j = true -> j <> x -> derive x j h = Some (hist j)) ->
     b = true).
Proof.
  intros I Hm x. pose proof (inv_min _ _ I) as B. assert (N < 2 ^ 64) as HN by done.
  assert (shachain_next_index c = x) as En.
  { unfold shachain_next_index. apply u64_small. unfold fits, x. lia. }
  split; [done|]. unfold shachain_add_hash. rewrite En, Z.eqb_refl. cbn [c_assert].
  set (p := count_trailing_zeroes x). assert (level p x) as Lp by (apply level_ctz; unfold x; lia).
  assert (0 <= x) as Hx by (unfold x; lia).
  assert (forall k e, take p (known c) !! k = Some e ->
    known c !! k = Some e /\ (k < num_valid c)%nat /\ can_derive x e.1 = true) as Hb.
  { intros k [idx g] [Hl Hk]%lookup_take_Some. split; [done|].
    by apply (known_below hist c x p k idx g). }
  destruct (check_known_spec x h (take p (known c))) as (b & Eb & Hok).
  { apply Forall_lookup. intros k e Hl. by apply (Hb k e). }
  rewrite Eb. simpl. exists b, (if b then added c h x p else c). split; [by destruct b|]. split.
  - destruct b; [|done]. split; [|done]. apply added_inv; try done. by apply Hok.
  - intros Hd. apply Hok, Forall_lookup. intros k [idx g] Hl.
    destruct (Hb k (idx, g) Hl) as (Hl' & Hv & Ed). simpl in *.
    destruct (inv_known _ _ I k idx g Hv Hl') as (Lk & Bi & Bi' & Hder).
    rewrite Hd; try done; try (unfold x; lia).
    rewrite <- (Hder idx), derive_refl; try done; try lia.
    pose proof (pow2_pos k). apply (can_derive_spec idx idx k); try done; lia.
Qed.

(** The history after feeding [hs] below [m]. *)
Fixpoint hist_after (hist : Z -> bytes) (m : Z) (hs : list bytes) : Z -> bytes :=
  match hs with
  | [] => hist
  | h :: hs => hist_after (fupd hist (m - 1) h) (m - 1) hs
  end.

Lemma hist_after_above hist m hs j : m <= j -> hist_after hist m hs j = hist j.
Proof.
  revert hist m. induction hs as [|h hs IH]; intros hist m L; [done|]. cbn [hist_after].
  rewrite IH by lia. unfold fupd. destruct (Z.eqb_spec j (m - 1)); [lia|done].
Qed.

Lemma hist_after_lookup hist m hs i h : hs !! i = Some h ->
  hist_after hist m hs (m - 1 - Z.of_nat i) = h.
Proof.
  revert hist m i. induction hs as [|g hs IH]; intros hist m i Hl; [done|]. cbn [hist_after].
  destruct i as [|i]; simplify_eq/=.
  - rewrite hist_after_above by lia. unfold fupd. rewrite Z.sub_0_r, Z.eqb_refl. done.
  - rewrite <- (IH (fupd hist (m - 1) g) (m - 1) i Hl). f_equal. lia.
Qed.

Lemma add_all_inv hist c hs : chain_inv hist c -> Z.of_nat (length hs) <= min_index c ->
  exists b c', add_all c hs = Some (b, c') /\
    (b = true -> chain_inv (hist_after hist (min_index c) hs) c' /\
                 min_index c' = min_index c - Z.of_nat (length hs)).
Proof.
  revert hist c. induction hs as [|h hs IH]; intros hist c I L.
  { exists true, c. split; [done|]. intros _. split; [done|]. simpl; lia. }
  cbn [add_all hist_after]. simpl length in L.
  destruct (add_hash_inv hist c h I ltac:(lia)) as (En & b & c' & E & Hb & _).
  rewrite En, E. simpl. destruct b; [|by exists false, c'].
  destruct Hb as [I' Em]. destruct (IH _ c' I') as (b2 & c2 & E2 & H2); [lia|].
  exists b2, c2. split; [done|]. rewrite Em in H2. intros Hb. destruct (H2 Hb) as [? ->].
  split; [done|]. lia.
Qed.

Lemma chain_inv_ext hist hist' c : (forall j, hist j = hist' j) ->
  chain_inv hist c -> chain_inv hist' c.
Proof.
  intros E I. constructor; try apply I. intros k idx h Hk Hl.
  destruct (inv_known _ _ I k idx h Hk Hl) as (? & ? & ? & D). split; [done|]. split; [done|].
  split; [done|]. intros. by rewrite <- E, D.
Qed.

Lemma level_0 : level SHACHAIN_BITS 0.
Proof. by left. Qed.

Lemma from_seed_Some seed j : 0 <= j < N ->
  can_derive 0 j = true /\ shachain_from_seed seed j = Some (derive_loop 64 j seed).
Proof.
  intros Hj. assert (can_derive 0 j = true) as E by done. split; [done|].
  unfold shachain_from_seed. rewrite derive_eq by done. by rewrite Z.lxor_0_l.
Qed.

(** The hashes a peer derives from its seed for the first [n] indexes, in order. *)
Definition honest (seed : bytes) (n : nat) : list bytes :=
  (fun i => derive_loop 64 (N - 1 - Z.of_nat i) seed) <$> seq 0 n.

Lemma add_honest seed c i n : chain_inv (fun j => derive_loop 64 j seed) c ->
  min_index c = N - Z.of_nat i -> Z.of_nat (i + n) <= N ->
  exists c', add_all c ((fun i => derive_loop 64 (N - 1 - Z.of_nat i) seed) <$> seq i n)
    = Some (true, c').
Proof.
  revert c i. induction n as [|n IH]; intros c i I Em L; [by exists c|].
  cbn [seq fmap list_fmap add_all].
  destruct (add_hash_inv _ c (derive_loop 64 (N - 1 - Z.of_nat i) seed) I ltac:(lia))
    as (En & b & c' & E & Hb & Hok).
  replace (min_index c - 1) with (N - 1 - Z.of_nat i) in * by lia.
  rewrite En, E. simpl. set (x := N - 1 - Z.of_nat i) in *.
  assert (b = true) as ->.
  { apply Hok. intros j Hj Ed _. assert (0 <= x < N) as Bx by (unfold x; lia).
    destruct (derive_trans _ _ 0 x j seed ltac:(lia) Bx Hj level_0
      (level_ctz x ltac:(lia)) eq_refl Ed) as [_ T].
    destruct (from_seed_Some seed x Bx) as [_ Sx], (from_seed_Some seed j Hj) as [_ Sj].
    unfold shachain_from_seed in *. rewrite Sx, Sj in T. by rewrite T. }
  destruct Hb as [I' Em']. apply (IH c' (S i)); [|unfold x in *; lia|lia].
  apply (chain_inv_ext (fupd (fun j => derive_loop 64 j seed) x (derive_loop 64 x seed))); [|done].
  intros j. unfold fupd. by destruct (Z.eqb_spec j x) as [->|].
Qed.

(** Feeding a fresh chain. *)
Lemma add_all_fresh known0 hs c :
  length known0 = S SHACHAIN_BITS -> Z.of_nat (length hs) <= N ->
  add_all (shachain_init known0) hs = Some (true, c) ->
  chain_inv (hist_after (fun _ => []) N hs) c /\ min_index c = N - Z.of_nat (length hs).
Proof.
  intros L Hn E.
  destruct (add_all_inv (fun _ => []) _ hs (chain_inv_init _ known0 L)) as (b & c' & E' & Hc).
  { by rewrite init_min. }
  rewrite E in E'. injection E' as <- <-. destruct (Hc eq_refl) as [I Em].
  by rewrite init_min in *.
Qed.

Lemma get_hash_added known0 hs c i h :
  length known0 = S SHACHAIN_BITS -> Z.of_nat (length hs) <= N ->
  add_all (shachain_init known0) hs = Some (true, c) -> hs !! i = Some h ->
  shachain_get_hash c (N - 1 - Z.of_nat i) = Some (Some h).
Proof.
  intros L Hn E Hi. destruct (add_all_fresh known0 hs c L Hn E) as [I Em].
  pose proof (lookup_lt_Some _ _ _ Hi).
  rewrite (get_hash_inv _ _ _ I) by lia. rewrite (hist_after_lookup _ _ _ _ _ Hi).
  destruct (Z.leb_spec (min_index c) (N - 1 - Z.of_nat i)); [done|lia].
Qed.

(** C15. A peer's hashes, once accepted, are never lost: whatever hashes were fed to
    [shachain_add_hash] for the indexes 2^48-1, 2^48-2, ..., if every one was accepted
    then [shachain_get_hash] returns each of them for its index, and false for every
    index not added, although only 49 are stored. *)
Theorem shachain_retrieves known0 hs c :
  length known0 = S SHACHAIN_BITS -> Z.of_nat (length hs) <= 2 ^ 48 ->
  add_all (shachain_init known0) hs = Some (true, c) ->
  (forall i h, hs !! i = Some h -> shachain_get_hash c (2 ^ 48 - 1 - Z.of_nat i) = Some (Some h)) /\
  (forall j, 0 <= j < 2 ^ 48 - Z.of_nat (length hs) -> shachain_get_hash c j = Some None).
Proof.
  change (2 ^ 48) with N. intros L Hn E. split; [intros; by apply (get_hash_added known0 hs)|].
  intros j Hj. destruct (add_all_fresh known0 hs c L Hn E) as [I Em].
  rewrite (get_hash_inv _ _ _ I) by lia. destruct (Z.leb_spec (min_index c) j); [lia|done].
Qed.

(** Three hashes: the first one is derived from the second, the third is unrelated. *)
Lemma shachain_retrieves_witness :
  let hs := [sha256 (change_bit (replicate 32 0) 0); replicate 32 0; replicate 32 7] in
  exists c, add_all (shachain_init (replicate 49 (0, []))) hs = Some (true, c) /\
  num_valid c = 2%nat /\
  (forall i h, hs !! i = Some h ->
     shachain_get_hash c (2 ^ 48 - 1 - Z.of_nat i) = Some (Some h)) /\
  (forall j, 0 <= j < 2 ^ 48 - 3 -> shachain_get_hash c j = Some None).
Proof.
  intros hs. assert (exists c, add_all (shachain_init (replicate 49 (0, []))) hs = Some (true, c)
    /\ num_valid c = 2%nat) as (c & E & Hn) by (eexists; split; vm_compute; reflexivity).
  exists c. split; [exact E|]. split; [exact Hn|].
  apply (shachain_retrieves (replicate 49 (0, [])) hs c); [reflexivity|simpl; lia|exact E].
Defined.

(** Hashes derived from one seed are always accepted: feeding
    [shachain_from_seed seed] of 2^48-1, 2^48-2, ... (which never aborts) to a fresh
    chain succeeds at every step, for any number of them. *)
Theorem shachain_accepts_honest known0 seed n :
  length known0 = S SHACHAIN_BITS -> Z.of_nat n <= 2 ^ 48 ->
  (forall i, (i < n)%nat ->
     shachain_from_seed seed (2 ^ 48 - 1 - Z.of_nat i) = honest seed n !! i) /\
  exists c, add_all (shachain_init known0) (honest seed n) = Some (true, c).
Proof.
  change (2 ^ 48) with N. intros L Hn. split.
  - intros i Hi. unfold honest. rewrite list_lookup_fmap, lookup_seq_lt by done. simpl.
    by apply from_seed_Some; lia.
  - apply (add_honest seed _ 0); [by apply chain_inv_init|rewrite init_min; lia|lia].
Qed.

Lemma shachain_accepts_honest_witness : exists c,
  add_all (shachain_init (replicate 49 (0, []))) (honest (replicate 32 0) 6) = Some (true, c).
Proof.
  apply (shachain_accepts_honest (replicate 49 (0, [])) (replicate 32 0) 6);
    [reflexivity|vm_compute; discriminate].
Defined.
