(* ===== verification/KeyDerive.v ===== *)
(** * Key derivation

    Per-commitment keys (src/lightning/common/key_derive.c, keyset.c) and the secrets of
    a channel (src/lightning/common/derive_basepoints.c, derive_basepoints.h), on top of
    [Secp], [Shachain] and [Hkdf]. *)
From S2P Require Import Prelude Sha256 Hkdf Secp Shachain.
Local Open Scope Z_scope.

Section Derive.
Context `{Secp256k1}.

(** [SHA256(a || b)] of two serialized keys. *)
Definition hash_keys (a b : pubkey) : bytes := sha256 (pubkey_to_der a ++ pubkey_to_der b).

(** ** key_derive.c; [None] is the return value false. *)
Definition derive_simple_key (basepoint per_commitment_point : pubkey) : option pubkey :=
  let sha := hash_keys per_commitment_point basepoint in
  secp256k1_ec_pubkey_tweak_add basepoint sha.

Definition derive_simple_privkey (base_secret : bytes) (basepoint per_commitment_point : pubkey)
  : option bytes :=
  let sha := hash_keys per_commitment_point basepoint in
  secp256k1_ec_privkey_tweak_add base_secret sha.

Definition derive_revocation_key (basepoint per_commitment_point : pubkey) : option pubkey :=
  let sha := hash_keys basepoint per_commitment_point in
  add0 ← secp256k1_ec_pubkey_tweak_mul basepoint sha;
  let sha := hash_keys per_commitment_point basepoint in
  add1 ← secp256k1_ec_pubkey_tweak_mul per_commitment_point sha;
  secp256k1_ec_pubkey_combine [add0; add1].

Definition derive_revocation_privkey (base_secret per_commitment_secret : bytes)
    (basepoint per_commitment_point : pubkey) : option bytes :=
  let sha := hash_keys basepoint per_commitment_point in
  key ← secp256k1_ec_privkey_tweak_mul base_secret sha;
  let sha := hash_keys per_commitment_point basepoint in
  part2 ← secp256k1_ec_privkey_tweak_mul per_commitment_secret sha;
  secp256k1_ec_privkey_tweak_add key part2.

(** ** keyset.c *)
Record basepoints := Basepoints {
  revocation : pubkey;
  payment : pubkey;
  htlc_bp : pubkey;
  delayed_payment : pubkey
}.

Record keyset := Keyset {
  self_revocation_key : pubkey;
  self_htlc_key : pubkey;
  other_htlc_key : pubkey;
  self_delayed_payment_key : pubkey;
  self_payment_key : pubkey;
  other_payment_key : pubkey
}.

Definition derive_keyset (per_commitment_point : pubkey) (self other : basepoints)
  : option keyset :=
  self_payment_key ← derive_simple_key (payment self) per_commitment_point;
  other_payment_key ← derive_simple_key (payment other) per_commitment_point;
  self_htlc_key ← derive_simple_key (htlc_bp self) per_commitment_point;
  other_htlc_key ← derive_simple_key (htlc_bp other) per_commitment_point;
  self_delayed_payment_key ← derive_simple_key (delayed_payment self) per_commitment_point;
  self_revocation_key ← derive_revocation_key (revocation other) per_commitment_point;
  Some (Keyset self_revocation_key self_htlc_key other_htlc_key self_delayed_payment_key
          self_payment_key other_payment_key).

(** ** derive_basepoints.c

    An operation here can abort ([hkdf_sha256] asserts its size): the outer [option] is
    the abort, the inner one the return value false. *)
Record secrets := Secrets {
  funding_privkey : bytes;
  revocation_basepoint_secret : bytes;
  payment_basepoint_secret : bytes;
  htlc_basepoint_secret : bytes;
  delayed_payment_basepoint_secret : bytes
}.

(** The local [struct keys]. *)
Record keys := Keys {
  key_f : bytes; key_r : bytes; key_h : bytes; key_p : bytes; key_d : bytes;
  key_shaseed : bytes
}.

(** "c-lightning" *)
Definition hkdf_info : bytes := [99; 45; 108; 105; 103; 104; 116; 110; 105; 110; 103].

Definition keys_of_bytes (b : bytes) : keys :=
  let field i := take 32 (drop (32 * i) b) in
  Keys (field 0%nat) (field 1%nat) (field 2%nat) (field 3%nat) (field 4%nat) (field 5%nat).

Definition hkdf_keys (seed : bytes) : option keys :=
  okm ← hkdf_sha256 192 [] seed hkdf_info; Some (keys_of_bytes okm).

(** Sets an output that was asked for, or fails. *)
Definition out_pubkey (wanted : bool) (k : option pubkey) : option (option pubkey) :=
  if wanted then key ← k; Some (Some key) else Some None.

Definition derive_basepoints (want_funding want_basepoints want_secrets want_shaseed : bool)
    (seed : bytes)
  : option (option (option pubkey * option basepoints * option secrets * option bytes)) :=
  keys ← hkdf_keys seed;
  let secrets :=
    if want_secrets then Some (Secrets (key_f keys) (key_r keys) (key_p keys) (key_h keys) (key_d keys)) else None in
  Some (
    funding_pubkey ← out_pubkey want_funding (pubkey_from_privkey (key_f keys));
    basepoints ←
      (if want_basepoints then
         revocation ← pubkey_from_privkey (key_r keys);
         payment ← pubkey_from_privkey (key_p keys);
         htlc ← pubkey_from_privkey (key_h keys);
         delayed_payment ← pubkey_from_privkey (key_d keys);
         Some (Some (Basepoints revocation payment htlc delayed_payment))
       else Some None);
    Some (funding_pubkey, basepoints, secrets,
          if want_shaseed then Some (key_shaseed keys) else None)).

(** The cut-down versions: one key and its secret. *)
Definition derive_one (key : keys -> bytes) (want_key : bool) (seed : bytes)
  : option (option (option pubkey * bytes)) :=
  keys ← hkdf_keys seed;
  Some (basepoint ← out_pubkey want_key (pubkey_from_privkey (key keys));
        Some (basepoint, key keys)).

Definition derive_payment_basepoint := derive_one key_p.
Definition derive_delayed_payment_basepoint := derive_one key_d.
Definition derive_revocation_basepoint := derive_one key_r.
Definition derive_htlc_basepoint := derive_one key_h.

Definition derive_shaseed (seed : bytes) : option bytes :=
  keys ← hkdf_keys seed; Some (key_shaseed keys).

Definition derive_funding_key (want_key : bool) (seed : bytes)
  : option (option (option pubkey * bytes)) :=
  f ← hkdf_sha256 32 [] seed hkdf_info;
  Some (funding_pubkey ← out_pubkey want_key (pubkey_from_privkey f); Some (funding_pubkey, f)).

Definition shachain_index (per_commit_index : Z) : option Z :=
  assert! per_commit_index <? Z.shiftl 1 (Z.of_nat SHACHAIN_BITS);
  Some (Z.shiftl 1 (Z.of_nat SHACHAIN_BITS) - 1 - per_commit_index).

Definition per_commit_secret (shaseed : bytes) (per_commit_index : Z) : option (option bytes) :=
  if Z.shiftl 1 (Z.of_nat SHACHAIN_BITS) <=? per_commit_index then Some None
  else index ← shachain_index per_commit_index;
       s ← shachain_from_seed shaseed index;
       Some (Some s).

Definition per_commit_point (shaseed : bytes) (per_commit_index : Z) : option (option pubkey) :=
  secret ← per_commit_secret shaseed per_commit_index;
  Some (secret ≫= secp256k1_ec_pubkey_create).

Definition revocations_received (chain : shachain) : Z :=
  u64 (Z.shiftl 1 (Z.of_nat SHACHAIN_BITS) - (shachain_next_index chain + 1)).

Definition shachain_get_secret (chain : shachain) (commit_num : Z) : option (option bytes) :=
  if Z.shiftl 1 (Z.of_nat SHACHAIN_BITS) <=? commit_num then Some None
  else index ← shachain_index commit_num; shachain_get_hash chain index.
End Derive.

(** ** Public and private derivations agree *)
Section Correct.
Context `{Secp256k1Laws}.

Lemma length_hash_keys P Q : length (hash_keys P Q) = 32%nat.
Proof. apply length_sha256. Qed.

Lemma scalar_bytes_spec z k : scalar_bytes z = Some k ->
  length k = 32%nat /\ be_val k = z mod secp256k1_n /\ scalar_in_range k = true.
Proof.
  unfold scalar_bytes. destruct (Z.eqb_spec (z mod secp256k1_n) 0) as [|NZ]; [done|].
  intros [= <-]. rewrite length_be_bytes. split; [done|].
  assert (0 <= z mod secp256k1_n < secp256k1_n) as B by by apply Z.mod_pos_bound.
  assert (be_val (be_bytes 32 (z mod secp256k1_n)) = z mod secp256k1_n) as E.
  { rewrite be_val_be_bytes. apply Z.mod_small. unfold secp256k1_n in *. lia. }
  unfold scalar_in_range. rewrite E. split; [done|].
  apply andb_true_iff. split; apply Z.ltb_lt; lia.
Qed.

(** The point of a computed scalar. *)
Lemma create_scalar_bytes z : scalar_bytes z ≫= secp256k1_ec_pubkey_create = point_of z.
Proof.
  destruct (scalar_bytes z) as [k|] eqn:E; simpl.
  - destruct (scalar_bytes_spec z k E) as (L & V & R). rewrite create_spec, R by done.
    apply point_of_mod. rewrite V. apply Z.mod_mod. done.
  - unfold scalar_bytes in E. destruct (Z.eqb_spec (z mod secp256k1_n) 0); [|done].
    symmetry. by apply point_of_infinity.
Qed.

Lemma from_secret_spec k P : length k = 32%nat -> pubkey_from_secret k = Some P ->
  scalar_in_range k = true /\ point_of (be_val k) = Some P.
Proof.
  unfold pubkey_from_secret. intros L. rewrite create_spec by done. by destruct (scalar_in_range k).
Qed.

Lemma simple_agree base_secret basepoint per_commitment_point :
  length base_secret = 32%nat -> pubkey_from_secret base_secret = Some basepoint ->
  derive_simple_key basepoint per_commitment_point =
  (derive_simple_privkey base_secret basepoint per_commitment_point ≫= pubkey_from_privkey).
Proof.
  intros L E. destruct (from_secret_spec _ _ L E) as [R P].
  unfold derive_simple_key, derive_simple_privkey.
  rewrite (pubkey_tweak_add_spec _ _ _ (length_hash_keys _ _) P).
  rewrite privkey_tweak_add_spec by (done || apply length_hash_keys || by rewrite R).
  destruct (be_val _ <? _); [|done]. symmetry. apply create_scalar_bytes.
Qed.

(** [derive_simple_privkey] yields the secret of [derive_simple_key]: for the secret
    of a basepoint and any per-commitment point, deriving the private key and taking its
    public key is deriving the public key, failures included. *)
Theorem derive_simple_privkey_correct base_secret basepoint per_commitment_point :
  length base_secret = 32%nat -> pubkey_from_secret base_secret = Some basepoint ->
  derive_simple_key basepoint per_commitment_point =
  (derive_simple_privkey base_secret basepoint per_commitment_point ≫= pubkey_from_privkey).
Proof. apply simple_agree. Qed.

(** A tweaked secret, followed by its point. *)
Lemma tweak_mul_agree k P t : length k = 32%nat -> length t = 32%nat ->
  scalar_in_range k = true -> point_of (be_val k) = Some P ->
  match secp256k1_ec_privkey_tweak_mul k t with
  | Some k' => length k' = 32%nat /\ scalar_in_range k' = true /\
      exists P', secp256k1_ec_pubkey_tweak_mul P t = Some P' /\ point_of (be_val k') = Some P'
  | None => secp256k1_ec_pubkey_tweak_mul P t = None
  end.
Proof.
  intros L Lt R HP. rewrite privkey_tweak_mul_spec by (done || by rewrite R).
  rewrite (pubkey_tweak_mul_spec _ _ _ Lt HP). destruct (scalar_in_range t); [|done].
  pose proof (create_scalar_bytes (be_val k * be_val t)) as C.
  destruct (scalar_bytes _) as [k'|] eqn:E; simpl in C; [|done].
  destruct (scalar_bytes_spec _ _ E) as (L' & V & R'). split; [done|]. split; [done|].
  destruct (from_secret_spec k') with (P := default P (point_of (be_val k'))) as [_ Q]; try done.
  { unfold pubkey_from_secret. rewrite create_spec, R' by done.
    destruct (point_of (be_val k')) eqn:N; [done|]. apply point_of_infinity in N.
    rewrite V, Z.mod_mod in N by done. unfold scalar_in_range in R'. bprop.
    rewrite V, N in *. done. }
  exists (default P (point_of (be_val k'))). split; [|done]. rewrite <- C.
  rewrite create_spec, R' by done. done.
Qed.

Lemma revocation_agree base_secret per_commitment_secret basepoint per_commitment_point :
  length base_secret = 32%nat -> length per_commitment_secret = 32%nat ->
  pubkey_from_secret base_secret = Some basepoint ->
  pubkey_from_secret per_commitment_secret = Some per_commitment_point ->
  derive_revocation_key basepoint per_commitment_point =
  (derive_revocation_privkey base_secret per_commitment_secret basepoint per_commitment_point
     ≫= pubkey_from_privkey).
Proof.
  intros Lb Lp Eb Ep. destruct (from_secret_spec _ _ Lb Eb) as [Rb Pb].
  destruct (from_secret_spec _ _ Lp Ep) as [Rp Pp].
  unfold derive_revocation_key, derive_revocation_privkey.
  pose proof (tweak_mul_agree _ _ _ Lb (length_hash_keys basepoint per_commitment_point) Rb Pb) as A.
  pose proof (tweak_mul_agree _ _ _ Lp (length_hash_keys per_commitment_point basepoint) Rp Pp) as B.
  destruct (secp256k1_ec_privkey_tweak_mul base_secret _) as [k0|]; [|by rewrite A].
  destruct A as (L0 & R0 & P0 & -> & Q0). simpl.
  destruct (secp256k1_ec_privkey_tweak_mul per_commitment_secret _) as [k1|]; [|by rewrite B].
  destruct B as (L1 & R1 & P1 & -> & Q1). simpl.
  rewrite (combine_spec _ _ _ _ Q0 Q1). rewrite privkey_tweak_add_spec by (done || by rewrite R0).
  assert ((be_val k1 <? secp256k1_n) = true) as -> by (unfold scalar_in_range in R1; by bprop).
  symmetry. apply create_scalar_bytes.
Qed.

(** C16. A revoked commitment can always be punished: if the peer's per-commitment secrets
    [hs] were all accepted, the n-th being the secret of the n-th per-commitment point,
    then that secret can be retrieved, and with our revocation basepoint secret it yields
    a private key whose public key is the revocation key of the n-th commitment. *)
Theorem revoked_commitment_key known0 hs chain n s point base_secret self other ks :
  length known0 = S SHACHAIN_BITS -> Z.of_nat (length hs) <= 2 ^ 48 ->
  add_all (shachain_init known0) hs = Some (true, chain) ->
  hs !! n = Some s -> length s = 32%nat -> pubkey_from_secret s = Some point ->
  length base_secret = 32%nat -> pubkey_from_secret base_secret = Some (revocation other) ->
  derive_keyset point self other = Some ks ->
  shachain_get_secret chain (Z.of_nat n) = Some (Some s) /\
  exists privkey,
    derive_revocation_privkey base_secret s (revocation other) point = Some privkey /\
    pubkey_from_privkey privkey = Some (self_revocation_key ks).
Proof.
  intros L Hn Ha Hs Ls Hp Lb Hb Hk. pose proof (lookup_lt_Some _ _ _ Hs). split.
  - unfold shachain_get_secret, shachain_index.
    change (Z.shiftl 1 (Z.of_nat SHACHAIN_BITS)) with (2 ^ 48).
    rewrite (proj2 (Z.leb_gt _ _)), (proj2 (Z.ltb_lt _ _)) by lia.
    by apply (get_hash_added known0 hs).
  - pose proof (revocation_agree _ _ _ _ Lb Ls Hb Hp) as A. unfold derive_keyset in Hk.
    destruct (derive_revocation_key (revocation other) point) as [rk|] eqn:E.
    + destruct (derive_revocation_privkey _ _ _ _) as [k|]; simpl in A; [|done].
      exists k. split; [done|]. rewrite <- A. by simplify_option_eq.
    + by simplify_option_eq.
Qed.

(** The cut-down derivations agree with [derive_basepoints]: for every seed each
    returns the key and secret [derive_basepoints] returns (for the funding key,
    computed from a shorter HKDF output), and every public key is that of its secret. *)
Theorem derive_basepoints_consistent seed :
  exists keys, hkdf_keys seed = Some keys /\
  derive_funding_key true seed = Some (out_pubkey true (pubkey_from_privkey (key_f keys))
    ≫= fun k => Some (k, key_f keys)) /\
  derive_shaseed seed = Some (key_shaseed keys) /\
  forall fp bps secs sha,
    derive_basepoints true true true true seed
      = Some (Some (Some fp, Some bps, Some secs, Some sha)) ->
    derive_funding_key true seed = Some (Some (Some fp, funding_privkey secs)) /\
    derive_revocation_basepoint true seed
      = Some (Some (Some (revocation bps), revocation_basepoint_secret secs)) /\
    derive_payment_basepoint true seed
      = Some (Some (Some (payment bps), payment_basepoint_secret secs)) /\
    derive_htlc_basepoint true seed
      = Some (Some (Some (htlc_bp bps), htlc_basepoint_secret secs)) /\
    derive_delayed_payment_basepoint true seed
      = Some (Some (Some (delayed_payment bps), delayed_payment_basepoint_secret secs)) /\
    derive_shaseed seed = Some sha /\
    pubkey_from_secret (revocation_basepoint_secret secs) = Some (revocation bps) /\
    pubkey_from_secret (funding_privkey secs) = Some fp.
Proof.
  assert (exists okm, hkdf_sha256 192 [] seed hkdf_info = Some okm) as [okm E].
  { rewrite hkdf_small; [by eexists|constructor|lia]. }
  assert (hkdf_sha256 32 [] seed hkdf_info = Some (key_f (keys_of_bytes okm))) as F.
  { rewrite (hkdf_prefix 32 192), E; [done|constructor|lia]. }
  assert (hkdf_keys seed = Some (keys_of_bytes okm)) as K by (unfold hkdf_keys; by rewrite E).
  generalize dependent (keys_of_bytes okm). intros keys F K. exists keys.
  unfold derive_basepoints, derive_funding_key, derive_shaseed, derive_revocation_basepoint,
    derive_payment_basepoint, derive_htlc_basepoint, derive_delayed_payment_basepoint, derive_one.
  rewrite K, F. simpl. split; [done|]. split; [done|]. split; [done|].
  clear. intros fp bps secs sha Q. unfold pubkey_from_privkey in *. by simplify_option_eq.
Qed.
End Correct.

(** ** Instances of the hypotheses: the group of scalars *)
#[local] Existing Instances Scalars.ops Scalars.laws.

Definition demo_point (z : Z) : pubkey :=
  default (exist _ 1 eq_refl : Scalars.point) (Scalars.mk z).

Definition demo_basepoints (z : Z) : basepoints :=
  Basepoints (demo_point z) (demo_point (z + 1)) (demo_point (z + 2)) (demo_point (z + 3)).

Lemma derive_simple_privkey_correct_witness : exists key,
  derive_simple_privkey (be_bytes 32 5) (demo_point 5) (demo_point 9) = Some key /\
  derive_simple_key (demo_point 5) (demo_point 9) = pubkey_from_privkey key.
Proof.
  assert (exists key, derive_simple_privkey (be_bytes 32 5) (demo_point 5) (demo_point 9)
    = Some key) as [key E] by (eexists; vm_compute; reflexivity).
  exists key. split; [exact E|].
  assert (pubkey_from_secret (be_bytes 32 5) = Some (demo_point 5)) as S by reflexivity.
  exact (eq_trans
    (derive_simple_privkey_correct (be_bytes 32 5) (demo_point 5) (demo_point 9) eq_refl S)
    (f_equal (fun o => o ≫= pubkey_from_privkey) E)).
Defined.

Lemma revoked_commitment_key_witness :
  exists chain ks privkey,
    add_all (shachain_init (replicate 49 (0, []))) [be_bytes 32 9] = Some (true, chain) /\
    derive_keyset (demo_point 9) (demo_basepoints 20) (demo_basepoints 30) = Some ks /\
    shachain_get_secret chain 0 = Some (Some (be_bytes 32 9)) /\
    derive_revocation_privkey (be_bytes 32 30) (be_bytes 32 9) (demo_point 30) (demo_point 9)
      = Some privkey /\
    pubkey_from_privkey privkey = Some (self_revocation_key ks).
Proof.
  assert (exists chain, add_all (shachain_init (replicate 49 (0, []))) [be_bytes 32 9]
    = Some (true, chain)) as [chain Ec] by (eexists; vm_compute; reflexivity).
  assert (exists ks, derive_keyset (demo_point 9) (demo_basepoints 20) (demo_basepoints 30)
    = Some ks) as [ks Ek].
  { assert (match derive_keyset (demo_point 9) (demo_basepoints 20) (demo_basepoints 30) with
             Some _ => true | None => false end = true) as K by (vm_compute; reflexivity).
    destruct (derive_keyset _ _ _) as [ks|]; [by exists ks|discriminate K]. }
  assert (pubkey_from_secret (be_bytes 32 9) = Some (demo_point 9)) as S9 by reflexivity.
  assert (pubkey_from_secret (be_bytes 32 30) = Some (revocation (demo_basepoints 30))) as S30
    by reflexivity.
  destruct (revoked_commitment_key (replicate 49 (0, [])) [be_bytes 32 9] chain 0 (be_bytes 32 9)
    (demo_point 9) (be_bytes 32 30) (demo_basepoints 20) (demo_basepoints 30) ks
    eq_refl ltac:(vm_compute; discriminate) Ec eq_refl eq_refl S9 eq_refl S30 Ek)
    as (G & privkey & D & P).
  exists chain, ks, privkey. split; [exact Ec|]. split; [exact Ek|]. split; [exact G|].
  split; [exact D|exact P].
Defined.
