(* ===== verification/Hsm.v ===== *)
(** * The signer (src/lightning/hsmd/hsmd.c)

    The requests that channels make of the process that holds the secrets. Every signature
    it returns is shown to verify with the key that the other parts of the node expect it
    to be for: the funding key, the HTLC key of a commitment, the delayed key, and for a
    revoked commitment the revocation key.

    A request is answered with [Some (Some reply)], refused with [Some None] ([bad_req]),
    and [None] is an abort. Messages arrive parsed. *)
From S2P Require Import Prelude Sha256 Secp Ecdsa PullPush BitcoinTx Hkdf LnScript SigCheck Shachain KeyDerive.
Local Open Scope Z_scope.

Section Hsm.
Context `{Secp256k1} `{!Signatures}.

(** ** Secrets *)

(** "peer seed" *)
Definition peer_seed_info : bytes := [112; 101; 101; 114; 32; 115; 101; 101; 100].

(** "per-peer seed" *)
Definition per_peer_seed_info : bytes := [112; 101; 114; 45; 112; 101; 101; 114; 32; 115; 101; 101; 100].

Definition hsm_channel_secret_base (hsm_secret : bytes) : option bytes :=
  hkdf_sha256 32 [] hsm_secret peer_seed_info.

Definition get_channel_seed (hsm_secret : bytes) (peer_id : pubkey) (dbid : Z) : option bytes :=
  channel_base ← hsm_channel_secret_base hsm_secret;
  let input := pubkey_to_der peer_id ++ le_bytes 8 dbid in
  hkdf_sha256 32 input channel_base per_peer_seed_info.

Definition handle_get_channel_basepoints (channel_seed : bytes) : option (option (basepoints * pubkey)) :=
  r ← derive_basepoints true true false false channel_seed;
  match r with
  | Some (Some funding_pubkey, Some bps, _, _) => Some (Some (bps, funding_pubkey))
  | _ => None
  end.

(** ** Signing *)

(** [tx->input[0].amount = &amount] *)
Definition set_amount0 (amount : Z) (tx : bitcoin_tx) : bitcoin_tx :=
  set_input (alter (fun i => TxInput (in_txid i) (in_index i) (in_script i) (sequence_number i)
    (Some amount) (witness i)) 0%nat (input tx)) tx.

(** The three requests that sign with the funding key. (What [derive_basepoints] returns is
    not looked at: keys it did not set are an abort here.) *)
Definition sign_with_funding_key (channel_seed : bytes) (tx : bitcoin_tx) (remote_funding_pubkey : pubkey)
    (funding_amount : Z) : option (option signature) :=
  r ← derive_basepoints true false true false channel_seed;
  match r with
  | Some (Some local_funding_pubkey, _, Some secrets, _) =>
      let funding_wscript := bitcoin_redeem_2of2 local_funding_pubkey remote_funding_pubkey in
      sig ← sign_tx_input (set_amount0 funding_amount tx) 0 None (Some funding_wscript) (funding_privkey secrets);
      Some (Some sig)
  | _ => None
  end.

Definition handle_sign_commitment_tx := sign_with_funding_key.
Definition handle_sign_remote_commitment_tx := sign_with_funding_key.
Definition handle_sign_mutual_close_tx := sign_with_funding_key.

Definition handle_sign_remote_htlc_tx (channel_seed : bytes) (tx : bitcoin_tx) (wscript : bytes) (amount : Z)
    (remote_per_commit_point : pubkey) : option (option signature) :=
  r ← derive_basepoints false true true false channel_seed;
  match r with
  | Some (_, Some bps, Some secrets, _) =>
      match derive_simple_privkey (htlc_basepoint_secret secrets) (htlc_bp bps) remote_per_commit_point,
            derive_simple_key (htlc_bp bps) remote_per_commit_point with
      | Some htlc_privkey, Some htlc_pubkey =>
          sig ← sign_tx_input (set_amount0 amount tx) 0 None (Some wscript) htlc_privkey; Some (Some sig)
      | _, _ => Some None
      end
  | _ => None
  end.

Definition handle_sign_to_us_tx (tx : bitcoin_tx) (privkey wscript : bytes) (input_amount : Z)
    : option (option signature) :=
  match pubkey_from_privkey privkey with
  | None => Some None
  | Some _ =>
      if negb (length (input tx) =? 1)%nat then Some None
      else sig ← sign_tx_input (set_amount0 input_amount tx) 0 None (Some wscript) privkey; Some (Some sig)
  end.

(** Goes on when an optional result is there. *)
Definition req_some {A B} (x : option A) (k : A -> option (option B)) : option (option B) :=
  match x with None => Some None | Some a => k a end.

Definition handle_sign_delayed_payment_to_us (channel_seed : bytes) (commit_num : Z) (tx : bitcoin_tx)
    (wscript : bytes) (input_amount : Z) : option (option signature) :=
  shaseed ← derive_shaseed channel_seed;
  point ← per_commit_point shaseed commit_num;
  req_some point (fun per_commitment_point =>
  base ← derive_delayed_payment_basepoint true channel_seed;
  req_some base (fun '(basepoint, basepoint_secret) =>
  basepoint ← basepoint;
  req_some (derive_simple_privkey basepoint_secret basepoint per_commitment_point) (fun privkey =>
  handle_sign_to_us_tx tx privkey wscript input_amount))).

Definition handle_sign_remote_htlc_to_us (channel_seed : bytes) (remote_per_commitment_point : pubkey)
    (tx : bitcoin_tx) (wscript : bytes) (input_amount : Z) : option (option signature) :=
  base ← derive_htlc_basepoint true channel_seed;
  req_some base (fun '(htlc_basepoint, htlc_basepoint_secret) =>
  htlc_basepoint ← htlc_basepoint;
  req_some (derive_simple_privkey htlc_basepoint_secret htlc_basepoint remote_per_commitment_point) (fun privkey =>
  handle_sign_to_us_tx tx privkey wscript input_amount)).

Definition handle_sign_penalty_to_us (channel_seed revocation_secret : bytes) (tx : bitcoin_tx)
    (wscript : bytes) (input_amount : Z) : option (option signature) :=
  req_some (pubkey_from_secret revocation_secret) (fun point =>
  base ← derive_revocation_basepoint true channel_seed;
  req_some base (fun '(revocation_basepoint, revocation_basepoint_secret) =>
  revocation_basepoint ← revocation_basepoint;
  req_some (derive_revocation_privkey revocation_basepoint_secret revocation_secret revocation_basepoint point)
    (fun privkey => handle_sign_to_us_tx tx privkey wscript input_amount))).

Definition handle_sign_local_htlc_tx (channel_seed : bytes) (commit_num : Z) (tx : bitcoin_tx)
    (wscript : bytes) (input_amount : Z) : option (option signature) :=
  shaseed ← derive_shaseed channel_seed;
  point ← per_commit_point shaseed commit_num;
  req_some point (fun per_commitment_point =>
  base ← derive_htlc_basepoint true channel_seed;
  req_some base (fun '(htlc_basepoint, htlc_basepoint_secret) =>
  htlc_basepoint ← htlc_basepoint;
  req_some (derive_simple_privkey htlc_basepoint_secret htlc_basepoint per_commitment_point) (fun htlc_privkey =>
  req_some (pubkey_from_privkey htlc_privkey) (fun _ =>
  if negb (length (input tx) =? 1)%nat then Some None
  else sig ← sign_tx_input (set_amount0 input_amount tx) 0 None (Some wscript) htlc_privkey;
       Some (Some sig))))).

(** The node's and the funding key's signature on a channel announcement (its type and the
    four signatures at its start are skipped). *)
Definition handle_cannouncement_sig (channel_seed node_privkey ca : bytes) : option (option (signature * signature)) :=
  funding ← derive_funding_key true channel_seed;
  '(_, funding_privkey) ← funding;
  if (length ca <? 258)%nat then Some None
  else
    let hash := sha256_double (drop 258 ca) in
    node_sig ← sign_hash node_privkey hash;
    bitcoin_sig ← sign_hash funding_privkey hash;
    Some (Some (node_sig, bitcoin_sig)).

(** ** Per-commitment secrets *)

(** The point, and from the third on the secret of the one before the last. *)
Definition handle_get_per_commitment_point (channel_seed : bytes) (n : Z)
    : option (option (pubkey * option bytes)) :=
  shaseed ← derive_shaseed channel_seed;
  point ← per_commit_point shaseed n;
  req_some point (fun per_commitment_point =>
  if 2 <=? n then
    old_secret ← per_commit_secret shaseed (n - 2);
    req_some old_secret (fun s => Some (Some (per_commitment_point, Some s)))
  else Some (Some (per_commitment_point, None))).

Definition handle_check_future_secret (channel_seed : bytes) (n : Z) (suggested : bytes) : option (option bool) :=
  shaseed ← derive_shaseed channel_seed;
  secret ← per_commit_secret shaseed n;
  req_some secret (fun s => Some (Some (bool_decide (s = suggested)))).
End Hsm.

(** ** What the signatures are for *)
Section Signs.
Context `{Secp256k1Laws} `{!Signatures} `{!SignatureLaws}.

(** A transaction with one input, not signed yet. *)
Definition one_input (tx : bitcoin_tx) : Prop := exists i, input tx = [i] /\ in_script i = None.

Definition with_amount (amount : Z) (i : bitcoin_tx_input) : bitcoin_tx_input :=
  TxInput (in_txid i) (in_index i) (in_script i) (sequence_number i) (Some amount) (witness i).

Lemma set_amount0_input tx amount i : input tx = [i] -> input (set_amount0 amount tx) = [with_amount amount i].
Proof. intros E. unfold set_amount0. cbn [set_input input]. by rewrite E. Qed.

Lemma one_input_hash tx amount wscript : one_input tx ->
  exists h, sha256_tx_one_input (set_amount0 amount tx) 0 None (Some wscript) = Some h /\ length h = 32%nat.
Proof.
  intros (i & Ei & Es). unfold sha256_tx_one_input. rewrite (set_amount0_input tx amount i Ei).
  change ([with_amount amount i] !! 0%nat) with (Some (with_amount amount i)). cbn [mbind option_bind].
  assert (forallb (fun i => match in_script i with None => true | Some _ => false end) [with_amount amount i] = true)
    as -> by (cbn; by rewrite Es).
  cbn [c_assert]. rewrite sighash_eq. cbn [set_input input].
  change (<[0%nat:=?x]> [?y]) with [x].
  change ([?x] !! 0%nat) with (Some x). cbn [mbind option_bind others_unsigned c_assert in_amount set_script with_amount].
  eexists. split; [reflexivity|]. unfold BitcoinTx.Spec.hash256. rewrite <- !sha256_spec. apply length_sha256.
Qed.

Lemma sign_checks tx amount wscript k P : one_input tx -> length k = 32%nat -> pubkey_from_privkey k = Some P ->
  exists sig, sign_tx_input (set_amount0 amount tx) 0 None (Some wscript) k = Some sig /\
    check_tx_sig (set_amount0 amount tx) 0 None (Some wscript) P sig = Some true.
Proof using Type*.
  intros O L E. destruct (one_input_hash tx amount wscript O) as (h & Eh & Lh).
  destruct (sign_verifies k h P L Lh E) as (sig & Es & V). exists sig.
  unfold sign_tx_input, check_tx_sig. rewrite Eh. cbn [mbind option_bind]. unfold sign_hash.
  split; [exact Es|]. destruct O as (i & Ei & _). rewrite (set_amount0_input tx amount i Ei).
  change ([with_amount amount i] !! 0%nat) with (Some (with_amount amount i)). cbn [mbind option_bind].
  unfold check_signed_hash. by rewrite V.
Qed.

Lemma hkdf_keys_lengths seed ks : hkdf_keys seed = Some ks ->
  length (key_f ks) = 32%nat /\ length (key_r ks) = 32%nat /\ length (key_h ks) = 32%nat /\
  length (key_p ks) = 32%nat /\ length (key_d ks) = 32%nat /\ length (key_shaseed ks) = 32%nat.
Proof using.
  unfold hkdf_keys. rewrite hkdf_small by (apply Forall_nil_2 || lia). cbn [mbind option_bind]. intros [= <-].
  assert (length (Spec.okm 192 [] seed hkdf_info) = 192%nat) as L.
  { unfold Spec.okm. cbv zeta. rewrite length_take.
    change (seq 1 255) with ([1; 2; 3; 4; 5; 6]%nat ++ seq 7 249). rewrite fmap_app, concat_app, length_app.
    cbn [fmap list_fmap concat]. rewrite !length_app, !length_T. cbn [length]. lia. }
  revert L. generalize (Spec.okm 192 [] seed hkdf_info). intros b L. unfold keys_of_bytes. cbn [key_f key_r key_h key_p key_d key_shaseed].
  rewrite !length_take, !length_drop, L. done.
Qed.

(** The public keys the channel was opened with are those of the seed. *)
Lemma basepoints_keys seed bps fpk : handle_get_channel_basepoints seed = Some (Some (bps, fpk)) ->
  exists ks, hkdf_keys seed = Some ks /\ pubkey_from_privkey (key_f ks) = Some fpk /\
    pubkey_from_privkey (key_r ks) = Some (revocation bps) /\ pubkey_from_privkey (key_p ks) = Some (payment bps) /\
    pubkey_from_privkey (key_h ks) = Some (htlc_bp bps) /\ pubkey_from_privkey (key_d ks) = Some (delayed_payment bps).
Proof using.
  unfold handle_get_channel_basepoints, derive_basepoints. destruct (hkdf_keys seed) as [ks|]; [|done].
  cbn [mbind option_bind out_pubkey]. intros E. exists ks. split; [done|].
  destruct (pubkey_from_privkey (key_f ks)), (pubkey_from_privkey (key_r ks)), (pubkey_from_privkey (key_p ks)),
    (pubkey_from_privkey (key_h ks)), (pubkey_from_privkey (key_d ks)); try discriminate E. cbn in E. by simplify_eq.
Qed.

Lemma tweak_add_length k u k' : length k = 32%nat -> length u = 32%nat -> scalar_in_range k = true ->
  secp256k1_ec_privkey_tweak_add k u = Some k' -> length k' = 32%nat.
Proof using Type*.
  intros Lk Lu R. rewrite privkey_tweak_add_spec by (done || by rewrite R).
  destruct (_ <? _); [|done]. intros E. by apply scalar_bytes_spec in E as [? _].
Qed.

Lemma simple_privkey base basepoint point key : length base = 32%nat ->
  pubkey_from_privkey base = Some basepoint -> derive_simple_key basepoint point = Some key ->
  exists k, derive_simple_privkey base basepoint point = Some k /\ length k = 32%nat /\ pubkey_from_privkey k = Some key.
Proof using Type*.
  intros L E D. rewrite (simple_agree base basepoint point L E) in D.
  destruct (derive_simple_privkey base basepoint point) as [k|] eqn:K; [|done]. exists k. split; [done|].
  split; [|exact D]. destruct (from_secret_spec _ _ L E) as [R _].
  exact (tweak_add_length _ _ _ L (length_hash_keys _ _) R K).
Qed.

Lemma revocation_privkey base secret basepoint point key : length base = 32%nat -> length secret = 32%nat ->
  pubkey_from_privkey base = Some basepoint -> pubkey_from_secret secret = Some point ->
  derive_revocation_key basepoint point = Some key ->
  exists k, derive_revocation_privkey base secret basepoint point = Some k /\ length k = 32%nat /\
    pubkey_from_privkey k = Some key.
Proof using Type*.
  intros L Ls E Es D. rewrite (revocation_agree base secret basepoint point L Ls E Es) in D.
  destruct (derive_revocation_privkey base secret basepoint point) as [k|] eqn:K; [|done]. exists k. split; [done|].
  split; [|exact D]. unfold derive_revocation_privkey in K.
  destruct (from_secret_spec _ _ L E) as [R P]. destruct (from_secret_spec _ _ Ls Es) as [Rs Ps].
  pose proof (tweak_mul_agree _ _ _ L (length_hash_keys basepoint point) R P) as A.
  pose proof (tweak_mul_agree _ _ _ Ls (length_hash_keys point basepoint) Rs Ps) as B.
  destruct (secp256k1_ec_privkey_tweak_mul base _) as [k0|]; [|done].
  destruct (secp256k1_ec_privkey_tweak_mul secret _) as [k1|]; [|done]. cbn in K.
  destruct A as (L0 & R0 & _), B as (L1 & _). exact (tweak_add_length _ _ _ L0 L1 R0 K).
Qed.

Section Channel_keys.
Context (seed : bytes) (bps : basepoints) (fpk : pubkey).
Context (Hb : handle_get_channel_basepoints seed = Some (Some (bps, fpk))).
Context (tx : bitcoin_tx) (O : one_input tx) (amount : Z).

(** The signature verifies for this key and script. *)
Definition checks (wscript : bytes) (key : pubkey) (sig : signature) : Prop :=
  check_tx_sig (set_amount0 amount tx) 0 None (Some wscript) key sig = Some true.

Lemma funding_signs remote :
  exists sig, sign_with_funding_key seed tx remote amount = Some (Some sig) /\
    checks (bitcoin_redeem_2of2 fpk remote) fpk sig.
Proof using Type*.
  destruct (basepoints_keys seed bps fpk Hb) as (ks & K & F & _).
  destruct (hkdf_keys_lengths seed ks K) as (L & _).
  destruct (sign_checks tx amount (bitcoin_redeem_2of2 fpk remote) _ _ O L F) as (sig & S & C).
  exists sig. split; [|exact C]. unfold sign_with_funding_key, derive_basepoints. rewrite K.
  cbn [mbind option_bind out_pubkey]. rewrite F. cbn [mbind option_bind funding_privkey]. by rewrite S.
Qed.

Lemma remote_htlc_signs wscript point key : derive_simple_key (htlc_bp bps) point = Some key ->
  exists sig, handle_sign_remote_htlc_tx seed tx wscript amount point = Some (Some sig) /\ checks wscript key sig.
Proof using Type*.
  intros D. destruct (basepoints_keys seed bps fpk Hb) as (ks & K & F & R & P & Hh & Dp).
  destruct (hkdf_keys_lengths seed ks K) as (_ & _ & L & _).
  destruct (simple_privkey _ _ _ _ L Hh D) as (k & Ek & Lk & Pk).
  destruct (sign_checks tx amount wscript _ _ O Lk Pk) as (sig & S & C).
  exists sig. split; [|exact C]. unfold handle_sign_remote_htlc_tx, derive_basepoints. rewrite K.
  cbn [mbind option_bind out_pubkey]. rewrite R, P, Hh, Dp. cbn [mbind option_bind htlc_basepoint_secret htlc_bp].
  rewrite D. destruct bps as [rv py hb dp]; cbn in *. rewrite Ek. cbn. by rewrite S.
Qed.

Lemma to_us_signs wscript k key : length k = 32%nat -> pubkey_from_privkey k = Some key ->
  exists sig, handle_sign_to_us_tx tx k wscript amount = Some (Some sig) /\ checks wscript key sig.
Proof using Type*.
  intros L P. destruct (sign_checks tx amount wscript _ _ O L P) as (sig & S & C). exists sig. split; [|exact C].
  unfold handle_sign_to_us_tx. rewrite P. destruct O as (i & -> & _). cbn. by rewrite S.
Qed.

(** C11. The signer signs for the keys the channel uses: for a transaction with one unsigned
    input it always answers, and its signatures verify with the funding key for the
    funding script, with the HTLC key and the delayed key of the given commitment, and,
    given a per-commitment secret that the peer revealed, with the revocation key of that
    commitment. *)
Theorem hsm_signs wscript :
  (forall remote, exists sig, handle_sign_remote_commitment_tx seed tx remote amount = Some (Some sig) /\
     checks (bitcoin_redeem_2of2 fpk remote) fpk sig) /\
  (forall point key, derive_simple_key (htlc_bp bps) point = Some key ->
     exists sig, handle_sign_remote_htlc_tx seed tx wscript amount point = Some (Some sig) /\ checks wscript key sig) /\
  (forall point key, derive_simple_key (htlc_bp bps) point = Some key ->
     exists sig, handle_sign_remote_htlc_to_us seed point tx wscript amount = Some (Some sig) /\ checks wscript key sig) /\
  (forall n point old key, handle_get_per_commitment_point seed n = Some (Some (point, old)) ->
     derive_simple_key (delayed_payment bps) point = Some key ->
     exists sig, handle_sign_delayed_payment_to_us seed n tx wscript amount = Some (Some sig) /\ checks wscript key sig) /\
  (forall n point old key, handle_get_per_commitment_point seed n = Some (Some (point, old)) ->
     derive_simple_key (htlc_bp bps) point = Some key ->
     exists sig, handle_sign_local_htlc_tx seed n tx wscript amount = Some (Some sig) /\ checks wscript key sig) /\
  (forall secret point key, length secret = 32%nat -> pubkey_from_secret secret = Some point ->
     derive_revocation_key (revocation bps) point = Some key ->
     exists sig, handle_sign_penalty_to_us seed secret tx wscript amount = Some (Some sig) /\ checks wscript key sig).
Proof using Type*.
  destruct (basepoints_keys seed bps fpk Hb) as (ks & K & F & R & P & Hh & Dp).
  destruct (hkdf_keys_lengths seed ks K) as (_ & Lr & Lh & _ & Ld & _).
  assert (forall n point old, handle_get_per_commitment_point seed n = Some (Some (point, old)) ->
    exists sh, derive_shaseed seed = Some sh /\ per_commit_point sh n = Some (Some point)) as Pt.
  { intros n point old. unfold handle_get_per_commitment_point.
    destruct (derive_shaseed seed) as [sh|]; [|done]. cbn [mbind option_bind]. intros E. exists sh. split; [done|].
    destruct (per_commit_point sh n) as [[p|]|]; try done. cbn in E. destruct (2 <=? n); [|by simplify_eq].
    destruct (per_commit_secret sh (n - 2)) as [[s|]|]; by simplify_eq/=. }
  split; [exact funding_signs|]. split; [exact (remote_htlc_signs wscript)|]. split; [|split; [|split]].
  - intros point key D. destruct (simple_privkey _ _ _ _ Lh Hh D) as (k & Ek & Lk & Pk).
    destruct (to_us_signs wscript k key Lk Pk) as (sig & S & C). exists sig. split; [|exact C].
    unfold handle_sign_remote_htlc_to_us, derive_htlc_basepoint, derive_one. rewrite K.
    cbn [mbind option_bind out_pubkey]. rewrite Hh. cbn [mbind option_bind req_some]. rewrite Ek. exact S.
  - intros n point old key G D. destruct (Pt n point old G) as (sh & Es & Ep).
    destruct (simple_privkey _ _ _ _ Ld Dp D) as (k & Ek & Lk & Pk).
    destruct (to_us_signs wscript k key Lk Pk) as (sig & S & C). exists sig. split; [|exact C].
    unfold handle_sign_delayed_payment_to_us. rewrite Es. cbn [mbind option_bind]. rewrite Ep. cbn [mbind option_bind req_some].
    unfold derive_delayed_payment_basepoint, derive_one. rewrite K.
    cbn [mbind option_bind out_pubkey]. rewrite Dp. cbn [mbind option_bind req_some]. rewrite Ek. exact S.
  - intros n point old key G D. destruct (Pt n point old G) as (sh & Es & Ep).
    destruct (simple_privkey _ _ _ _ Lh Hh D) as (k & Ek & Lk & Pk).
    destruct (sign_checks tx amount wscript k key O Lk Pk) as (sig & S & C). exists sig. split; [|exact C].
    unfold handle_sign_local_htlc_tx. rewrite Es. cbn [mbind option_bind]. rewrite Ep. cbn [mbind option_bind req_some].
    unfold derive_htlc_basepoint, derive_one. rewrite K.
    cbn [mbind option_bind out_pubkey]. rewrite Hh. cbn [mbind option_bind req_some]. rewrite Ek. cbn [req_some].
    rewrite Pk. cbn [req_some]. destruct O as (i & -> & _). cbn [length Nat.eqb negb]. by rewrite S.
  - intros secret point key Ls Es D. destruct (revocation_privkey _ _ _ _ _ Lr Ls R Es D) as (k & Ek & Lk & Pk).
    destruct (to_us_signs wscript k key Lk Pk) as (sig & S & C). exists sig. split; [|exact C].
    unfold handle_sign_penalty_to_us. rewrite Es. cbn [req_some].
    unfold derive_revocation_basepoint, derive_one. rewrite K.
    cbn [mbind option_bind out_pubkey]. rewrite R. cbn [mbind option_bind req_some]. rewrite Ek. exact S.
Qed.
End Channel_keys.
End Signs.

(** ** A seed, at the group of scalars *)
Module DemoHsm.
#[local] Existing Instances Scalars.ops Scalars.laws ScalarSigs.ops ScalarSigs.laws.
Definition seed : bytes := be_bytes 32 77.
Definition tx : bitcoin_tx :=
  BitcoinTx 2 [TxInput (replicate 32 7) 0 None 0 None None] [TxOutput 900 (replicate 22 0)] 0.
Definition is_some {A} (o : option A) : bool := match o with Some _ => true | None => false end.
(** The requests of the witness are in range: basepoints, point 3 and the keys it gives. *)
Definition derives (s : bytes) (p9 : pubkey) : bool :=
  match handle_get_channel_basepoints s, handle_get_per_commitment_point s 3 with
  | Some (Some (bps, _)), Some (Some (point, _)) =>
      is_some (derive_simple_key (htlc_bp bps) point) && is_some (derive_revocation_key (revocation bps) p9)
  | _, _ => false
  end.

Lemma derives_spec s p9 : derives s p9 = true -> exists bps fpk point old hk rk,
  handle_get_channel_basepoints s = Some (Some (bps, fpk)) /\
  handle_get_per_commitment_point s 3 = Some (Some (point, old)) /\
  derive_simple_key (htlc_bp bps) point = Some hk /\ derive_revocation_key (revocation bps) p9 = Some rk.
Proof.
  unfold derives. generalize (handle_get_per_commitment_point s 3). intros pt.
  destruct (handle_get_channel_basepoints s) as [[[bps fpk]|]|]; [|discriminate|discriminate].
  destruct pt as [[[point old]|]|]; [|discriminate|discriminate].
  destruct (derive_simple_key (htlc_bp bps) point) as [hk|] eqn:K; [|discriminate].
  destruct (derive_revocation_key (revocation bps) p9) as [rk|] eqn:R; [|discriminate].
  intros _. exists bps, fpk, point, old, hk, rk. exact (conj eq_refl (conj eq_refl (conj K R))).
Qed.

Lemma tx_one_input : one_input tx.
Proof. by eexists. Qed.

Lemma hsm_signs_witness : exists bps fpk, handle_get_channel_basepoints seed = Some (Some (bps, fpk)) /\
  (exists sig, handle_sign_remote_commitment_tx seed tx (demo_point 5) 1000 = Some (Some sig) /\
     checks tx 1000 (bitcoin_redeem_2of2 fpk (demo_point 5)) fpk sig) /\
  (exists point key sig, derive_simple_key (htlc_bp bps) point = Some key /\
     handle_sign_local_htlc_tx seed 3 tx [81] 1000 = Some (Some sig) /\ checks tx 1000 [81] key sig) /\
  (exists key sig, derive_revocation_key (revocation bps) (demo_point 9) = Some key /\
     handle_sign_penalty_to_us seed (be_bytes 32 9) tx [81] 1000 = Some (Some sig) /\ checks tx 1000 [81] key sig).
Proof.
  assert (derives seed (demo_point 9) = true) as D by (vm_compute; reflexivity).
  destruct (derives_spec _ _ D) as (bps & fpk & point & old & hk & rk & B & P & K & R). clear D.
  assert (pubkey_from_secret (be_bytes 32 9) = Some (demo_point 9)) as S9 by reflexivity.
  destruct (hsm_signs seed bps fpk B tx tx_one_input 1000 [81]) as (F & _ & _ & _ & L & N).
  exists bps, fpk. split; [exact B|]. split; [exact (F (demo_point 5))|]. split.
  - destruct (L 3 point old hk P K) as (sig & S & C). exists point, hk, sig. split; [exact K|].
    split; [exact S|exact C].
  - destruct (N (be_bytes 32 9) (demo_point 9) rk eq_refl S9 R) as (sig & S & C). exists rk, sig.
    split; [exact R|]. split; [exact S|exact C].
Defined.
End DemoHsm.
