(* ===== verification/Params.v ===== *)
(** * Parameters of chains and channels

    src/lightning/bitcoin/chainparams.c, src/lightning/bitcoin/locktime.c and
    struct channel_config (src/lightning/common/channel_config.h). *)
From stdpp Require Import strings.
From S2P Require Import Prelude.
Local Open Scope Z_scope.

Record chainparams := {
  network_name : string;
  bip173_name : string;
  genesis_blockhash : bytes;
  rpc_port : Z;
  cli : string;
  cli_args : option string;
  dust_limit : Z;
  max_funding_satoshi : Z;
  max_payment_msat : Z;
  when_lightning_became_cool : Z;
  testnet : bool
}.

Definition networks : list chainparams := [
  {| network_name := "bitcoin"; bip173_name := "bc";
     genesis_blockhash :=
       [0x6f; 0xe2; 0x8c; 0x0a; 0xb6; 0xf1; 0xb3; 0x72; 0xc1; 0xa6; 0xa2; 0x46; 0xae; 0x63; 0xf7; 0x4f;
        0x93; 0x1e; 0x83; 0x65; 0xe1; 0x5a; 0x08; 0x9c; 0x68; 0xd6; 0x19; 0x00; 0x00; 0x00; 0x00; 0x00];
     rpc_port := 8332; cli := "bitcoin-cli"; cli_args := None;
     dust_limit := 546; max_funding_satoshi := Z.shiftl 1 24 - 1;
     max_payment_msat := 0xFFFFFFFF; when_lightning_became_cool := 504500;
     testnet := false |};
  {| network_name := "regtest"; bip173_name := "bcrt";
     genesis_blockhash :=
       [0x06; 0x22; 0x6e; 0x46; 0x11; 0x1a; 0x0b; 0x59; 0xca; 0xaf; 0x12; 0x60; 0x43; 0xeb; 0x5b; 0xbf;
        0x28; 0xc3; 0x4f; 0x3a; 0x5e; 0x33; 0x2a; 0x1f; 0xc7; 0xb2; 0xb7; 0x3c; 0xf1; 0x88; 0x91; 0x0f];
     rpc_port := 18332; cli := "bitcoin-cli"; cli_args := Some "-regtest";
     dust_limit := 546; max_funding_satoshi := Z.shiftl 1 24 - 1;
     max_payment_msat := 0xFFFFFFFF; when_lightning_became_cool := 1;
     testnet := true |};
  {| network_name := "testnet"; bip173_name := "tb";
     genesis_blockhash :=
       [0x43; 0x49; 0x7f; 0xd7; 0xf8; 0x26; 0x95; 0x71; 0x08; 0xf4; 0xa3; 0x0f; 0xd9; 0xce; 0xc3; 0xae;
        0xba; 0x79; 0x97; 0x20; 0x84; 0xe9; 0x0e; 0xad; 0x01; 0xea; 0x33; 0x09; 0x00; 0x00; 0x00; 0x00];
     rpc_port := 18332; cli := "bitcoin-cli"; cli_args := Some "-testnet";
     dust_limit := 546; max_funding_satoshi := Z.shiftl 1 24 - 1;
     max_payment_msat := 0xFFFFFFFF; when_lightning_became_cool := 0;
     testnet := true |};
  {| network_name := "litecoin"; bip173_name := "ltc";
     genesis_blockhash :=
       [0xe2; 0xbf; 0x04; 0x7e; 0x7e; 0x5a; 0x19; 0x1a; 0xa4; 0xef; 0x34; 0xd3; 0x14; 0x97; 0x9d; 0xc9;
        0x98; 0x6e; 0x0f; 0x19; 0x25; 0x1e; 0xda; 0xba; 0x59; 0x40; 0xfd; 0x1f; 0xe3; 0x65; 0xa7; 0x12];
     rpc_port := 9332; cli := "litecoin-cli"; cli_args := None;
     dust_limit := 100000; max_funding_satoshi := 60 * (Z.shiftl 1 24 - 1);
     max_payment_msat := 60 * 0xFFFFFFFF; when_lightning_became_cool := 1320000;
     testnet := false |};
  {| network_name := "litecoin-testnet"; bip173_name := "tltc";
     genesis_blockhash :=
       [0xa0; 0x29; 0x3e; 0x4e; 0xeb; 0x3d; 0xa6; 0xe6; 0xf5; 0x6f; 0x81; 0xed; 0x59; 0x5f; 0x57; 0x88;
        0x0d; 0x1a; 0x21; 0x56; 0x9e; 0x13; 0xee; 0xfd; 0xd9; 0x51; 0x28; 0x4b; 0x5a; 0x62; 0x66; 0x49];
     rpc_port := 19332; cli := "litecoin-cli"; cli_args := Some "-testnet";
     dust_limit := 100000; max_funding_satoshi := 60 * (Z.shiftl 1 24 - 1);
     max_payment_msat := 60 * 0xFFFFFFFF; when_lightning_became_cool := 1;
     testnet := true |}
].

Definition find_network (P : chainparams -> bool) : option chainparams := List.find P networks.

Definition chainparams_for_network (name : string) : option chainparams :=
  find_network (fun n => bool_decide (name = network_name n)).

Definition chainparams_by_chainhash (chain_hash : bytes) : option chainparams :=
  find_network (fun n => bool_decide (chain_hash = genesis_blockhash n)).

Definition chainparams_by_bip173 (name : string) : option chainparams :=
  find_network (fun n => bool_decide (name = bip173_name n)).

(** ** locktime.c

    A [struct abs_locktime] or [struct rel_locktime] is the number it wraps. *)
Definition SECONDS_POINT : Z := 500000000.
Definition BIP68_SECONDS_FLAG : Z := Z.shiftl 1 22.
Definition BIP68_LOCKTIME_MASK : Z := 0x0000FFFF.
Definition BIP68_SECONDS_SHIFT : Z := 9.

Definition abs_blocks_to_locktime (blocks : Z) : option Z :=
  if SECONDS_POINT <=? blocks then None else Some blocks.

Definition abs_is_seconds (locktime : Z) : bool := SECONDS_POINT <=? locktime.

Definition rel_locktime_is_seconds (rel : Z) : bool :=
  negb (Z.land rel BIP68_SECONDS_FLAG =? 0).

(** The next two, and the [abs_] ones below, abort on the wrong unit. *)
Definition rel_locktime_to_seconds (rel : Z) : option Z :=
  assert! rel_locktime_is_seconds rel;
  Some (u32 (Z.shiftl (Z.land rel BIP68_LOCKTIME_MASK) BIP68_SECONDS_SHIFT)).

Definition rel_locktime_to_blocks (rel : Z) : option Z :=
  assert! negb (rel_locktime_is_seconds rel);
  Some (Z.land rel BIP68_LOCKTIME_MASK).

Definition blocks_to_abs_locktime (blocks : Z) : option Z := abs_blocks_to_locktime blocks.

Definition abs_locktime_is_seconds (abs : Z) : bool := abs_is_seconds abs.

Definition abs_locktime_to_seconds (abs : Z) : option Z :=
  assert! abs_locktime_is_seconds abs; Some abs.

Definition abs_locktime_to_blocks (abs : Z) : option Z :=
  assert! negb (abs_locktime_is_seconds abs); Some abs.

(** ** channel_config.h *)
Record channel_config := ChannelConfig {
  config_id : Z;
  dust_limit_satoshis : Z;
  max_htlc_value_in_flight_msat : Z;
  channel_reserve_satoshis : Z;
  htlc_minimum_msat : Z;
  to_self_delay : Z;
  max_accepted_htlcs : Z
}.

(** ** Lemmas *)

Lemma blocks_roundtrip b l :
  blocks_to_abs_locktime b = Some l -> abs_locktime_to_blocks l = Some b.
Proof.
  unfold blocks_to_abs_locktime, abs_blocks_to_locktime, abs_locktime_to_blocks,
    abs_locktime_is_seconds, abs_is_seconds.
  destruct (SECONDS_POINT <=? b) eqn:E; [done|]. intros [= <-]. by rewrite E.
Qed.

Lemma chainparams_max_payment h p :
  chainparams_by_chainhash h = Some p -> 0 < max_payment_msat p < 2 ^ 62.
Proof.
  unfold chainparams_by_chainhash, find_network. intros [Hin _]%List.find_some.
  unfold networks in Hin. simpl In in Hin.
  repeat (destruct Hin as [<-|Hin]; [cbn; lia|]). done.
Qed.
