(* ===== verification/Htlc.v ===== *)
(** * HTLCs and the fees they cost

    struct htlc (src/lightning/channeld/channeld_htlc.h), the balance each side has in it
    (src/lightning/channeld/full_channel.c) and the fee and trimming rules
    (src/lightning/common/htlc_tx.h, src/lightning/common/initial_commit_tx.h,
    src/lightning/channeld/commit_tx.c). *)
From S2P Require Import Prelude HtlcState.
Local Open Scope Z_scope.

Record htlc := Htlc {
  state : htlc_state;
  id : Z;
  msatoshi : Z;
  expiry : Z;
  rhash : bytes;
  r : option bytes;
  shared_secret : option bytes;
  routing : bytes;
  fail : option bytes;
  failcode : Z;
  failed_scid : option Z
}.

Definition set_state (s : htlc_state) (h : htlc) : htlc :=
  Htlc s (id h) (msatoshi h) (expiry h) (rhash h) (r h) (shared_secret h) (routing h)
    (fail h) (failcode h) (failed_scid h).

Definition set_r (p : bytes) (h : htlc) : htlc :=
  Htlc (state h) (id h) (msatoshi h) (expiry h) (rhash h) (Some p) (shared_secret h) (routing h)
    (fail h) (failcode h) (failed_scid h).

Definition set_failure (fl : option bytes) (code : Z) (scid : option Z) (h : htlc) : htlc :=
  Htlc (state h) (id h) (msatoshi h) (expiry h) (rhash h) (r h) (shared_secret h) (routing h)
    fl code scid.

Definition htlc_has (h : htlc) (flag : Z) : bool := has_flag (htlc_state_flags (state h)) flag.
Definition htlc_owner (h : htlc) : side := htlc_state_owner (state h).

Definition htlc_is_dead (h : htlc) : bool :=
  htlc_state_eqb (state h) RCVD_REMOVE_ACK_REVOCATION
  || htlc_state_eqb (state h) SENT_REMOVE_ACK_REVOCATION.

(** [htlc_get]: the first element with this id and owner; with its place, so that the
    callers that write through the pointer can. *)
Definition htlc_get (htlcs : list htlc) (i : Z) (owner : side) : option (nat * htlc) :=
  list_find (fun h => (id h =? i) && htlc_has h (HTLC_FLAG owner HTLC_F_OWNER)) htlcs.

(** ** Balances (full_channel.c); a signed 64-bit result. *)
Definition balance_adding_htlc (h : htlc) (s : side) : Z :=
  if side_eqb (htlc_owner h) s then s64 (- s64 (msatoshi h)) else 0.

Definition paid_to (h : htlc) : side :=
  match r h with Some _ => other (htlc_owner h) | None => htlc_owner h end.

Definition balance_removing_htlc (h : htlc) (s : side) : Z :=
  if side_eqb s (paid_to h) then s64 (msatoshi h) else 0.

Definition total_offered_msatoshis (htlcs : list htlc) (s : side) : Z :=
  foldl (fun total h => if side_eqb (htlc_owner h) s then u64 (total + msatoshi h) else total)
    0 htlcs.

(** ** Fees *)
Definition htlc_timeout_fee (feerate_per_kw : Z) : Z := u64 (feerate_per_kw * 663) / 1000.
Definition htlc_success_fee (feerate_per_kw : Z) : Z := u64 (feerate_per_kw * 703) / 1000.

Definition commit_tx_base_fee (feerate_per_kw num_untrimmed_htlcs : Z) : Z :=
  let weight := u64 (724 + u64 (172 * num_untrimmed_htlcs)) in
  u64 (feerate_per_kw * weight) / 1000.

Definition trim (h : htlc) (feerate_per_kw dust_limit_satoshis : Z) (s : side) : bool :=
  let htlc_fee := if side_eqb (htlc_owner h) s then htlc_timeout_fee feerate_per_kw
                  else htlc_success_fee feerate_per_kw in
  msatoshi h / 1000 <? u64 (dust_limit_satoshis + htlc_fee).

Definition commit_tx_num_untrimmed (htlcs : list htlc) (feerate_per_kw dust_limit_satoshis : Z)
    (s : side) : Z :=
  Z.of_nat (length
    (List.filter (fun h => negb (trim h feerate_per_kw dust_limit_satoshis s)) htlcs)).

(** ** Lemmas *)

Lemma htlc_has_owner h s : htlc_has h (HTLC_FLAG s HTLC_F_OWNER) = side_eqb (htlc_owner h) s.
Proof. unfold htlc_has, htlc_owner. by destruct (state h), s. Qed.

Lemma base_fee_bound rate n : 0 <= commit_tx_base_fee rate n < 2 ^ 62.
Proof.
  unfold commit_tx_base_fee. cbv zeta. pose proof (u64_fits (rate * u64 (724 + u64 (172 * n)))) as B.
  unfold fits in B. eval_pow2. split.
  - apply Z.div_pos; lia.
  - apply Z.div_lt_upper_bound; lia.
Qed.
