(* ===== verification/Permute.v ===== *)
(** * The order of inputs and outputs (src/lightning/common/permute_tx.c)

    A selection sort over parallel arrays: the outputs, the expiries that break ties and
    the map that remembers what each output is for. It is shown to permute the rows and to
    put them in the order of BIP 69, which makes the outputs of a transaction independent
    of the order they were added in. *)
From stdpp Require Import sorting.
From S2P Require Import Prelude Sha256 Ripemd160 Secp PullPush BitcoinTx.
Local Open Scope Z_scope.

(** ** Arrays *)

(** [tmp = l[i1]; l[i1] = l[i2]; l[i2] = tmp], unless the indices are equal. *)
Definition swap_at {A} (i1 i2 : nat) (l : list A) : list A :=
  if (i1 =? i2)%nat then l
  else match l !! i1, l !! i2 with
       | Some x, Some y => <[i2 := x]> (<[i1 := y]> l)
       | _, _ => l
       end.

(** The loop that looks for the best element, from the candidate [b] at [best]. *)
Fixpoint best_from {A} (better : A -> A -> bool) (best : nat) (b : A) (i : nat) (l : list A) : nat :=
  match l with
  | [] => best
  | x :: l => if better x b then best_from better i x (S i) l else best_from better best b (S i) l
  end.

Definition find_best {A} (better : A -> A -> bool) (l : list A) : nat :=
  match l with [] => 0%nat | b :: l => best_from better 0 b 1 l end.

(** ** Inputs *)
Definition input_better (a b : bitcoin_tx_input) : bool :=
  match memcmp (in_txid a) (in_txid b) with
  | Lt => true
  | Gt => false
  | Eq =>
      if negb (in_index a =? in_index b) then in_index a <? in_index b
      else
        let sa := default [] (in_script a) in
        let sb := default [] (in_script b) in
        if negb (length sa =? length sb)%nat then (length sa <? length sb)%nat
        else match memcmp sa sb with
             | Lt => true
             | Gt => false
             | Eq => sequence_number a <? sequence_number b
             end
  end.

Definition find_best_in (inputs : list bitcoin_tx_input) (num : nat) : nat :=
  find_best input_better (take num inputs).

(** The map may be NULL. *)
Definition swap_inputs {M} (st : list bitcoin_tx_input * option (list M)) (i1 i2 : nat)
    : list bitcoin_tx_input * option (list M) :=
  (swap_at i1 i2 st.1, swap_at i1 i2 <$> st.2).

(** (There is nothing to do without inputs, and [seq] is empty then.) *)
Definition permute_inputs {M} (inputs : list bitcoin_tx_input) (map : option (list M))
    : list bitcoin_tx_input * option (list M) :=
  let num_inputs := length inputs in
  foldl (fun st i => swap_inputs st i (i + find_best_in (drop i st.1) (num_inputs - i)))
    (inputs, map) (seq 0 (num_inputs - 1)).

(** ** Outputs *)
Definition output_better (a : bitcoin_tx_output) (cltv_a : Z) (b : bitcoin_tx_output) (cltv_b : Z)
    : bool :=
  if negb (out_amount a =? out_amount b) then out_amount a <? out_amount b
  else match memcmp (out_script a) (out_script b) with
       | Lt => true
       | Gt => false
       | Eq =>
           if negb (length (out_script a) =? length (out_script b))%nat
           then (length (out_script a) <? length (out_script b))%nat
           else cltv_a <? cltv_b
       end.

(** The array is at least as long as that of the outputs. *)
Definition cltv_of (cltvs : option (list Z)) (idx : nat) : Z :=
  match cltvs with None => 0 | Some l => default 0 (l !! idx) end.

Definition find_best_out (outputs : list bitcoin_tx_output) (cltvs : option (list Z)) (num : nat)
    : nat :=
  find_best (fun a b => output_better a.1 a.2 b.1 b.2)
    (imap (fun idx o => (o, cltv_of cltvs idx)) (take num outputs)).

Definition arrays M : Type := list bitcoin_tx_output * option (list Z) * option (list M).

Definition swap_outputs {M} (st : arrays M) (i1 i2 : nat) : arrays M :=
  let '(outputs, cltvs, map) := st in
  (swap_at i1 i2 outputs, swap_at i1 i2 <$> cltvs, swap_at i1 i2 <$> map).

Definition permute_outputs {M} (outputs : list bitcoin_tx_output) (cltvs : option (list Z))
    (map : option (list M)) : arrays M :=
  let num_outputs := length outputs in
  foldl (fun st i =>
      let '(outputs, cltvs, _) := st in
      swap_outputs st i (i + find_best_out (drop i outputs) (drop i <$> cltvs) (num_outputs - i)))
    (outputs, cltvs, map) (seq 0 (num_outputs - 1)).

(** ** Selection sort *)
Section Selection.
Context {A : Type} (better : A -> A -> bool).

(** Of two elements one is not better, and not being better is transitive. *)
Class Ranking (P : A -> Prop) := {
  better_asym a b : P a -> P b -> better a b = true -> better b a = false;
  better_trans a b c : P a -> P b -> P c ->
    better b a = false -> better c b = false -> better c a = false
}.

(** [a] may stand before [b]. *)
Definition before (a b : A) : Prop := better b a = false.

Definition select (l : list A) (i : nat) : list A := swap_at i (i + find_best better (drop i l)) l.

Context {P : A -> Prop} `{!Ranking P}.

Lemma better_irrefl a : P a -> better a a = false.
Proof using Type*.
  intros Ha. destruct (better a a) eqn:E; [|done]. pose proof (better_asym _ _ Ha Ha E). congruence.
Qed.

Lemma best_from_spec best b i pre l : pre !! best = Some b -> i = length pre ->
  Forall P (pre ++ l) -> Forall (before b) pre ->
  exists y, (pre ++ l) !! best_from better best b i l = Some y /\ Forall (before y) (pre ++ l).
Proof using Type*.
  revert best b i pre. induction l as [|x l IH]; intros best b i pre Hb Hi HP Hp; cbn [best_from].
  - rewrite app_nil_r. by exists b.
  - assert (pre ++ x :: l = (pre ++ [x]) ++ l) as E' by (by rewrite <- app_assoc). rewrite E' in *.
    assert (P b /\ P x) as [Pb Px].
    { rewrite Forall_forall in HP. split; apply HP; rewrite !elem_of_app, list_elem_of_singleton; [|by eauto].
      left; left. by eapply list_elem_of_lookup_2. }
    assert (S i = length (pre ++ [x])) as Hi' by (rewrite length_app; cbn; lia).
    destruct (better x b) eqn:E.
    + apply IH; [by rewrite lookup_app_r, Hi, Nat.sub_diag by lia|done|done|].
      apply Forall_app. split; [|by repeat constructor; apply better_irrefl].
      rewrite Forall_forall in HP, Hp |- *. intros z Hz.
      eapply (better_trans x b z); [done|done|apply HP; set_solver|by apply better_asym|by apply Hp].
    + apply IH; [by apply lookup_app_l_Some|done|done|]. apply Forall_app. split; [done|]. by repeat constructor.
Qed.

Lemma find_best_spec l : l <> [] -> Forall P l ->
  exists y, l !! find_best better l = Some y /\ Forall (before y) l.
Proof using Type*.
  destruct l as [|b l]; [done|]. intros _ HP. cbn [find_best].
  apply (best_from_spec 0 b 1 [b] l); [done|done|done|]. repeat constructor. apply better_irrefl.
  by inversion HP.
Qed.

Lemma swap_at_middle (pre l : list A) x k y : l !! k = Some y ->
  swap_at (length pre) (length pre + S k) (pre ++ x :: l) = pre ++ y :: <[k := x]> l.
Proof using.
  intros Hk. unfold swap_at. destruct (Nat.eqb_spec (length pre) (length pre + S k)); [lia|].
  rewrite !lookup_app_r by lia. rewrite Nat.sub_diag. replace (_ + S k - _)%nat with (S k) by lia. simpl.
  rewrite Hk. rewrite insert_app_r_alt, Nat.sub_diag by lia. cbn.
  rewrite insert_app_r_alt by lia. by replace (_ + S k - _)%nat with (S k) by lia.
Qed.

Lemma insert_swap (l : list A) k x y : l !! k = Some y -> x :: l ≡ₚ y :: <[k := x]> l.
Proof using.
  intros Hk. rewrite <- (take_drop_middle l k y Hk) at 1.
  rewrite insert_take_drop by (by eapply lookup_lt_Some).
  rewrite <- !Permutation_middle. constructor.
Qed.

Lemma select_spec (pre : list A) x l : Forall P (x :: l) -> exists y rest,
  select (pre ++ x :: l) (length pre) = pre ++ y :: rest /\ x :: l ≡ₚ y :: rest /\ Forall (before y) rest.
Proof using Type*.
  intros HP. unfold select. rewrite drop_app_length.
  destruct (find_best_spec (x :: l)) as (y & Hy & Hb); [done|done|].
  destruct (find_best better (x :: l)) as [|k]; cbn in Hy.
  - injection Hy as ->. exists y, l. split; [|split; [done|by inversion Hb]].
    unfold swap_at. by rewrite Nat.add_0_r, Nat.eqb_refl.
  - exists y, (<[k := x]> l). rewrite (swap_at_middle pre l x k y) by done. split; [done|].
    pose proof (insert_swap l k x y Hy) as Q. split; [done|]. rewrite Q in Hb. by inversion Hb.
Qed.

(** The loop sorts: what it leaves is a permutation in which nothing stands behind
    something worse. *)
Lemma selection_sorts l pre : Forall P l ->
  exists sorted, foldl select (pre ++ l) (seq (length pre) (length l - 1)) = pre ++ sorted /\
    l ≡ₚ sorted /\ StronglySorted before sorted.
Proof using Type*.
  remember (length l) as n eqn:Hn. revert l pre Hn.
  induction n as [|n IH]; intros [|x l] pre Hn HP; try discriminate Hn.
  - exists []. split; [done|]. split; [done|]. constructor.
  - cbn [length] in Hn. destruct n as [|n].
    + destruct l; [|done]. exists [x]. split; [done|]. split; [done|]. repeat constructor.
    + cbn [seq foldl Nat.sub]. destruct (select_spec pre x l HP) as (y & rest & -> & Q & F).
      destruct (IH rest (pre ++ [y])) as (sorted & E & Q' & S).
      { apply Permutation_length in Q. cbn in Q. lia. }
      { rewrite Q in HP. by inversion HP. }
      exists (y :: sorted). split.
      * rewrite length_app in E. cbn [length] in E. rewrite Nat.add_1_r, <- app_assoc in E. cbn [Nat.sub] in E.
        rewrite Nat.sub_0_r in E. cbn [app] in E. rewrite E, <- app_assoc. done.
      * rewrite Q, Q'. split; [done|]. constructor; [done|]. by rewrite <- Q'.
Qed.
End Selection.
Arguments Ranking {A} better P.

(** ** Comparisons *)
Definition lex (c d : comparison) : comparison := match c with Eq => d | _ => c end.

(** A comparison that is a total preorder on the elements of [P]. *)
Class Compares {A} (P : A -> Prop) (cmp : A -> A -> comparison) := {
  compares_opp a b : P a -> P b -> cmp b a = CompOpp (cmp a b);
  compares_trans a b c : P a -> P b -> P c -> cmp a b <> Gt -> cmp b c <> Gt ->
    cmp a c = lex (cmp a b) (cmp b c)
}.

#[export] Instance Z_compares {A} (P : A -> Prop) (f : A -> Z) :
  Compares P (fun a b => f a ?= f b).
Proof.
  split.
  - intros a b _ _. apply Z.compare_antisym.
  - intros a b c _ _ _. destruct (Z.compare_spec (f a) (f b)), (Z.compare_spec (f b) (f c)); intros ? ?;
      try done; cbn; rewrite ?Z.compare_eq_iff, ?Z.compare_lt_iff; lia.
Qed.

#[export] Instance lex_compares {A} (P : A -> Prop) (c d : A -> A -> comparison) :
  Compares P c -> Compares P d -> Compares P (fun a b => lex (c a b) (d a b)).
Proof.
  intros C D. split.
  - intros a b Ha Hb. rewrite (compares_opp (cmp:=c) a b), (compares_opp (cmp:=d) a b) by done.
    by destruct (c a b).
  - intros x y z Hx Hy Hz H1 H2.
    pose proof (compares_trans (cmp:=c) x y z Hx Hy Hz) as E.
    pose proof (compares_trans (cmp:=d) x y z Hx Hy Hz) as F.
    destruct (c x y), (c y z); cbn in *; rewrite ?E by done; cbn; try done; [by apply F|by destruct (d x y)].
Qed.

(** Better is less. *)
Lemma compares_ranking {A} (P : A -> Prop) (cmp : A -> A -> comparison) (better : A -> A -> bool) :
  Compares P cmp ->
  (forall a b, P a -> P b -> better a b = match cmp a b with Lt => true | _ => false end) ->
  Ranking better P.
Proof.
  intros C Hb. split.
  - intros a b Ha Hb'. rewrite !Hb, (compares_opp (cmp:=cmp) a b) by done. by destruct (cmp a b).
  - intros a b c Pa Pb Pc. rewrite !Hb by done.
    rewrite (compares_opp (cmp:=cmp) a b), (compares_opp (cmp:=cmp) b c), (compares_opp (cmp:=cmp) a c) by done.
    pose proof (compares_trans (cmp:=cmp) a b c Pa Pb Pc) as E.
    destruct (cmp a b), (cmp b c); cbn in *; intros ? ?; rewrite ?E by done; done.
Qed.

(** The order of byte strings, in which a prefix comes first. *)
Fixpoint bytes_cmp (a b : bytes) : comparison :=
  match a, b with
  | [], [] => Eq
  | [], _ => Lt
  | _, [] => Gt
  | x :: a, y :: b => lex (x ?= y) (bytes_cmp a b)
  end.

Lemma bytes_cmp_eq a b : bytes_cmp a b = Eq <-> a = b.
Proof.
  revert b. induction a as [|x a IH]; intros [|y b]; cbn; try done.
  destruct (Z.compare_spec x y) as [->| |]; cbn; rewrite ?IH; split; intros; try congruence; simplify_eq; lia.
Qed.

#[export] Instance bytes_compares {A} (P : A -> Prop) (f : A -> bytes) :
  Compares P (fun a b => bytes_cmp (f a) (f b)).
Proof.
  split.
  - intros a b _ _. generalize (f a) (f b). clear a b. intros a.
    induction a as [|x a IH]; intros [|y b]; cbn; try done.
    rewrite Z.compare_antisym, IH. by destruct (x ?= y).
  - intros a b c _ _ _. generalize (f a) (f b) (f c). clear a b c. intros a.
    induction a as [|x a IH]; intros [|y b] [|z c]; cbn; try done.
    specialize (IH b c).
    destruct (Z.compare_spec x y), (Z.compare_spec y z); subst; cbn; intros ? ?;
      rewrite ?Z.compare_refl; cbn; try (by auto); try done;
      try (rewrite (proj2 (Z.compare_lt_iff _ _)) by lia; cbn); try done; by destruct (bytes_cmp a b).
Qed.

Lemma memcmp_bytes_cmp a b :
  bytes_cmp a b = lex (memcmp a b) (Nat.compare (length a) (length b)).
Proof.
  revert b. induction a as [|x a IH]; intros [|y b]; cbn; try done.
  rewrite IH. by destruct (x ?= y).
Qed.

Definition output_cmp (a b : bitcoin_tx_output) : comparison :=
  lex (out_amount a ?= out_amount b) (bytes_cmp (out_script a) (out_script b)).

Definition row_cmp (a b : bitcoin_tx_output * Z) : comparison :=
  lex (output_cmp a.1 b.1) (a.2 ?= b.2).

#[export] Instance output_compares {A} (P : A -> Prop) (f : A -> bitcoin_tx_output) :
  Compares P (fun a b => output_cmp (f a) (f b)).
Proof. apply lex_compares; [apply (Z_compares P (fun a => out_amount (f a)))|apply bytes_compares]. Qed.

#[export] Instance row_compares : Compares (fun _ => True) row_cmp.
Proof. apply lex_compares; [apply output_compares|apply (Z_compares _ snd)]. Qed.

Lemma output_better_cmp a b :
  output_better a.1 a.2 b.1 b.2 = match row_cmp a b with Lt => true | _ => false end.
Proof.
  destruct a as [a ca], b as [b cb]. unfold output_better, row_cmp, output_cmp. cbn [fst snd].
  rewrite memcmp_bytes_cmp, Z.eqb_compare. unfold Z.ltb.
  destruct (out_amount a ?= out_amount b); cbn [negb lex]; try done.
  destruct (memcmp (out_script a) (out_script b)); cbn [negb lex]; try done.
  destruct (Nat.compare_spec (length (out_script a)) (length (out_script b))) as [E|E|E]; cbn [lex].
  - by rewrite E, Nat.eqb_refl.
  - rewrite (proj2 (Nat.eqb_neq _ _)) by lia. by apply Nat.ltb_lt.
  - rewrite (proj2 (Nat.eqb_neq _ _)) by lia. apply Nat.ltb_ge. lia.
Qed.

Lemma output_cmp_eq a b : output_cmp a b = Eq -> a = b.
Proof.
  unfold output_cmp. destruct (Z.compare_spec (out_amount a) (out_amount b)) as [E| |]; cbn; try done.
  rewrite bytes_cmp_eq. destruct a, b; cbn in *. congruence.
Qed.

Lemma row_cmp_eq a b : row_cmp a b = Eq -> a = b.
Proof.
  unfold row_cmp. destruct (output_cmp a.1 b.1) eqn:E; cbn; try done. apply output_cmp_eq in E.
  rewrite Z.compare_eq_iff. destruct a, b; cbn in *. congruence.
Qed.

Definition input_cmp (a b : bitcoin_tx_input) : comparison :=
  lex (bytes_cmp (in_txid a) (in_txid b))
    (lex (in_index a ?= in_index b)
      (lex (Z.of_nat (length (default [] (in_script a))) ?= Z.of_nat (length (default [] (in_script b))))
        (lex (bytes_cmp (default [] (in_script a)) (default [] (in_script b)))
          (sequence_number a ?= sequence_number b)))).

(** A transaction id is a hash of 32 bytes. *)
Definition has_txid (i : bitcoin_tx_input) : Prop := length (in_txid i) = 32%nat.

#[export] Instance input_compares : Compares has_txid input_cmp.
Proof.
  repeat apply lex_compares; try apply (bytes_compares _ in_txid);
    first [apply (Z_compares _ in_index)|apply (Z_compares _ sequence_number)
          |apply (bytes_compares _ (fun a => default [] (in_script a)))
          |apply (Z_compares _ (fun a => Z.of_nat (length (default [] (in_script a)))))].
Qed.

Lemma memcmp_same_length a b : length a = length b -> memcmp a b = bytes_cmp a b.
Proof.
  intros E. rewrite memcmp_bytes_cmp, E. assert (Nat.compare (length b) (length b) = Eq) as ->
    by (by apply Nat.compare_eq_iff). by destruct (memcmp a b).
Qed.

Lemma input_better_cmp a b : has_txid a -> has_txid b ->
  input_better a b = match input_cmp a b with Lt => true | _ => false end.
Proof.
  unfold has_txid. intros Ha Hb. unfold input_better, input_cmp.
  rewrite memcmp_same_length by congruence. destruct (bytes_cmp (in_txid a) _); cbn [lex]; try done.
  rewrite Z.eqb_compare. unfold Z.ltb. destruct (in_index a ?= in_index b); cbn [negb lex]; try done.
  generalize (default [] (in_script a)) (default [] (in_script b)). intros sa sb.
  destruct (Nat.eqb_spec (length sa) (length sb)) as [E|E]; cbn [negb].
  - rewrite E, Z.compare_refl, memcmp_same_length by done. cbn [lex]. by destruct (bytes_cmp sa sb).
  - destruct (Z.compare_spec (Z.of_nat (length sa)) (Z.of_nat (length sb))); cbn [lex]; [lia| |].
    + apply Nat.ltb_lt. lia.
    + apply Nat.ltb_ge. lia.
Qed.

#[export] Instance row_ranking :
  Ranking (fun a b => output_better a.1 a.2 b.1 b.2) (fun _ => True).
Proof. eapply compares_ranking; [apply row_compares|]. intros. apply output_better_cmp. Qed.

#[export] Instance input_ranking : Ranking input_better has_txid.
Proof. eapply compares_ranking; [apply input_compares|]. intros. by apply input_better_cmp. Qed.

(** ** Swapping *)
Lemma length_swap_at {A} i j (l : list A) : length (swap_at i j l) = length l.
Proof. unfold swap_at. repeat case_match; by rewrite ?length_insert. Qed.

Lemma swap_at_fmap {A B} (f : A -> B) i j l : swap_at i j (f <$> l) = f <$> swap_at i j l.
Proof.
  unfold swap_at. destruct (i =? j)%nat; [done|]. rewrite !list_lookup_fmap.
  destruct (l !! i), (l !! j); cbn; rewrite ?list_fmap_insert; done.
Qed.

Lemma swap_at_app {A} i j (l k : list A) : (i < length l)%nat -> (j < length l)%nat ->
  swap_at i j (l ++ k) = swap_at i j l ++ k.
Proof.
  intros Hi Hj. unfold swap_at. destruct (i =? j)%nat; [done|]. rewrite !lookup_app_l by done.
  destruct (l !! i), (l !! j); try done. rewrite !insert_app_l by (by rewrite ?length_insert). done.
Qed.

Lemma best_from_fmap {A B} (f : A -> B) better best b i l :
  best_from better best (f b) i (f <$> l) = best_from (fun x y => better (f x) (f y)) best b i l.
Proof.
  revert best b i. induction l as [|x l IH]; intros best b i; cbn; [done|].
  destruct (better (f x) (f b)); apply IH.
Qed.

Lemma find_best_fmap {A B} (f : A -> B) better l :
  find_best better (f <$> l) = find_best (fun x y => better (f x) (f y)) l.
Proof. destruct l as [|b l]; [done|]. apply best_from_fmap. Qed.

(** One row of the arrays: an output, the expiry that ranks it, and its entry in the map. *)
Abbreviation row M := (bitcoin_tx_output * Z * M)%type.

Section Rows.
Context {M : Type}.

(** The arrays hold the rows; those of expiries and of the map may be absent, and that of
    expiries may be longer. *)
Definition holds_rows (rows : list (row M)) (st : arrays M) : Prop :=
  let '(outputs, cltvs, map) := st in
  outputs = rows.*1.*1 /\
  match cltvs with
  | None => Forall (fun r => r.1.2 = 0) rows
  | Some l => exists tail, l = rows.*1.*2 ++ tail
  end /\
  match map with None => True | Some l => l = rows.*2 end.

Definition row_better (a b : row M) : bool := output_better a.1.1 a.1.2 b.1.1 b.1.2.

#[local] Instance full_row_ranking : Ranking row_better (fun _ => True).
Proof.
  split.
  - intros a b _ _. by apply (better_asym (fun a b => output_better a.1 a.2 b.1 b.2) (P:=fun _ => True) a.1 b.1).
  - intros a b c _ _ _.
    by apply (better_trans (fun a b => output_better a.1 a.2 b.1 b.2) (P:=fun _ => True) a.1 b.1 c.1).
Qed.

Lemma find_best_out_rows rows outputs cltvs map i : holds_rows rows (outputs, cltvs, map) ->
  find_best_out (drop i outputs) (drop i <$> cltvs) (length rows - i) =
  find_best row_better (drop i rows).
Proof using Type.
  intros (-> & Hc & _). unfold find_best_out, row_better.
  rewrite take_ge by (rewrite length_drop, !length_fmap; done).
  rewrite <- (find_best_fmap fst (fun a b => output_better a.1 a.2 b.1 b.2)). f_equal.
  apply list_eq. intros k. rewrite list_lookup_imap, list_lookup_fmap, !lookup_drop, !list_lookup_fmap.
  destruct (rows !! (i + k)%nat) as [[[o c] m]|] eqn:E; cbn; [|done].
  destruct cltvs as [l|]; cbn.
  - destruct Hc as [tail ->]. rewrite lookup_drop, lookup_app_l, !list_lookup_fmap, E; [done|].
    rewrite !length_fmap. by eapply lookup_lt_Some.
  - rewrite Forall_forall in Hc. by rewrite <- (Hc _ (list_elem_of_lookup_2 _ _ _ E)).
Qed.

Lemma swap_outputs_rows rows st i j : (i < length rows)%nat -> (j < length rows)%nat ->
  holds_rows rows st -> holds_rows (swap_at i j rows) (swap_outputs st i j).
Proof using Type.
  intros Hi Hj. destruct st as [[outputs cltvs] map]. intros (-> & Hc & Hm). split; [|split].
  - by rewrite !swap_at_fmap.
  - destruct cltvs as [l|]; cbn.
    + destruct Hc as [tail ->]. exists tail. by rewrite swap_at_app, !swap_at_fmap by (by rewrite !length_fmap).
    + rewrite !Forall_forall in *. intros r Hr. apply Hc. unfold swap_at in Hr.
      destruct (i =? j)%nat; [done|]. destruct (rows !! i) eqn:E, (rows !! j) eqn:F; try done.
      apply list_elem_of_lookup_1 in Hr as [k Hk].
      apply list_lookup_insert_Some in Hk as [(_ & <- & _)|[_ Hk]]; [by eapply list_elem_of_lookup_2|].
      apply list_lookup_insert_Some in Hk as [(_ & <- & _)|[_ Hk]]; by eapply list_elem_of_lookup_2.
  - destruct map as [l|]; cbn; [|done]. subst l. apply swap_at_fmap.
Qed.

Lemma select_bound (rows : list (row M)) i : (i < length rows)%nat ->
  (i + find_best row_better (drop i rows) < length rows)%nat.
Proof using Type.
  intros Hi. destruct (find_best_spec row_better (P:=fun _ => True) (drop i rows)) as (y & Hy & _).
  - intros E. apply (f_equal length) in E. rewrite length_drop in E. cbn in E. lia.
  - by apply Forall_true.
  - apply lookup_lt_Some in Hy. rewrite length_drop in Hy. lia.
Qed.

Lemma permute_outputs_rows rows outputs cltvs map : holds_rows rows (outputs, cltvs, map) ->
  holds_rows (foldl (select row_better) rows (seq 0 (length rows - 1))) (permute_outputs outputs cltvs map).
Proof using Type.
  intros H. unfold permute_outputs. assert (length outputs = length rows) as ->.
  { destruct H as [-> _]. by rewrite !length_fmap. }
  assert (Forall (fun i => i < length rows)%nat (seq 0 (length rows - 1))) as HF.
  { apply Forall_seq. lia. }
  revert HF. set (n := length rows). assert (n = length rows) as Hn by done. clearbody n.
  generalize (seq 0 (n - 1)). intros l. revert rows outputs cltvs map H Hn.
  induction l as [|i l IH]; intros rows outputs cltvs map H Hn HF; [done|]. inversion_clear HF as [|? ? Hi HF'].
  cbn [foldl]. rewrite Hn, (find_best_out_rows rows _ _ map), <- Hn by done.
  pose proof (swap_outputs_rows rows _ i _ ltac:(lia) (select_bound rows i ltac:(lia)) H) as H'.
  destruct (swap_outputs _ _ _) as [[o c] m] eqn:E. unfold select at 2. apply IH; [done|by rewrite length_swap_at|done].
Qed.

(** The arrays are permuted together, into the order of BIP 69 with ties broken by
    expiry. *)
Lemma permute_outputs_sorts rows outputs cltvs map : holds_rows rows (outputs, cltvs, map) ->
  exists rows', rows ≡ₚ rows' /\ StronglySorted (before row_better) rows' /\
    holds_rows rows' (permute_outputs outputs cltvs map).
Proof using Type.
  intros H. destruct (selection_sorts row_better (P:=fun _ => True) rows []) as (rows' & E & P & S);
    [by apply Forall_true|]. cbn [app length] in E.
  exists rows'. split; [done|]. split; [done|]. rewrite <- E. by apply permute_outputs_rows.
Qed.
End Rows.

(** ** What the order promises *)

(** The order of BIP 69: by amount, then by script. *)
Definition output_le (a b : bitcoin_tx_output) : Prop := output_cmp b a <> Lt.

#[export] Instance output_le_antisym : AntiSymm (=) output_le.
Proof.
  intros a b. unfold output_le. rewrite (compares_opp (P:=fun _ => True) (cmp:=output_cmp) b a) by done.
  destruct (output_cmp b a) eqn:E; cbn; intros ? ?; try done. symmetry. by apply output_cmp_eq.
Qed.

Lemma row_before_output {M} (a b : row M) : before row_better a b -> output_le a.1.1 b.1.1.
Proof.
  unfold before, row_better, output_le. rewrite (output_better_cmp b.1 a.1). unfold row_cmp.
  by destruct (output_cmp b.1.1 a.1.1).
Qed.

(** The pairs of an output and its expiry are in one order only. *)
Definition ranked_le (a b : bitcoin_tx_output * Z) : Prop := row_cmp b a <> Lt.

#[export] Instance ranked_le_antisym : AntiSymm (=) ranked_le.
Proof.
  intros a b. unfold ranked_le. rewrite (compares_opp (P:=fun _ => True) (cmp:=row_cmp) b a) by done.
  destruct (row_cmp b a) eqn:E; cbn; intros ? ?; try done. symmetry. by apply row_cmp_eq.
Qed.

Lemma row_before_ranked {M} (a b : row M) : before row_better a b -> ranked_le a.1 b.1.
Proof.
  unfold before, row_better, ranked_le. rewrite (output_better_cmp b.1 a.1).
  by destruct (row_cmp b.1 a.1).
Qed.

Lemma StronglySorted_fmap {A B} (f : A -> B) (R : relation A) (Q : relation B) l :
  (forall a b, R a b -> Q (f a) (f b)) -> StronglySorted R l -> StronglySorted Q (f <$> l).
Proof.
  intros H. induction 1 as [|x l S IH F]; cbn; constructor; [done|].
  apply Forall_fmap. eapply Forall_impl; [exact F|]. cbn. auto.
Qed.

(** The array of expiries covers the outputs. *)
Definition covers (cltvs : option (list Z)) (outputs : list bitcoin_tx_output) : Prop :=
  match cltvs with None => True | Some l => (length outputs <= length l)%nat end.

(** Arrays of any contents hold rows. *)
Lemma rows_of {M} outputs cltvs (map : list M) :
  covers cltvs outputs -> length map = length outputs ->
  exists rows, holds_rows rows (outputs, cltvs, Some map).
Proof.
  intros Hc Hm.
  exists (zip (imap (fun i o => (o, cltv_of cltvs i)) outputs) map).
  assert ((imap (fun i o => (o, cltv_of cltvs i)) outputs).*1 = outputs) as E1.
  { apply list_eq. intros i. rewrite list_lookup_fmap, list_lookup_imap. by destruct (outputs !! i). }
  split; [|split].
  - by rewrite fst_zip, E1 by (rewrite length_imap; lia).
  - destruct cltvs as [l|].
    + exists (drop (length outputs) l). rewrite fst_zip by (rewrite length_imap; lia).
      rewrite <- (take_drop (length outputs) l) at 1. f_equal. apply list_eq. intros i.
      rewrite list_lookup_fmap, list_lookup_imap.
      destruct (outputs !! i) as [o|] eqn:E; cbn.
      * apply lookup_lt_Some in E. rewrite lookup_take_lt by done.
        destruct (lookup_lt_is_Some_2 l i) as [c Hc']; [unfold covers in Hc; lia|]. by rewrite Hc'.
      * apply lookup_ge_None in E. by rewrite lookup_take_ge.
    + apply Forall_forall. intros [[o c] m] Hr. cbn.
      apply elem_of_zip_l in Hr. apply list_elem_of_lookup_1 in Hr as [i Hi].
      rewrite list_lookup_imap in Hi. destruct (outputs !! i); by simplify_eq/=.
  - by rewrite snd_zip by (rewrite length_imap; lia).
Qed.

(** The map is only carried along. *)
Lemma permute_outputs_some {M} outputs cltvs (map : list M) :
  is_Some (permute_outputs outputs cltvs (Some map)).2.
Proof.
  unfold permute_outputs. generalize (seq 0 (length outputs - 1)). generalize (length outputs). intros n l.
  revert outputs cltvs map. induction l as [|i l IH]; intros; [by eexists|]. cbn. apply IH.
Qed.

Lemma permute_outputs_map {M N} outputs cltvs (map1 : option (list M)) (map2 : option (list N)) :
  (permute_outputs outputs cltvs map1).1 = (permute_outputs outputs cltvs map2).1.
Proof.
  unfold permute_outputs. generalize (seq 0 (length outputs - 1)). generalize (length outputs). intros n l.
  revert outputs cltvs map1 map2. induction l as [|i l IH]; intros; [done|]. cbn. apply IH.
Qed.

Lemma sorted_outputs {M} outputs cltvs (map : option (list M)) : covers cltvs outputs ->
  let outputs' := (permute_outputs outputs cltvs map).1.1 in
  outputs ≡ₚ outputs' /\ StronglySorted output_le outputs'.
Proof.
  intros Hc. rewrite (permute_outputs_map _ _ map (Some (replicate (length outputs) tt))).
  destruct (rows_of outputs cltvs (replicate (length outputs) tt) Hc) as [rows H];
    [by rewrite length_replicate|].
  destruct (permute_outputs_sorts rows _ _ _ H) as (rows' & P & S & H').
  destruct (permute_outputs outputs cltvs _) as [[o c] m]. destruct H as [-> _], H' as [-> _].
  cbn. split; [by rewrite P|]. rewrite <- list_fmap_compose.
  eapply StronglySorted_fmap; [|exact S]. intros a b. apply row_before_output.
Qed.

(** The outputs of a transaction do not depend on the order they were added in, on the
    expiries or on the map. *)
Lemma outputs_canonical {M N} outputs1 outputs2 cltvs1 cltvs2
    (map1 : option (list M)) (map2 : option (list N)) :
  outputs1 ≡ₚ outputs2 -> covers cltvs1 outputs1 -> covers cltvs2 outputs2 ->
  (permute_outputs outputs1 cltvs1 map1).1.1 = (permute_outputs outputs2 cltvs2 map2).1.1.
Proof.
  intros P C1 C2. destruct (sorted_outputs outputs1 cltvs1 map1 C1) as [P1 S1].
  destruct (sorted_outputs outputs2 cltvs2 map2 C2) as [P2 S2].
  eapply (StronglySorted_unique output_le); [exact S1|exact S2|]. transitivity outputs1; [by symmetry|]. by transitivity outputs2.
Qed.

(** ** Inputs *)
Definition input_le (a b : bitcoin_tx_input) : Prop := input_cmp b a <> Lt.

Lemma permute_inputs_select {M} inputs (map : option (list M)) :
  (permute_inputs inputs map).1 = foldl (select input_better) inputs (seq 0 (length inputs - 1)).
Proof.
  unfold permute_inputs. generalize (seq 0 (length inputs - 1)).
  set (n := length inputs). assert (n = length inputs) as Hn by done. clearbody n. intros l.
  revert inputs map Hn. induction l as [|i l IH]; intros inputs map Hn; [done|]. cbn [foldl].
  unfold swap_inputs at 2. cbn [fst snd]. rewrite IH by (by rewrite length_swap_at). do 2 f_equal.
  unfold find_best_in. by rewrite take_ge by (rewrite length_drop; lia).
Qed.

Lemma sorted_inputs {M} inputs (map : option (list M)) : Forall has_txid inputs ->
  let inputs' := (permute_inputs inputs map).1 in
  inputs ≡ₚ inputs' /\ StronglySorted input_le inputs'.
Proof.
  intros H. rewrite permute_inputs_select.
  destruct (selection_sorts input_better inputs [] H) as (sorted & E & P & S). cbn [app length] in E.
  rewrite E. split; [done|]. assert (Forall has_txid sorted) as H' by (by rewrite <- P).
  clear E P H. induction S as [|x l S IH F]; constructor; inversion_clear H' as [|? ? Hx Hl]; [by apply IH|].
  rewrite Forall_forall in *. intros y Hy. specialize (F y Hy). unfold before in F.
  rewrite input_better_cmp in F by auto. unfold input_le. by destruct (input_cmp y x).
Qed.
