(* ===== verification/CommitTx.v ===== *)
(** * Commitment, HTLC and closing transactions
    (common/initial_commit_tx.c, channeld/commit_tx.c, common/htlc_tx.c, common/close_tx.c)

    How a commitment is built from balances and HTLCs: what it pays, that no output is
    dust, that its outputs are in the order of BIP 69, and that each of its HTLC outputs is
    the one that the transaction for that HTLC spends. *)
From stdpp Require Import sorting.
From S2P Require Import Prelude HtlcState Sha256 Ripemd160 Secp Ecdsa BitcoinTx LnScript KeyDerive Params Htlc Permute.
Local Open Scope Z_scope.

(** ** common/initial_commit_tx.c *)

(** The funder's balance pays, as far as it goes: whether it does, and both balances. *)
Definition try_subtract_fee (funder side : side) (base_fee_msat self_msat other_msat : Z)
    : bool * Z * Z :=
  if side_eqb funder side then
    if base_fee_msat <=? self_msat then (true, self_msat - base_fee_msat, other_msat)
    else (false, 0, other_msat)
  else
    if base_fee_msat <=? other_msat then (true, self_msat, other_msat - base_fee_msat)
    else (false, self_msat, 0).

Section Transactions.
Context `{Secp256k1}.

Definition to_self_wscript (to_self_delay : Z) (keys : keyset) : bytes :=
  bitcoin_wscript_to_local to_self_delay (self_revocation_key keys) (self_delayed_payment_key keys).

(** The output to the owner of the commitment, unless it is dust. *)
Definition to_local_out (to_self_delay : Z) (keys : keyset) (dust_limit_satoshis self_pay_msat : Z)
    : list bitcoin_tx_output :=
  if dust_limit_satoshis <=? self_pay_msat / 1000
  then [TxOutput (self_pay_msat / 1000) (scriptpubkey_p2wsh (to_self_wscript to_self_delay keys))]
  else [].

(** The output to the other side, unless it is dust. *)
Definition to_remote_out (keys : keyset) (dust_limit_satoshis other_pay_msat : Z)
    : list bitcoin_tx_output :=
  if dust_limit_satoshis <=? other_pay_msat / 1000
  then [TxOutput (other_pay_msat / 1000) (scriptpubkey_p2wpkh (other_payment_key keys))]
  else [].

(** The fields filled in after the outputs are sorted; both functions assert the version
    of a new transaction, which is 2. *)
Definition commit_tx_of (funding_txid : bytes) (funding_txout funding_satoshis : Z)
    (obscured_commitment_number : Z) (outputs : list bitcoin_tx_output) : bitcoin_tx :=
  BitcoinTx 2
    [TxInput funding_txid funding_txout None
       (Z.lor 0x80000000 (Z.land (Z.shiftr obscured_commitment_number 24) 0xFFFFFF))
       (Some funding_satoshis) None]
    outputs (Z.lor 0x20000000 (Z.land obscured_commitment_number 0xFFFFFF)).

(** The outer [option] is an assertion, the inner one NULL. *)
Definition initial_commit_tx (funding_txid : bytes) (funding_txout funding_satoshis : Z) (funder : side)
    (to_self_delay : Z) (keys : keyset) (feerate_per_kw dust_limit_satoshis : Z)
    (self_pay_msat other_pay_msat self_reserve_msat obscured_commitment_number : Z) (side : side)
    : option (option bitcoin_tx) :=
  assert! u64 (self_pay_msat + other_pay_msat) <=? u64 (funding_satoshis * 1000);
  let untrimmed := 0 in
  let base_fee_msat := u64 (commit_tx_base_fee feerate_per_kw untrimmed * 1000) in
  let '(affordable, self_pay_msat, other_pay_msat) :=
    try_subtract_fee funder side base_fee_msat self_pay_msat other_pay_msat in
  if negb affordable then Some None
  else if (self_pay_msat <=? self_reserve_msat) && (other_pay_msat <=? self_reserve_msat)
  then Some None
  else
    let outputs := to_local_out to_self_delay keys dust_limit_satoshis self_pay_msat
                   ++ to_remote_out keys dust_limit_satoshis other_pay_msat in
    assert! Z.of_nat (length outputs) <=? untrimmed + 2;
    let '(outputs, _, _) := permute_outputs (M:=unit) outputs None None in
    Some (Some (commit_tx_of funding_txid funding_txout funding_satoshis
                  obscured_commitment_number outputs)).

(** ** common/htlc_tx.c *)

Definition htlc_offered_wscript (ripemd : bytes) (keys : keyset) : bytes :=
  bitcoin_wscript_htlc_offer_ripemd160 (self_htlc_key keys) (other_htlc_key keys) ripemd
    (self_revocation_key keys).

Definition htlc_received_wscript (ripemd : bytes) (expiry : Z) (keys : keyset) : bytes :=
  bitcoin_wscript_htlc_receive_ripemd expiry (self_htlc_key keys) (other_htlc_key keys) ripemd
    (self_revocation_key keys).

Definition htlc_tx (commit_txid : bytes) (commit_output_number msatoshi to_self_delay : Z)
    (revocation_pubkey local_delayedkey : pubkey) (htlc_fee_satoshi locktime : Z) : bitcoin_tx :=
  let amount := msatoshi / 1000 in
  BitcoinTx 2
    [TxInput commit_txid commit_output_number None 0 (Some amount) None]
    [TxOutput (u64 (amount - htlc_fee_satoshi))
       (scriptpubkey_p2wsh (bitcoin_wscript_htlc_tx to_self_delay revocation_pubkey local_delayedkey))]
    locktime.

Definition htlc_success_tx (commit_txid : bytes) (commit_output_number htlc_msatoshi to_self_delay : Z)
    (feerate_per_kw : Z) (keys : keyset) : bitcoin_tx :=
  htlc_tx commit_txid commit_output_number htlc_msatoshi to_self_delay (self_revocation_key keys)
    (self_delayed_payment_key keys) (htlc_success_fee feerate_per_kw) 0.

Definition htlc_timeout_tx (commit_txid : bytes) (commit_output_number htlc_msatoshi cltv_expiry : Z)
    (to_self_delay feerate_per_kw : Z) (keys : keyset) : bitcoin_tx :=
  htlc_tx commit_txid commit_output_number htlc_msatoshi to_self_delay (self_revocation_key keys)
    (self_delayed_payment_key keys) (htlc_timeout_fee feerate_per_kw) cltv_expiry.

(** [tx->input[0].witness = w] *)
Definition set_witness0 (w : list bytes) (tx : bitcoin_tx) : bitcoin_tx :=
  set_input (alter (set_witness (Some w)) 0%nat (input tx)) tx.

Definition htlc_success_tx_add_witness `{!Signatures} (tx : bitcoin_tx) (htlc_abstimeout : Z)
    (localhtlckey remotehtlckey : pubkey) (localhtlcsig remotehtlcsig : signature)
    (payment_preimage : bytes) (revocationkey : pubkey) : option bitcoin_tx :=
  let hash := sha256 payment_preimage in
  let wscript := bitcoin_wscript_htlc_receive htlc_abstimeout localhtlckey remotehtlckey hash revocationkey in
  w ← bitcoin_witness_htlc_success_tx localhtlcsig remotehtlcsig payment_preimage wscript;
  Some (set_witness0 w tx).

Definition htlc_timeout_tx_add_witness `{!Signatures} (tx : bitcoin_tx)
    (localhtlckey remotehtlckey : pubkey) (payment_hash : bytes) (revocationkey : pubkey)
    (localhtlcsig remotehtlcsig : signature) : option bitcoin_tx :=
  let wscript := bitcoin_wscript_htlc_offer localhtlckey remotehtlckey payment_hash revocationkey in
  w ← bitcoin_witness_htlc_timeout_tx localhtlcsig remotehtlcsig wscript;
  Some (set_witness0 w tx).

(** ** channeld/commit_tx.c *)

Definition add_offered_htlc_out (h : htlc) (keys : keyset) : bitcoin_tx_output :=
  let ripemd := ripemd160 (rhash h) in
  TxOutput (msatoshi h / 1000) (scriptpubkey_p2wsh (htlc_offered_wscript ripemd keys)).

Definition add_received_htlc_out (h : htlc) (keys : keyset) : bitcoin_tx_output :=
  let ripemd := ripemd160 (rhash h) in
  TxOutput (msatoshi h / 1000) (scriptpubkey_p2wsh (htlc_received_wscript ripemd (expiry h) keys)).

(** The HTLCs that get an output, those that [side] offered and those it received. *)
Definition offered_htlcs (htlcs : list htlc) (feerate_per_kw dust_limit_satoshis : Z) (side : side)
    : list htlc :=
  List.filter (fun h => side_eqb (htlc_owner h) side
    && negb (trim h feerate_per_kw dust_limit_satoshis side)) htlcs.

Definition received_htlcs (htlcs : list htlc) (feerate_per_kw dust_limit_satoshis : Z) (side : side)
    : list htlc :=
  List.filter (fun h => negb (side_eqb (htlc_owner h) side)
    && negb (trim h feerate_per_kw dust_limit_satoshis side)) htlcs.

(** The transaction and the HTLC behind each of its outputs; [uninit] is what the array of
    expiries holds where nothing is written. *)
Definition commit_tx (uninit : Z * Z) (funding_txid : bytes) (funding_txout funding_satoshis : Z)
    (funder : side) (to_self_delay : Z) (keys : keyset) (feerate_per_kw dust_limit_satoshis : Z)
    (self_pay_msat other_pay_msat : Z) (htlcs : list htlc) (obscured_commitment_number : Z) (side : side)
    : option (bitcoin_tx * list (option htlc)) :=
  assert! u64 (self_pay_msat + other_pay_msat) <=? u64 (funding_satoshis * 1000);
  let untrimmed := commit_tx_num_untrimmed htlcs feerate_per_kw dust_limit_satoshis side in
  let base_fee_msat := u64 (commit_tx_base_fee feerate_per_kw untrimmed * 1000) in
  let '(_, self_pay_msat, other_pay_msat) :=
    try_subtract_fee funder side base_fee_msat self_pay_msat other_pay_msat in
  let offered := offered_htlcs htlcs feerate_per_kw dust_limit_satoshis side in
  let received := received_htlcs htlcs feerate_per_kw dust_limit_satoshis side in
  cltvs ← mapM (fun h => abs_locktime_to_blocks (expiry h)) (offered ++ received);
  let to_local := to_local_out to_self_delay keys dust_limit_satoshis self_pay_msat in
  let to_remote := to_remote_out keys dust_limit_satoshis other_pay_msat in
  let outputs := ((fun h => add_offered_htlc_out h keys) <$> offered)
                 ++ ((fun h => add_received_htlc_out h keys) <$> received) ++ to_local ++ to_remote in
  let htlcmap := (Some <$> (offered ++ received)) ++ ((fun _ => None) <$> (to_local ++ to_remote)) in
  assert! Z.of_nat (length outputs) <=? untrimmed + 2;
  let '(outputs, _, htlcmap) :=
    permute_outputs outputs (Some (cltvs ++ [uninit.1; uninit.2])) (Some htlcmap) in
  Some (commit_tx_of funding_txid funding_txout funding_satoshis obscured_commitment_number outputs,
        default [] htlcmap).

(** ** common/close_tx.c; the outer [option] is the assertion, the inner one NULL. *)
Definition create_close_tx (our_script their_script anchor_txid : bytes)
    (anchor_index anchor_satoshis to_us to_them dust_limit : Z) : option (option bitcoin_tx) :=
  assert! u64 (to_us + to_them) <=? anchor_satoshis;
  let outputs := (if dust_limit <=? to_us then [TxOutput to_us our_script] else [])
                 ++ (if dust_limit <=? to_them then [TxOutput to_them their_script] else []) in
  match outputs with
  | [] => Some None
  | _ =>
      let '(outputs, _, _) := permute_outputs (M:=unit) outputs None None in
      Some (Some (BitcoinTx 2
        [TxInput anchor_txid anchor_index None 0xFFFFFFFF (Some anchor_satoshis) None] outputs 0))
  end.

(** ** What a commitment holds *)

(** The output for an HTLC in the commitment of [side]. *)
Definition htlc_out (side : side) (keys : keyset) (h : htlc) : bitcoin_tx_output :=
  if side_eqb (htlc_owner h) side then add_offered_htlc_out h keys else add_received_htlc_out h keys.

(** The rows of a commitment before they are sorted. *)
Definition commit_rows (uninit : Z * Z) (to_self_delay : Z) (keys : keyset) (feerate_per_kw dust : Z)
    (self_pay_msat other_pay_msat : Z) (htlcs : list htlc) (side : side) : list (row (option htlc)) :=
  ((fun h => (htlc_out side keys h, expiry h, Some h)) <$>
     offered_htlcs htlcs feerate_per_kw dust side ++ received_htlcs htlcs feerate_per_kw dust side)
  ++ zip_with (fun o c => (o, c, None))
       (to_local_out to_self_delay keys dust self_pay_msat ++ to_remote_out keys dust other_pay_msat)
       [uninit.1; uninit.2].

Section Facts.
Context (uninit : Z * Z) (funding_txid : bytes) (funding_txout funding_satoshis : Z) (funder : side).
Context (to_self_delay : Z) (keys : keyset) (feerate dust : Z).
Context (self_pay_msat other_pay_msat : Z) (htlcs : list htlc) (obscured : Z) (side : side).

Notation offered := (offered_htlcs htlcs feerate dust side).
Notation received := (received_htlcs htlcs feerate dust side).

Definition base_fee : Z :=
  u64 (commit_tx_base_fee feerate (commit_tx_num_untrimmed htlcs feerate dust side) * 1000).

Definition paid_self : Z := (try_subtract_fee funder side base_fee self_pay_msat other_pay_msat).1.2.
Definition paid_other : Z := (try_subtract_fee funder side base_fee self_pay_msat other_pay_msat).2.

Notation rows := (commit_rows uninit to_self_delay keys feerate dust paid_self paid_other htlcs side).

Lemma num_untrimmed_split :
  commit_tx_num_untrimmed htlcs feerate dust side = Z.of_nat (length (offered ++ received)).
Proof using Type.
  unfold commit_tx_num_untrimmed, offered_htlcs, received_htlcs. f_equal. rewrite length_app.
  induction htlcs as [|h l IH]; [done|]. cbn [List.filter].
  destruct (side_eqb (htlc_owner h) side), (trim h feerate dust side); cbn; lia.
Qed.

Lemma to_outs_length self other' :
  (length (to_local_out to_self_delay keys dust self ++ to_remote_out keys dust other') <= 2)%nat.
Proof using Type. unfold to_local_out, to_remote_out. by repeat case_match; cbn; lia. Qed.

Lemma offered_owner : Forall (fun h => side_eqb (htlc_owner h) side = true) offered.
Proof using Type.
  apply List.Forall_forall. intros h [_ Hh]%filter_In. by apply andb_true_iff in Hh as [? _].
Qed.

Lemma received_owner : Forall (fun h => side_eqb (htlc_owner h) side = false) received.
Proof using Type.
  apply List.Forall_forall. intros h [_ Hh]%filter_In. apply andb_true_iff in Hh as [? _]. by destruct (side_eqb _ _).
Qed.

Lemma htlc_outs :
  ((fun h => add_offered_htlc_out h keys) <$> offered) ++ ((fun h => add_received_htlc_out h keys) <$> received)
  = htlc_out side keys <$> offered ++ received.
Proof using Type.
  rewrite fmap_app. f_equal; apply list_fmap_ext; intros i h Hh; unfold htlc_out.
  - by rewrite (Forall_lookup_1 _ _ _ _ offered_owner Hh).
  - by rewrite (Forall_lookup_1 _ _ _ _ received_owner Hh).
Qed.

(** The loop writes the rows, whatever the unwritten expiries are. *)
Lemma commit_rows_hold cltvs : cltvs = expiry <$> offered ++ received ->
  holds_rows rows
    (((fun h => add_offered_htlc_out h keys) <$> offered)
       ++ ((fun h => add_received_htlc_out h keys) <$> received)
       ++ to_local_out to_self_delay keys dust paid_self ++ to_remote_out keys dust paid_other,
     Some (cltvs ++ [uninit.1; uninit.2]),
     Some ((Some <$> (offered ++ received))
       ++ ((fun _ => None) <$> (to_local_out to_self_delay keys dust paid_self ++ to_remote_out keys dust paid_other)))).
Proof using Type.
  intros ->. unfold commit_rows. rewrite (app_assoc (_ <$> offered)), htlc_outs.
  pose proof (to_outs_length paid_self paid_other) as Hl. revert Hl.
  generalize (to_local_out to_self_delay keys dust paid_self ++ to_remote_out keys dust paid_other).
  generalize (offered ++ received). intros hs outs Hl. unfold holds_rows.
  rewrite !fmap_app, <- !list_fmap_compose. split; [|split].
  - f_equal. destruct outs as [|o1 [|o2 [|? ?]]]; cbn in *; try done; lia.
  - exists (drop (length outs) [uninit.1; uninit.2]). rewrite <- app_assoc. f_equal.
    destruct outs as [|o1 [|o2 [|? ?]]]; cbn in *; try done; lia.
  - f_equal. destruct outs as [|o1 [|o2 [|? ?]]]; cbn in *; try done; lia.
Qed.

(** Expiries are heights. *)
Definition heights (l : list htlc) : Prop := Forall (fun h => expiry h < SECONDS_POINT) l.

Lemma untrimmed_in h : h ∈ offered ++ received -> h ∈ htlcs.
Proof using Type.
  rewrite elem_of_app, !list_elem_of_In. by intros [[? _]%filter_In|[? _]%filter_In].
Qed.

Lemma cltvs_of : heights htlcs ->
  mapM (fun h => abs_locktime_to_blocks (expiry h)) (offered ++ received) = Some (expiry <$> offered ++ received).
Proof using Type.
  unfold heights. intros Hh. assert (Forall (fun h => expiry h < SECONDS_POINT) (offered ++ received)) as Hh'.
  { rewrite Forall_forall in *. intros h Hin. by apply Hh, untrimmed_in. }
  clear Hh. induction Hh' as [|h l Hx _ IH]; [done|]. cbn. rewrite IH.
  unfold abs_locktime_to_blocks, abs_locktime_is_seconds, abs_is_seconds.
  by rewrite (proj2 (Z.leb_gt _ _) Hx).
Qed.

(** The commitment is built, and it is its rows in order. *)
Lemma commit_tx_spec :
  u64 (self_pay_msat + other_pay_msat) <= u64 (funding_satoshis * 1000) -> heights htlcs ->
  exists sorted, rows ≡ₚ sorted /\ StronglySorted (before row_better) sorted /\
    commit_tx uninit funding_txid funding_txout funding_satoshis funder to_self_delay keys feerate dust
      self_pay_msat other_pay_msat htlcs obscured side =
    Some (commit_tx_of funding_txid funding_txout funding_satoshis obscured sorted.*1.*1, sorted.*2).
Proof using Type.
  intros Hpay Hh. destruct (permute_outputs_sorts _ _ _ _ (commit_rows_hold _ eq_refl)) as (sorted & P & S & R).
  exists sorted. split; [done|]. split; [done|]. unfold commit_tx.
  rewrite (proj2 (Z.leb_le _ _) Hpay). cbn [c_assert mbind option_bind]. fold base_fee.
  destruct (try_subtract_fee funder side base_fee self_pay_msat other_pay_msat) as [[ok self] other'] eqn:E.
  assert (self = paid_self /\ other' = paid_other) as [-> ->] by (unfold paid_self, paid_other; by rewrite E).
  rewrite cltvs_of by done. cbn [mbind option_bind].
  rewrite (proj2 (Z.leb_le _ _)).
  2:{ rewrite num_untrimmed_split. rewrite (app_assoc (_ <$> offered)), htlc_outs, length_app, length_fmap.
      pose proof (to_outs_length paid_self paid_other). lia. }
  cbn [c_assert mbind option_bind].
  match type of R with holds_rows _ (permute_outputs ?o ?c (Some ?m)) =>
    pose proof (permute_outputs_some o c m) as [m' Hm'] end.
  destruct (permute_outputs _ _ _) as [[o c] m]. cbn in Hm'. subst m. destruct R as (-> & _ & ->). done.
Qed.

(** ** Amounts *)

(** What the funder's balance pays of the fee. *)
Definition funder_pays : Z :=
  Z.min base_fee (if side_eqb funder side then self_pay_msat else other_pay_msat).

Lemma base_fee_nonneg : 0 <= base_fee.
Proof using Type. unfold base_fee. apply u64_fits. Qed.

Lemma fee_subtracted : 0 <= self_pay_msat -> 0 <= other_pay_msat ->
  0 <= paid_self /\ 0 <= paid_other /\ paid_self + paid_other + funder_pays = self_pay_msat + other_pay_msat.
Proof using Type.
  intros Hs Ho. pose proof base_fee_nonneg. unfold paid_self, paid_other, funder_pays, try_subtract_fee.
  destruct (side_eqb funder side); case_match; cbn; lia.
Qed.

Lemma untrimmed_sum : Forall (fun h => 0 <= msatoshi h) htlcs ->
  zsum msatoshi (offered ++ received) <= zsum msatoshi htlcs.
Proof using Type.
  unfold offered_htlcs, received_htlcs. rewrite zsum_app.
  induction 1 as [|h l Hx _ IH]; [done|]. cbn [List.filter].
  destruct (side_eqb (htlc_owner h) side), (trim h feerate dust side); cbn [negb andb];
    rewrite ?zsum_cons; lia.
Qed.

Definition row_amount (r : row (option htlc)) : Z := out_amount r.1.1.

Lemma htlc_out_amount h : out_amount (htlc_out side keys h) = msatoshi h / 1000.
Proof using Type. unfold htlc_out. by destruct (side_eqb _ _). Qed.

Lemma rows_amount : 0 <= self_pay_msat -> 0 <= other_pay_msat -> Forall (fun h => 0 <= msatoshi h) htlcs ->
  1000 * zsum row_amount rows + funder_pays <= self_pay_msat + other_pay_msat + zsum msatoshi htlcs.
Proof using Type.
  intros Hs Ho Hh. destruct (fee_subtracted Hs Ho) as (Ps & Po & E).
  pose proof (untrimmed_sum Hh) as U.
  unfold commit_rows. rewrite zsum_app, zsum_map.
  assert (1000 * zsum (fun h => row_amount (htlc_out side keys h, expiry h, Some h)) (offered ++ received)
          <= zsum msatoshi (offered ++ received)) as A.
  { clear. generalize (offered ++ received). intros l. induction l as [|h l IH]; [done|].
    rewrite !zsum_cons. unfold row_amount at 1. cbn [fst]. rewrite htlc_out_amount. pose proof (Z.mul_div_le (msatoshi h) 1000). lia. }
  assert (1000 * zsum row_amount (zip_with (fun o c => (o, c, None))
    (to_local_out to_self_delay keys dust paid_self ++ to_remote_out keys dust paid_other) [uninit.1; uninit.2])
    <= paid_self + paid_other) as B; [|lia].
  pose proof (Z.mul_div_le paid_self 1000). pose proof (Z.mul_div_le paid_other 1000).
  unfold to_local_out, to_remote_out. repeat case_match; cbn [app zip_with]; rewrite ?zsum_cons; unfold row_amount; cbn [out_amount fst];
    change (zsum _ []) with 0; lia.
Qed.

(** Nothing is paid that is below the dust limit. *)
Lemma htlc_fees_bound s : fits 32 feerate ->
  0 <= (if side_eqb s side then htlc_timeout_fee feerate else htlc_success_fee feerate) < 2 ^ 60.
Proof using Type.
  intros Hf. unfold htlc_timeout_fee, htlc_success_fee. unfold fits in Hf. eval_pow2.
  rewrite !u64_small by (unfold fits; eval_pow2; lia).
  destruct (side_eqb s side); (split; [apply Z.div_pos; lia|apply Z.div_lt_upper_bound; lia]).
Qed.

Lemma untrimmed_worth h : fits 32 feerate -> fits 60 dust -> h ∈ offered ++ received ->
  dust + (if side_eqb (htlc_owner h) side then htlc_timeout_fee feerate else htlc_success_fee feerate)
  <= msatoshi h / 1000.
Proof using Type.
  intros Hf Hd Hin. pose proof (htlc_fees_bound (htlc_owner h) Hf) as B.
  assert (trim h feerate dust side = false) as T.
  { apply list_elem_of_In, in_app_iff in Hin as [[_ Hx]%filter_In|[_ Hx]%filter_In];
      apply andb_true_iff in Hx as [_ Hx]; by destruct (trim _ _ _ _). }
  revert T. unfold trim. cbv zeta. intros T%Z.ltb_ge.
  unfold fits in Hd. rewrite u64_small in T; [done|]. unfold fits. eval_pow2. lia.
Qed.

Lemma rows_not_dust : fits 32 feerate -> fits 60 dust -> Forall (fun r => dust <= row_amount r) rows.
Proof using Type.
  intros Hf Hd. unfold commit_rows. apply Forall_app. split.
  - apply Forall_fmap, Forall_forall. intros h Hin. unfold row_amount. cbn. rewrite htlc_out_amount.
    pose proof (untrimmed_worth h Hf Hd Hin). pose proof (htlc_fees_bound (htlc_owner h) Hf). lia.
  - unfold to_local_out, to_remote_out, row_amount. repeat case_match; bprop; repeat constructor; cbn; lia.
Qed.
End Facts.

(** The HTLCs of the rows. *)
Lemma rows_htlc uninit delay keys feerate dust self other' htlcs side o c h :
  (o, c, Some h) ∈ commit_rows uninit delay keys feerate dust self other' htlcs side <->
  h ∈ offered_htlcs htlcs feerate dust side ++ received_htlcs htlcs feerate dust side /\
  o = htlc_out side keys h /\ c = expiry h.
Proof.
  unfold commit_rows. rewrite elem_of_app, list_elem_of_fmap. split.
  - intros [(h' & E & Hin)|Hin]; [by simplify_eq|].
    apply list_elem_of_lookup_1 in Hin as [i Hi]. apply lookup_zip_with_Some in Hi as (? & ? & ? & _). done.
  - intros (Hin & -> & ->). left. by exists h.
Qed.

(** The mutual close is fair and agreed: with amounts that fit the funding, the
    transaction pays each side its amount unless that is dust, in the order of BIP 69,
    and both sides build the same one; there is none when both amounts are dust. *)
Lemma close_tx_agreed our their txid index satoshis to_us to_them dust :
  0 <= to_us -> 0 <= to_them -> to_us + to_them <= satoshis -> fits 64 satoshis ->
  create_close_tx our their txid index satoshis to_us to_them dust =
  create_close_tx their our txid index satoshis to_them to_us dust /\
  (to_us < dust -> to_them < dust ->
     create_close_tx our their txid index satoshis to_us to_them dust = Some None) /\
  (dust <= to_us \/ dust <= to_them ->
     exists tx, create_close_tx our their txid index satoshis to_us to_them dust = Some (Some tx) /\
       tx = BitcoinTx 2 [TxInput txid index None 0xFFFFFFFF (Some satoshis) None] (output tx) 0 /\
       StronglySorted output_le (output tx) /\ zsum out_amount (output tx) <= satoshis /\
       output tx ≡ₚ filter (fun o => dust <= out_amount o) [TxOutput to_us our; TxOutput to_them their]).
Proof.
  intros Hu Ht Hs Hf. unfold fits in Hf.
  assert (forall a b sa sb, 0 <= a -> 0 <= b -> a + b <= satoshis ->
    let outs := filter (fun o => dust <= out_amount o) [TxOutput a sa; TxOutput b sb] in
    create_close_tx sa sb txid index satoshis a b dust =
    match outs with [] => Some None | _ => Some (Some (BitcoinTx 2
      [TxInput txid index None 0xFFFFFFFF (Some satoshis) None]
      (permute_outputs (M:=unit) outs None None).1.1 0)) end) as E.
  { intros a b sa sb Ha Hb Hab outs. unfold create_close_tx.
    rewrite (u64_small (a + b)) by (unfold fits; lia). rewrite (proj2 (Z.leb_le _ _) Hab). cbn [c_assert mbind option_bind].
    assert (outs = (if dust <=? a then [TxOutput a sa] else []) ++ (if dust <=? b then [TxOutput b sb] else [])) as <-.
    { unfold outs. rewrite !filter_cons, filter_nil. cbn [out_amount].
      destruct (Z.leb_spec dust a), (Z.leb_spec dust b); repeat case_decide; try done; lia. }
    destruct outs as [|o l]; [done|]. destruct (permute_outputs _ _ _) as [[? ?] ?]. done. }
  rewrite (E to_us to_them our their), (E to_them to_us their our) by lia. cbv zeta.
  assert (filter (fun o => dust <= out_amount o) [TxOutput to_us our; TxOutput to_them their] ≡ₚ
          filter (fun o => dust <= out_amount o) [TxOutput to_them their; TxOutput to_us our]) as P.
  { apply filter_Permutation. constructor. }
  split; [|split].
  - pose proof (outputs_canonical (M:=unit) (N:=unit) _ _ None None None None P I I) as C.
    destruct (filter _ [TxOutput to_us our; _]), (filter _ [TxOutput to_them their; _]); try done.
    + by apply Permutation_nil_cons in P.
    + symmetry in P. by apply Permutation_nil_cons in P.
    + by rewrite C.
  - intros Du Dt. rewrite !filter_cons, filter_nil. cbn [out_amount]. repeat case_decide; try done; lia.
  - intros D. set (outs := filter _ _) in *.
    destruct (sorted_outputs (M:=unit) outs None None I) as [S1 S2].
    assert (outs <> []) as Ne.
    { unfold outs. rewrite !filter_cons, filter_nil. cbn [out_amount]. repeat case_decide; try done; lia. }
    exists (BitcoinTx 2 [TxInput txid index None 0xFFFFFFFF (Some satoshis) None]
      (permute_outputs (M:=unit) outs None None).1.1 0).
    split; [clearbody outs; by destruct outs|].
    cbn [output]. split; [done|]. split; [done|]. split; [|by symmetry]. rewrite <- S1. unfold outs.
    rewrite !filter_cons, filter_nil. repeat case_decide; rewrite ?zsum_cons; cbn; change (zsum _ []) with 0; lia.
Qed.
End Transactions.
