(* ===== verification/Channel.v ===== *)
(** * The channel state machine

    struct channel (src/lightning/common/initial_channel.h), its construction
    (src/lightning/common/initial_channel.c) and every operation of
    src/lightning/channeld/full_channel.c that changes it. The transactions built from
    it are in [ChannelTxs]. *)
From S2P Require Import Prelude HtlcState Sha256 Secp KeyDerive Params Htlc.
Local Open Scope Z_scope.

Record channel_view := ChannelView { feerate_per_kw : Z; owed_msat : sided Z }.

(** What channels rely on of the hash table of HTLCs (HTABLE_DEFINE_TYPE): a table is the
    list of its elements in iteration order; adding one may reorder the rest. *)
Class HtlcTable := {
  htlc_map_add : list htlc -> htlc -> list htlc;
  htlc_map_add_perm l h : htlc_map_add l h ≡ₚ h :: l
}.

(** The table that keeps insertion order. *)
Module InOrder.
#[export, refine] Instance table : HtlcTable := {| htlc_map_add l h := l ++ [h] |}.
Proof. intros. symmetry. apply Permutation_cons_append. Defined.
End InOrder.

Inductive channel_add_err :=
  | CHANNEL_ERR_ADD_OK
  | CHANNEL_ERR_INVALID_EXPIRY
  | CHANNEL_ERR_DUPLICATE
  | CHANNEL_ERR_DUPLICATE_ID_DIFFERENT
  | CHANNEL_ERR_MAX_HTLC_VALUE_EXCEEDED
  | CHANNEL_ERR_CHANNEL_CAPACITY_EXCEEDED
  | CHANNEL_ERR_HTLC_BELOW_MINIMUM
  | CHANNEL_ERR_TOO_MANY_HTLCS.

Inductive channel_remove_err :=
  | CHANNEL_ERR_REMOVE_OK
  | CHANNEL_ERR_NO_SUCH_ID
  | CHANNEL_ERR_ALREADY_FULFILLED
  | CHANNEL_ERR_BAD_PREIMAGE
  | CHANNEL_ERR_HTLC_UNCOMMITTED
  | CHANNEL_ERR_HTLC_NOT_IRREVOCABLE.

#[global] Instance channel_add_err_eq_dec : EqDecision channel_add_err.
Proof. solve_decision. Defined.

#[global] Instance channel_remove_err_eq_dec : EqDecision channel_remove_err.
Proof. solve_decision. Defined.

(** htlc_wire.h: what is handed to [channel_force_htlcs]. *)
Record added_htlc := AddedHtlc {
  a_id : Z;
  amount_msat : Z;
  payment_hash : bytes;
  cltv_expiry : Z;
  onion_routing_packet : bytes
}.

Record fulfilled_htlc := FulfilledHtlc { f_id : Z; payment_preimage : bytes }.

Record failed_htlc := FailedHtlc {
  x_id : Z;
  x_failcode : Z;
  x_scid : option Z;
  failreason : option bytes
}.

Section Channel.
Context `{Secp256k1}.

Record channel := Channel {
  funding_txid : bytes;
  funding_txout : Z;
  funding_pubkey : sided pubkey;
  funding_msat : Z;
  funder : side;
  config : sided channel_config;
  channel_basepoints : sided basepoints;
  commitment_number_obscurer : Z;
  htlcs : option (list htlc);
  changes_pending : sided bool;
  view : sided channel_view;
  channel_params : chainparams
}.

Definition set_htlcs (l : list htlc) (c : channel) : channel :=
  Channel (funding_txid c) (funding_txout c) (funding_pubkey c) (funding_msat c) (funder c)
    (config c) (channel_basepoints c) (commitment_number_obscurer c) (Some l)
    (changes_pending c) (view c) (channel_params c).

Definition set_pending (s : side) (b : bool) (c : channel) : channel :=
  Channel (funding_txid c) (funding_txout c) (funding_pubkey c) (funding_msat c) (funder c)
    (config c) (channel_basepoints c) (commitment_number_obscurer c) (htlcs c)
    (set_side s b (changes_pending c)) (view c) (channel_params c).

Definition set_view (v : sided channel_view) (c : channel) : channel :=
  Channel (funding_txid c) (funding_txout c) (funding_pubkey c) (funding_msat c) (funder c)
    (config c) (channel_basepoints c) (commitment_number_obscurer c) (htlcs c)
    (changes_pending c) v (channel_params c).

(** [channel->view[s].feerate_per_kw = rate] *)
Definition set_feerate (s : side) (rate : Z) (c : channel) : channel :=
  set_view (set_side s (ChannelView rate (owed_msat (at_side (view c) s))) (view c)) c.

Definition channel_reserve_msat (c : channel) (s : side) : Z :=
  u64 (channel_reserve_satoshis (at_side (config c) (other s)) * 1000).

(** initial_commit_tx.c: the lower 48 bits of the hash of both payment basepoints. *)
Definition commit_number_obscurer (opener accepter : pubkey) : Z :=
  let sha := sha256 (pubkey_to_der opener ++ pubkey_to_der accepter) in
  be_val ([0; 0] ++ drop 26 sha).

(** ** Construction; [None] is NULL. *)
Definition new_initial_channel (chain_hash : bytes) (funding_txid : bytes) (funding_txout : Z)
    (funding_satoshis local_msatoshi feerate : Z) (local remote : channel_config)
    (local_basepoints remote_basepoints : basepoints)
    (local_funding_pubkey remote_funding_pubkey : pubkey) (funder : side) : option channel :=
  if (2 ^ 64 - 1) / 1000 <? funding_satoshis then None
  else
    let funding_msat := u64 (funding_satoshis * 1000) in
    if funding_msat <? local_msatoshi then None
    else
      let owed := Sided local_msatoshi (u64 (funding_msat - local_msatoshi)) in
      let bps := Sided local_basepoints remote_basepoints in
      match chainparams_by_chainhash chain_hash with
      | None => None
      | Some params =>
          Some (Channel funding_txid funding_txout
                  (Sided local_funding_pubkey remote_funding_pubkey) funding_msat funder
                  (Sided local remote) bps
                  (commit_number_obscurer (payment (at_side bps funder))
                     (payment (at_side bps (other funder))))
                  None (Sided false false)
                  (Sided (ChannelView feerate owed) (ChannelView feerate owed)) params)
      end.

Definition new_full_channel (chain_hash : bytes) (funding_txid : bytes) (funding_txout : Z)
    (funding_satoshis local_msatoshi : Z) (feerates : sided Z) (local remote : channel_config)
    (local_basepoints remote_basepoints : basepoints)
    (local_funding_pubkey remote_funding_pubkey : pubkey) (funder : side) : option channel :=
  match new_initial_channel chain_hash funding_txid funding_txout funding_satoshis local_msatoshi
          (at_side feerates LOCAL) local remote local_basepoints remote_basepoints
          local_funding_pubkey remote_funding_pubkey funder with
  | None => None
  | Some c => Some (set_htlcs [] (set_feerate REMOTE (at_side feerates REMOTE) c))
  end.

(** ** Reading the table *)

(** The committed HTLCs of a side, those of them being removed, and those being added.
    (The output pointers a caller passes as NULL are the results it ignores.) *)
Fixpoint gather (s : side) (l : list htlc) : list htlc * list htlc * list htlc :=
  match l with
  | [] => ([], [], [])
  | h :: l =>
      let '(committed, removing, adding) := gather s l in
      if htlc_has h (HTLC_FLAG s HTLC_F_COMMITTED) then
        (h :: committed,
         if htlc_has h (HTLC_FLAG s HTLC_F_PENDING) then h :: removing else removing,
         adding)
      else if htlc_has h (HTLC_FLAG s HTLC_F_PENDING) then (committed, removing, h :: adding)
      else (committed, removing, adding)
  end.

Definition gather_htlcs (c : channel) (s : side) : list htlc * list htlc * list htlc :=
  match htlcs c with None => ([], [], []) | Some l => gather s l end.

Definition num_channel_htlcs (c : channel) : option nat :=
  l ← htlcs c; Some (length (List.filter (fun h => negb (htlc_is_dead h)) l)).

Definition channel_get_htlc (c : channel) (sender : side) (i : Z) : option (option (nat * htlc)) :=
  l ← htlcs c; Some (htlc_get l i sender).

Definition channel_feerate (c : channel) (s : side) : Z := feerate_per_kw (at_side (view c) s).

(** ** Adding an HTLC *)
Context `{HtlcTable}.

(** [balance_msat += ...] over an array, in signed 64-bit arithmetic. *)
Definition add_balances (f : htlc -> Z) (balance_msat : Z) (l : list htlc) : Z :=
  foldl (fun b h => s64 (b + f h)) balance_msat l.

(** What the commitment transaction of the recipient would cost the sender. *)
Definition add_fee (c : channel) (h : htlc) (recipient : side)
    (committed removing adding : list htlc) : Z :=
  if side_eqb (funder c) (htlc_owner h) then
    let feerate := feerate_per_kw (at_side (view c) recipient) in
    let dust := dust_limit_satoshis (at_side (config c) recipient) in
    let untrimmed :=
      u64 (commit_tx_num_untrimmed committed feerate dust recipient
           + commit_tx_num_untrimmed adding feerate dust recipient
           - commit_tx_num_untrimmed removing feerate dust recipient) in
    s64 (commit_tx_base_fee feerate untrimmed)
  else 0.

(** Sets [changes_pending] where the state has the pending flag. *)
Definition mark_pending (st : htlc_state) (c : channel) : channel :=
  let c := if has_flag (htlc_state_flags st) HTLC_LOCAL_F_PENDING
           then set_pending LOCAL true c else c in
  if has_flag (htlc_state_flags st) HTLC_REMOTE_F_PENDING
  then set_pending REMOTE true c else c.

Definition add_htlc (c : channel) (st : htlc_state) (id' msatoshi' cltv_expiry' : Z)
    (payment_hash' routing' : bytes) (enforce_aggregate_limits : bool)
  : option (channel * channel_add_err) :=
  let sender := htlc_state_owner st in
  let recipient := other sender in
  match blocks_to_abs_locktime cltv_expiry' with
  | None => Some (c, CHANNEL_ERR_INVALID_EXPIRY)
  | Some expiry' =>
  let h := Htlc st id' msatoshi' expiry' payment_hash' None None routing' None 0 None in
  l ← htlcs c;
  match htlc_get l id' (htlc_owner h) with
  | Some (_, old) =>
      if negb (htlc_state_eqb (state old) (state h)) || negb (msatoshi old =? msatoshi h)
         || negb (expiry old =? expiry h) || negb (bool_decide (rhash old = rhash h))
      then Some (c, CHANNEL_ERR_DUPLICATE_ID_DIFFERENT)
      else Some (c, CHANNEL_ERR_DUPLICATE)
  | None =>
  if msatoshi h =? 0 then Some (c, CHANNEL_ERR_HTLC_BELOW_MINIMUM)
  else if msatoshi h <? htlc_minimum_msat (at_side (config c) recipient)
  then Some (c, CHANNEL_ERR_HTLC_BELOW_MINIMUM)
  else if max_payment_msat (channel_params c) <? msatoshi h
  then Some (c, CHANNEL_ERR_MAX_HTLC_VALUE_EXCEEDED)
  else
  let '(committed, removing, adding) := gather_htlcs c recipient in
  let adding := adding ++ [h] in
  if enforce_aggregate_limits
     && (max_accepted_htlcs (at_side (config c) recipient)
         <? u64 (Z.of_nat (length committed) - Z.of_nat (length removing)
                 + Z.of_nat (length adding)))
  then Some (c, CHANNEL_ERR_TOO_MANY_HTLCS)
  else
  let msat_in_htlcs :=
    s64 (total_offered_msatoshis committed (htlc_owner h)
         - total_offered_msatoshis removing (htlc_owner h)
         + total_offered_msatoshis adding (htlc_owner h)) in
  if enforce_aggregate_limits
     && (max_htlc_value_in_flight_msat (at_side (config c) recipient) <? u64 msat_in_htlcs)
  then Some (c, CHANNEL_ERR_MAX_HTLC_VALUE_EXCEEDED)
  else
  let fee_msat := add_fee c h recipient committed removing adding in
  assert! 0 <=? fee_msat;
  let balance_msat := s64 (at_side (owed_msat (at_side (view c) recipient)) sender) in
  assert! 0 <=? balance_msat;
  let balance_msat := add_balances (fun h => balance_removing_htlc h sender) balance_msat removing in
  assert! 0 <=? balance_msat;
  let balance_msat := add_balances (fun h => balance_adding_htlc h sender) balance_msat adding in
  if enforce_aggregate_limits
     && (s64 (balance_msat - fee_msat) <? s64 (channel_reserve_msat c sender))
  then Some (c, CHANNEL_ERR_CHANNEL_CAPACITY_EXCEEDED)
  else
  Some (mark_pending (state h) (set_htlcs (htlc_map_add l h) c), CHANNEL_ERR_ADD_OK)
  end end.

Definition channel_add_htlc (c : channel) (sender : side) (id' msatoshi' cltv_expiry' : Z)
    (payment_hash' routing' : bytes) : option (channel * channel_add_err) :=
  let st := match sender with LOCAL => SENT_ADD_HTLC | REMOTE => RCVD_ADD_HTLC end in
  add_htlc c st id' msatoshi' cltv_expiry' payment_hash' routing' true.

(** ** Removing an HTLC *)

(** The state an irrevocably committed HTLC goes to when its removal is proposed. *)
Definition remove_state (st : htlc_state) : option htlc_state :=
  if htlc_state_eqb st SENT_ADD_ACK_REVOCATION then Some RCVD_REMOVE_HTLC
  else if htlc_state_eqb st RCVD_ADD_ACK_REVOCATION then Some SENT_REMOVE_HTLC
  else None.

(** An abort is [None]; note that an error after the preimage check leaves it set. *)
Definition channel_fulfill_htlc (c : channel) (owner : side) (i : Z) (preimage : bytes)
  : option (channel * channel_remove_err) :=
  l ← htlcs c;
  match htlc_get l i owner with
  | None => Some (c, CHANNEL_ERR_NO_SUCH_ID)
  | Some (n, h) =>
      if bool_decide (is_Some (r h)) then Some (c, CHANNEL_ERR_ALREADY_FULFILLED)
      else if negb (bool_decide (sha256 preimage = rhash h)) then Some (c, CHANNEL_ERR_BAD_PREIMAGE)
      else
      let h := set_r preimage h in
      let c := set_htlcs (<[n := h]> l) c in
      if negb (htlc_has h (HTLC_FLAG (other (htlc_owner h)) HTLC_F_COMMITTED))
      then Some (c, CHANNEL_ERR_HTLC_UNCOMMITTED)
      else match remove_state (state h) with
           | None => Some (c, CHANNEL_ERR_HTLC_NOT_IRREVOCABLE)
           | Some st =>
               Some (set_pending owner true (set_htlcs (<[n := set_state st h]> l) c),
                     CHANNEL_ERR_REMOVE_OK)
           end
  end.

Definition channel_fail_htlc (c : channel) (owner : side) (i : Z)
  : option (channel * channel_remove_err) :=
  l ← htlcs c;
  match htlc_get l i owner with
  | None => Some (c, CHANNEL_ERR_NO_SUCH_ID)
  | Some (n, h) =>
      if negb (htlc_has h (HTLC_FLAG (other (htlc_owner h)) HTLC_F_COMMITTED))
      then Some (c, CHANNEL_ERR_HTLC_UNCOMMITTED)
      else match remove_state (state h) with
           | None => Some (c, CHANNEL_ERR_HTLC_NOT_IRREVOCABLE)
           | Some st =>
               Some (set_pending owner true (set_htlcs (<[n := set_state st h]> l) c),
                     CHANNEL_ERR_REMOVE_OK)
           end
  end.

(** ** Commitments and revocations *)

(** Adds to what a view says each side is owed. *)
Definition owe (f : side -> Z) (v : channel_view) : channel_view :=
  ChannelView (feerate_per_kw v)
    (Sided (u64 (at_side (owed_msat v) LOCAL + f LOCAL))
           (u64 (at_side (owed_msat v) REMOTE + f REMOTE))).

Definition owe_side (s : side) (f : side -> Z) (v : sided channel_view) : sided channel_view :=
  set_side s (owe f (at_side v s)) v.

Definition OWNER_FLAGS : Z := Z.lor HTLC_LOCAL_F_OWNER HTLC_REMOTE_F_OWNER.

(** The HTLC and the balances it touches. *)
Definition htlc_incstate (sidechanged : side) (v : sided channel_view) (h : htlc)
  : option (sided channel_view * htlc) :=
  let committed_f := HTLC_FLAG sidechanged HTLC_F_COMMITTED in
  let preflags := htlc_state_flags (state h) in
  post ← htlc_state_of (S (htlc_state_num (state h)));
  let postflags := htlc_state_flags post in
  assert! Z.land preflags OWNER_FLAGS =? Z.land postflags OWNER_FLAGS;
  let h := set_state post h in
  if negb (has_flag preflags committed_f) && has_flag postflags committed_f
  then Some (owe_side sidechanged (balance_adding_htlc h) v, h)
  else if has_flag preflags committed_f && negb (has_flag postflags committed_f)
  then Some (owe_side sidechanged (balance_removing_htlc h) v, h)
  else Some (v, h).

(** The inner loop of [change_htlcs]: every listed state the HTLC is (by then) in. The
    result has the flags changed and how often the HTLC was appended to the output. *)
Fixpoint change_one (sidechanged : side) (states : list htlc_state) (v : sided channel_view)
    (h : htlc) : option (sided channel_view * htlc * Z * nat) :=
  match states with
  | [] => Some (v, h, 0, 0%nat)
  | st :: states =>
      if htlc_state_eqb (state h) st then
        '(v, h) ← htlc_incstate sidechanged v h;
        let changed := Z.lxor (htlc_state_flags st) (htlc_state_flags (state h)) in
        '(v, h, cflags, n) ← change_one sidechanged states v h;
        Some (v, h, Z.lor changed cflags, S n)
      else change_one sidechanged states v h
  end.

Fixpoint change_list (sidechanged : side) (states : list htlc_state) (v : sided channel_view)
    (l : list htlc) : option (sided channel_view * list htlc * Z * list htlc) :=
  match l with
  | [] => Some (v, [], 0, [])
  | h :: l =>
      '(v, h, cflags, n) ← change_one sidechanged states v h;
      '(v, l, cflags', changed) ← change_list sidechanged states v l;
      Some (v, h :: l, Z.lor cflags cflags', replicate n h ++ changed)
  end.

(** The channel, the flags that changed and the HTLCs that did. *)
Definition change_htlcs (c : channel) (sidechanged : side) (states : list htlc_state)
  : option (channel * Z * list htlc) :=
  l ← htlcs c;
  '(v, l, cflags, changed) ← change_list sidechanged states (view c) l;
  Some (set_view v (set_htlcs l c), cflags, changed).

(** A commitment for [s]: applies what is pending there, if anything is. *)
Definition commit_side (c : channel) (s : side) (states : list htlc_state)
  : option (channel * bool * list htlc) :=
  if negb (at_side (changes_pending c) s) then
    '(c, cflags, changed) ← change_htlcs c s states;
    assert! cflags =? 0;
    Some (c, false, changed)
  else
    '(c, _, changed) ← change_htlcs c s states;
    Some (set_pending s false c, true, changed).

Definition sending_commit_states : list htlc_state :=
  [SENT_ADD_HTLC; SENT_REMOVE_REVOCATION; SENT_ADD_REVOCATION; SENT_REMOVE_HTLC].

Definition channel_sending_commit (c : channel) : option (channel * bool * list htlc) :=
  commit_side c REMOTE sending_commit_states.

Definition rcvd_commit_states : list htlc_state :=
  [RCVD_ADD_REVOCATION; RCVD_REMOVE_HTLC; RCVD_ADD_HTLC; RCVD_REMOVE_REVOCATION].

Definition channel_rcvd_commit (c : channel) : option (channel * bool * list htlc) :=
  commit_side c LOCAL rcvd_commit_states.

(** A revocation that queues changes for [s]; the fee rate follows if [s] asked for it. *)
Definition revoke_side (c : channel) (s : side) (states : list htlc_state)
  : option (channel * bool * list htlc) :=
  '(c, change, changed) ← change_htlcs c s states;
  let c := if has_flag change (HTLC_FLAG s HTLC_F_PENDING) then set_pending s true c else c in
  let c := if side_eqb (funder c) s
              && negb (channel_feerate c s =? channel_feerate c (other s))
           then set_pending s true (set_feerate s (channel_feerate c (other s)) c) else c in
  Some (c, at_side (changes_pending c) s, changed).

Definition rcvd_revoke_states : list htlc_state :=
  [SENT_ADD_COMMIT; SENT_REMOVE_ACK_COMMIT; SENT_ADD_ACK_COMMIT; SENT_REMOVE_COMMIT].

Definition channel_rcvd_revoke_and_ack (c : channel) : option (channel * bool * list htlc) :=
  revoke_side c LOCAL rcvd_revoke_states.

Definition sending_revoke_states : list htlc_state :=
  [RCVD_ADD_ACK_COMMIT; RCVD_REMOVE_COMMIT; RCVD_ADD_COMMIT; RCVD_REMOVE_ACK_COMMIT].

(** (The list of changed HTLCs is not asked for here.) *)
Definition channel_sending_revoke_and_ack (c : channel) : option (channel * bool) :=
  '(c, b, _) ← revoke_side c REMOTE sending_revoke_states; Some (c, b).

(** ** Fee rates *)
Definition approx_max_feerate (c : channel) : Z :=
  let '(committed, removing, adding) := gather_htlcs c (other (funder c)) in
  let num := u64 (Z.of_nat (length committed) + Z.of_nat (length adding)
                  - Z.of_nat (length removing)) in
  let weight := u64 (724 + u64 (172 * num)) in
  u32 (u64 (at_side (owed_msat (at_side (view c) (other (funder c)))) (funder c) / weight * 1000)).

Definition can_funder_afford_feerate (c : channel) (rate : Z) : bool :=
  let s := other (funder c) in
  let dust := dust_limit_satoshis (at_side (config c) s) in
  let '(committed, removing, adding) := gather_htlcs c s in
  let untrimmed := u64 (commit_tx_num_untrimmed committed rate dust s
                        + commit_tx_num_untrimmed adding rate dust s
                        - commit_tx_num_untrimmed removing rate dust s) in
  let fee_msat := commit_tx_base_fee rate untrimmed in
  u64 (channel_reserve_msat c (funder c) + fee_msat)
    <=? at_side (owed_msat (at_side (view c) s)) (funder c).

Definition channel_update_feerate (c : channel) (rate : Z) : channel * bool :=
  if negb (can_funder_afford_feerate c rate) then (c, false)
  else let s := other (funder c) in (set_pending s true (set_feerate s rate c), true).

(** ** Restoring from the database *)

(** One iteration of the loop of [adjust_balance]; the flag is false on its early return. *)
Definition adjust_side (s : side) (h : htlc) (v : sided channel_view) : sided channel_view * bool :=
  if negb (htlc_has h (HTLC_FLAG s HTLC_F_WAS_COMMITTED)) then (v, true)
  else
    let v := owe_side s (balance_adding_htlc h) v in
    if htlc_has h (HTLC_FLAG s HTLC_F_COMMITTED) then (v, true)
    else if bool_decide (fail h = None) && (failcode h =? 0) && bool_decide (r h = None)
    then (v, false)
    else (owe_side s (balance_removing_htlc h) v, true).

Definition adjust_balance (v : sided channel_view) (h : htlc) : sided channel_view * bool :=
  let '(v, ok) := adjust_side LOCAL h v in
  if ok : bool then adjust_side REMOTE h v else (v, false).

Fixpoint force_add (c : channel) (l : list (added_htlc * htlc_state)) : option (channel * bool) :=
  match l with
  | [] => Some (c, true)
  | (a, st) :: l =>
      '(c, e) ← add_htlc c st (a_id a) (amount_msat a) (cltv_expiry a) (payment_hash a)
                  (onion_routing_packet a) false;
      if bool_decide (e = CHANNEL_ERR_ADD_OK) then force_add c l else Some (c, false)
  end.

(** The guards shared by the fulfilled and failed loops. *)
Definition resolved (h : htlc) : bool :=
  bool_decide (is_Some (r h)) || bool_decide (is_Some (fail h)) || negb (failcode h =? 0).

Fixpoint force_fulfill (c : channel) (l : list (fulfilled_htlc * side)) : option (channel * bool) :=
  match l with
  | [] => Some (c, true)
  | (x, s) :: l =>
      t ← htlcs c;
      match htlc_get t (f_id x) s with
      | None => Some (c, false)
      | Some (n, h) =>
          if resolved h then Some (c, false)
          else if negb (htlc_has h HTLC_REMOVING) then Some (c, false)
          else force_fulfill (set_htlcs (<[n := set_r (payment_preimage x) h]> t) c) l
      end
  end.

(** [i] counts the iterations: the last trace message reads [fulfilled[i]], and a read
    beyond that array is an abort here. *)
Fixpoint force_fail (fulfilled : list fulfilled_htlc) (i : nat) (c : channel)
    (l : list (failed_htlc * side)) : option (channel * bool) :=
  match l with
  | [] => Some (c, true)
  | (x, s) :: l =>
      t ← htlcs c;
      match htlc_get t (x_id x) s with
      | None => Some (c, false)
      | Some (n, h) =>
          if resolved h then Some (c, false)
          else if negb (htlc_has h HTLC_REMOVING) then
            _ ← fulfilled !! i; Some (c, false)
          else force_fail fulfilled (S i)
                 (set_htlcs (<[n := set_failure (failreason x) (x_failcode x) (x_scid x) h]> t) c) l
      end
  end.

(** An HTLC that is not there would be dereferenced. *)
Fixpoint force_adjust (c : channel) (l : list (added_htlc * htlc_state)) : option (channel * bool) :=
  match l with
  | [] => Some (c, true)
  | (a, st) :: l =>
      t ← htlcs c;
      '(_, h) ← htlc_get t (a_id a) (htlc_state_owner st);
      let '(v, ok) := adjust_balance (view c) h in
      let c := set_view v c in
      if ok : bool then force_adjust c l else Some (c, false)
  end.

Definition channel_force_htlcs (c : channel) (added : list added_htlc) (hstates : list htlc_state)
    (fulfilled : list fulfilled_htlc) (fulfilled_sides : list side)
    (failed : list failed_htlc) (failed_sides : list side) : option (channel * bool) :=
  if negb (length hstates =? length added)%nat then Some (c, false)
  else if negb (length fulfilled =? length fulfilled_sides)%nat then Some (c, false)
  else if negb (length failed =? length failed_sides)%nat then Some (c, false)
  else
    '(c, ok) ← force_add c (zip added hstates);
    if negb ok then Some (c, false) else
    '(c, ok) ← force_fulfill c (zip fulfilled fulfilled_sides);
    if negb ok then Some (c, false) else
    '(c, ok) ← force_fail fulfilled 0 c (zip failed failed_sides);
    if negb ok then Some (c, false) else
    force_adjust c (zip added hstates).
End Channel.
