(* ===== verification/Ledger.v ===== *)
(** * The ledger of a channel

    The abstract accounts a channel refines: for each side's commitment, what each side is
    owed is its initial balance changed by the HTLCs that commitment has had and lost.
    Here, per HTLC and per state transition; the channel as a whole is in [ChannelInv]. *)
From S2P Require Import Prelude HtlcState Sha256 Secp KeyDerive Params Htlc Channel.
Local Open Scope Z_scope.

(** ** The effect of one HTLC *)

(** A flag of a state for a side. *)
Definition sflag (f : Z) (st : htlc_state) (v : side) : bool :=
  has_flag (htlc_state_flags st) (HTLC_FLAG v f).

Abbreviation committed := (sflag HTLC_F_COMMITTED).
Abbreviation was_committed := (sflag HTLC_F_WAS_COMMITTED).
Abbreviation pending := (sflag HTLC_F_PENDING).

Definition adding (h : htlc) (s : side) : Z := if side_eqb (htlc_owner h) s then - msatoshi h else 0.
Definition removing (h : htlc) (s : side) : Z := if side_eqb s (paid_to h) then msatoshi h else 0.

(** What the HTLC has done to the balance of [s] in the commitment of [v]. *)
Definition effect (v s : side) (h : htlc) : Z :=
  (if was_committed (state h) v then adding h s else 0)
  + (if was_committed (state h) v && negb (committed (state h) v) then removing h s else 0).

(** What the change pending for [v] will do. *)
Definition pend (v s : side) (h : htlc) : Z :=
  if pending (state h) v
  then if committed (state h) v then removing h s else adding h s
  else 0.

Definition in_flight (v : side) (h : htlc) : Z := if committed (state h) v then msatoshi h else 0.

Definition ledger (init : sided Z) (l : list htlc) (v s : side) : Z :=
  at_side init s + zsum (effect v s) l.

Definition projected (init : sided Z) (l : list htlc) (v s : side) : Z :=
  ledger init l v s + zsum (pend v s) l.

(** Evaluates the flags of known states. *)
Ltac eval_flags :=
  repeat match goal with
  | |- context [sflag ?f ?st ?v] =>
      let b := eval vm_compute in (sflag f st v) in
      match b with true => idtac | false => idtac end; change (sflag f st v) with b
  | |- context [htlc_state_owner ?st] =>
      let b := eval vm_compute in (htlc_state_owner st) in
      match b with LOCAL => idtac | REMOTE => idtac end; change (htlc_state_owner st) with b
  end.

(** Case analysis of a statement about one HTLC: its state, whether it is fulfilled, and
    the sides involved. *)
Ltac htlc_cases h :=
  destruct h as [[] ? ? ? ? [?|] ? ? ? ? ?];
  unfold effect, pend, in_flight, adding, removing, paid_to, htlc_owner in *;
  cbn [state msatoshi r set_state set_r] in *; eval_flags; simpl; try lia.

(** Money does not appear or disappear: what both sides lose is in flight. *)
Lemma effect_conserves v h : effect v LOCAL h + effect v REMOTE h = - in_flight v h.
Proof. destruct v; htlc_cases h. Qed.

Lemma projected_conserves v h : 0 <= msatoshi h ->
  effect v LOCAL h + pend v LOCAL h + effect v REMOTE h + pend v REMOTE h <= 0.
Proof. destruct v; htlc_cases h. Qed.

(** ** The transitions *)

Definition next_state (st : htlc_state) : htlc_state :=
  default st (htlc_state_of (S (htlc_state_num st))).

Definition commit_states (s : side) : list htlc_state :=
  match s with LOCAL => rcvd_commit_states | REMOTE => sending_commit_states end.

(** The states in which the other side's revocation queues a change for [s]. *)
Definition revoke_states (s : side) : list htlc_state :=
  match s with LOCAL => rcvd_revoke_states | REMOTE => sending_revoke_states end.

Definition in_states (states : list htlc_state) (st : htlc_state) : bool :=
  existsb (htlc_state_eqb st) states.

(** The HTLC after [change_htlcs]. *)
Definition advance (states : list htlc_state) (h : htlc) : htlc :=
  if in_states states (state h) then set_state (next_state (state h)) h else h.

Lemma commit_states_pending st s : in_states (commit_states s) st = pending st s.
Proof. by destruct s, st. Qed.

(** A commitment applies what was pending for its side, and nothing for the other. *)
Lemma advance_commit v s h :
  let h' := advance (commit_states v) h in
  effect v s h' = effect v s h + pend v s h /\ pend v s h' = 0 /\
  effect (other v) s h' = effect (other v) s h /\ pend (other v) s h' = pend (other v) s h.
Proof.
  unfold advance. rewrite commit_states_pending.
  destruct v, s; htlc_cases h; cbn; eval_flags; simpl; lia.
Qed.

(** A revocation moves no balance; it queues for [v] only what favours the other side
    or has already been paid in the other commitment. *)
Lemma advance_revoke v s h : 0 <= msatoshi h ->
  let h' := advance (revoke_states v) h in
  effect v s h' = effect v s h /\
  effect (other v) s h' = effect (other v) s h /\ pend (other v) s h' = pend (other v) s h /\
  pend v (other v) h <= pend v (other v) h' /\
  effect (other v) v h' <= effect v v h' + pend v v h'.
Proof.
  unfold advance.
  destruct v, s; htlc_cases h; cbn; eval_flags; simpl; lia.
Qed.

(** ** Views *)

Definition owed (v : sided channel_view) (w s : side) : Z := at_side (owed_msat (at_side v w)) s.

(** [v'] is [v] with [d] added to the balances of side [cs]'s commitment. *)
Definition moved (cs : side) (d : side -> Z) (v v' : sided channel_view) : Prop :=
  (forall w, feerate_per_kw (at_side v' w) = feerate_per_kw (at_side v w)) /\
  (forall s, owed v' cs s = u64 (owed v cs s + d s)) /\
  (forall s, owed v' (other cs) s = owed v (other cs) s).

Definition views_fit (v : sided channel_view) : Prop := forall w s, fits 64 (owed v w s).

Lemma moved_refl cs v : views_fit v -> moved cs (fun _ => 0) v v.
Proof.
  intros F. split; [done|]. split; [|done]. intros s. by rewrite Z.add_0_r, u64_small.
Qed.

Lemma moved_trans cs d d' v v' v'' : moved cs d v v' -> moved cs d' v' v'' ->
  moved cs (fun s => d s + d' s) v v''.
Proof.
  intros (F & D & O) (F' & D' & O'). split; [intros; by rewrite F', F|]. split; intros s.
  - by rewrite D', D, u64_add_l, Z.add_assoc.
  - by rewrite O', O.
Qed.

Lemma moved_ext cs d d' v v' : (forall s, d s = d' s) -> moved cs d v v' -> moved cs d' v v'.
Proof. intros E (F & D & O). split; [done|]. split; [|done]. intros s. by rewrite D, E. Qed.

Lemma moved_fit cs d v v' : views_fit v -> moved cs d v v' -> views_fit v'.
Proof.
  intros F (_ & D & O) w s. destruct (decide (w = cs)) as [->|].
  - rewrite D. apply u64_fits.
  - assert (w = other cs) as -> by by destruct w, cs. by rewrite O.
Qed.

Lemma moved_owe cs f v : moved cs f v (owe_side cs f v).
Proof.
  split; [intros []; by destruct cs|].
  split; intros []; unfold owed, owe_side, owe; destruct cs; done.
Qed.

(** Amounts small enough for the signed arithmetic of the code. *)
Definition amount_ok (h : htlc) : Prop := 0 < msatoshi h < 2 ^ 62.

Lemma balance_adding_exact h s : amount_ok h -> balance_adding_htlc h s = adding h s.
Proof.
  intros A. unfold balance_adding_htlc, adding, amount_ok in *.
  case_match; [|done]. rewrite (s64_small (msatoshi h)), s64_small; lia.
Qed.

Lemma balance_removing_exact h s : amount_ok h -> balance_removing_htlc h s = removing h s.
Proof.
  intros A. unfold balance_removing_htlc, removing, amount_ok in *.
  case_match; [|done]. rewrite s64_small; lia.
Qed.

(** ** [change_htlcs] *)

Inductive legal (cs : side) : list htlc_state -> Prop :=
  | legal_commit : legal cs (commit_states cs)
  | legal_revoke : legal cs (revoke_states cs).

Ltac eval_eqb :=
  repeat match goal with
  | |- context [htlc_state_eqb ?a ?b] =>
      let x := eval vm_compute in (htlc_state_eqb a b) in
      match x with true => idtac | false => idtac end; change (htlc_state_eqb a b) with x
  end.

Lemma change_one_other cs states v h :
  in_states states (state h) = false -> change_one cs states v h = Some (v, h, 0, 0%nat).
Proof.
  induction states as [|st states IH]; [done|]. simpl.
  destruct (htlc_state_eqb (state h) st); [done|]. apply IH.
Qed.

Lemma incstate_spec cs states v h : legal cs states -> in_states states (state h) = true ->
  exists v', htlc_incstate cs v h = Some (v', advance states h) /\
    (amount_ok h -> views_fit v ->
     moved cs (fun s => effect cs s (advance states h) - effect cs s h) v v').
Proof.
  intros L E. unfold advance. rewrite E.
  assert (htlc_state_of (S (htlc_state_num (state h))) = Some (next_state (state h)) /\
    Z.land (htlc_state_flags (state h)) OWNER_FLAGS
      = Z.land (htlc_state_flags (next_state (state h))) OWNER_FLAGS) as [En Eo].
  { destruct L, cs, (state h); done. }
  unfold htlc_incstate. rewrite En. cbn [mbind option_bind].
  rewrite Eo, Z.eqb_refl. cbn [c_assert]. fold (sflag HTLC_F_COMMITTED (state h) cs).
  fold (sflag HTLC_F_COMMITTED (next_state (state h)) cs).
  set (h' := set_state (next_state (state h)) h).
  assert (amount_ok h -> forall s, effect cs s h' - effect cs s h =
    if negb (committed (state h) cs) && committed (next_state (state h)) cs then adding h' s
    else if committed (state h) cs && negb (committed (next_state (state h)) cs) then removing h' s
    else 0) as D.
  { intros _ s. subst h'. destruct L, cs, s; htlc_cases h; try discriminate E; cbn; eval_flags;
      simpl; lia. }
  repeat case_match; eexists; (split; [reflexivity|]); intros A F; specialize (D A).
  - apply (moved_ext _ (balance_adding_htlc h')); [|apply moved_owe].
    intros s. rewrite D. by apply balance_adding_exact.
  - apply (moved_ext _ (balance_removing_htlc h')); [|apply moved_owe].
    intros s. rewrite D. by apply balance_removing_exact.
  - apply (moved_ext _ (fun _ => 0)); [|by apply moved_refl]. intros s. by rewrite D.
Qed.

Lemma change_one_hit cs states v h v' h' :
  in_states states (state h) = true -> in_states states (state h') = false ->
  htlc_incstate cs v h = Some (v', h') ->
  change_one cs states v h
  = Some (v', h', Z.lor (Z.lxor (htlc_state_flags (state h)) (htlc_state_flags (state h'))) 0, 1%nat).
Proof.
  intros Hin Hout E. induction states as [|st states IH]; [done|]. simpl in Hin, Hout.
  apply orb_false_iff in Hout as [_ Hout]. cbn [change_one].
  destruct (htlc_state_eqb (state h) st) eqn:Est.
  - apply bool_decide_eq_true in Est. subst st. rewrite E. simpl.
    by rewrite change_one_other.
  - by apply IH.
Qed.

Lemma advance_settled cs states h : legal cs states ->
  in_states states (state (advance states h)) = false.
Proof.
  intros L. unfold advance. destruct (in_states states (state h)) eqn:E; [|done].
  by destruct L, cs; destruct h as [[]]; try discriminate E.
Qed.

(** The flags a transition changes. *)
Definition changed_flags (states : list htlc_state) (h : htlc) : Z :=
  if in_states states (state h)
  then Z.lxor (htlc_state_flags (state h)) (htlc_state_flags (state (advance states h))) else 0.

Lemma change_one_spec cs states v h : legal cs states ->
  exists v' n, change_one cs states v h = Some (v', advance states h, changed_flags states h, n) /\
    (amount_ok h -> views_fit v ->
     moved cs (fun s => effect cs s (advance states h) - effect cs s h) v v') /\
    (in_states states (state h) = false -> v' = v).
Proof.
  intros L. unfold changed_flags. destruct (in_states states (state h)) eqn:E.
  - destruct (incstate_spec cs states v h L E) as (v' & Ei & M). exists v', 1%nat.
    split; [|done]. pose proof (advance_settled cs states h L) as S.
    rewrite (change_one_hit _ _ _ _ _ _ E S Ei), Z.lor_0_r. done.
  - exists v, 0%nat. split; [|split; [|done]].
    + rewrite change_one_other by done. unfold advance. by rewrite E.
    + intros A F. apply (moved_ext _ (fun _ => 0)); [|by apply moved_refl].
      intros s. unfold advance. rewrite E. lia.
Qed.

Definition all_changed_flags (states : list htlc_state) (l : list htlc) : Z :=
  foldr (fun h acc => Z.lor (changed_flags states h) acc) 0 l.

Lemma change_list_spec cs states v l : legal cs states ->
  exists v' ch, change_list cs states v l
      = Some (v', advance states <$> l, all_changed_flags states l, ch) /\
    (Forall amount_ok l -> views_fit v ->
     moved cs (fun s => zsum (effect cs s) (advance states <$> l) - zsum (effect cs s) l) v v') /\
    (Forall (fun h => in_states states (state h) = false) l -> v' = v).
Proof.
  intros L. revert v. induction l as [|h l IH]; intros v.
  { exists v, []. split; [done|]. split; [|done]. intros _ F.
    apply (moved_ext _ (fun _ => 0)); [done|by apply moved_refl]. }
  destruct (change_one_spec cs states v h L) as (v1 & n & E1 & M1 & N1).
  destruct (IH v1) as (v2 & ch & E2 & M2 & N2). exists v2, (replicate n (advance states h) ++ ch).
  split; [|split].
  - cbn [change_list]. rewrite E1. simpl. by rewrite E2.
  - intros A F. apply Forall_cons in A as [A Al]. specialize (M1 A F).
    apply (moved_ext _ (fun s => (effect cs s (advance states h) - effect cs s h) +
      (zsum (effect cs s) (advance states <$> l) - zsum (effect cs s) l))).
    { intros s. rewrite fmap_cons, !zsum_cons. lia. }
    apply (moved_trans _ _ _ _ v1); [done|]. apply M2; [done|]. exact (moved_fit _ _ _ _ F M1).
  - intros Q. apply Forall_cons in Q as [Q Ql]. by rewrite (N2 Ql), (N1 Q).
Qed.

(** When no HTLC is in a listed state nothing happens. *)
Lemma advance_idle states l :
  Forall (fun h => in_states states (state h) = false) l ->
  advance states <$> l = l /\ all_changed_flags states l = 0.
Proof.
  induction 1 as [|h l E _ (IHa & IHf)]; [done|]. split.
  - rewrite fmap_cons, IHa. unfold advance. by rewrite E.
  - unfold all_changed_flags in *. cbn [foldr]. rewrite IHf. unfold changed_flags. by rewrite E.
Qed.

