(* ===== verification/ChannelInv.v ===== *)
(** * The channel keeps its accounts

    Every operation of [Channel] preserves the invariant that relates a channel to its
    ledger: balances never wrap, no commitment creates or destroys money, no assertion
    fails, and a restored channel is the one that was stored. *)
From S2P Require Import Prelude HtlcState Sha256 Secp KeyDerive Params Htlc Channel Ledger.
Local Open Scope Z_scope.

(** ** The invariant *)
Section Invariant.
Context `{Secp256k1}.

Definition key (h : htlc) : Z * side := (id h, htlc_owner h).

(** The terms of a channel that no operation changes, and the bounds they satisfy. *)
Record terms_ok (init : sided Z) (c : channel) : Prop := {
  terms_init : 0 <= at_side init LOCAL /\ 0 <= at_side init REMOTE /\
    at_side init LOCAL + at_side init REMOTE = funding_msat c;
  terms_funding : funding_msat c < 2 ^ 62;
  terms_reserve : forall s, 0 <= channel_reserve_satoshis (at_side (config c) s) * 1000 < 2 ^ 63;
  terms_payment : max_payment_msat (channel_params c) < 2 ^ 62
}.

Record chan_inv (init : sided Z) (c : channel) (l : list htlc) : Prop := {
  inv_terms : terms_ok init c;
  inv_htlcs : htlcs c = Some l;
  inv_keys : NoDup (key <$> l);
  inv_amounts : Forall amount_ok l;
  inv_owed : forall v s, owed (view c) v s = ledger init l v s;
  inv_ledger : forall v s, 0 <= ledger init l v s;
  inv_projected : forall v s, 0 <= projected init l v s;
  inv_pending : forall v h, h ∈ l -> pending (state h) v = true ->
    at_side (changes_pending c) v = true
}.

Lemma ledger_conserves init l v :
  ledger init l v LOCAL + ledger init l v REMOTE + zsum (in_flight v) l
  = at_side init LOCAL + at_side init REMOTE.
Proof.
  unfold ledger.
  assert (zsum (effect v LOCAL) l + zsum (effect v REMOTE) l = - zsum (in_flight v) l) as E; [|lia].
  rewrite <- zsum_add, <- zsum_opp. apply zsum_ext_in. intros h _. apply effect_conserves.
Qed.

Lemma in_flight_nonneg v l : Forall amount_ok l -> 0 <= zsum (in_flight v) l.
Proof.
  intros A. apply zsum_nonneg. intros h Hh. rewrite Forall_forall in A.
  specialize (A h Hh). unfold in_flight, amount_ok in *. case_match; lia.
Qed.

(** No balance exceeds the channel. *)
Lemma ledger_range init c l v s : terms_ok init c -> Forall amount_ok l ->
  (forall s, 0 <= ledger init l v s) -> 0 <= ledger init l v s <= funding_msat c.
Proof.
  intros T A P. pose proof (ledger_conserves init l v) as E. pose proof (in_flight_nonneg v l A).
  pose proof (P LOCAL). pose proof (P REMOTE).
  pose proof (terms_init _ _ T) as (_ & _ & Ti). destruct s; lia.
Qed.

Lemma ledger_u64 init c l v s : terms_ok init c -> Forall amount_ok l ->
  (forall s, 0 <= ledger init l v s) -> u64 (ledger init l v s) = ledger init l v s.
Proof.
  intros T A P. apply u64_small. pose proof (ledger_range init c l v s T A P).
  pose proof (terms_funding _ _ T). unfold fits. eval_pow2. lia.
Qed.

Lemma ledger_bound init c l v s : chan_inv init c l -> 0 <= ledger init l v s <= funding_msat c.
Proof. intros I. apply ledger_range; apply I. Qed.

Lemma inv_views_fit init c l : chan_inv init c l -> views_fit (view c).
Proof.
  intros I w s. rewrite (inv_owed _ _ _ I). pose proof (ledger_bound init c l w s I).
  pose proof (terms_funding _ _ (inv_terms _ _ _ I)). unfold fits. eval_pow2. lia.
Qed.

(** The same terms. *)
Definition same_terms (c c' : channel) : Prop :=
  funding_msat c' = funding_msat c /\ config c' = config c /\
  channel_params c' = channel_params c.

Lemma terms_same init c c' : same_terms c c' -> terms_ok init c -> terms_ok init c'.
Proof. intros (E1 & E2 & E3) T. constructor; rewrite ?E1, ?E2, ?E3; apply T. Qed.

(** ** Commitments and revocations preserve it *)

Lemma advance_key states cs h : legal cs states -> key (advance states h) = key h.
Proof.
  intros L. unfold advance, key, htlc_owner. destruct (in_states states (state h)) eqn:E; [|done].
  cbn [set_state state id]. f_equal. by destruct L, cs; destruct h as [[]]; try discriminate E.
Qed.

Lemma advance_amount states h : amount_ok (advance states h) <-> amount_ok h.
Proof. unfold advance. by case_match. Qed.

Lemma advance_keys states cs (l : list htlc) : legal cs states -> key <$> (advance states <$> l) = key <$> l.
Proof.
  intros L. rewrite <- list_fmap_compose. apply list_fmap_ext. intros ? h _.
  by apply (advance_key states cs).
Qed.

Lemma advance_amounts states (l : list htlc) : Forall amount_ok l -> Forall amount_ok (advance states <$> l).
Proof.
  intros A. apply Forall_fmap. eapply Forall_impl; [exact A|]. intros h. simpl.
  by rewrite advance_amount.
Qed.

(** Sums over the advanced table. *)
Lemma zsum_advance (f g : htlc -> Z) states (l : list htlc) :
  (forall h, h ∈ l -> f (advance states h) = g h) -> zsum f (advance states <$> l) = zsum g l.
Proof. intros E. rewrite zsum_map. by apply zsum_ext_in. Qed.

Lemma ledger_commit init l v s :
  ledger init (advance (commit_states v) <$> l) v s = projected init l v s /\
  projected init (advance (commit_states v) <$> l) v s = projected init l v s /\
  ledger init (advance (commit_states v) <$> l) (other v) s = ledger init l (other v) s /\
  projected init (advance (commit_states v) <$> l) (other v) s = projected init l (other v) s.
Proof.
  unfold projected, ledger.
  rewrite (zsum_advance (effect v s) (fun h => effect v s h + pend v s h)), zsum_add
    by (intros h _; apply advance_commit).
  rewrite (zsum_advance (pend v s) (fun _ => 0)), zsum_0 by (intros h _; by apply (advance_commit v s)).
  rewrite (zsum_advance (effect (other v) s) (effect (other v) s))
    by (intros h _; by apply (advance_commit v s)).
  rewrite (zsum_advance (pend (other v) s) (pend (other v) s))
    by (intros h _; by apply (advance_commit v s)).
  lia.
Qed.

Lemma ledger_revoke init l v s : Forall amount_ok l ->
  let l' := advance (revoke_states v) <$> l in
  ledger init l' v s = ledger init l v s /\
  ledger init l' (other v) s = ledger init l (other v) s /\
  projected init l' (other v) s = projected init l (other v) s /\
  projected init l v (other v) <= projected init l' v (other v) /\
  ledger init l' (other v) v <= projected init l' v v.
Proof.
  intros A. rewrite Forall_forall in A.
  assert (forall h, h ∈ l -> 0 <= msatoshi h) as P by (intros h Hh; specialize (A h Hh); unfold amount_ok in A; lia).
  cbv zeta. unfold projected, ledger.
  assert (forall s, zsum (effect v s) (advance (revoke_states v) <$> l) = zsum (effect v s) l) as E1
    by (intros; apply zsum_advance; intros; by apply advance_revoke; auto).
  assert (forall s, zsum (effect (other v) s) (advance (revoke_states v) <$> l)
    = zsum (effect (other v) s) l) as E2
    by (intros; apply zsum_advance; intros; by apply advance_revoke; auto).
  rewrite (zsum_advance (pend (other v) s) (pend (other v) s))
    by (intros; by apply advance_revoke; auto).
  assert (zsum (pend v (other v)) l <= zsum (pend v (other v)) (advance (revoke_states v) <$> l)) as E3.
  { rewrite zsum_map. apply zsum_le_in. intros h Hh. apply (advance_revoke v s h). auto. }
  assert (zsum (effect (other v) v) (advance (revoke_states v) <$> l)
    <= zsum (effect v v) (advance (revoke_states v) <$> l)
       + zsum (pend v v) (advance (revoke_states v) <$> l)) as E4.
  { rewrite !zsum_map, <- zsum_add. apply zsum_le_in. intros h Hh. apply (advance_revoke v s h). auto. }
  rewrite !E1, !E2 in *. lia.
Qed.

(** The result of [change_htlcs]: everything but the table and the balances is kept. *)
Lemma change_htlcs_spec init c l cs states : chan_inv init c l -> legal cs states ->
  exists v ch, change_htlcs c cs states
      = Some (set_view v (set_htlcs (advance states <$> l) c), all_changed_flags states l, ch) /\
    moved cs (fun s => zsum (effect cs s) (advance states <$> l) - zsum (effect cs s) l) (view c) v /\
    (Forall (fun h => in_states states (state h) = false) l -> v = view c).
Proof.
  intros I L. destruct (change_list_spec cs states (view c) l L) as (v & ch & E & M & N).
  exists v, ch. unfold change_htlcs. rewrite (inv_htlcs _ _ _ I). simpl. rewrite E. simpl.
  split; [done|]. split; [|done]. apply M; [apply I|by apply (inv_views_fit init c l)].
Qed.

(** The balances after a transition are those of the new ledger. *)
Lemma moved_ledger init c l l' v cs : chan_inv init c l ->
  moved cs (fun s => zsum (effect cs s) l' - zsum (effect cs s) l) (view c) v ->
  Forall amount_ok l' -> (forall s, 0 <= ledger init l' cs s) ->
  (forall s, ledger init l' (other cs) s = ledger init l (other cs) s) ->
  forall w s, owed v w s = ledger init l' w s.
Proof.
  intros I (_ & D & O) A P E w s. destruct (decide (w = cs)) as [->|].
  - rewrite D, (inv_owed _ _ _ I). rewrite <- (ledger_u64 init c l' cs s (inv_terms _ _ _ I) A P).
    unfold ledger. f_equal. lia.
  - assert (w = other cs) as -> by by destruct w, cs. by rewrite O, E, (inv_owed _ _ _ I).
Qed.

Lemma commit_preserves init c l s : chan_inv init c l ->
  exists c' ch, commit_side c s (commit_states s)
      = Some (c', at_side (changes_pending c) s, ch) /\
    chan_inv init c' (advance (commit_states s) <$> l) /\ same_terms c c' /\
    at_side (changes_pending c') s = false.
Proof.
  intros I. destruct (change_htlcs_spec init c l s _ I (legal_commit s)) as (v & ch & E & M & N).
  unfold commit_side. set (l' := advance (commit_states s) <$> l) in *.
  assert (Forall amount_ok l') as A by apply advance_amounts, I.
  assert (forall h, h ∈ l' -> pending (state h) s = false) as Np.
  { intros h Hh. apply list_elem_of_fmap in Hh as (g & -> & _).
    rewrite <- commit_states_pending. apply (advance_settled s), legal_commit. }
  assert (forall w x, ledger init l' w x = if decide (w = s) then projected init l s x else ledger init l w x)
    as El.
  { intros w x. destruct (decide (w = s)) as [->|]; [apply ledger_commit|].
    assert (w = other s) as -> by by destruct w, s. apply ledger_commit. }
  assert (forall w x, projected init l' w x = projected init l w x) as Ep.
  { intros w x. destruct (decide (w = s)) as [->|]; [apply ledger_commit|].
    assert (w = other s) as -> by by destruct w, s. apply ledger_commit. }
  assert (forall w x, 0 <= ledger init l' w x) as Pl.
  { intros w x. rewrite El. case_decide; apply I. }
  assert (forall p, (forall h, h ∈ l' -> forall w, w <> s -> pending (state h) w = true -> at_side p w = true) ->
    chan_inv init (set_pending s false (Channel (funding_txid c) (funding_txout c) (funding_pubkey c)
      (funding_msat c) (funder c) (config c) (channel_basepoints c) (commitment_number_obscurer c)
      (Some l') p v (channel_params c))) l') as Inv.
  { intros p Hp. constructor; cbn; try done.
    - by apply (terms_same init c), I.
    - unfold l'. rewrite (advance_keys _ s) by constructor. apply I.
    - apply (moved_ledger init c l l' v s); try done. intros x. unfold l'. apply ledger_commit.
    - intros w x. rewrite Ep. apply I.
    - intros w h Hh Hpe. destruct (decide (w = s)) as [->|Nw]; [by rewrite Np in Hpe|].
      rewrite at_set_side_ne by done. by apply (Hp h). }
  assert (forall h, h ∈ l' -> forall w, w <> s -> pending (state h) w = true ->
    at_side (changes_pending c) w = true) as Hp.
  { intros h Hh w Nw Hpe. apply list_elem_of_fmap in Hh as (g & -> & Hg).
    apply (inv_pending _ _ _ I w g Hg). rewrite <- Hpe. unfold advance.
    rewrite commit_states_pending. assert (w = other s) as -> by by destruct w, s.
    destruct (pending (state g) s) eqn:Eg; [|done]. destruct s, g as [[]]; try done. }
  destruct (at_side (changes_pending c) s) eqn:Epd; simpl.
  - rewrite E. simpl. eexists _, ch. split; [reflexivity|]. split; [by apply Inv|].
    split; [done|]. apply at_set_side.
  - assert (Forall (fun h => in_states (commit_states s) (state h) = false) l) as Idle.
    { apply Forall_forall. intros h Hh. rewrite commit_states_pending.
      apply not_true_is_false. intros Hpe. pose proof (inv_pending _ _ _ I s h Hh Hpe). congruence. }
    rewrite E. simpl. rewrite (proj2 (advance_idle _ _ Idle)). simpl.
    eexists _, ch. split; [reflexivity|]. split; [|done].
    assert (set_side s false (changes_pending c) = changes_pending c) as Es
      by (destruct s, (changes_pending c) as [[] []]; done).
    specialize (Inv (changes_pending c) Hp). unfold set_pending in Inv. cbn in Inv.
    rewrite Es in Inv. exact Inv.
Qed.

Lemma has_flag_lor a b m : has_flag (Z.lor a b) m = has_flag a m || has_flag b m.
Proof.
  unfold has_flag. rewrite Z.land_lor_distr_l.
  destruct (Z.eqb_spec (Z.lor (Z.land a m) (Z.land b m)) 0) as [E|E];
    destruct (Z.eqb_spec (Z.land a m) 0) as [A|A], (Z.eqb_spec (Z.land b m) 0) as [B|B]; try done.
  - apply Z.lor_eq_0_iff in E as []. done.
  - apply Z.lor_eq_0_iff in E as []. done.
  - apply Z.lor_eq_0_iff in E as []. done.
  - exfalso. apply E. by rewrite A, B.
Qed.

(** A change that becomes pending shows in the changed flags. *)
Lemma revoke_flags s l h : h ∈ l -> pending (state h) s = false ->
  pending (state (advance (revoke_states s) h)) s = true ->
  has_flag (all_changed_flags (revoke_states s) l) (HTLC_FLAG s HTLC_F_PENDING) = true.
Proof.
  intros Hh E E'. induction l as [|g l IH]; [by apply not_elem_of_nil in Hh|].
  change (all_changed_flags (revoke_states s) (g :: l)) with
    (Z.lor (changed_flags (revoke_states s) g) (all_changed_flags (revoke_states s) l)).
  rewrite has_flag_lor.
  apply elem_of_cons in Hh as [<-|Hh].
  - apply orb_true_iff. left. unfold changed_flags, advance in *.
    destruct s, h as [[]]; cbn in *; try discriminate; done.
  - rewrite IH by done. apply orb_true_r.
Qed.

(** A revocation leaves the pending changes of the other side alone. *)
Lemma revoke_other_pending s h :
  pending (state (advance (revoke_states s) h)) (other s) = pending (state h) (other s).
Proof. unfold advance. by destruct s, h as [[]]. Qed.

Lemma set_pending_keeps s b c : htlcs (set_pending s b c) = htlcs c /\
  view (set_pending s b c) = view c /\ same_terms c (set_pending s b c).
Proof. done. Qed.

Lemma owed_set_feerate s rate c w x : owed (view (set_feerate s rate c)) w x = owed (view c) w x.
Proof. unfold owed, set_feerate. cbn. by destruct s, w. Qed.

(** Anything that keeps the table and the balances, and only sets pending flags. *)
Lemma chan_inv_same init c c' l : same_terms c c' -> htlcs c' = htlcs c ->
  (forall w x, owed (view c') w x = owed (view c) w x) ->
  (forall w, at_side (changes_pending c) w = true -> at_side (changes_pending c') w = true) ->
  chan_inv init c l -> chan_inv init c' l.
Proof.
  intros T Eh Ev Ep I. constructor; try apply I.
  - by apply (terms_same init c), I.
  - rewrite Eh. apply I.
  - intros. rewrite Ev. apply I.
  - intros v h Hh Hp. by apply Ep, (inv_pending _ _ _ I v h).
Qed.

Lemma set_pending_true s c w :
  at_side (changes_pending c) w = true -> at_side (changes_pending (set_pending s true c)) w = true.
Proof. cbn. by destruct s, w. Qed.

Lemma inv_set_pending init s c l : chan_inv init c l -> chan_inv init (set_pending s true c) l.
Proof. apply chan_inv_same; try done. intros. by apply set_pending_true. Qed.

Lemma inv_set_feerate init s rate c l : chan_inv init c l -> chan_inv init (set_feerate s rate c) l.
Proof. apply chan_inv_same; try done. intros. apply owed_set_feerate. Qed.

(** The table and balances after a revocation, whatever the flags, as long as the new
    pending changes are flagged. *)
Lemma revoke_inv init c l s v p : chan_inv init c l ->
  moved s (fun x => zsum (effect s x) (advance (revoke_states s) <$> l) - zsum (effect s x) l)
    (view c) v ->
  (forall w, at_side (changes_pending c) w = true -> at_side p w = true) ->
  (has_flag (all_changed_flags (revoke_states s) l) (HTLC_FLAG s HTLC_F_PENDING) = true ->
   at_side p s = true) ->
  chan_inv init (Channel (funding_txid c) (funding_txout c) (funding_pubkey c)
      (funding_msat c) (funder c) (config c) (channel_basepoints c) (commitment_number_obscurer c)
      (Some (advance (revoke_states s) <$> l)) p v (channel_params c))
    (advance (revoke_states s) <$> l).
Proof.
  intros I M Pp Ps. pose proof (inv_amounts _ _ _ I) as A.
  assert (forall w x, ledger init (advance (revoke_states s) <$> l) w x = ledger init l w x) as El.
  { intros w x. destruct (decide (w = s)) as [->|]; [by apply ledger_revoke|].
    assert (w = other s) as -> by by destruct w, s. by apply ledger_revoke. }
  constructor; cbn; try done.
  - by apply (terms_same init c), I.
  - rewrite (advance_keys _ s) by constructor. apply I.
  - by apply advance_amounts.
  - apply (moved_ledger init c l _ v s); try done; [by apply advance_amounts|].
    intros. rewrite El. apply I.
  - intros. rewrite El. apply I.
  - intros w x. destruct (ledger_revoke init l s x A) as (_ & _ & Eo & Lo & Lp).
    destruct (decide (w = s)) as [->|].
    + destruct (decide (x = s)) as [->|].
      * etrans; [|exact Lp]. rewrite El. apply I.
      * assert (x = other s) as -> by by destruct x, s. etrans; [|exact Lo]. apply I.
    + assert (w = other s) as -> by by destruct w, s. rewrite Eo. apply I.
  - intros w h Hh Hpe. apply list_elem_of_fmap in Hh as (g & -> & Hg).
    destruct (decide (w = s)) as [->|].
    + destruct (pending (state g) s) eqn:Eg; [by apply Pp, (inv_pending _ _ _ I s g)|].
      by apply Ps, (revoke_flags s l g).
    + assert (w = other s) as -> by by destruct w, s. rewrite revoke_other_pending in Hpe.
      by apply Pp, (inv_pending _ _ _ I _ g).
Qed.

Lemma revoke_preserves init c l s : chan_inv init c l ->
  exists c' ch, revoke_side c s (revoke_states s)
      = Some (c', at_side (changes_pending c') s, ch) /\
    chan_inv init c' (advance (revoke_states s) <$> l) /\ same_terms c c'.
Proof.
  intros I. destruct (change_htlcs_spec init c l s _ I (legal_revoke s)) as (v & ch & E & M & _).
  unfold revoke_side. rewrite E. cbn [mbind option_bind]. cbv zeta.
  set (fl := has_flag _ _). set (c1 := if fl then _ else _).
  assert (chan_inv init c1 (advance (revoke_states s) <$> l) /\ same_terms c c1) as [I1 T1].
  { split; [|unfold c1; by case_match].
    unfold c1. destruct fl eqn:Ef; apply (revoke_inv init c l s v); try done.
    - intros w. cbn. by destruct s, w.
    - intros _. apply at_set_side.
    - unfold fl in Ef. by rewrite Ef. }
  eexists _, ch. split; [reflexivity|]. case_match; [|done]. split; [|done].
  by apply inv_set_pending, inv_set_feerate.
Qed.

Lemma update_feerate_preserves init c l rate : chan_inv init c l ->
  chan_inv init (channel_update_feerate c rate).1 l /\ same_terms c (channel_update_feerate c rate).1.
Proof.
  intros I. unfold channel_update_feerate. case_match; [done|]. split; [|done].
  by apply inv_set_pending, inv_set_feerate.
Qed.

(** ** Adding an HTLC *)

(** The three arrays of [gather_htlcs], as filters. *)
Lemma gather_filters s l : gather s l =
  (List.filter (fun h => committed (state h) s) l,
   List.filter (fun h => committed (state h) s && pending (state h) s) l,
   List.filter (fun h => negb (committed (state h) s) && pending (state h) s) l).
Proof.
  induction l as [|h l IH]; [done|]. cbn [gather List.filter]. rewrite IH.
  unfold htlc_has, sflag. by repeat case_match; simplify_eq/=.
Qed.

Lemma zsum_list_filter {A} (f : A -> Z) (P : A -> bool) l :
  zsum f (List.filter P l) = zsum (fun x => if P x then f x else 0) l.
Proof.
  induction l as [|x l IH]; [done|]. cbn [List.filter]. rewrite zsum_cons.
  destruct (P x); rewrite ?zsum_cons, IH; lia.
Qed.

Lemma add_balances_spec f b l : add_balances f (s64 b) l = s64 (b + zsum f l).
Proof.
  revert b. induction l as [|h l IH]; intros b; [cbn; f_equal; unfold zsum; simpl; lia|].
  unfold add_balances in *. cbn [foldl]. rewrite s64_add_l, IH, zsum_cons. f_equal. lia.
Qed.

Lemma Forall_list_filter {A} (P : A -> Prop) (b : A -> bool) l :
  Forall P l -> Forall P (List.filter b l).
Proof. induction 1; simpl; [done|]. case_match; [by constructor|done]. Qed.

(** The balance after the removals, and then after the additions, that are pending. *)
Lemma pending_balances v s l :
  Forall amount_ok l ->
  let removing := List.filter (fun h => committed (state h) v && pending (state h) v) l in
  let adding := List.filter (fun h => negb (committed (state h) v) && pending (state h) v) l in
  zsum (fun h => balance_removing_htlc h s) removing
    + zsum (fun h => balance_adding_htlc h s) adding = zsum (pend v s) l /\
  0 <= zsum (fun h => balance_removing_htlc h s) removing <= zsum (in_flight v) l.
Proof.
  intros A. cbv zeta. rewrite !zsum_list_filter, <- zsum_add.
  rewrite Forall_forall in A. split; [|split].
  - apply zsum_ext_in. intros h Hh. rewrite balance_removing_exact, balance_adding_exact by auto.
    unfold pend. repeat case_match; simplify_eq/=; lia.
  - apply zsum_nonneg. intros h Hh. case_match; [|lia].
    rewrite balance_removing_exact by auto. specialize (A h Hh). unfold removing, amount_ok in *.
    case_match; lia.
  - apply zsum_le_in. intros h Hh. rewrite balance_removing_exact by auto.
    specialize (A h Hh). unfold removing, in_flight, amount_ok in *. repeat case_match; simplify_eq/=; lia.
Qed.

Lemma projected_bound init c l v s : chan_inv init c l -> 0 <= projected init l v s <= funding_msat c.
Proof.
  intros I. pose proof (inv_projected _ _ _ I v LOCAL) as PL. pose proof (inv_projected _ _ _ I v REMOTE) as PR.
  pose proof (terms_init _ _ (inv_terms _ _ _ I)) as (_ & _ & T).
  assert (zsum (effect v LOCAL) l + zsum (pend v LOCAL) l + zsum (effect v REMOTE) l
    + zsum (pend v REMOTE) l <= 0) as B.
  { rewrite <- !zsum_add, <- (zsum_0 l). apply zsum_le_in. intros h Hh. apply projected_conserves.
    pose proof (inv_amounts _ _ _ I) as A. rewrite Forall_forall in A. specialize (A h Hh).
    unfold amount_ok in A. lia. }
  unfold projected, ledger in *. destruct s; lia.
Qed.

(** The arithmetic of [add_htlc] on a channel that satisfies the invariant is exact. *)
Lemma add_balance_exact init c l v s h : chan_inv init c l -> amount_ok h ->
  let removing := List.filter (fun h => committed (state h) v && pending (state h) v) l in
  let adding := List.filter (fun h => negb (committed (state h) v) && pending (state h) v) l in
  let b0 := s64 (owed (view c) v s) in
  let b1 := add_balances (fun h => balance_removing_htlc h s) b0 removing in
  0 <= b0 /\ 0 <= b1 /\
  add_balances (fun h => balance_adding_htlc h s) b1 (adding ++ [h])
    = projected init l v s + Ledger.adding h s.
Proof.
  intros I Ah. cbv zeta. pose proof (pending_balances v s l (inv_amounts _ _ _ I)) as P.
  cbv zeta in P. destruct P as [P [B1 B2]].
  pose proof (ledger_bound init c l v s I) as Bl. pose proof (terms_funding _ _ (inv_terms _ _ _ I)) as F.
  pose proof (ledger_conserves init l v) as Ec. pose proof (terms_init _ _ (inv_terms _ _ _ I)) as (_ & _ & T).
  pose proof (inv_ledger _ _ _ I v LOCAL) as L1. pose proof (inv_ledger _ _ _ I v REMOTE) as L2.
  rewrite (inv_owed _ _ _ I). rewrite !add_balances_spec.
  split; [rewrite s64_small; lia|].
  split; [rewrite s64_small; destruct s; lia|].
  rewrite zsum_app, zsum_cons, balance_adding_exact by done.
  change (zsum (fun h => balance_adding_htlc h s) []) with 0.
  pose proof (projected_bound init c l v s I) as Bp. unfold projected in *.
  assert (- 2 ^ 62 <= Ledger.adding h s <= 0) by (unfold Ledger.adding, amount_ok in *; case_match; lia).
  rewrite s64_small; lia.
Qed.

Lemma htlc_get_None l i s : htlc_get l i s = None -> forall h, h ∈ l -> key h <> (i, s).
Proof.
  unfold htlc_get. intros E h Hh [= Ei Es]. rewrite list_find_None, Forall_forall in E.
  apply (E h Hh). rewrite Ei, Z.eqb_refl, htlc_has_owner, Es, side_eqb_refl. done.
Qed.

Lemma htlc_get_Some l i s n h : htlc_get l i s = Some (n, h) -> l !! n = Some h /\ key h = (i, s).
Proof.
  unfold htlc_get. intros (E & P & _)%list_find_Some. split; [done|]. apply Is_true_eq_true in P.
  apply andb_true_iff in P as [Ei Es]. rewrite htlc_has_owner in Es.
  apply Z.eqb_eq in Ei. apply side_eqb_eq in Es. unfold key. by rewrite Ei, Es.
Qed.

Context `{HtlcTable}.

Lemma add_fee_nonneg c h recipient a b d : 0 <= add_fee c h recipient a b d < 2 ^ 62.
Proof.
  unfold add_fee. case_match; [|lia]. cbv zeta.
  set (x := commit_tx_base_fee _ _). pose proof (base_fee_bound (feerate_per_kw (at_side (view c) recipient))
    (u64 (commit_tx_num_untrimmed a (feerate_per_kw (at_side (view c) recipient))
           (dust_limit_satoshis (at_side (config c) recipient)) recipient
         + commit_tx_num_untrimmed d (feerate_per_kw (at_side (view c) recipient))
             (dust_limit_satoshis (at_side (config c) recipient)) recipient
         - commit_tx_num_untrimmed b (feerate_per_kw (at_side (view c) recipient))
             (dust_limit_satoshis (at_side (config c) recipient)) recipient))) as B.
  fold x in B. rewrite s64_small; lia.
Qed.

(** What [add_htlc] asks of every HTLC, limits enforced or not. *)
Record accepted (c : channel) (h : htlc) : Prop := {
  acc_expiry : expiry h < SECONDS_POINT;
  acc_amount : msatoshi h <> 0;
  acc_minimum : htlc_minimum_msat (at_side (config c) (other (htlc_owner h))) <= msatoshi h;
  acc_maximum : msatoshi h <= max_payment_msat (channel_params c)
}.

(** [add_htlc] does not abort; on an error it changes nothing; and it only succeeds for a
    new HTLC of a sane amount, which (limits enforced) the sender can afford. *)
Lemma add_htlc_spec init c l st i msat cltv ph rt enforce :
  chan_inv init c l -> 0 <= msat ->
  let s := htlc_state_owner st in
  let h := Htlc st i msat cltv ph None None rt None 0 None in
  exists c' e, add_htlc c st i msat cltv ph rt enforce = Some (c', e) /\
    ((e <> CHANNEL_ERR_ADD_OK /\ c' = c) \/
     (e = CHANNEL_ERR_ADD_OK /\ c' = mark_pending st (set_htlcs (htlc_map_add l h) c) /\
      accepted c h /\ amount_ok h /\ (forall g, g ∈ l -> key g <> key h) /\
      (enforce = true -> channel_reserve_msat c s <= projected init l (other s) s - msat))).
Proof.
  intros I Hm s h. unfold add_htlc. fold s.
  unfold blocks_to_abs_locktime, abs_blocks_to_locktime.
  destruct (Z.leb_spec SECONDS_POINT cltv) as [|Hx]; [eexists _, _; split; [reflexivity|by left]|].
  rewrite (inv_htlcs _ _ _ I). cbn [mbind option_bind]. fold h.
  destruct (htlc_get l i (htlc_owner h)) as [[n old]|] eqn:Eg.
  { case_match; eexists _, _; (split; [reflexivity|by left]). }
  cbn [msatoshi h]. destruct (Z.eqb_spec msat 0) as [|Hnz]; [eexists _, _; split; [reflexivity|by left]|].
  destruct (Z.ltb_spec msat (htlc_minimum_msat (at_side (config c) (other s)))) as [|Hmin];
    [eexists _, _; split; [reflexivity|by left]|].
  destruct (Z.ltb_spec (max_payment_msat (channel_params c)) msat) as [|Hmax];
    [eexists _, _; split; [reflexivity|by left]|].
  assert (amount_ok h) as Ah.
  { pose proof (terms_payment _ _ (inv_terms _ _ _ I)). unfold amount_ok, h. cbn. lia. }
  unfold gather_htlcs. rewrite (inv_htlcs _ _ _ I), gather_filters.
  destruct (enforce && _); [eexists _, _; split; [reflexivity|by left]|].
  destruct (enforce && _); [eexists _, _; split; [reflexivity|by left]|].
  set (fee := add_fee _ _ _ _ _ _). assert (0 <= fee < 2 ^ 62) as Bf by apply add_fee_nonneg.
  destruct (add_balance_exact init c l (other s) s h I Ah) as (B0 & B1 & B2).
  fold (owed (view c) (other s) s).
  rewrite (proj2 (Z.leb_le 0 fee)) by lia. cbn [c_assert].
  rewrite (proj2 (Z.leb_le _ _) B0). cbn [c_assert].
  rewrite (proj2 (Z.leb_le _ _) B1). cbn [c_assert]. rewrite B2.
  assert (Ledger.adding h s = - msat) as Ea by (unfold Ledger.adding, h, s; cbn; by rewrite side_eqb_refl).
  rewrite Ea. pose proof (projected_bound init c l (other s) s I) as Bp.
  pose proof (terms_funding _ _ (inv_terms _ _ _ I)) as F.
  destruct (enforce && _) eqn:Ec; [eexists _, _; split; [reflexivity|by left]|].
  eexists _, _. split; [reflexivity|]. right. split; [done|]. split; [done|].
  split; [by constructor|]. split; [done|]. split.
  - apply (htlc_get_None _ _ _ Eg).
  - intros ->. simpl in Ec. apply Z.ltb_ge in Ec.
    pose proof (terms_reserve _ _ (inv_terms _ _ _ I) (other s)) as R.
    assert (channel_reserve_msat c s
      = channel_reserve_satoshis (at_side (config c) (other s)) * 1000) as Er
      by (apply u64_small; unfold fits; lia).
    rewrite Er in *. unfold amount_ok, h in Ah. cbn in Ah. rewrite !s64_small in Ec; lia.
Qed.

(** The table with a new HTLC in a state that is in no commitment yet. *)
Lemma inv_new_htlc init c l h : chan_inv init c l -> amount_ok h ->
  (forall g, g ∈ l -> key g <> key h) ->
  (forall v s, effect v s h = 0) -> (forall v s, 0 <= projected init l v s + pend v s h) ->
  chan_inv init (mark_pending (state h) (set_htlcs (htlc_map_add l h) c)) (htlc_map_add l h).
Proof.
  intros I A K E P. pose proof (htlc_map_add_perm l h) as Perm.
  assert (forall v s, ledger init (htlc_map_add l h) v s = ledger init l v s) as El.
  { intros v s. unfold ledger. rewrite Perm, zsum_cons, E. lia. }
  constructor.
  - apply (terms_same init c); [|apply I]. unfold mark_pending. by repeat case_match.
  - unfold mark_pending. by repeat case_match.
  - rewrite Perm. cbn [fmap list_fmap]. apply NoDup_cons. split; [|apply I].
    intros (g & Eg & Hg)%list_elem_of_fmap. by apply (K g Hg).
  - rewrite Perm. apply Forall_cons. split; [done|apply I].
  - intros v s. rewrite El. unfold mark_pending. repeat case_match; apply I.
  - intros v s. rewrite El. apply I.
  - intros v s. unfold projected. rewrite El, Perm, zsum_cons. specialize (P v s).
    unfold projected in P. lia.
  - intros v g Hg Hp. rewrite Perm in Hg. apply elem_of_cons in Hg as [->|Hg].
    + unfold mark_pending, sflag in *. unfold HTLC_LOCAL_F_PENDING, HTLC_REMOTE_F_PENDING.
      destruct v; rewrite Hp; by case_match.
    + pose proof (inv_pending _ _ _ I v g Hg Hp) as Q. unfold mark_pending.
      repeat case_match; try apply set_pending_true; try apply set_pending_true; done.
Qed.

(** The HTLC a successful [channel_add_htlc] adds. *)
Definition new_htlc (sender : side) (i msat cltv : Z) (ph rt : bytes) : htlc :=
  Htlc (match sender with LOCAL => SENT_ADD_HTLC | REMOTE => RCVD_ADD_HTLC end)
    i msat cltv ph None None rt None 0 None.

Lemma new_htlc_effects sender i msat cltv ph rt :
  let h := new_htlc sender i msat cltv ph rt in
  (forall v s, effect v s h = 0) /\
  (forall v s, pend v s h = if decide (v = other sender /\ s = sender) then - msat else 0).
Proof. split; intros v s; by destruct sender, v, s. Qed.

Lemma add_preserves init c l sender i msat cltv ph rt : chan_inv init c l -> 0 <= msat ->
  let h := new_htlc sender i msat cltv ph rt in
  exists c' e, channel_add_htlc c sender i msat cltv ph rt = Some (c', e) /\
    ((e <> CHANNEL_ERR_ADD_OK /\ c' = c) \/
     (e = CHANNEL_ERR_ADD_OK /\ same_terms c c' /\ accepted c h /\
      chan_inv init c' (htlc_map_add l h) /\
      channel_reserve_msat c sender <= projected init (htlc_map_add l h) (other sender) sender)).
Proof.
  intros I Hm h. unfold channel_add_htlc.
  set (st := match sender with LOCAL => _ | REMOTE => _ end).
  assert (htlc_state_owner st = sender) as Eo by by destruct sender.
  destruct (add_htlc_spec init c l st i msat cltv ph rt true I Hm) as (c' & e & E & Cases).
  exists c', e. split; [done|]. destruct Cases as [|(-> & -> & Ac & Ah & K & R)]; [by left|]. right.
  rewrite Eo in R. specialize (R eq_refl).
  change (Htlc st i msat cltv ph None None rt None 0 None) with h in Ac, Ah, K |- *.
  assert (0 <= channel_reserve_msat c sender).
  { unfold channel_reserve_msat. pose proof (u64_fits (channel_reserve_satoshis
      (at_side (config c) (other sender)) * 1000)). unfold fits in *. lia. }
  destruct (new_htlc_effects sender i msat cltv ph rt) as [E0 Ep]. fold h in E0, Ep.
  split; [done|]. split; [subst st; unfold mark_pending; by repeat case_match|].
  split; [done|]. split.
  - apply (inv_new_htlc init c l h); try done. intros v s. rewrite Ep. case_decide as D.
    + destruct D as [-> ->]. lia.
    + pose proof (inv_projected _ _ _ I v s). lia.
  - unfold projected, ledger in *. rewrite (htlc_map_add_perm l h), !zsum_cons, E0, Ep.
    rewrite decide_True by done. lia.
Qed.

(** ** Removing an HTLC *)

(** Replacing an HTLC by one with the same effect and a more favourable pending one. *)
Lemma inv_update init c l n h h' s : chan_inv init c l -> l !! n = Some h ->
  key h' = key h -> msatoshi h' = msatoshi h ->
  (forall v x, effect v x h' = effect v x h) -> (forall v x, pend v x h <= pend v x h') ->
  (forall v, pending (state h') v = true -> v = s) ->
  chan_inv init (set_pending s true (set_htlcs (<[n := h']> l) c)) (<[n := h']> l).
Proof.
  intros I Hn Ek Em Ee Ep Es.
  assert (forall v x, ledger init (<[n := h']> l) v x = ledger init l v x) as El.
  { intros v x. unfold ledger. rewrite (zsum_insert _ _ _ h) by done. rewrite Ee. lia. }
  constructor; cbn; try done.
  - by apply (terms_same init c), I.
  - rewrite list_fmap_insert, Ek, list_insert_id; [apply I|]. by rewrite list_lookup_fmap, Hn.
  - apply Forall_insert; [apply I|]. unfold amount_ok. rewrite Em.
    exact (Forall_lookup_1 _ _ _ _ (inv_amounts _ _ _ I) Hn).
  - intros v x. rewrite El. apply I.
  - intros v x. rewrite El. apply I.
  - intros v x. unfold projected. rewrite El, (zsum_insert _ _ _ h) by done.
    pose proof (inv_projected _ _ _ I v x) as P. unfold projected in P. specialize (Ep v x). lia.
  - intros v g Hg Hp. apply list_elem_of_lookup in Hg as [m Hm].
    destruct (decide (m = n)) as [->|Nm].
    + rewrite list_lookup_insert_eq in Hm by by eapply lookup_lt_Some. injection Hm as <-.
      rewrite (Es v Hp). apply at_set_side.
    + rewrite list_lookup_insert_ne in Hm by done. apply (set_pending_true s c).
      apply (inv_pending _ _ _ I v g); [|done]. apply list_elem_of_lookup. by exists m.
Qed.

Lemma remove_state_effects h h' st : 0 <= msatoshi h -> remove_state (state h) = Some st ->
  state h' = st -> id h' = id h -> msatoshi h' = msatoshi h ->
  key h' = key h /\ (forall v x, effect v x h' = effect v x h) /\
  (forall v x, pend v x h <= pend v x h') /\
  (forall v, pending (state h') v = true -> v = htlc_owner h) /\
  htlc_has h' HTLC_REMOVING = true.
Proof.
  intros Hm E Es Ei Em. unfold key, htlc_owner, htlc_has. rewrite Ei, Es. 
  unfold effect, pend, adding, removing, htlc_owner, paid_to, htlc_owner. rewrite Es, Em.
  destruct (state h); try discriminate E; injection E as <-; eval_flags;
    (split; [done|]); (split; [intros [] []; destruct (r h), (r h'); eval_flags; simpl; lia|]);
    (split; [intros [] []; eval_flags; destruct (r h'); simpl; lia|]);
    (split; [by intros []|done]).
Qed.

(** A successful removal of an HTLC puts it in [removed h p st] where [p] is the preimage. *)
Lemma fulfill_preserves init c l owner i preimage : chan_inv init c l ->
  exists c' e, channel_fulfill_htlc c owner i preimage = Some (c', e) /\
    (e = CHANNEL_ERR_REMOVE_OK -> same_terms c c' /\
     exists n h st, l !! n = Some h /\ key h = (i, owner) /\ rhash h = sha256 preimage /\
       remove_state (state h) = Some st /\
       chan_inv init c' (<[n := set_state st (set_r preimage h)]> l)).
Proof.
  intros I. unfold channel_fulfill_htlc. rewrite (inv_htlcs _ _ _ I). cbn [mbind option_bind].
  destruct (htlc_get l i owner) as [[n h]|] eqn:Eg; [|eexists _, _; by split].
  destruct (htlc_get_Some _ _ _ _ _ Eg) as [Hn Hk].
  case_bool_decide; [eexists _, _; by split|].
  case_bool_decide as Eh; simpl; [|eexists _, _; by split].
  destruct (htlc_has _ _); simpl; [|eexists _, _; by split].
  destruct (remove_state (state h)) as [st|] eqn:Er; [|eexists _, _; by split].
  eexists _, _. split; [reflexivity|]. intros _. split; [done|].
  exists n, h, st. split; [done|]. split; [done|]. split; [done|]. split; [done|].
  pose proof (Forall_lookup_1 _ _ _ _ (inv_amounts _ _ _ I) Hn) as A. unfold amount_ok in A.
  destruct (remove_state_effects h (set_state st (set_r preimage h)) st ltac:(lia) Er)
    as (K & Ee & Ep & Es & _); try done.
  apply (inv_update init c l n h); try done. intros v Hv. rewrite (Es v Hv).
  unfold key in Hk. congruence.
Qed.

Lemma fail_preserves init c l owner i : chan_inv init c l ->
  exists c' e, channel_fail_htlc c owner i = Some (c', e) /\
    (e <> CHANNEL_ERR_REMOVE_OK -> c' = c) /\
    (e = CHANNEL_ERR_REMOVE_OK -> same_terms c c' /\
     exists n h st, l !! n = Some h /\ key h = (i, owner) /\
       remove_state (state h) = Some st /\ chan_inv init c' (<[n := set_state st h]> l)).
Proof.
  intros I. unfold channel_fail_htlc. rewrite (inv_htlcs _ _ _ I). cbn [mbind option_bind].
  destruct (htlc_get l i owner) as [[n h]|] eqn:Eg; [|eexists _, _; by split].
  destruct (htlc_get_Some _ _ _ _ _ Eg) as [Hn Hk].
  destruct (htlc_has _ _); simpl; [|eexists _, _; by split].
  destruct (remove_state (state h)) as [st|] eqn:Er; [|eexists _, _; by split].
  eexists _, _. split; [reflexivity|]. split; [done|]. intros _. split; [done|].
  exists n, h, st. split; [done|]. split; [done|]. split; [done|].
  pose proof (Forall_lookup_1 _ _ _ _ (inv_amounts _ _ _ I) Hn) as A. unfold amount_ok in A.
  destruct (remove_state_effects h (set_state st h) st ltac:(lia) Er)
    as (K & Ee & Ep & Es & _); try done.
  apply (inv_update init c l n h); try done. intros v Hv. rewrite (Es v Hv).
  unfold key in Hk. congruence.
Qed.
End Invariant.
