(* ===== verification/ChannelSafety.v ===== *)
(** * Safety of the channel state machine

    Any sequence of operations on a fresh channel, as a step relation, refines the table
    machine of [table_step]; the theorems of the channel follow from the invariant of
    [ChannelInv]. *)
From stdpp Require Import strings.
From S2P Require Import Prelude HtlcState Sha256 Secp KeyDerive Params Htlc Channel Ledger.
From S2P Require Import ChannelInv.
Local Open Scope Z_scope.

Section Safety.
Context `{Secp256k1} `{HtlcTable}.

(** One operation. An error of [channel_fulfill_htlc] ends the channel (its callers fail
    it), so only its success is a step; amounts are unsigned. *)
Inductive chan_step (c c' : channel) : Prop :=
  | step_add sender i msat cltv ph rt e : 0 <= msat ->
      channel_add_htlc c sender i msat cltv ph rt = Some (c', e) -> chan_step c c'
  | step_fulfill owner i preimage :
      channel_fulfill_htlc c owner i preimage = Some (c', CHANNEL_ERR_REMOVE_OK) -> chan_step c c'
  | step_fail owner i e : channel_fail_htlc c owner i = Some (c', e) -> chan_step c c'
  | step_sending_commit b ch : channel_sending_commit c = Some (c', b, ch) -> chan_step c c'
  | step_rcvd_commit b ch : channel_rcvd_commit c = Some (c', b, ch) -> chan_step c c'
  | step_rcvd_revoke b ch : channel_rcvd_revoke_and_ack c = Some (c', b, ch) -> chan_step c c'
  | step_sending_revoke b : channel_sending_revoke_and_ack c = Some (c', b) -> chan_step c c'
  | step_feerate rate b : channel_update_feerate c rate = (c', b) -> chan_step c c'.

(** ** The table machine it refines *)
Inductive table_step (A : htlc -> Prop) (l l' : list htlc) : Prop :=
  | ts_same : l' = l -> table_step A l l'
  | ts_add h : l' = htlc_map_add l h -> A h -> (state h = SENT_ADD_HTLC \/ state h = RCVD_ADD_HTLC) ->
      r h = None -> table_step A l l'
  | ts_advance cs states : legal cs states -> l' = advance states <$> l -> table_step A l l'
  | ts_fulfill n h st p : l !! n = Some h -> remove_state (state h) = Some st ->
      sha256 p = rhash h -> l' = <[n := set_state st (set_r p h)]> l -> table_step A l l'
  | ts_fail n h st : l !! n = Some h -> remove_state (state h) = Some st ->
      l' = <[n := set_state st h]> l -> table_step A l l'.

Lemma same_terms_refl c : same_terms c c.
Proof. done. Qed.

Lemma same_terms_trans c c' c'' : same_terms c c' -> same_terms c' c'' -> same_terms c c''.
Proof. intros (?&?&?) (?&?&?). repeat split; congruence. Qed.

Lemma same_terms_sym c c' : same_terms c c' -> same_terms c' c.
Proof. intros (?&?&?). by repeat split. Qed.

Lemma accepted_same c c' h : same_terms c c' -> accepted c' h -> accepted c h.
Proof. intros (_ & Ec & Ep) A. destruct A. constructor; rewrite <- ?Ec, <- ?Ep; done. Qed.

Lemma table_steps_mono (A B : htlc -> Prop) l l' : (forall h, A h -> B h) ->
  rtc (table_step A) l l' -> rtc (table_step B) l l'.
Proof.
  intros AB R. induction R as [|l l1 l2 S _ IH]; [done|]. apply (rtc_l _ _ l1); [|done].
  destruct S; eauto using ts_same, ts_add, ts_advance, ts_fulfill, ts_fail.
Qed.

(** A step of the channel is a step of the table, and keeps the invariant. *)
Lemma chan_step_refines init c c' l : chan_inv init c l -> chan_step c c' ->
  exists l', chan_inv init c' l' /\ table_step (accepted c) l l' /\ same_terms c c'.
Proof.
  intros I S. destruct S as [sender i msat cltv ph rt e Hm E|owner i p E|owner i e E|b ch E|b ch E
    |b ch E|b E|rate b E].
  - destruct (add_preserves init c l sender i msat cltv ph rt I Hm)
      as (c2 & e2 & E2 & [[_ ->]|(-> & T & Ac & I2 & _)]); rewrite E in E2; simplify_eq.
    + exists l. split; [done|]. split; [by apply ts_same|done].
    + eexists. split; [exact I2|]. split; [|done]. eapply ts_add; [done|done| |done].
      destruct sender; auto.
  - destruct (fulfill_preserves init c l owner i p I) as (c2 & e2 & E2 & Ok). rewrite E in E2.
    simplify_eq. destruct (Ok eq_refl) as (T & n & h & st & Hn & _ & Hh & Hr & I2).
    eexists. split; [exact I2|]. split; [|done]. by eapply ts_fulfill.
  - destruct (fail_preserves init c l owner i I) as (c2 & e2 & E2 & Err & Ok). rewrite E in E2.
    simplify_eq. destruct (decide (e2 = CHANNEL_ERR_REMOVE_OK)) as [->|Ne].
    + destruct (Ok eq_refl) as (T & n & h & st & Hn & _ & Hr & I2).
      eexists. split; [exact I2|]. split; [|done]. by eapply ts_fail.
    + rewrite (Err Ne). exists l. split; [done|]. split; [by apply ts_same|done].
  - destruct (commit_preserves init c l REMOTE I) as (c2 & ch2 & E2 & I2 & T & _).
    unfold channel_sending_commit in E. change sending_commit_states with (commit_states REMOTE) in E.
    rewrite E in E2. simplify_eq. eexists. split; [exact I2|]. split; [|done].
    eapply (ts_advance _ _ _ REMOTE); [constructor|done].
  - destruct (commit_preserves init c l LOCAL I) as (c2 & ch2 & E2 & I2 & T & _).
    unfold channel_rcvd_commit in E. change rcvd_commit_states with (commit_states LOCAL) in E.
    rewrite E in E2. simplify_eq. eexists. split; [exact I2|]. split; [|done].
    eapply (ts_advance _ _ _ LOCAL); [constructor|done].
  - destruct (revoke_preserves init c l LOCAL I) as (c2 & ch2 & E2 & I2 & T).
    unfold channel_rcvd_revoke_and_ack in E. change rcvd_revoke_states with (revoke_states LOCAL) in E.
    rewrite E in E2. simplify_eq. eexists. split; [exact I2|]. split; [|done].
    eapply (ts_advance _ _ _ LOCAL); [constructor|done].
  - destruct (revoke_preserves init c l REMOTE I) as (c2 & ch2 & E2 & I2 & T).
    unfold channel_sending_revoke_and_ack in E.
    change sending_revoke_states with (revoke_states REMOTE) in E.
    rewrite E2 in E. simplify_eq/=. eexists. split; [exact I2|]. split; [|done].
    eapply (ts_advance _ _ _ REMOTE); [constructor|done].
  - destruct (update_feerate_preserves init c l rate I) as [I2 T]. rewrite E in I2, T.
    exists l. split; [done|]. split; [by apply ts_same|done].
Qed.

(** A fresh channel. *)
Definition init_of (funding_satoshis local_msatoshi : Z) : sided Z :=
  Sided local_msatoshi (funding_satoshis * 1000 - local_msatoshi).

(** Terms small enough for the arithmetic: any real channel's are. *)
Definition sane_terms (funding_satoshis local_msatoshi : Z) (local remote : channel_config) : Prop :=
  0 <= local_msatoshi /\ 0 <= funding_satoshis /\ funding_satoshis * 1000 < 2 ^ 62 /\
  0 <= channel_reserve_satoshis local * 1000 < 2 ^ 63 /\
  0 <= channel_reserve_satoshis remote * 1000 < 2 ^ 63.

Lemma new_channel_inv ch ft fo fs lm rates local remote lb rb lk rk fu c :
  sane_terms fs lm local remote ->
  new_full_channel ch ft fo fs lm rates local remote lb rb lk rk fu = Some c ->
  chan_inv (init_of fs lm) c [] /\ funding_msat c = fs * 1000.
Proof.
  intros (L & F & B & R1 & R2) E. unfold new_full_channel, new_initial_channel in E.
  destruct (_ <? fs); [done|]. rewrite (u64_small (fs * 1000)) in E by (unfold fits; lia).
  destruct (Z.ltb_spec (fs * 1000) lm) as [|Hl]; [done|].
  destruct (chainparams_by_chainhash ch) as [p|] eqn:Ep; [|done]. injection E as <-.
  pose proof (chainparams_max_payment _ _ Ep) as Mp. split; [|done].
  assert (forall v s, ledger (init_of fs lm) [] v s = at_side (init_of fs lm) s) as El
    by (intros; unfold ledger, zsum; simpl; lia).
  assert (forall s, 0 <= at_side (init_of fs lm) s) as Pi by (intros []; simpl; lia).
  constructor; cbn.
  - constructor; cbn; try done; try lia. by intros [].
  - done.
  - constructor.
  - constructor.
  - intros v s. rewrite El. destruct v, s; cbn; try done; apply u64_small; unfold fits; lia.
  - intros v s. rewrite El. apply Pi.
  - intros v s. unfold projected. rewrite El. specialize (Pi s). unfold zsum. simpl. lia.
  - intros v h Hh. by apply not_elem_of_nil in Hh.
Qed.

Lemma reachable_inv init c0 c l0 : chan_inv init c0 l0 -> rtc chan_step c0 c ->
  exists l, chan_inv init c l /\ rtc (table_step (accepted c0)) l0 l /\ same_terms c0 c.
Proof.
  intros I R. revert l0 I. induction R as [c|c0 c1 c S _ IH]; intros l0 I.
  { exists l0. by split. }
  destruct (chan_step_refines init c0 c1 l0 I S) as (l1 & I1 & T1 & S1).
  destruct (IH l1 I1) as (l & I2 & T2 & S2). exists l. split; [done|].
  split; [|by eapply same_terms_trans]. eapply rtc_l; [done|].
  eapply table_steps_mono; [|done]. intros h. by apply accepted_same.
Qed.

(** [c] can be reached from a fresh channel of [fs] satoshi, [lm] millisatoshi of it ours. *)
Inductive reachable (fs lm : Z) (c : channel) : Prop :=
  Reachable ch ft fo rates local remote lb rb lk rk fu c0 :
    sane_terms fs lm local remote ->
    new_full_channel ch ft fo fs lm rates local remote lb rb lk rk fu = Some c0 ->
    rtc chan_step c0 c -> reachable fs lm c.

Lemma reachable_spec fs lm c : reachable fs lm c ->
  exists l, chan_inv (init_of fs lm) c l /\ rtc (table_step (accepted c)) [] l /\ funding_msat c = fs * 1000.
Proof.
  intros [ch ft fo rates local remote lb rb lk rk fu c0 T E R].
  destruct (new_channel_inv _ _ _ _ _ _ _ _ _ _ _ _ _ _ T E) as [I Ef].
  destruct (reachable_inv _ _ _ _ I R) as (l & I' & Tl & St). exists l.
  split; [done|]. split; [|destruct St; congruence].
  eapply table_steps_mono; [|done]. intros h. by apply accepted_same, same_terms_sym.
Qed.

(** C1. The accounts are exact: in every reachable channel and for either side's
    commitment, what each side is owed is its initial balance, less the HTLCs it offered
    that were ever in that commitment, plus those removed from it in its favour; it never
    wraps, is never negative, and with the HTLCs in flight adds up to the funding. *)
Theorem channel_accounts fs lm c : reachable fs lm c ->
  exists l, htlcs c = Some l /\ forall v,
    (forall s, owed (view c) v s = ledger (init_of fs lm) l v s /\
               0 <= owed (view c) v s <= fs * 1000) /\
    owed (view c) v LOCAL + owed (view c) v REMOTE + zsum (in_flight v) l = fs * 1000.
Proof.
  intros R. destruct (reachable_spec fs lm c R) as (l & I & _ & Ef). exists l.
  split; [apply I|]. intros v. split.
  - intros s. rewrite (inv_owed _ _ _ I), <- Ef. split; [done|]. by apply ledger_bound.
  - rewrite !(inv_owed _ _ _ I), (ledger_conserves (init_of fs lm) l v). simpl. lia.
Qed.

(** C20. No operation aborts: in a reachable channel no assertion of full_channel.c fails
    and no pointer is missing, whatever HTLC is added, removed, committed or revoked. *)
Theorem channel_never_aborts fs lm c : reachable fs lm c ->
  (forall sender i msat cltv ph rt, 0 <= msat ->
     is_Some (channel_add_htlc c sender i msat cltv ph rt)) /\
  (forall owner i preimage, is_Some (channel_fulfill_htlc c owner i preimage)) /\
  (forall owner i, is_Some (channel_fail_htlc c owner i)) /\
  is_Some (channel_sending_commit c) /\ is_Some (channel_rcvd_commit c) /\
  is_Some (channel_rcvd_revoke_and_ack c) /\ is_Some (channel_sending_revoke_and_ack c) /\
  is_Some (num_channel_htlcs c).
Proof.
  intros R. destruct (reachable_spec fs lm c R) as (l & I & _ & _).
  split. { intros. destruct (add_preserves _ c l sender i msat cltv ph rt I) as (? & ? & -> & _); by eauto. }
  split. { intros. destruct (fulfill_preserves _ c l owner i preimage I) as (? & ? & -> & _); by eauto. }
  split. { intros. destruct (fail_preserves _ c l owner i I) as (? & ? & -> & _); by eauto. }
  split. { destruct (commit_preserves _ c l REMOTE I) as (? & ? & E & _). eexists. exact E. }
  split. { destruct (commit_preserves _ c l LOCAL I) as (? & ? & E & _). eexists. exact E. }
  split. { destruct (revoke_preserves _ c l LOCAL I) as (? & ? & E & _). eexists. exact E. }
  split. { destruct (revoke_preserves _ c l REMOTE I) as (c' & ? & E & _).
           unfold channel_sending_revoke_and_ack.
           change sending_revoke_states with (revoke_states REMOTE). rewrite E. by eexists. }
  unfold num_channel_htlcs. rewrite (inv_htlcs _ _ _ I). by eexists.
Qed.

(** The two commitments agree: in a reachable channel where every HTLC is in both
    commitments or in neither, and was ever in both or in neither, both commitments owe
    each side the same. *)
Theorem commitments_agree fs lm c l : reachable fs lm c -> htlcs c = Some l ->
  Forall (fun h => committed (state h) LOCAL = committed (state h) REMOTE /\
                   was_committed (state h) LOCAL = was_committed (state h) REMOTE) l ->
  forall s, owed (view c) LOCAL s = owed (view c) REMOTE s.
Proof.
  intros R E F s. destruct (reachable_spec fs lm c R) as (l' & I & _ & _).
  rewrite (inv_htlcs _ _ _ I) in E. injection E as ->. rewrite !(inv_owed _ _ _ I). unfold ledger.
  f_equal. apply zsum_ext_in. intros h Hh. rewrite Forall_forall in F.
  destruct (F h Hh) as [E1 E2]. unfold effect. by rewrite E1, E2.
Qed.

(** C27. An accepted HTLC is affordable: when [channel_add_htlc] succeeds on a reachable
    channel, the sender keeps at least its reserve in the recipient's commitment once
    everything pending for it is applied, the new HTLC included. *)
Theorem added_htlc_affordable fs lm c sender i msat cltv ph rt c' : reachable fs lm c -> 0 <= msat ->
  channel_add_htlc c sender i msat cltv ph rt = Some (c', CHANNEL_ERR_ADD_OK) ->
  exists l, htlcs c' = Some l /\
    channel_reserve_msat c sender <= projected (init_of fs lm) l (other sender) sender.
Proof.
  intros R Hm E. destruct (reachable_spec fs lm c R) as (l & I & _ & _).
  destruct (add_preserves _ c l sender i msat cltv ph rt I Hm)
    as (c2 & e & E2 & [[Ne _]|(_ & _ & _ & I2 & P)]); rewrite E in E2; simplify_eq.
  eexists. split; [apply I2|done].
Qed.

(** ** The life of one HTLC *)

(** [h'] is [h] later on. *)
Definition later (h h' : htlc) : Prop :=
  key h' = key h /\ msatoshi h' = msatoshi h /\ rhash h' = rhash h /\ expiry h' = expiry h /\
  (htlc_state_num (state h) <= htlc_state_num (state h'))%nat.

(** Only an HTLC being removed has a preimage, and it is one of its hash. *)
Definition preimage_ok (h : htlc) : Prop :=
  forall p, r h = Some p -> sha256 p = rhash h /\ (5 <= htlc_state_num (state h) mod 10)%nat.

Lemma advance_later cs states h : legal cs states -> later h (advance states h).
Proof.
  intros L. split; [by apply (advance_key states cs)|]. unfold advance.
  destruct (in_states states (state h)) eqn:E; [|repeat split; auto].
  cbn. split; [done|]. split; [done|]. split; [done|].
  by destruct L, cs; destruct h as [[]]; try discriminate E; cbn; lia.
Qed.

Lemma advance_preimage cs states h : legal cs states -> preimage_ok h ->
  preimage_ok (advance states h).
Proof.
  intros L P p. unfold advance. destruct (in_states states (state h)) eqn:E; [|apply P].
  cbn. intros Er. destruct (P p Er) as [? B]. split; [done|].
  destruct L, cs; destruct h as [[]]; try discriminate E; revert B; vm_compute; lia.
Qed.

Lemma remove_later h h' st : remove_state (state h) = Some st -> state h' = st -> id h' = id h ->
  msatoshi h' = msatoshi h -> rhash h' = rhash h -> expiry h' = expiry h -> later h h'.
Proof.
  intros E Es Ei Em Eh Ex. unfold later, key, htlc_owner. rewrite Es, Ei, Em, Eh, Ex.
  destruct (state h); try discriminate E; injection E as <-; cbn; repeat split; auto with lia.
Qed.

Lemma table_step_later A l l' h : table_step A l l' -> h ∈ l -> exists h', h' ∈ l' /\ later h h'.
Proof.
  assert (forall h, later h h) as Refl by (intros; repeat split; auto).
  assert (forall n g g', l !! n = Some g -> later g g' -> h ∈ l ->
    exists h', h' ∈ <[n := g']> l /\ later h h') as Upd.
  { intros n g g' Hn L [m Hm]%list_elem_of_lookup. destruct (decide (m = n)) as [->|Ne].
    - exists g'. rewrite Hn in Hm. injection Hm as ->. split; [|done].
      apply list_elem_of_lookup. exists n. apply list_lookup_insert_eq. by eapply lookup_lt_Some.
    - exists h. split; [|done]. apply list_elem_of_lookup. exists m. by rewrite list_lookup_insert_ne. }
  intros S Hh. destruct S as [->|g -> _ _ _|cs states L ->|n g st p Hn E Hp ->|n g st Hn E ->].
  - by exists h.
  - exists h. split; [|done]. rewrite htlc_map_add_perm. by apply elem_of_cons; right.
  - exists (advance states h). split; [by apply list_elem_of_fmap_2|by eapply advance_later].
  - apply (Upd n g); try done. by eapply remove_later.
  - apply (Upd n g); try done. by eapply remove_later.
Qed.

Lemma table_step_preimage A l l' : table_step A l l' -> Forall preimage_ok l -> Forall preimage_ok l'.
Proof.
  intros S F. destruct S as [->|g -> _ Hs Hr|cs states L ->|n g st p Hn E Hp ->|n g st Hn E ->]; [done|..].
  - rewrite htlc_map_add_perm. constructor; [|done]. intros p. by rewrite Hr.
  - apply Forall_fmap. eapply Forall_impl; [exact F|]. intros h. by apply (advance_preimage cs).
  - apply Forall_insert; [done|]. intros q [= <-]. cbn. split; [done|].
    destruct (state g); try discriminate E; injection E as <-; vm_compute; lia.
  - apply Forall_insert; [done|]. intros q Hq. cbn in Hq.
    destruct (Forall_lookup_1 _ _ _ _ F Hn q Hq) as [Hs B]. split; [done|].
    destruct (state g); try discriminate E; injection E as <-; vm_compute; lia.
Qed.

Lemma table_steps_Forall (A P : htlc -> Prop) l l' :
  (forall l l', table_step A l l' -> Forall P l -> Forall P l') ->
  rtc (table_step A) l l' -> Forall P l -> Forall P l'.
Proof. intros S R. induction R as [|l l1 l2 S1 _ IH]; [done|]. intros F. by apply IH, (S l). Qed.

Lemma accepted_later c h h' : later h h' -> accepted c h -> accepted c h'.
Proof.
  intros (K & M & _ & X & _) A. destruct A. unfold key in K. injection K as _ K.
  constructor; rewrite ?M, ?X, ?K; done.
Qed.

Lemma table_step_accepted c l l' : table_step (accepted c) l l' ->
  Forall (accepted c) l -> Forall (accepted c) l'.
Proof.
  intros S F. destruct S as [->|g -> Ac Hs Hr|cs states L ->|n g st p Hn E Hp ->|n g st Hn E ->]; [done|..].
  - rewrite htlc_map_add_perm. by constructor.
  - apply Forall_fmap. eapply Forall_impl; [exact F|]. intros h. by apply accepted_later, (advance_later cs).
  - apply Forall_insert; [done|]. eapply accepted_later; [by eapply remove_later|].
    exact (Forall_lookup_1 _ _ _ _ F Hn).
  - apply Forall_insert; [done|]. eapply accepted_later; [by eapply remove_later|].
    exact (Forall_lookup_1 _ _ _ _ F Hn).
Qed.

Lemma reachable_tables fs lm c : reachable fs lm c ->
  exists l, chan_inv (init_of fs lm) c l /\ funding_msat c = fs * 1000 /\
    Forall preimage_ok l /\ Forall (accepted c) l.
Proof.
  intros R. destruct (reachable_spec fs lm c R) as (l & I & T & Ef). exists l.
  split; [done|]. split; [done|]. split.
  - apply (table_steps_Forall (accepted c) preimage_ok [] l); [|done|constructor].
    intros. by eapply table_step_preimage.
  - apply (table_steps_Forall (accepted c) _ [] l); [|done|constructor].
    intros. by eapply table_step_accepted.
Qed.

(** C21. A payee is paid only for a preimage: in a reachable channel, an HTLC whose amount
    goes (or went) to its recipient has a preimage of its payment hash and is being
    removed or removed. *)
Theorem paid_for_preimage fs lm c l h : reachable fs lm c -> htlcs c = Some l -> h ∈ l ->
  paid_to h = other (htlc_owner h) ->
  exists p, r h = Some p /\ sha256 p = rhash h /\ (5 <= htlc_state_num (state h) mod 10)%nat.
Proof.
  intros R E Hh Hp. destruct (reachable_tables fs lm c R) as (l' & I & _ & F & _).
  rewrite (inv_htlcs _ _ _ I) in E. injection E as ->.
  unfold paid_to in Hp. destruct (r h) as [p|] eqn:Er; [|by destruct (htlc_owner h)].
  exists p. split; [done|]. rewrite Forall_forall in F. by apply (F h Hh).
Qed.

(** An HTLC never goes back: whatever follows, an HTLC of a reachable channel stays
    in the table with its id, owner, amount, hash and expiry, and its state only advances
    in the order of [enum htlc_state]. *)
Theorem htlc_only_advances fs lm c c' l h : reachable fs lm c -> htlcs c = Some l -> h ∈ l ->
  rtc chan_step c c' -> exists l' h', htlcs c' = Some l' /\ h' ∈ l' /\ key h' = key h /\
    msatoshi h' = msatoshi h /\ rhash h' = rhash h /\ expiry h' = expiry h /\
    (htlc_state_num (state h) <= htlc_state_num (state h'))%nat.
Proof.
  intros R E Hh S. destruct (reachable_spec fs lm c R) as (l0 & I & _ & _).
  rewrite (inv_htlcs _ _ _ I) in E. injection E as ->.
  destruct (reachable_inv _ c c' l I S) as (l' & I' & T & _). exists l'.
  assert (exists h', h' ∈ l' /\ later h h') as (h' & Hh' & ? & ? & ? & ? & ?).
  { clear I I'. revert h Hh. induction T as [l|l l1 l2 S1 _ IH]; intros h Hh.
    - exists h. split; [done|]. repeat split; auto.
    - destruct (table_step_later (accepted c) l l1 h S1 Hh) as (h1 & Hh1 & L1).
      destruct (IH h1 Hh1) as (h2 & Hh2 & L2). exists h2. split; [done|].
      destruct L1 as (A1 & A2 & A3 & A4 & A5), L2 as (B1 & B2 & B3 & B4 & B5).
      repeat split; try congruence; lia. }
  exists h'. split; [apply I'|]. done.
Qed.
End Safety.

(** ** Running a channel *)
Section Run.
Context `{Secp256k1} `{HtlcTable}.

Inductive op :=
  | OpAdd (sender : side) (i msat cltv : Z) (ph rt : bytes)
  | OpFulfill (owner : side) (i : Z) (preimage : bytes)
  | OpFail (owner : side) (i : Z)
  | OpSendCommit | OpRcvdCommit | OpRcvdRevoke | OpSendRevoke
  | OpFeerate (rate : Z).

(** The channel after one operation; a failed fulfilment, or an abort, ends the run. *)
Definition exec (o : op) (c : channel) : option channel :=
  match o with
  | OpAdd s i m x ph rt =>
      if 0 <=? m then fst <$> channel_add_htlc c s i m x ph rt else None
  | OpFulfill s i p =>
      '(c, e) ← channel_fulfill_htlc c s i p;
      if bool_decide (e = CHANNEL_ERR_REMOVE_OK) then Some c else None
  | OpFail s i => fst <$> channel_fail_htlc c s i
  | OpSendCommit => (fun x => x.1.1) <$> channel_sending_commit c
  | OpRcvdCommit => (fun x => x.1.1) <$> channel_rcvd_commit c
  | OpRcvdRevoke => (fun x => x.1.1) <$> channel_rcvd_revoke_and_ack c
  | OpSendRevoke => fst <$> channel_sending_revoke_and_ack c
  | OpFeerate rate => Some (channel_update_feerate c rate).1
  end.

Fixpoint exec_all (os : list op) (c : channel) : option channel :=
  match os with [] => Some c | o :: os => c ← exec o c; exec_all os c end.

Lemma exec_step o c c' : exec o c = Some c' -> chan_step c c'.
Proof.
  destruct o; cbn [exec]; intros E.
  - destruct (Z.leb_spec 0 msat); [|done].
    apply fmap_Some in E as ([c2 e] & E & ->). by eapply step_add.
  - destruct (channel_fulfill_htlc c owner i preimage) as [[c2 e]|] eqn:F; [|done]. simpl in E.
    case_bool_decide; [|done]. simplify_eq. by eapply step_fulfill.
  - apply fmap_Some in E as ([c2 e] & E & ->). by eapply step_fail.
  - apply fmap_Some in E as ([[c2 b] ch] & E & ->). by eapply step_sending_commit.
  - apply fmap_Some in E as ([[c2 b] ch] & E & ->). by eapply step_rcvd_commit.
  - apply fmap_Some in E as ([[c2 b] ch] & E & ->). by eapply step_rcvd_revoke.
  - apply fmap_Some in E as ([c2 b] & E & ->). by eapply step_sending_revoke.
  - injection E as <-. eapply (step_feerate _ _ rate). apply surjective_pairing.
Qed.

Lemma exec_all_steps os c c' : exec_all os c = Some c' -> rtc chan_step c c'.
Proof.
  revert c. induction os as [|o os IH]; intros c E; [by simplify_eq/=|]. cbn [exec_all] in E.
  destruct (exec o c) as [c1|] eqn:E1; [|done]. simpl in E.
  eapply rtc_l; [by apply (exec_step o)|by apply IH].
Qed.
End Run.

(** ** A channel in use

    One million satoshi on regtest, 700000 of them ours; we offer an HTLC of 50000 satoshi,
    which is committed on both sides and then fulfilled. *)
Module Demo.
#[local] Existing Instances Scalars.ops Scalars.laws InOrder.table.

Definition cfg : channel_config := ChannelConfig 0 546 1000000000 10000 1000 6 483.
Definition preimage : bytes := replicate 32 7.

Definition regtest_hash : bytes :=
  match chainparams_for_network "regtest"%string with Some p => genesis_blockhash p | None => [] end.

Definition fresh (lm : Z) : option channel :=
  new_full_channel regtest_hash (replicate 32 1) 0 1000000 lm (Sided 253 253) cfg cfg
    (demo_basepoints 20) (demo_basepoints 30) (demo_point 40) (demo_point 41) LOCAL.

Definition add_op : op := OpAdd LOCAL 0 50000000 500000 (sha256 preimage) [].
Definition commit_ops : list op := [OpSendCommit; OpRcvdRevoke; OpRcvdCommit; OpSendRevoke].

Definition run (os : list op) : option channel := c ← fresh 700000000; exec_all os c.

Definition added : list op := [add_op].
Definition committed_both : list op := add_op :: commit_ops.
Definition fulfilling : list op := committed_both ++ [OpFulfill LOCAL 0 preimage; OpRcvdCommit].

Lemma run_reachable os c : run os = Some c -> reachable 1000000 700000000 c.
Proof.
  unfold run. destruct (fresh 700000000) as [c0|] eqn:E; [|done]. simpl. intros R.
  apply (Reachable 1000000 700000000 c regtest_hash (replicate 32 1) 0 (Sided 253 253) cfg cfg
    (demo_basepoints 20) (demo_basepoints 30) (demo_point 40) (demo_point 41) LOCAL c0); [|exact E|].
  - unfold sane_terms. cbn. lia.
  - by apply (exec_all_steps os).
Qed.

(** A run that yields a channel of which a test holds. *)
Definition test (os : list op) (P : channel -> bool) : bool :=
  match run os with Some c => P c | None => false end.

Lemma test_run os P : test os P = true -> exists c, run os = Some c /\ P c = true.
Proof. unfold test. destruct (run os) as [c|]; [by exists c|done]. Qed.

Lemma channel_accounts_witness : exists c, run fulfilling = Some c /\
  owed (view c) LOCAL REMOTE = 350000000 /\ owed (view c) REMOTE REMOTE = 300000000 /\
  exists l, htlcs c = Some l /\ forall v,
    (forall s, owed (view c) v s = ledger (init_of 1000000 700000000) l v s /\
               0 <= owed (view c) v s <= 1000000 * 1000) /\
    owed (view c) v LOCAL + owed (view c) v REMOTE + zsum (in_flight v) l = 1000000 * 1000.
Proof.
  destruct (test_run fulfilling (fun c => (owed (view c) LOCAL REMOTE =? 350000000)
    && (owed (view c) REMOTE REMOTE =? 300000000))) as (c & E & T); [vm_compute; reflexivity|].
  apply andb_true_iff in T as [T1 T2]. apply Z.eqb_eq in T1, T2.
  exists c. split; [exact E|]. split; [exact T1|]. split; [exact T2|].
  exact (channel_accounts 1000000 700000000 c (run_reachable _ _ E)).
Defined.

Lemma channel_never_aborts_witness : exists c, run added = Some c /\
  is_Some (channel_sending_commit c).
Proof.
  destruct (test_run added (fun _ => true)) as (c & E & _); [vm_compute; reflexivity|].
  exists c. split; [exact E|].
  destruct (channel_never_aborts 1000000 700000000 c (run_reachable _ _ E)) as (_ & _ & _ & S & _).
  exact S.
Defined.

(** A test on the table. *)
Definition on_table (P : list htlc -> bool) (c : channel) : bool :=
  match htlcs c with Some l => P l | None => false end.

Lemma on_table_spec P c : on_table P c = true -> exists l, htlcs c = Some l /\ P l = true.
Proof. unfold on_table. destruct (htlcs c) as [l|]; [by exists l|done]. Qed.

Definition in_sync (h : htlc) : bool :=
  Bool.eqb (committed (state h) LOCAL) (committed (state h) REMOTE)
  && Bool.eqb (was_committed (state h) LOCAL) (was_committed (state h) REMOTE).

Lemma commitments_agree_witness : exists c, run committed_both = Some c /\
  owed (view c) LOCAL LOCAL = 650000000 /\
  forall s, owed (view c) LOCAL s = owed (view c) REMOTE s.
Proof.
  destruct (test_run committed_both (fun c => (owed (view c) LOCAL LOCAL =? 650000000)
    && on_table (forallb in_sync) c)) as (c & E & T); [vm_compute; reflexivity|].
  apply andb_true_iff in T as [T1 T2]. apply Z.eqb_eq in T1.
  apply on_table_spec in T2 as (l & El & T2). exists c. split; [exact E|]. split; [exact T1|].
  apply (commitments_agree 1000000 700000000 c l (run_reachable _ _ E) El).
  apply Forall_forall. intros h Hh. rewrite forallb_forall in T2.
  specialize (T2 h (proj1 (list_elem_of_In _ _) Hh)). unfold in_sync in T2.
  apply andb_true_iff in T2 as [A B]. split; by apply eqb_prop.
Defined.

Lemma added_htlc_affordable_witness : exists c c', run [] = Some c /\
  channel_add_htlc c LOCAL 0 50000000 500000 (sha256 preimage) [] = Some (c', CHANNEL_ERR_ADD_OK) /\
  exists l, htlcs c' = Some l /\
    channel_reserve_msat c LOCAL <= projected (init_of 1000000 700000000) l REMOTE LOCAL.
Proof.
  destruct (test_run [] (fun c =>
    match channel_add_htlc c LOCAL 0 50000000 500000 (sha256 preimage) [] with
    | Some (_, CHANNEL_ERR_ADD_OK) => true | _ => false end)) as (c & E & T); [vm_compute; reflexivity|].
  destruct (channel_add_htlc c LOCAL 0 50000000 500000 (sha256 preimage) []) as [[c' []]|] eqn:F;
    try discriminate T.
  exists c, c'. split; [exact E|]. split; [exact F|].
  exact (added_htlc_affordable 1000000 700000000 c LOCAL 0 50000000 500000 (sha256 preimage) [] c'
    (run_reachable _ _ E) ltac:(lia) F).
Defined.

(** The first HTLC of the table. *)
Definition first_htlc (P : htlc -> bool) (l : list htlc) : bool :=
  match l with h :: _ => P h | [] => false end.

Lemma first_htlc_spec P l : first_htlc P l = true -> exists h, h ∈ l /\ P h = true.
Proof. destruct l as [|h l]; [done|]. intros E. exists h. split; [by apply elem_of_cons; left|done]. Qed.

Lemma paid_for_preimage_witness : exists c l h p, run fulfilling = Some c /\ htlcs c = Some l /\
  h ∈ l /\ htlc_owner h = LOCAL /\ paid_to h = REMOTE /\ r h = Some p /\ sha256 p = rhash h.
Proof.
  destruct (test_run fulfilling (on_table (first_htlc (fun h =>
    bool_decide (htlc_owner h = LOCAL) && bool_decide (paid_to h = REMOTE))))) as (c & E & T);
    [vm_compute; reflexivity|].
  apply on_table_spec in T as (l & El & (h & Hh & T)%first_htlc_spec).
  apply andb_true_iff in T as [T1 T2]. apply bool_decide_eq_true in T1, T2.
  destruct (paid_for_preimage 1000000 700000000 c l h (run_reachable _ _ E) El Hh) as (p & Hr & Hp & _).
  { rewrite T1, T2. reflexivity. }
  exists c, l, h, p. repeat (split; [assumption|]). exact Hp.
Defined.

Lemma htlc_only_advances_witness : exists c c' l h l' h',
  run added = Some c /\ exec_all commit_ops c = Some c' /\ htlcs c = Some l /\ h ∈ l /\
  state h = SENT_ADD_HTLC /\ htlcs c' = Some l' /\ h' ∈ l' /\ key h' = key h /\
  msatoshi h' = 50000000 /\ (htlc_state_num (state h) <= htlc_state_num (state h'))%nat.
Proof.
  destruct (test_run added (fun c => bool_decide (is_Some (exec_all commit_ops c))
    && on_table (first_htlc (fun h => bool_decide (state h = SENT_ADD_HTLC)
                                     && (msatoshi h =? 50000000))) c)) as (c & E & T);
    [vm_compute; reflexivity|].
  apply andb_true_iff in T as [T1 T2]. apply bool_decide_eq_true in T1 as [c' E'].
  apply on_table_spec in T2 as (l & El & (h & Hh & T)%first_htlc_spec).
  apply andb_true_iff in T as [T1 T2]. apply bool_decide_eq_true in T1. apply Z.eqb_eq in T2.
  destruct (htlc_only_advances 1000000 700000000 c c' l h (run_reachable _ _ E) El Hh
    (exec_all_steps _ _ _ E')) as (l' & h' & El' & Hh' & K & M & _ & _ & S).
  exists c, c', l, h, l', h'. repeat (split; [first [assumption|congruence]|]). exact S.
Defined.

(** ** Where the code departs from its intent *)

(** An error of [channel_fulfill_htlc] is not side-effect free: on an HTLC that has been
    failed and has left our commitment it reports [CHANNEL_ERR_HTLC_NOT_IRREVOCABLE] but
    leaves the preimage set, and the accounts no longer match the table. *)
Lemma fulfill_error_corrupts : exists c c' l',
  reachable 1000000 700000000 c /\
  channel_fulfill_htlc c LOCAL 0 preimage = Some (c', CHANNEL_ERR_HTLC_NOT_IRREVOCABLE) /\
  htlcs c' = Some l' /\
  owed (view c') LOCAL LOCAL <> ledger (init_of 1000000 700000000) l' LOCAL LOCAL.
Proof.
  destruct (test_run (committed_both ++ [OpFail LOCAL 0; OpRcvdCommit]) (fun c =>
    match channel_fulfill_htlc c LOCAL 0 preimage with
    | Some (c', CHANNEL_ERR_HTLC_NOT_IRREVOCABLE) =>
        on_table (fun l => negb (owed (view c') LOCAL LOCAL
                                 =? ledger (init_of 1000000 700000000) l LOCAL LOCAL)) c'
    | _ => false end)) as (c & E & T); [vm_compute; reflexivity|].
  destruct (channel_fulfill_htlc c LOCAL 0 preimage) as [[c' []]|] eqn:F; try discriminate T.
  apply on_table_spec in T as (l' & El & T). apply negb_true_iff, Z.eqb_neq in T.
  exists c, c', l'. split; [by apply (run_reachable _ _ E)|]. by repeat split.
Qed.

(** The affordability check of [add_htlc] takes the fee, which is in satoshi, for
    millisatoshi: it accepts an HTLC after which the funder cannot pay the fee of the
    recipient's commitment transaction and keep its reserve. *)
Lemma fee_check_in_satoshi : exists c c' l,
  reachable 1000000 700000000 c /\ funder c = LOCAL /\
  channel_add_htlc c LOCAL 0 689999000 500000 (sha256 preimage) [] = Some (c', CHANNEL_ERR_ADD_OK) /\
  htlcs c' = Some l /\
  projected (init_of 1000000 700000000) l REMOTE LOCAL
    < channel_reserve_msat c LOCAL + 1000 * commit_tx_base_fee (channel_feerate c REMOTE) 1.
Proof.
  destruct (test_run [] (fun c => bool_decide (funder c = LOCAL) &&
    match channel_add_htlc c LOCAL 0 689999000 500000 (sha256 preimage) [] with
    | Some (c', CHANNEL_ERR_ADD_OK) =>
        on_table (fun l => projected (init_of 1000000 700000000) l REMOTE LOCAL
          <? channel_reserve_msat c LOCAL + 1000 * commit_tx_base_fee (channel_feerate c REMOTE) 1) c'
    | _ => false end)) as (c & E & T); [vm_compute; reflexivity|].
  apply andb_true_iff in T as [Tf T]. apply bool_decide_eq_true in Tf.
  destruct (channel_add_htlc c LOCAL 0 689999000 500000 (sha256 preimage) []) as [[c' []]|] eqn:F;
    try discriminate T.
  apply on_table_spec in T as (l & El & T). apply Z.ltb_lt in T.
  exists c, c', l. split; [by apply (run_reachable _ _ E)|]. by repeat split.
Qed.
End Demo.
