(* ===== verification/ChannelRestore.v ===== *)
(** * Restoring a channel

    [channel_force_htlcs] rebuilds, from what the database holds of the live HTLCs, the
    table and the balances of the channel that was stored. *)
From S2P Require Import Prelude HtlcState Sha256 Secp KeyDerive Params Htlc Channel Ledger.
From S2P Require Import ChannelInv ChannelSafety.
Local Open Scope Z_scope.

(** ** What is stored of an HTLC *)
Definition descr (h : htlc) : added_htlc :=
  AddedHtlc (id h) (msatoshi h) (rhash h) (expiry h) (routing h).

Definition failed_b (h : htlc) : bool := bool_decide (is_Some (fail h)) || negb (failcode h =? 0).

Definition fulfilled_of (h : htlc) : option (fulfilled_htlc * side) :=
  p ← r h; Some (FulfilledHtlc (id h) p, htlc_owner h).

Definition failed_of (h : htlc) : option (failed_htlc * side) :=
  if failed_b h then Some (FailedHtlc (id h) (failcode h) (failed_scid h) (fail h), htlc_owner h)
  else None.

(** The HTLC as added, with its preimage, and with its failure. *)
Definition strip (h : htlc) : htlc :=
  Htlc (state h) (id h) (msatoshi h) (expiry h) (rhash h) None None (routing h) None 0 None.

Definition with_r (h : htlc) : htlc :=
  match r h with Some p => set_r p (strip h) | None => strip h end.

Definition restored (h : htlc) : htlc :=
  if failed_b h then set_failure (fail h) (failcode h) (failed_scid h) (with_r h) else with_r h.

(** What makes an HTLC storable: a resolution belongs to an HTLC being removed, it is one
    or the other, and an HTLC that has left a commitment has one. *)
Record storable (h : htlc) : Prop := {
  st_r : forall p, r h = Some p -> htlc_has h HTLC_REMOVING = true /\ failed_b h = false;
  st_fail : failed_b h = true -> htlc_has h HTLC_REMOVING = true;
  st_done : forall v, was_committed (state h) v = true -> committed (state h) v = false ->
    is_Some (r h) \/ failed_b h = true
}.

(** ** Tables up to order *)

Lemma key_inj_in (t : list htlc) g h : NoDup (key <$> t) -> g ∈ t -> h ∈ t -> key g = key h -> g = h.
Proof.
  intros N [i Hi]%list_elem_of_lookup [j Hj]%list_elem_of_lookup E.
  assert (i = j) as ->; [|congruence].
  apply (NoDup_lookup (key <$> t) i j (key g)); [done|by rewrite list_lookup_fmap, Hi|].
  by rewrite list_lookup_fmap, Hj, E.
Qed.

Lemma htlc_get_unique t h : NoDup (key <$> t) -> h ∈ t ->
  exists n, htlc_get t (id h) (htlc_owner h) = Some (n, h) /\ t !! n = Some h.
Proof.
  intros N Hh. destruct (htlc_get t (id h) (htlc_owner h)) as [[n g]|] eqn:E.
  - destruct (htlc_get_Some _ _ _ _ _ E) as [Hn Hk]. exists n.
    assert (g = h) as ->; [|done]. apply (key_inj_in t); try done.
    apply list_elem_of_lookup. by exists n.
  - by destruct (htlc_get_None _ _ _ E h Hh).
Qed.

Lemma insert_perm {A : Type} (t rest : list A) n x y : t !! n = Some x -> t ≡ₚ x :: rest ->
  <[n := y]> t ≡ₚ y :: rest.
Proof.
  intros Hn P. rewrite <- (take_drop_middle t n x Hn), <- Permutation_middle in P.
  apply (Permutation.Permutation_cons_inv (a := x)) in P.
  rewrite insert_take_drop by by eapply lookup_lt_Some. by rewrite <- Permutation_middle, P.
Qed.

Lemma key_strip h : key (strip h) = key h.
Proof. done. Qed.

Lemma key_with_r h : key (with_r h) = key h.
Proof. unfold with_r. by destruct (r h). Qed.

Lemma key_restored h : key (restored h) = key h.
Proof. unfold restored. destruct (failed_b h); [|apply key_with_r]. apply (key_with_r h). Qed.

Lemma state_with_r h : state (with_r h) = state h.
Proof. unfold with_r. by destruct (r h). Qed.

Lemma effect_restored v s h : effect v s (restored h) = effect v s h.
Proof.
  unfold restored, with_r. by destruct (failed_b h), (r h) eqn:E;
    unfold effect, adding, removing, paid_to; cbn; rewrite E.
Qed.

Lemma fmap_keys (f : htlc -> htlc) (l : list htlc) :
  (forall h, key (f h) = key h) -> key <$> (f <$> l) = key <$> l.
Proof. intros E. rewrite <- list_fmap_compose. apply list_fmap_ext. intros ? h _. apply E. Qed.

Section Restore.
Context `{Secp256k1} `{HtlcTable}.

(** ** The loops of [channel_force_htlcs] *)

(** Balances that leave room for the HTLCs of the table to be returned. *)
Definition roomy (v : sided channel_view) (t : list htlc) : Prop :=
  forall w s, 0 <= owed v w s /\ owed v w s + zsum (in_flight w) t < 2 ^ 63.

Lemma add_unenforced c t h : htlcs c = Some t -> Forall amount_ok t -> roomy (view c) t ->
  accepted c h -> (forall g, g ∈ t -> key g <> key h) ->
  add_htlc c (state h) (id h) (msatoshi h) (expiry h) (rhash h) (routing h) false
  = Some (mark_pending (state h) (set_htlcs (htlc_map_add t (strip h)) c), CHANNEL_ERR_ADD_OK).
Proof.
  intros Et At Rm Ac K. unfold add_htlc.
  unfold blocks_to_abs_locktime, abs_blocks_to_locktime.
  pose proof (acc_expiry _ _ Ac) as A1. pose proof (acc_amount _ _ Ac) as A2.
  pose proof (acc_minimum _ _ Ac) as A3. pose proof (acc_maximum _ _ Ac) as A4.
  rewrite (proj2 (Z.leb_gt _ _)) by lia. rewrite Et. cbn [mbind option_bind]. fold (strip h).
  destruct (htlc_get t (id h) (htlc_owner (strip h))) as [[n g]|] eqn:Eg.
  { destruct (htlc_get_Some _ _ _ _ _ Eg) as [Hn Hk]. destruct (K g); [|done].
    apply list_elem_of_lookup. by exists n. }
  fold (htlc_owner h). cbn [msatoshi strip].
  rewrite (proj2 (Z.eqb_neq _ _)), (proj2 (Z.ltb_ge _ _) A3), (proj2 (Z.ltb_ge _ _) A4) by done.
  unfold gather_htlcs. rewrite Et, gather_filters. simpl andb. cbv iota.
  set (fee := add_fee _ _ _ _ _ _). assert (0 <= fee < 2 ^ 62) as Bf by apply add_fee_nonneg.
  rewrite (proj2 (Z.leb_le 0 fee)) by lia. cbn [c_assert].
  set (s := htlc_owner h). fold (owed (view c) (other s) s).
  destruct (Rm (other s) s) as [R0 R1].
  destruct (pending_balances (other s) s t At) as [_ B].
  pose proof (in_flight_nonneg (other s) t At).
  rewrite add_balances_spec, !s64_small by lia.
  rewrite !(proj2 (Z.leb_le _ _)) by lia. done.
Qed.

Lemma mark_pending_keeps st c : htlcs (mark_pending st c) = htlcs c /\
  view (mark_pending st c) = view c /\ same_terms c (mark_pending st c).
Proof. unfold mark_pending. by repeat case_match. Qed.

Lemma force_add_spec c t l : htlcs c = Some t -> Forall amount_ok (t ++ l) ->
  NoDup (key <$> (t ++ l)) -> roomy (view c) (t ++ l) -> Forall (accepted c) l ->
  exists c' t', force_add c (zip (descr <$> l) (state <$> l)) = Some (c', true) /\
    htlcs c' = Some t' /\ t' ≡ₚ t ++ (strip <$> l) /\ view c' = view c /\ same_terms c c'.
Proof.
  revert c t. induction l as [|h l IH]; intros c t Et A N Rm Ac.
  { exists c, t. rewrite app_nil_r. done. }
  apply Forall_cons in Ac as [Ah Ac]. cbn [fmap list_fmap zip zip_with force_add].
  rewrite Forall_app, Forall_cons in A. destruct A as (At & Am & Al).
  rewrite (add_unenforced c t); try done.
  - cbn [mbind option_bind fst snd]. rewrite bool_decide_true by done.
    set (c1 := mark_pending _ _). destruct (mark_pending_keeps (state h)
      (set_htlcs (htlc_map_add t (strip h)) c)) as (E1 & E2 & E3). fold c1 in E1, E2, E3.
    pose proof (htlc_map_add_perm t (strip h)) as P.
    assert (htlc_map_add t (strip h) ++ l ≡ₚ t ++ strip h :: l) as P2
      by (rewrite P; apply (Permutation_middle t l)).
    destruct (IH c1 (htlc_map_add t (strip h))) as (c' & t' & Ef & Et' & Pt & Ev & St).
    + done.
    + rewrite P2, Forall_app, Forall_cons. done.
    + rewrite P2, fmap_app, fmap_cons, key_strip. by rewrite fmap_app, fmap_cons in N.
    + intros w s. rewrite E2, P2. specialize (Rm w s). by rewrite zsum_app, zsum_cons in Rm |- *.
    + eapply Forall_impl; [exact Ac|]. intros g Hg. apply (accepted_same c1 c); [|done].
      apply same_terms_sym, E3.
    + exists c', t'. split; [done|]. split; [done|]. split; [|split].
      * rewrite Pt, P. apply (Permutation_middle t (strip <$> l)).
      * by rewrite Ev, E2.
      * by eapply same_terms_trans.
  - intros w s. specialize (Rm w s). rewrite zsum_app in Rm.
    pose proof (in_flight_nonneg w (h :: l) ltac:(by constructor)). lia.
  - intros g Hg E. rewrite fmap_app, fmap_cons in N. apply NoDup_app in N as (_ & N & _).
    apply (N (key g)); [by apply list_elem_of_fmap_2|]. rewrite E. apply elem_of_cons. by left.
Qed.

(** Both resolution loops replace entries one by one; [f] is the entry before, [g] after. *)
Lemma replace_perm (f g : htlc -> htlc) t l1 h l2 n :
  t ≡ₚ (g <$> l1) ++ (f <$> h :: l2) -> t !! n = Some (f h) ->
  <[n := g h]> t ≡ₚ (g <$> l1 ++ [h]) ++ (f <$> l2).
Proof.
  intros P Hn. rewrite fmap_cons, <- Permutation_middle in P.
  rewrite (insert_perm _ _ _ _ (g h) Hn P). rewrite fmap_app, <- app_assoc. simpl.
  apply Permutation_middle.
Qed.

Lemma keys_of_split (f g : htlc -> htlc) t l1 l2 : (forall h, key (f h) = key h) ->
  (forall h, key (g h) = key h) -> t ≡ₚ (g <$> l1) ++ (f <$> l2) ->
  NoDup (key <$> (l1 ++ l2)) -> NoDup (key <$> t).
Proof. intros Ef Eg P N. rewrite P, fmap_app, !fmap_keys by done. by rewrite <- fmap_app. Qed.

Lemma get_of_split (f g : htlc -> htlc) t l1 h l2 : (forall h, key (f h) = key h) ->
  (forall h, key (g h) = key h) -> t ≡ₚ (g <$> l1) ++ (f <$> h :: l2) ->
  NoDup (key <$> (l1 ++ h :: l2)) ->
  exists n, htlc_get t (id h) (htlc_owner h) = Some (n, f h) /\ t !! n = Some (f h).
Proof.
  intros Ef Eg P N. pose proof (keys_of_split f g t l1 (h :: l2) Ef Eg P N) as Nt.
  destruct (htlc_get_unique t (f h) Nt) as (n & E & Hn).
  { rewrite P, fmap_cons. apply elem_of_app. right. apply elem_of_cons. by left. }
  pose proof (Ef h) as K. unfold key in K. injection K as K1 K2. rewrite K1, K2 in E. by exists n.
Qed.

Lemma force_fulfill_spec c t l1 l2 : htlcs c = Some t ->
  t ≡ₚ (with_r <$> l1) ++ (strip <$> l2) -> NoDup (key <$> (l1 ++ l2)) -> Forall storable l2 ->
  exists t', force_fulfill c (omap fulfilled_of l2) = Some (set_htlcs t' c, true) /\
    t' ≡ₚ with_r <$> (l1 ++ l2).
Proof.
  revert c t l1. induction l2 as [|h l2 IH]; intros c t l1 Et P N S.
  { exists t. rewrite app_nil_r in P |- *. split; [|done]. cbn.
    by destruct c; cbn in *; subst. }
  apply Forall_cons in S as [Sh S].
  assert (l1 ++ h :: l2 = (l1 ++ [h]) ++ l2) as Ea by by rewrite <- app_assoc.
  cbn [omap list_omap fulfilled_of]. unfold fulfilled_of at 1.
  destruct (r h) as [p|] eqn:Er; cbn [mbind option_bind].
  - destruct (get_of_split strip with_r t l1 h l2 key_strip key_with_r P N) as (n & Eg & Hn).
    cbn [force_fulfill f_id payment_preimage]. rewrite Et. cbn [mbind option_bind]. rewrite Eg.
    unfold resolved. cbn [r fail failcode strip]. simpl orb. cbv iota.
    destruct (st_r _ Sh p Er) as [Hr _]. unfold htlc_has in *. cbn [state strip].
    rewrite Hr. simpl negb. cbv iota. fold (strip h).
    assert (set_r p (strip h) = with_r h) as -> by (unfold with_r; by rewrite Er).
    rewrite Ea in N |- *. destruct (IH (set_htlcs (<[n := with_r h]> t) c) (<[n := with_r h]> t) (l1 ++ [h]))
      as (t' & E & P'); try done.
    + by apply replace_perm.
    + exists t'. split; [|done]. exact E.
  - rewrite Ea in N |- *. apply (IH c t (l1 ++ [h])); try done. rewrite P, fmap_app, <- app_assoc.
    simpl. unfold with_r at 3. by rewrite Er.
Qed.

Lemma force_fail_spec ff i c t l1 l2 : htlcs c = Some t ->
  t ≡ₚ (restored <$> l1) ++ (with_r <$> l2) -> NoDup (key <$> (l1 ++ l2)) -> Forall storable l2 ->
  exists t', force_fail ff i c (omap failed_of l2) = Some (set_htlcs t' c, true) /\
    t' ≡ₚ restored <$> (l1 ++ l2).
Proof.
  revert i c t l1. induction l2 as [|h l2 IH]; intros i c t l1 Et P N S.
  { exists t. rewrite app_nil_r in P |- *. split; [|done]. cbn.
    by destruct c; cbn in *; subst. }
  apply Forall_cons in S as [Sh S].
  assert (l1 ++ h :: l2 = (l1 ++ [h]) ++ l2) as Ea by by rewrite <- app_assoc.
  cbn [omap list_omap]. unfold failed_of at 1.
  destruct (failed_b h) eqn:Ef.
  - destruct (get_of_split with_r restored t l1 h l2 key_with_r key_restored P N) as (n & Eg & Hn).
    cbn [force_fail x_id x_failcode x_scid failreason]. rewrite Et. cbn [mbind option_bind]. rewrite Eg.
    assert (with_r h = strip h) as Ew.
    { unfold with_r. destruct (r h) as [p|] eqn:Er; [|done].
      destruct (st_r _ Sh p Er) as [_ Hf]. congruence. }
    assert (resolved (with_r h) = false) as -> by by rewrite Ew.
    assert (htlc_has (with_r h) HTLC_REMOVING = true) as ->.
    { unfold htlc_has. rewrite state_with_r. by apply (st_fail _ Sh). }
    simpl negb. cbv iota.
    assert (set_failure (fail h) (failcode h) (failed_scid h) (with_r h) = restored h) as ->
      by (unfold restored; by rewrite Ef).
    rewrite Ea in N |- *.
    destruct (IH (Datatypes.S i) (set_htlcs (<[n := restored h]> t) c) (<[n := restored h]> t) (l1 ++ [h]))
      as (t' & E & P'); try done.
    + by apply replace_perm.
    + exists t'. split; [|done]. exact E.
  - rewrite Ea in N |- *. apply (IH i c t (l1 ++ [h])); try done. rewrite P, fmap_app, <- app_assoc.
    simpl. unfold restored at 3. by rewrite Ef.
Qed.

(** ** The balances *)
Definition credited (d : side -> side -> Z) (v v' : sided channel_view) : Prop :=
  forall w x, owed v' w x = u64 (owed v w x + d w x).

Lemma adjust_side_spec s h v : amount_ok h -> views_fit v ->
  (was_committed (state h) s = true -> committed (state h) s = false ->
   is_Some (r h) \/ failed_b h = true) ->
  exists v', adjust_side s h v = (v', true) /\ moved s (fun x => effect s x h) v v'.
Proof.
  intros A F D. unfold adjust_side, htlc_has, effect.
  change (has_flag (htlc_state_flags (state h)) (HTLC_FLAG s HTLC_F_WAS_COMMITTED))
    with (was_committed (state h) s).
  change (has_flag (htlc_state_flags (state h)) (HTLC_FLAG s HTLC_F_COMMITTED))
    with (committed (state h) s).
  destruct (was_committed (state h) s); simpl.
  2:{ exists v. split; [done|]. by apply moved_refl. }
  destruct (committed (state h) s); simpl.
  - eexists. split; [reflexivity|]. apply (moved_ext _ (balance_adding_htlc h)); [|apply moved_owe].
    intros x. rewrite balance_adding_exact by done. lia.
  - assert (bool_decide (fail h = None) && (failcode h =? 0) && bool_decide (r h = None) = false) as ->.
    { destruct D as [[p Hp]|Hf]; try done.
      - rewrite Hp. rewrite (bool_decide_false (Some p = None)) by done. apply andb_false_r.
      - unfold failed_b in Hf. destruct (fail h), (failcode h =? 0); done. }
    eexists. split; [reflexivity|].
    apply (moved_ext _ (fun x => balance_adding_htlc h x + balance_removing_htlc h x)).
    { intros x. by rewrite balance_adding_exact, balance_removing_exact. }
    eapply moved_trans; apply moved_owe.
Qed.

Lemma adjust_balance_spec h v : amount_ok h -> views_fit v ->
  (forall s, was_committed (state h) s = true -> committed (state h) s = false ->
   is_Some (r h) \/ failed_b h = true) ->
  exists v', adjust_balance v h = (v', true) /\ credited (fun w x => effect w x h) v v' /\ views_fit v'.
Proof.
  intros A F D. unfold adjust_balance.
  destruct (adjust_side_spec LOCAL h v A F (D LOCAL)) as (v1 & -> & M1).
  pose proof (moved_fit _ _ _ _ F M1) as F1.
  destruct (adjust_side_spec REMOTE h v1 A F1 (D REMOTE)) as (v2 & E2 & M2).
  pose proof (moved_fit _ _ _ _ F1 M2) as F2. exists v2. split; [done|]. split; [|done].
  destruct M1 as (_ & L1 & R1), M2 as (_ & R2 & L2). intros [] x; simpl in *.
  - by rewrite L2, L1.
  - by rewrite R2, R1.
Qed.

Lemma failed_b_restored h : failed_b (restored h) = failed_b h.
Proof.
  unfold restored. destruct (failed_b h) eqn:E; [done|]. unfold with_r. by destruct (r h).
Qed.

Lemma r_restored h : r (restored h) = r h.
Proof. unfold restored, with_r. by destruct (failed_b h), (r h) eqn:E. Qed.

Lemma state_restored h : state (restored h) = state h.
Proof. unfold restored. destruct (failed_b h); [|apply state_with_r]. apply (state_with_r h). Qed.

Lemma force_adjust_spec c t l : htlcs c = Some t -> views_fit (view c) ->
  (forall h, h ∈ l -> exists n, htlc_get t (id h) (htlc_owner h) = Some (n, restored h)) ->
  Forall amount_ok l -> Forall storable l ->
  exists c', force_adjust c (zip (descr <$> l) (state <$> l)) = Some (c', true) /\
    htlcs c' = Some t /\ same_terms c c' /\
    credited (fun w x => zsum (effect w x) l) (view c) (view c').
Proof.
  revert c. induction l as [|h l IH]; intros c Et F G A S.
  { exists c. split; [done|]. split; [done|]. split; [done|]. intros w x.
    unfold zsum. simpl. by rewrite Z.add_0_r, u64_small. }
  apply Forall_cons in A as [Ah A]. apply Forall_cons in S as [Sh S].
  cbn [fmap list_fmap zip zip_with force_adjust a_id descr]. rewrite Et. cbn [mbind option_bind].
  fold (htlc_owner h). destruct (G h) as [n ->]; [by apply elem_of_cons; left|]. cbn [mbind option_bind].
  destruct (adjust_balance_spec (restored h) (view c)) as (v' & -> & Cr & F'); try done.
  - unfold restored, with_r. by destruct (failed_b h), (r h).
  - intros s. rewrite state_restored, r_restored, failed_b_restored. apply (st_done _ Sh).
  - destruct (IH (set_view v' c)) as (c' & E & Et' & T & Cr'); try done.
    { intros g Hg. apply G, elem_of_cons. by right. }
    exists c'. split; [done|]. split; [done|]. split; [done|]. intros w x.
    rewrite Cr'. cbn. rewrite (Cr w x), u64_add_l, effect_restored, zsum_cons. f_equal. lia.
Qed.

Lemma zip_fst_snd_list {A B : Type} (l : list (A * B)) : zip (fst <$> l) (snd <$> l) = l.
Proof. induction l as [|[a b] l IH]; [done|]. csimpl. by rewrite IH. Qed.

Lemma force_htlcs_spec c l : htlcs c = Some [] -> views_fit (view c) -> roomy (view c) l ->
  NoDup (key <$> l) -> Forall amount_ok l -> Forall (accepted c) l -> Forall storable l ->
  exists c' t, channel_force_htlcs c (descr <$> l) (state <$> l)
      (fst <$> omap fulfilled_of l) (snd <$> omap fulfilled_of l)
      (fst <$> omap failed_of l) (snd <$> omap failed_of l) = Some (c', true) /\
    htlcs c' = Some t /\ t ≡ₚ restored <$> l /\
    credited (fun w x => zsum (effect w x) l) (view c) (view c').
Proof.
  intros Et F Rm N A Ac S. unfold channel_force_htlcs. rewrite !length_fmap, !Nat.eqb_refl.
  simpl negb. cbv iota. rewrite !zip_fst_snd_list.
  destruct (force_add_spec c [] l) as (c1 & t1 & -> & Et1 & P1 & Ev1 & T1); try done.
  cbn [mbind option_bind negb]. cbv iota.
  destruct (force_fulfill_spec c1 t1 [] l) as (t2 & -> & P2); try done.
  cbn [mbind option_bind negb]. cbv iota.
  destruct (force_fail_spec (fst <$> omap fulfilled_of l) 0 (set_htlcs t2 c1) t2 [] l)
    as (t3 & -> & P3); try done.
  cbn [mbind option_bind negb]. cbv iota. simpl app in P3.
  destruct (force_adjust_spec (set_htlcs t3 (set_htlcs t2 c1)) t3 l) as (c' & -> & Et' & _ & Cr);
    try done.
  - cbn. by rewrite Ev1.
  - intros h Hh. assert (NoDup (key <$> t3)) as N3 by (rewrite P3, fmap_keys; [done|apply key_restored]).
    destruct (htlc_get_unique t3 (restored h) N3) as (n & E & _).
    { rewrite P3. by apply list_elem_of_fmap_2. }
    pose proof (key_restored h) as K. unfold key in K. injection K as K1 K2. rewrite K1, K2 in E.
    by exists n.
  - exists c', t3. split; [done|]. split; [done|]. split; [done|]. cbn in Cr. by rewrite Ev1 in Cr.
Qed.

(** ** A stored channel *)

Definition live (l : list htlc) : list htlc := List.filter (fun h => negb (htlc_is_dead h)) l.
Definition dead (l : list htlc) : list htlc := List.filter htlc_is_dead l.

(** The balances stored for the channel: those of the finished HTLCs only (lightningd
    updates them as HTLCs finish). *)
Definition stored_balance (init : sided Z) (l : list htlc) (s : side) : Z :=
  at_side init s + zsum (effect LOCAL s) (dead l).

(** An HTLC with the failure [fi] recorded if it is being removed without a preimage. *)
Definition stored (fi : htlc -> option bytes * Z * option Z) (h : htlc) : htlc :=
  if (5 <=? htlc_state_num (state h) mod 10)%nat && bool_decide (r h = None)
  then set_failure (fi h).1.1 (fi h).1.2 (fi h).2 h else set_failure None 0 None h.

Lemma dead_effect v w s h : htlc_is_dead h = true -> effect v s h = effect w s h.
Proof.
  unfold htlc_is_dead. intros E. unfold effect.
  destruct (state h); try discriminate E; by destruct v, w.
Qed.

Lemma zsum_live_dead (f : htlc -> Z) l : zsum f l = zsum f (dead l) + zsum f (live l).
Proof.
  unfold live, dead. rewrite !zsum_list_filter, <- zsum_add. apply zsum_ext_in.
  intros h _. destruct (htlc_is_dead h); simpl; lia.
Qed.

Lemma stored_same fi h : key (stored fi h) = key h /\ state (stored fi h) = state h /\
  msatoshi (stored fi h) = msatoshi h /\ expiry (stored fi h) = expiry h /\ r (stored fi h) = r h /\
  (forall v s, effect v s (stored fi h) = effect v s h).
Proof. unfold stored. by case_match. Qed.

Lemma stored_storable fi h : (forall h, is_Some (fi h).1.1 \/ (fi h).1.2 <> 0) ->
  preimage_ok h -> htlc_is_dead h = false -> storable (stored fi h).
Proof.
  intros Hf P D. destruct (stored_same fi h) as (_ & Es & _ & _ & Er & _).
  assert (failed_b (stored fi h)
    = (5 <=? htlc_state_num (state h) mod 10)%nat && bool_decide (r h = None)) as Ef.
  { unfold stored. case_match; [|done]. unfold failed_b. cbn. destruct (Hf h) as [[x ->]|Nz]; [done|].
    rewrite (proj2 (Z.eqb_neq _ _) Nz). apply orb_true_r. }
  assert ((5 <= htlc_state_num (state h) mod 10)%nat -> htlc_has h HTLC_REMOVING = true) as Rm.
  { unfold htlc_is_dead, htlc_has in *. destruct (state h); try discriminate D; vm_compute; lia || done. }
  constructor; unfold htlc_has in *; rewrite ?Es, ?Er, ?Ef.
  - intros p Hp. destruct (P p Hp) as [_ B]. split; [by apply Rm|]. rewrite Hp.
    rewrite (bool_decide_false (Some p = None)) by done. apply andb_false_r.
  - intros [B _]%andb_true_iff. apply Nat.leb_le in B. by apply Rm.
  - intros v W C. destruct (r h) as [p|] eqn:Eh; [left; by eexists|right].
    apply andb_true_iff. split; [|by apply bool_decide_eq_true].
    clear -W C. destruct v, (state h); try discriminate W; try discriminate C; done.
Qed.

Lemma NoDup_live l : NoDup (key <$> l) -> NoDup (key <$> live l).
Proof.
  unfold live. induction l as [|h l IH]; [done|]. cbn [List.filter fmap list_fmap].
  intros [Hh N]%NoDup_cons. case_match; [|by apply IH]. csimpl. apply NoDup_cons. split; [|by apply IH].
  intros (g & E & Hg)%list_elem_of_fmap. apply Hh. rewrite E. apply list_elem_of_fmap_2.
  apply list_elem_of_In, filter_In in Hg as [Hg _]. by apply list_elem_of_In.
Qed.

(** C14. Restoring is faithful: on a fresh channel of the same terms that starts from the
    stored balances, [channel_force_htlcs] given the live HTLCs of any reachable channel
    (those being removed without a preimage with a failure) succeeds; the result has those
    HTLCs and, in both commitments, exactly the balances of the channel stored. *)
Theorem channel_restored fs lm c l c0 fi : reachable fs lm c -> htlcs c = Some l ->
  (forall h, is_Some (fi h).1.1 \/ (fi h).1.2 <> 0) ->
  same_terms c c0 -> htlcs c0 = Some [] ->
  (forall v s, owed (view c0) v s = stored_balance (init_of fs lm) l s) ->
  (forall s, 0 <= stored_balance (init_of fs lm) l s <= fs * 1000) ->
  let db := stored fi <$> live l in
  exists c' t, channel_force_htlcs c0 (descr <$> db) (state <$> db)
      (fst <$> omap fulfilled_of db) (snd <$> omap fulfilled_of db)
      (fst <$> omap failed_of db) (snd <$> omap failed_of db) = Some (c', true) /\
    htlcs c' = Some t /\ t ≡ₚ restored <$> db /\
    forall v s, owed (view c') v s = owed (view c) v s.
Proof.
  intros R El Hf T E0 Eo B db. destruct (reachable_tables fs lm c R) as (l' & I & Ef & Pr & Ac).
  rewrite (inv_htlcs _ _ _ I) in El. injection El as ->.
  pose proof (terms_funding _ _ (inv_terms _ _ _ I)) as Fb. pose proof (inv_amounts _ _ _ I) as A.
  assert (forall v s, zsum (effect v s) db = zsum (effect v s) (live l)) as Ee.
  { intros. unfold db. rewrite zsum_map. apply zsum_ext_in. intros. apply stored_same. }
  assert (forall P : htlc -> Prop, Forall P l ->
    (forall h, P h -> htlc_is_dead h = false -> P (stored fi h)) -> Forall P db) as Lift.
  { intros P FP Step. apply Forall_fmap, Forall_forall. intros h Hh.
    apply list_elem_of_In, filter_In in Hh as [Hh Hd]. apply negb_true_iff in Hd.
    rewrite Forall_forall in FP. apply Step; [|done]. by apply FP, list_elem_of_In. }
  assert (Forall amount_ok db) as Adb.
  { apply Lift; [done|]. intros h. unfold amount_ok. by destruct (stored_same fi h) as (_ & _ & -> & _). }
  destruct (force_htlcs_spec c0 db) as (c' & t & E & Et & P & Cr); try done.
  - intros v s. rewrite Eo. specialize (B s). unfold fits. eval_pow2. lia.
  - intros v s. rewrite Eo. specialize (B s). split; [lia|].
    assert (zsum (in_flight v) db <= zsum (in_flight v) l) as Le.
    { unfold db. rewrite zsum_map, (zsum_live_dead (in_flight v)).
      assert (0 <= zsum (in_flight v) (dead l)) by (apply in_flight_nonneg, Forall_list_filter, A).
      rewrite (zsum_ext_in _ (in_flight v)); [lia|]. intros h _. unfold in_flight.
      by destruct (stored_same fi h) as (_ & -> & -> & _). }
    pose proof (ledger_conserves (init_of fs lm) l v) as Lc. cbn in Lc.
    pose proof (inv_ledger _ _ _ I v LOCAL). pose proof (inv_ledger _ _ _ I v REMOTE). lia.
  - unfold db. rewrite fmap_keys by (intros; apply stored_same). apply NoDup_live, I.
  - apply Lift.
    + eapply Forall_impl; [exact Ac|]. intros h. by apply accepted_same, same_terms_sym.
    + intros h Ah _. destruct (stored_same fi h) as (K & _ & M & X & _). destruct Ah.
      unfold key in K. injection K as _ K. constructor; rewrite ?M, ?X, ?K; done.
  - apply Forall_fmap, Forall_forall. intros h Hh.
    apply list_elem_of_In, filter_In in Hh as [Hh Hd]. apply negb_true_iff in Hd.
    rewrite Forall_forall in Pr. apply stored_storable; [done| |done]. by apply Pr, list_elem_of_In.
  - exists c', t. split; [done|]. split; [done|]. split; [done|]. intros v s.
    rewrite (Cr v s), Eo, (inv_owed _ _ _ I).
    rewrite <- (ledger_u64 (init_of fs lm) c l v s (inv_terms _ _ _ I) A (inv_ledger _ _ _ I v)).
    f_equal. unfold stored_balance, ledger. rewrite Ee, (zsum_live_dead (effect v s) l).
    rewrite (zsum_ext_in (effect v s) (effect LOCAL s) (dead l)); [lia|].
    intros h Hh. apply dead_effect. apply list_elem_of_In, filter_In in Hh. apply Hh.
Qed.
End Restore.

(** Restoring the channel of [Demo] while its HTLC is being removed. *)
Module DemoRestore.
Import Demo.
#[local] Existing Instances Scalars.ops Scalars.laws InOrder.table.

Lemma run_split os c : run os = Some c ->
  exists c0, fresh 700000000 = Some c0 /\ exec_all os c0 = Some c.
Proof. unfold run. destruct (fresh 700000000) as [c0|]; [|done]. by exists c0. Qed.

Lemma fresh_facts c0 os c : fresh 700000000 = Some c0 -> exec_all os c0 = Some c ->
  htlcs c0 = Some [] /\ same_terms c c0 /\
  forall v s, owed (view c0) v s = at_side (init_of 1000000 700000000) s.
Proof.
  intros F E. assert (sane_terms 1000000 700000000 cfg cfg) as T by (unfold sane_terms; cbn; lia).
  destruct (new_channel_inv _ _ _ _ _ _ _ _ _ _ _ _ _ _ T F) as [I0 _].
  split; [apply I0|]. split.
  - apply same_terms_sym.
    destruct (reachable_inv _ c0 c [] I0 (exec_all_steps _ _ _ E)) as (_ & _ & _ & S). exact S.
  - intros v s. rewrite (inv_owed _ _ _ I0). unfold ledger, zsum. simpl. lia.
Qed.

Lemma stored_nothing_dead init l s : length (dead l) = 0%nat -> stored_balance init l s = at_side init s.
Proof. unfold stored_balance. destruct (dead l); [|done]. intros _. unfold zsum. simpl. lia. Qed.

Definition some_failure (h : htlc) : option bytes * Z * option Z := (None, 7, None).

Lemma channel_restored_witness : exists c c0 l c' t,
  run fulfilling = Some c /\ fresh 700000000 = Some c0 /\ htlcs c = Some l /\
  let db := stored some_failure <$> live l in
  channel_force_htlcs c0 (descr <$> db) (state <$> db)
      (fst <$> omap fulfilled_of db) (snd <$> omap fulfilled_of db)
      (fst <$> omap failed_of db) (snd <$> omap failed_of db) = Some (c', true) /\
  htlcs c' = Some t /\ t ≡ₚ restored <$> db /\
  forall v s, owed (view c') v s = owed (view c) v s.
Proof.
  destruct (test_run fulfilling (on_table (fun l => (length (dead l) =? 0)%nat
    && (length (live l) =? 1)%nat))) as (c & E & T); [vm_compute; reflexivity|].
  apply on_table_spec in T as (l & El & [Td Tl]%andb_true_iff). apply Nat.eqb_eq in Td, Tl.
  destruct (run_split _ _ E) as (c0 & F & E0). destruct (fresh_facts c0 _ c F E0) as (H0 & St & Ho).
  exists c, c0, l.
  destruct (channel_restored 1000000 700000000 c l c0 some_failure (run_reachable _ _ E) El)
    as (c' & t & R).
  - intros h. right. discriminate.
  - exact St.
  - exact H0.
  - intros v s. rewrite (stored_nothing_dead _ _ _ Td). apply Ho.
  - intros s. rewrite (stored_nothing_dead _ _ _ Td). destruct s; simpl; lia.
  - exists c', t. split; [exact E|]. split; [exact F|]. split; [exact El|]. exact R.
Defined.

(** The trace message for a failed HTLC that is not being removed reads the array of
    fulfilled HTLCs, here beyond its end. *)
Lemma force_fail_reads_beyond : exists c0,
  fresh 700000000 = Some c0 /\
  channel_force_htlcs c0 [AddedHtlc 0 50000000 (sha256 preimage) 500000 []] [SENT_ADD_HTLC]
    [] [] [FailedHtlc 0 7 None None] [LOCAL] = None.
Proof.
  destruct (test_run [] (fun c0 =>
    match channel_force_htlcs c0 [AddedHtlc 0 50000000 (sha256 preimage) 500000 []] [SENT_ADD_HTLC]
      [] [] [FailedHtlc 0 7 None None] [LOCAL] with None => true | Some _ => false end))
    as (c0 & E & T); [vm_compute; reflexivity|].
  destruct (run_split _ _ E) as (c1 & F & [= ->]). exists c0. split; [done|].
  by destruct (channel_force_htlcs _ _ _ _ _ _ _).
Qed.
End DemoRestore.
