(* ===== verification/ChannelTxs.v ===== *)
(** * The transactions of a channel
    (channeld/full_channel.c: channel_txs; common/initial_channel.c: initial_channel_tx)

    A channel's commitment for a side with the transactions that spend its HTLC outputs.
    In a reachable channel they are always built, pay out no more than the funding, and
    each HTLC transaction spends the output of its HTLC; and two channels that mirror each
    other build the same ones, whatever order their tables have. *)
From stdpp Require Import sorting.
From S2P Require Import Prelude HtlcState Sha256 Ripemd160 Secp BitcoinTx LnScript KeyDerive Params Htlc Permute CommitTx.
From S2P Require Import Channel Ledger ChannelInv ChannelSafety.
Local Open Scope Z_scope.

Section Txs.
Context `{Secp256k1}.

(** ** full_channel.c *)

(** The transaction for one HTLC, at output [i] of the commitment, and the script that
    output pays to. *)
Definition htlc_spend (txid : bytes) (i : nat) (h : htlc) (c : channel) (keys : keyset) (s : side)
    : bitcoin_tx * bytes :=
  let feerate := feerate_per_kw (at_side (view c) s) in
  let delay := to_self_delay (at_side (config c) (other s)) in
  if side_eqb (htlc_owner h) s then
    (htlc_timeout_tx txid (Z.of_nat i) (msatoshi h) (expiry h) delay feerate keys,
     bitcoin_wscript_htlc_offer (self_htlc_key keys) (other_htlc_key keys) (rhash h)
       (self_revocation_key keys))
  else
    (htlc_success_tx txid (Z.of_nat i) (msatoshi h) delay feerate keys,
     bitcoin_wscript_htlc_receive (expiry h) (self_htlc_key keys) (other_htlc_key keys) (rhash h)
       (self_revocation_key keys)).

(** The loop, from output [i] on; it appends to both arrays. *)
Fixpoint add_htlcs (txid : bytes) (i : nat) (htlcmap : list (option htlc)) (c : channel) (keys : keyset)
    (s : side) (txs : list bitcoin_tx) (wscripts : list bytes) : option (list bitcoin_tx * list bytes) :=
  match htlcmap with
  | [] => Some (txs, wscripts)
  | None :: htlcmap => add_htlcs txid (S i) htlcmap c keys s txs wscripts
  | Some h :: htlcmap =>
      let '(tx, wscript) := htlc_spend txid i h c keys s in
      assert! (length txs =? length wscripts)%nat;
      add_htlcs txid (S i) htlcmap c keys s (txs ++ [tx]) (wscripts ++ [wscript])
  end.

(** The transactions, their scripts and the HTLCs behind the outputs of the commitment. The
    outer [option] is an assertion, the inner one NULL. *)
Definition channel_txs (uninit : Z * Z) (c : channel) (per_commitment_point : pubkey)
    (commitment_number : Z) (s : side) : option (option (list bitcoin_tx * list bytes * list (option htlc))) :=
  match derive_keyset per_commitment_point (at_side (channel_basepoints c) s)
          (at_side (channel_basepoints c) (other s)) with
  | None => Some None
  | Some keys =>
      let '(committed, _, _) := gather_htlcs c s in
      '(tx, htlcmap) ← commit_tx uninit (funding_txid c) (funding_txout c) (funding_msat c / 1000) (funder c)
        (to_self_delay (at_side (config c) (other s))) keys (feerate_per_kw (at_side (view c) s))
        (dust_limit_satoshis (at_side (config c) s))
        (at_side (owed_msat (at_side (view c) s)) s) (at_side (owed_msat (at_side (view c) s)) (other s))
        committed (Z.lxor commitment_number (commitment_number_obscurer c)) s;
      let wscript := bitcoin_redeem_2of2 (at_side (funding_pubkey c) s) (at_side (funding_pubkey c) (other s)) in
      '(txs, wscripts) ← add_htlcs (bitcoin_txid tx) 0 htlcmap c keys s [tx] [wscript];
      Some (Some (txs, wscripts, htlcmap))
  end.

(** ** initial_channel.c: the first commitment, before the table of HTLCs exists *)
Definition initial_channel_tx (c : channel) (per_commitment_point : pubkey) (s : side)
    : option (option (bitcoin_tx * bytes)) :=
  assert! bool_decide (htlcs c = None);
  match derive_keyset per_commitment_point (at_side (channel_basepoints c) s)
          (at_side (channel_basepoints c) (other s)) with
  | None => Some None
  | Some keys =>
      let wscript := bitcoin_redeem_2of2 (at_side (funding_pubkey c) s) (at_side (funding_pubkey c) (other s)) in
      tx ← initial_commit_tx (funding_txid c) (funding_txout c) (funding_msat c / 1000) (funder c)
        (to_self_delay (at_side (config c) (other s))) keys (feerate_per_kw (at_side (view c) s))
        (dust_limit_satoshis (at_side (config c) s))
        (at_side (owed_msat (at_side (view c) s)) s) (at_side (owed_msat (at_side (view c) s)) (other s))
        (channel_reserve_msat c s) (Z.lxor 0 (commitment_number_obscurer c)) s;
      Some (match tx with None => None | Some tx => Some (tx, wscript) end)
  end.

(** ** What is built *)

(** The transactions for the HTLCs, from output [i] on. *)
Fixpoint htlc_spends (txid : bytes) (i : nat) (htlcmap : list (option htlc)) (c : channel) (keys : keyset)
    (s : side) : list (bitcoin_tx * bytes) :=
  match htlcmap with
  | [] => []
  | None :: htlcmap => htlc_spends txid (S i) htlcmap c keys s
  | Some h :: htlcmap => htlc_spend txid i h c keys s :: htlc_spends txid (S i) htlcmap c keys s
  end.

Lemma add_htlcs_spec txid i htlcmap c keys s txs wscripts : length txs = length wscripts ->
  add_htlcs txid i htlcmap c keys s txs wscripts =
  Some (txs ++ (htlc_spends txid i htlcmap c keys s).*1, wscripts ++ (htlc_spends txid i htlcmap c keys s).*2).
Proof.
  revert i txs wscripts. induction htlcmap as [|[h|] m IH]; intros i txs wscripts L; cbn [add_htlcs htlc_spends].
  - by rewrite !app_nil_r.
  - destruct (htlc_spend txid i h c keys s) as [tx w]. rewrite L, Nat.eqb_refl. cbn [c_assert mbind option_bind].
    rewrite IH by (rewrite !length_app; cbn; lia). cbn [fmap list_fmap fst snd]. by rewrite <- !app_assoc.
  - by apply IH.
Qed.

(** The outputs that belong to an HTLC, from output [i] on. *)
Fixpoint htlc_places (i : nat) (htlcmap : list (option htlc)) : list (nat * htlc) :=
  match htlcmap with
  | [] => []
  | None :: htlcmap => htlc_places (S i) htlcmap
  | Some h :: htlcmap => (i, h) :: htlc_places (S i) htlcmap
  end.

Lemma htlc_spends_places txid i htlcmap c keys s :
  htlc_spends txid i htlcmap c keys s = (fun p => htlc_spend txid p.1 p.2 c keys s) <$> htlc_places i htlcmap.
Proof. revert i. induction htlcmap as [|[h|] m IH]; intros i; cbn; [done| |apply IH]. by rewrite IH. Qed.

Lemma htlc_places_htlcs i htlcmap : (htlc_places i htlcmap).*2 = omap (fun o => o) htlcmap.
Proof. revert i. induction htlcmap as [|[h|] m IH]; intros i; cbn; [done| |apply IH]. by rewrite IH. Qed.

Lemma htlc_places_elem i htlcmap j h : (j, h) ∈ htlc_places i htlcmap <->
  (i <= j)%nat /\ htlcmap !! (j - i)%nat = Some (Some h).
Proof.
  revert i. induction htlcmap as [|o m IH]; intros i.
  { cbn. rewrite elem_of_nil. split; [done|]. by intros [_ ?]. }
  assert ((S i <= j)%nat /\ m !! (j - S i)%nat = Some (Some h) <->
    (i < j)%nat /\ (o :: m) !! (j - i)%nat = Some (Some h)) as E.
  { split; intros [L Hj]; (split; [lia|]); replace (j - i)%nat with (S (j - S i)) in * by lia; exact Hj. }
  destruct (decide (i = j)) as [<-|N].
  - rewrite Nat.sub_diag. destruct o as [h'|]; cbn; rewrite ?elem_of_cons, IH; split.
    + intros [?|[? _]]; [by simplify_eq|lia].
    + intros [_ ?]. left. by simplify_eq.
    + intros [? _]. lia.
    + by intros [_ ?].
  - destruct o as [h'|]; cbn [htlc_places]; rewrite ?elem_of_cons, IH, E.
    + split; [intros [?|[? ?]]; [simplify_eq|split; [lia|done]]|]. intros [L ?]. right. split; [lia|done].
    + split; intros [L ?]; (split; [lia|done]).
Qed.

Lemma htlc_places_sorted i htlcmap : StronglySorted lt (htlc_places i htlcmap).*1.
Proof.
  revert i. induction htlcmap as [|[h|] m IH]; intros i; cbn; [constructor| |apply IH].
  constructor; [apply IH|]. apply Forall_fmap, Forall_forall. intros [j g] [L _]%htlc_places_elem. cbn. lia.
Qed.

(** The parts of a commitment of [s]. *)
Definition committed_of (c : channel) (s : side) : list htlc := (gather_htlcs c s).1.1.
Definition feerate_of (c : channel) (s : side) : Z := feerate_per_kw (at_side (view c) s).
Definition dust_of (c : channel) (s : side) : Z := dust_limit_satoshis (at_side (config c) s).
Definition delay_of (c : channel) (s : side) : Z := to_self_delay (at_side (config c) (other s)).
Definition keys_of (c : channel) (point : pubkey) (s : side) : option keyset :=
  derive_keyset point (at_side (channel_basepoints c) s) (at_side (channel_basepoints c) (other s)).

Definition channel_base_fee (c : channel) (s : side) : Z :=
  base_fee (feerate_of c s) (dust_of c s) (committed_of c s) s.

Definition channel_rows (uninit : Z * Z) (c : channel) (keys : keyset) (s : side) : list (row (option htlc)) :=
  let self := owed (view c) s s in
  let other' := owed (view c) s (other s) in
  commit_rows uninit (delay_of c s) keys (feerate_of c s) (dust_of c s)
    (paid_self (funder c) (feerate_of c s) (dust_of c s) self other' (committed_of c s) s)
    (paid_other (funder c) (feerate_of c s) (dust_of c s) self other' (committed_of c s) s)
    (committed_of c s) s.

(** A channel whose balances add up to at most its funding and whose expiries are heights. *)
Definition can_commit (c : channel) (s : side) : Prop :=
  u64 (owed (view c) s s + owed (view c) s (other s)) <= u64 (funding_msat c / 1000 * 1000) /\
  heights (committed_of c s).

Lemma channel_txs_spec uninit c point n s keys : can_commit c s -> keys_of c point s = Some keys ->
  exists sorted, channel_rows uninit c keys s ≡ₚ sorted /\ StronglySorted (before row_better) sorted /\
    let tx := commit_tx_of (funding_txid c) (funding_txout c) (funding_msat c / 1000)
                (Z.lxor n (commitment_number_obscurer c)) sorted.*1.*1 in
    let wscript := bitcoin_redeem_2of2 (at_side (funding_pubkey c) s) (at_side (funding_pubkey c) (other s)) in
    let spends := htlc_spends (bitcoin_txid tx) 0 sorted.*2 c keys s in
    channel_txs uninit c point n s = Some (Some (tx :: spends.*1, wscript :: spends.*2, sorted.*2)).
Proof.
  intros [Hpay Hh] Hk. unfold channel_txs. fold (keys_of c point s). rewrite Hk.
  destruct (gather_htlcs c s) as [[com rem] add] eqn:G.
  assert (committed_of c s = com) as Ec by (unfold committed_of; by rewrite G).
  destruct (commit_tx_spec uninit (funding_txid c) (funding_txout c) (funding_msat c / 1000) (funder c)
    (delay_of c s) keys (feerate_of c s) (dust_of c s) (owed (view c) s s) (owed (view c) s (other s))
    (committed_of c s) (Z.lxor n (commitment_number_obscurer c)) s Hpay Hh) as (sorted & P & S & E).
  exists sorted. split; [done|]. split; [done|]. cbv zeta.
  unfold feerate_of, dust_of, delay_of, owed in E. rewrite Ec in E. rewrite E. cbn [mbind option_bind].
  rewrite add_htlcs_spec by done. done.
Qed.

(** ** In a channel that keeps its accounts *)
Section Kept.
Context (init : sided Z) (c : channel) (l : list htlc) (I : chan_inv init c l).

Lemma committed_of_inv s : committed_of c s = List.filter (fun h => committed (state h) s) l.
Proof using I. unfold committed_of, gather_htlcs. by rewrite (inv_htlcs _ _ _ I), gather_filters. Qed.

Lemma committed_in s h : h ∈ committed_of c s <-> h ∈ l /\ committed (state h) s = true.
Proof using I. by rewrite committed_of_inv, !list_elem_of_In, filter_In. Qed.

Lemma committed_sum s :
  owed (view c) s s + owed (view c) s (other s) + zsum msatoshi (committed_of c s) = funding_msat c.
Proof using I.
  rewrite !(inv_owed _ _ _ I), committed_of_inv, zsum_list_filter.
  pose proof (ledger_conserves init l s) as E. pose proof (terms_init _ _ (inv_terms _ _ _ I)) as (_ & _ & Ti).
  assert (ledger init l s s + ledger init l s (other s) = ledger init l s LOCAL + ledger init l s REMOTE) as ->
    by (destruct s; cbn; lia). unfold in_flight in E. lia.
Qed.

Lemma committed_amounts s : Forall (fun h => 0 <= msatoshi h) (committed_of c s).
Proof using I.
  apply Forall_forall. intros h [Hh _]%committed_in. pose proof (inv_amounts _ _ _ I) as A.
  rewrite Forall_forall in A. specialize (A h Hh). unfold amount_ok in A. lia.
Qed.

Lemma owed_nonneg v s : 0 <= owed (view c) v s <= funding_msat c.
Proof using I. rewrite (inv_owed _ _ _ I). by apply ledger_bound. Qed.

Context (fs : Z) (Hfs : funding_msat c = fs * 1000) (Hh : heights l).

Lemma inv_can_commit s : can_commit c s.
Proof using I Hfs Hh.
  pose proof (committed_sum s) as E. pose proof (zsum_nonneg msatoshi (committed_of c s)) as N.
  pose proof (terms_funding _ _ (inv_terms _ _ _ I)) as F. pose proof (owed_nonneg s s). pose proof (owed_nonneg s (other s)).
  pose proof (committed_amounts s) as A. rewrite Forall_forall in A. specialize (N A).
  split.
  - rewrite Hfs, Z.div_mul by done. rewrite !u64_small by (unfold fits; eval_pow2; lia). lia.
  - unfold heights in *. rewrite Forall_forall in *. intros h [Hin _]%committed_in. by apply Hh.
Qed.

(** What is left of the balances after the fee, with the untrimmed HTLCs, is paid out. *)
Lemma channel_rows_amount uninit s keys :
  1000 * zsum row_amount (channel_rows uninit c keys s)
  + Z.min (channel_base_fee c s) (owed (view c) s (funder c)) <= funding_msat c.
Proof using I.
  pose proof (owed_nonneg s s). pose proof (owed_nonneg s (other s)).
  pose proof (rows_amount uninit (funder c) (delay_of c s) keys (feerate_of c s) (dust_of c s) (owed (view c) s s)
    (owed (view c) s (other s)) (committed_of c s) s ltac:(lia) ltac:(lia) (committed_amounts s)) as R.
  rewrite committed_sum in R. unfold funder_pays in R. fold (channel_base_fee c s) in R.
  assert ((if side_eqb (funder c) s then owed (view c) s s else owed (view c) s (other s))
    = owed (view c) s (funder c)) as E by (by destruct (funder c), s).
  rewrite E in R. exact R.
Qed.

Lemma channel_rows_dust uninit s keys : fits 32 (feerate_of c s) -> fits 60 (dust_of c s) ->
  Forall (fun r => dust_of c s <= row_amount r) (channel_rows uninit c keys s).
Proof using. intros Hr Hd. unfold channel_rows. exact (rows_not_dust _ _ _ _ _ _ _ _ _ _ Hr Hd). Qed.

Lemma channel_rows_htlc uninit s keys o cltv h : (o, cltv, Some h) ∈ channel_rows uninit c keys s <->
  h ∈ committed_of c s /\ trim h (feerate_of c s) (dust_of c s) s = false /\
  o = htlc_out s keys h /\ cltv = expiry h.
Proof using.
  unfold channel_rows. rewrite rows_htlc.
  assert (h ∈ offered_htlcs (committed_of c s) (feerate_of c s) (dust_of c s) s
    ++ received_htlcs (committed_of c s) (feerate_of c s) (dust_of c s) s <->
    h ∈ committed_of c s /\ trim h (feerate_of c s) (dust_of c s) s = false) as ->; [|tauto].
  unfold offered_htlcs, received_htlcs.
  rewrite elem_of_app, !list_elem_of_In, !filter_In, !andb_true_iff, !negb_true_iff.
  destruct (side_eqb (htlc_owner h) s); naive_solver.
Qed.
End Kept.

(** The script that an HTLC's output pays to is the one handed to the signer. *)
Lemma htlc_out_script txid i h c keys s :
  htlc_out s keys h = TxOutput (msatoshi h / 1000) (scriptpubkey_p2wsh (htlc_spend txid i h c keys s).2).
Proof. unfold htlc_out, htlc_spend. by destruct (side_eqb _ _). Qed.

Section Reached.
Context `{HtlcTable}.
Context (fs lm : Z) (c : channel) (R : reachable fs lm c).
Context (uninit : Z * Z) (point : pubkey) (n : Z) (s : side) (keys : keyset) (Hk : keys_of c point s = Some keys).
Context (Hrate : fits 32 (feerate_of c s)) (Hdust : fits 60 (dust_of c s)).

(** The fee of an HTLC's transaction. *)
Definition htlc_fee (h : htlc) : Z :=
  if side_eqb (htlc_owner h) s then htlc_timeout_fee (feerate_of c s) else htlc_success_fee (feerate_of c s).

Lemma reached_txs : exists l sorted, chan_inv (init_of fs lm) c l /\ funding_msat c = fs * 1000 /\
  channel_rows uninit c keys s ≡ₚ sorted /\ StronglySorted (before row_better) sorted /\
  let tx := commit_tx_of (funding_txid c) (funding_txout c) fs
              (Z.lxor n (commitment_number_obscurer c)) sorted.*1.*1 in
  let wscript := bitcoin_redeem_2of2 (at_side (funding_pubkey c) s) (at_side (funding_pubkey c) (other s)) in
  let spends := htlc_spends (bitcoin_txid tx) 0 sorted.*2 c keys s in
  channel_txs uninit c point n s = Some (Some (tx :: spends.*1, wscript :: spends.*2, sorted.*2)).
Proof using R Hk.
  destruct (reachable_tables fs lm c R) as (l & I & Ef & _ & A).
  assert (heights l) as Hh.
  { eapply Forall_impl; [exact A|]. intros h Ah. apply Ah. }
  destruct (channel_txs_spec uninit c point n s keys (inv_can_commit _ c l I fs Ef Hh s) Hk) as (sorted & P & S & E).
  exists l, sorted. rewrite Ef, Z.div_mul in E by done. done.
Qed.

(** C3. Commitments are sound: for either side of a reachable channel the node builds one
    that spends the funding output, whose outputs are in the order of BIP 69 and none
    below the dust limit of its owner, and which pays out no more than the funding less
    the base fee, or less all that the funder has where that does not cover it. *)
Theorem channel_txs_pay : exists tx rest wscripts htlcmap,
  channel_txs uninit c point n s = Some (Some (tx :: rest, wscripts, htlcmap)) /\
  (exists seq, input tx = [TxInput (funding_txid c) (funding_txout c) None seq (Some fs) None]) /\
  StronglySorted output_le (output tx) /\
  Forall (fun o => dust_of c s <= out_amount o) (output tx) /\
  1000 * zsum out_amount (output tx) + Z.min (channel_base_fee c s) (owed (view c) s (funder c)) <= fs * 1000.
Proof using R Hk Hrate Hdust.
  destruct reached_txs as (l & sorted & I & Ef & P & S & E). eexists _, _, _, _. split; [exact E|].
  split; [by eexists|]. cbn [commit_tx_of output]. split; [|split].
  - rewrite <- list_fmap_compose. eapply StronglySorted_fmap; [|exact S]. intros a b. apply row_before_output.
  - pose proof (channel_rows_dust c uninit s keys Hrate Hdust) as D. rewrite P in D.
    rewrite <- list_fmap_compose. by apply Forall_fmap.
  - pose proof (channel_rows_amount _ c l I uninit s keys) as A. rewrite P, Ef in A.
    rewrite <- list_fmap_compose, zsum_map. exact A.
Qed.

(** An HTLC that pays for its transaction and leaves more than dust. *)
Definition worth (h : htlc) : Prop := dust_of c s + htlc_fee h <= msatoshi h / 1000.

#[export] Instance worth_decision h : Decision (worth h) := decide (dust_of c s + htlc_fee h <= msatoshi h / 1000).

Lemma trim_worth h : trim h (feerate_of c s) (dust_of c s) s = false <-> worth h.
Proof using Hrate Hdust.
  pose proof (htlc_fees_bound (feerate_of c s) s (htlc_owner h) Hrate) as B. fold (htlc_fee h) in B.
  unfold trim, worth. cbv zeta. fold (htlc_fee h). unfold fits in Hdust. eval_pow2.
  rewrite u64_small by (unfold fits; eval_pow2; lia). apply Z.ltb_ge.
Qed.

(** The HTLCs behind the outputs are those worth it, each once. *)
Lemma rows_htlcs : omap (fun o => o) (channel_rows uninit c keys s).*2 ≡ₚ filter worth (committed_of c s).
Proof using Hrate Hdust.
  unfold channel_rows, commit_rows. rewrite fmap_app, <- list_fmap_compose, omap_app.
  match goal with |- context [zip_with ?f ?a ?b] => assert (omap (fun o => o) (zip_with f a b).*2 = []) as -> end.
  { generalize [uninit.1; uninit.2]. match goal with |- context [zip_with _ ?a] => generalize a end.
    intros a. induction a as [|x a IH]; intros [|y b]; cbn; [done..|]. apply IH. }
  rewrite app_nil_r. change (snd ∘ _) with (@Some htlc). unfold offered_htlcs, received_htlcs.
  assert (forall l : list htlc, omap (fun o => o) (Some <$> l) = l) as ->
    by (induction l as [|h l IH]; cbn; [done|by f_equal]).
  induction (committed_of c s) as [|h l IH]; [done|]. cbn [List.filter]. rewrite filter_cons.
  pose proof (trim_worth h) as T. destruct (trim h _ _ s) eqn:Et, (side_eqb (htlc_owner h) s); cbn [negb andb].
  - rewrite decide_False by (intros W%T; done). exact IH.
  - rewrite decide_False by (intros W%T; done). exact IH.
  - rewrite decide_True by by apply T. cbn. by f_equiv.
  - rewrite decide_True by by apply T. rewrite <- Permutation_middle. by f_equiv.
Qed.

(** The transaction of an HTLC. *)
Definition is_htlc_tx (commit : bitcoin_tx) (i : nat) (h : htlc) (wscript : bytes) (tx : bitcoin_tx) : Prop :=
  let offered := side_eqb (htlc_owner h) s in
  let self := self_htlc_key keys in
  let other' := other_htlc_key keys in
  let revocation := self_revocation_key keys in
  wscript = (if offered then bitcoin_wscript_htlc_offer self other' (rhash h) revocation
             else bitcoin_wscript_htlc_receive (expiry h) self other' (rhash h) revocation) /\
  output commit !! i = Some (TxOutput (msatoshi h / 1000) (scriptpubkey_p2wsh wscript)) /\
  tx = BitcoinTx 2
         [TxInput (bitcoin_txid commit) (Z.of_nat i) None 0 (Some (msatoshi h / 1000)) None]
         [TxOutput (msatoshi h / 1000 - htlc_fee h)
            (scriptpubkey_p2wsh (bitcoin_wscript_htlc_tx (delay_of c s) revocation (self_delayed_payment_key keys)))]
         (if offered then expiry h else 0) /\
  dust_of c s <= msatoshi h / 1000 - htlc_fee h.

Lemma htlc_spend_is commit i h : worth h -> amount_ok h ->
  output commit !! i = Some (htlc_out s keys h) ->
  is_htlc_tx commit i h (htlc_spend (bitcoin_txid commit) i h c keys s).2 (htlc_spend (bitcoin_txid commit) i h c keys s).1.
Proof using Hrate Hdust.
  intros W A Ho. pose proof (htlc_fees_bound (feerate_of c s) s (htlc_owner h) Hrate) as B. fold (htlc_fee h) in B.
  unfold worth in W. unfold amount_ok in A. unfold fits in Hdust.
  assert (msatoshi h / 1000 <= msatoshi h) by (apply Z.div_le_upper_bound; lia).
  assert (u64 (msatoshi h / 1000 - htlc_fee h) = msatoshi h / 1000 - htlc_fee h) as Eu.
  { apply u64_small. unfold fits in *. eval_pow2. lia. }
  rewrite (htlc_out_script (bitcoin_txid commit) i h c keys s) in Ho.
  split; [unfold htlc_spend; by destruct (side_eqb _ _)|]. split; [exact Ho|]. split; [|lia].
  rewrite <- Eu. unfold htlc_spend, htlc_fee. by destruct (side_eqb (htlc_owner h) s).
Qed.

(** C12. Every HTLC worth its fee can be claimed. Of the HTLCs committed for either side of
    a reachable channel, exactly those whose amount covers the fee of their transaction
    and the dust limit have an output, each one of its own; and there is exactly one
    further transaction for each, in the order of the outputs: the one with the HTLC's
    script and expiry (none for a received one) that spends its output of the commitment
    into an output of its amount less the fee, which is not dust. *)
Theorem htlc_txs_spend : exists tx rest wscripts htlcmap places,
  channel_txs uninit c point n s = Some (Some (tx :: rest, wscripts, htlcmap)) /\
  places.*2 ≡ₚ filter worth (committed_of c s) /\ StronglySorted lt places.*1 /\
  (forall i h, htlcmap !! i = Some (Some h) <-> (i, h) ∈ places) /\
  Forall3 (fun p wscript tx' => is_htlc_tx tx p.1 p.2 wscript tx') places (drop 1 wscripts) rest.
Proof using R Hk Hrate Hdust.
  destruct reached_txs as (l & sorted & I & Ef & P & S & E). eexists _, _, _, _, (htlc_places 0 sorted.*2).
  split; [exact E|]. split; [|split; [apply htlc_places_sorted|split]].
  - rewrite htlc_places_htlcs, <- rows_htlcs, P. done.
  - intros i h. rewrite htlc_places_elem, Nat.sub_0_r. split; [intros ?; split; [lia|done]|by intros [_ ?]].
  - rewrite skipn_cons, drop_0, htlc_spends_places, <- !list_fmap_compose. cbv zeta.
    match goal with |- Forall3 (fun p w t => is_htlc_tx ?tx _ _ w t) _ _ _ => set (commit := tx) end.
    assert (forall p, p ∈ htlc_places 0 sorted.*2 -> is_htlc_tx commit p.1 p.2
      (htlc_spend (bitcoin_txid commit) p.1 p.2 c keys s).2 (htlc_spend (bitcoin_txid commit) p.1 p.2 c keys s).1) as G.
    { intros [i h] [_ Hi]%htlc_places_elem. rewrite Nat.sub_0_r, list_lookup_fmap in Hi.
      destruct (sorted !! i) as [[[o cl] m]|] eqn:Hs; [|done]. cbn in Hi. simplify_eq.
      pose proof (list_elem_of_lookup_2 _ _ _ Hs) as Hin. rewrite <- P in Hin.
      apply channel_rows_htlc in Hin as (Hin & Ht & -> & _). apply htlc_spend_is; [by apply trim_worth| |].
      - pose proof (inv_amounts _ _ _ I) as Am. rewrite Forall_forall in Am. apply Am.
        exact (proj1 (proj1 (committed_in _ c l I s h) Hin)).
      - unfold commit. cbn. by rewrite !list_lookup_fmap, Hs. }
    clearbody commit. induction (htlc_places 0 sorted.*2) as [|p ps IH]; cbn [fmap list_fmap]; constructor.
    + apply G. left.
    + apply IH. intros q Hq. apply G. by right.
Qed.
End Reached.
End Txs.

(** ** Instances *)
Module DemoTxs.
Import ChannelSafety.Demo.
#[local] Existing Instances Scalars.ops Scalars.laws InOrder.table.

Definition point : pubkey := demo_point 50.

(** Keys can be derived, and the rate and the limit are small. *)
Definition ready (p : pubkey) (c : channel) : bool :=
  bool_decide (is_Some (keys_of c p LOCAL)) && (feerate_of c LOCAL =? 253) && (dust_of c LOCAL =? 546)
  && match committed_of c LOCAL with [h] => bool_decide (worth c LOCAL h) | _ => false end.

Lemma ready_spec p c : ready p c = true -> exists keys, keys_of c p LOCAL = Some keys /\
  fits 32 (feerate_of c LOCAL) /\ fits 60 (dust_of c LOCAL) /\
  exists h, committed_of c LOCAL = [h] /\ worth c LOCAL h.
Proof.
  unfold ready. rewrite !andb_true_iff. intros [[[K F] D] C].
  apply bool_decide_eq_true in K as [keys K]. apply Z.eqb_eq in F, D.
  exists keys. split; [exact K|]. split; [|split].
  - rewrite F. unfold fits. eval_pow2. lia.
  - rewrite D. unfold fits. eval_pow2. lia.
  - destruct (committed_of c LOCAL) as [|h [|? ?]]; try discriminate C. exists h.
    split; [reflexivity|]. exact (proj1 (bool_decide_eq_true _) C).
Qed.

Lemma ready_run : exists c, run committed_both = Some c /\ ready point c = true.
Proof. apply test_run. vm_compute. reflexivity. Qed.

Lemma channel_txs_pay_witness : exists c tx rest wscripts htlcmap, run committed_both = Some c /\
  channel_txs (0, 0) c point 7 LOCAL = Some (Some (tx :: rest, wscripts, htlcmap)) /\
  1000 * zsum out_amount (output tx) <= 1000000 * 1000.
Proof.
  destruct ready_run as (c & E & T). destruct (ready_spec _ _ T) as (keys & K & F & D & _).
  destruct (channel_txs_pay 1000000 700000000 c (run_reachable _ _ E) (0, 0) point 7 LOCAL keys K F D)
    as (tx & rest & wscripts & htlcmap & Et & _ & _ & _ & Hs).
  exists c, tx, rest, wscripts, htlcmap. split; [exact E|]. split; [exact Et|].
  destruct (reachable_spec 1000000 700000000 c (run_reachable _ _ E)) as (l & I & _).
  pose proof (owed_nonneg _ c l I LOCAL (funder c)) as O. unfold channel_base_fee in Hs.
  pose proof (base_fee_nonneg (feerate_of c LOCAL) (dust_of c LOCAL) (committed_of c LOCAL) LOCAL). lia.
Defined.

Lemma htlc_txs_spend_witness : exists c keys tx tx' wscripts htlcmap i h wscript, run committed_both = Some c /\
  committed_of c LOCAL = [h] /\
  channel_txs (0, 0) c point 7 LOCAL = Some (Some ([tx; tx'], wscripts, htlcmap)) /\
  is_htlc_tx c LOCAL keys tx i h wscript tx'.
Proof.
  destruct ready_run as (c & E & T). destruct (ready_spec _ _ T) as (keys & K & F & D & h & C & W).
  destruct (htlc_txs_spend 1000000 700000000 c (run_reachable _ _ E) (0, 0) point 7 LOCAL keys K F D)
    as (tx & rest & wscripts & htlcmap & places & Et & Pp & _ & _ & Hf).
  assert (filter (worth c LOCAL) (committed_of c LOCAL) = [h]) as Ew
    by (rewrite C, filter_cons_True by exact W; reflexivity).
  rewrite Ew in Pp. symmetry in Pp. apply Permutation_singleton_l in Pp.
  destruct places as [|[i g] [|? ?]]; cbn in Pp; try discriminate Pp. injection Pp as ->.
  inversion Hf as [|p w t ps ws ts Hi Hf' E1 E2 E3]. subst. inversion Hf'. subst.
  exists c, keys, tx, t, wscripts, htlcmap, i, g, w. split; [exact E|]. split; [exact C|]. split; [exact Et|exact Hi].
Defined.
End DemoTxs.
