(* ===== verification/Mirror.v ===== *)
(** * The two ends of a channel

    Each node keeps the channel from its own side. Here: the same HTLC and the same channel
    seen from the other end, and the proof that both ends build the same transactions for
    a commitment, whatever order their tables have and whatever the unwritten expiries are,
    so that a signature made at one end is for the transaction checked at the other. *)
From stdpp Require Import sorting.
From S2P Require Import Prelude HtlcState Sha256 Ripemd160 Secp BitcoinTx LnScript ScriptSpend KeyDerive Params Htlc Permute.
From S2P Require Import ScriptRun ChannelSpend CommitTx Channel Ledger ChannelInv ChannelSafety ChannelTxs.
Local Open Scope Z_scope.

(** ** States and HTLCs *)

(** The states of an HTLC we offered and of one they offered are in the same order. *)
Definition mirror_state (st : htlc_state) : htlc_state :=
  default st (htlc_state_of ((htlc_state_num st + 10) mod 20)).

Lemma mirror_state_twice st : mirror_state (mirror_state st) = st.
Proof. by destruct st. Qed.

Lemma mirror_owner st : htlc_state_owner (mirror_state st) = other (htlc_state_owner st).
Proof. by destruct st. Qed.

Lemma mirror_flags f st v : f ∈ [HTLC_F_PENDING; HTLC_F_COMMITTED; HTLC_F_WAS_COMMITTED] ->
  sflag f (mirror_state st) (other v) = sflag f st v.
Proof.
  rewrite !elem_of_cons, elem_of_nil. intros [->|[->|[->|[]]]]; by destruct st, v.
Qed.

(** An HTLC without what only one end knows: the onion, and why it failed. *)
Definition bare (h : htlc) : htlc :=
  Htlc (state h) (id h) (msatoshi h) (expiry h) (rhash h) (r h) None [] None 0 None.

(** The HTLC as the other end sees it. *)
Definition mirror (h : htlc) : htlc :=
  Htlc (mirror_state (state h)) (id h) (msatoshi h) (expiry h) (rhash h) (r h) None [] None 0 None.

Lemma mirror_twice h : mirror (mirror h) = bare h.
Proof. unfold mirror, bare. cbn. by rewrite mirror_state_twice. Qed.

Lemma mirror_bare h : mirror (bare h) = mirror h.
Proof. done. Qed.

Lemma side_eqb_other a b : side_eqb (other a) (other b) = side_eqb a b.
Proof. by destruct a, b. Qed.

(** What a commitment for [s] takes from an HTLC: is it offered by [s], and its terms. *)
Definition stake_of (s : side) (h : htlc) : bool * Z * Z * bytes :=
  (side_eqb (htlc_owner h) s, msatoshi h, expiry h, rhash h).

Definition stake_trim (feerate dust : Z) (x : bool * Z * Z * bytes) : bool :=
  let '(offered, msat, _, _) := x in
  msat / 1000 <? u64 (dust + (if offered : bool then htlc_timeout_fee feerate else htlc_success_fee feerate)).

Lemma trim_stake h feerate dust s : trim h feerate dust s = stake_trim feerate dust (stake_of s h).
Proof. done. Qed.

Lemma filter_fmap_bool {A B} (f : A -> B) (P : B -> bool) (Q : A -> bool) l : (forall x, P (f x) = Q x) ->
  List.filter P (f <$> l) = f <$> List.filter Q l.
Proof.
  intros E. induction l as [|x l IH]; [done|]. csimpl. rewrite E. by destruct (Q x); csimpl; rewrite IH.
Qed.

Lemma filter_bool_perm {A} (P : A -> bool) l k : l ≡ₚ k -> List.filter P l ≡ₚ List.filter P k.
Proof.
  induction 1 as [|x l k _ IH|x y l|l k m _ IH1 _ IH2]; cbn [List.filter]; repeat case_match; try done.
  - by rewrite IH.
  - constructor.
  - by rewrite IH1.
Qed.

(** ** Rows, up to what is never written *)
Section Agree.
Context `{Secp256k1}.

Definition htlc_wscript (s : side) (keys : keyset) (h : htlc) : bytes :=
  if side_eqb (htlc_owner h) s
  then htlc_offered_wscript (ripemd160 (rhash h)) keys
  else htlc_received_wscript (ripemd160 (rhash h)) (expiry h) keys.

(** What the transactions take from a row. *)
Definition info : Type := bitcoin_tx_output * option (Z * bool * bytes).

Definition htlc_info (s : side) (keys : keyset) (h : htlc) : info :=
  (htlc_out s keys h, Some (expiry h, side_eqb (htlc_owner h) s, htlc_wscript s keys h)).

Definition row_info (s : side) (keys : keyset) (r : row (option htlc)) : info :=
  match r.2 with None => (r.1.1, None) | Some h => htlc_info s keys h end.

Definition stake_info (keys : keyset) (x : bool * Z * Z * bytes) : info :=
  let '(offered, msat, expiry, hash) := x in
  let wscript := if offered : bool then htlc_offered_wscript (ripemd160 hash) keys
                 else htlc_received_wscript (ripemd160 hash) expiry keys in
  (TxOutput (msat / 1000) (scriptpubkey_p2wsh wscript), Some (expiry, offered, wscript)).

Lemma htlc_info_stake s keys h : htlc_info s keys h = stake_info keys (stake_of s h).
Proof. unfold htlc_info, htlc_out, htlc_wscript, stake_info, stake_of. by destruct (side_eqb _ _). Qed.

Definition info_spend (txid : bytes) (i : nat) (delay feerate : Z) (keys : keyset) (amount : Z)
    (p : Z * bool * bytes) : bitcoin_tx * bytes :=
  let '(cltv, offered, wscript) := p in
  (htlc_tx txid (Z.of_nat i) (amount * 1000) delay (self_revocation_key keys) (self_delayed_payment_key keys)
     (if offered then htlc_timeout_fee feerate else htlc_success_fee feerate) (if offered then cltv else 0),
   wscript).

Fixpoint info_spends (txid : bytes) (i : nat) (delay feerate : Z) (keys : keyset) (l : list info)
    : list (bitcoin_tx * bytes) :=
  match l with
  | [] => []
  | (_, None) :: l => info_spends txid (S i) delay feerate keys l
  | (o, Some p) :: l =>
      info_spend txid i delay feerate keys (out_amount o) p :: info_spends txid (S i) delay feerate keys l
  end.

Lemma htlc_spend_info txid i h c keys s :
  htlc_spend txid i h c keys s =
  info_spend txid i (delay_of c s) (feerate_of c s) keys (msatoshi h / 1000)
    (expiry h, side_eqb (htlc_owner h) s, htlc_wscript s keys h).
Proof.
  unfold htlc_spend, info_spend, htlc_wscript, htlc_timeout_tx, htlc_success_tx, htlc_tx.
  rewrite Z.div_mul by done. by destruct (side_eqb (htlc_owner h) s).
Qed.

Lemma htlc_spends_info txid i (rows : list (row (option htlc))) c keys s :
  htlc_spends txid i rows.*2 c keys s =
  info_spends txid i (delay_of c s) (feerate_of c s) keys (row_info s keys <$> rows).
Proof.
  revert i. induction rows as [|[[o cl] [h|]] rows IH]; intros i; [done| |]; csimpl.
  - cbn [htlc_spends info_spends row_info snd htlc_info]. rewrite IH, htlc_spend_info, htlc_out_amount. done.
  - apply IH.
Qed.

(** ** The order of the rows *)
Definition info_le (a b : info) : Prop :=
  output_le a.1 b.1 /\
  (a.1 = b.1 -> match a.2, b.2 with Some (ca, _, _), Some (cb, _, _) => ca <= cb | _, _ => True end).

Definition row_ok (s : side) (keys : keyset) (r : row (option htlc)) : Prop :=
  match r.2 with None => True | Some h => r.1 = (htlc_out s keys h, expiry h) end.

Lemma row_info_fst s keys r : row_ok s keys r -> (row_info s keys r).1 = r.1.1.
Proof. unfold row_ok, row_info. destruct (r.2); [|done]. by intros ->. Qed.

Lemma row_info_le s keys a b : row_ok s keys a -> row_ok s keys b ->
  before row_better a b -> info_le (row_info s keys a) (row_info s keys b).
Proof.
  intros Ha Hb Hab. split.
  - rewrite !row_info_fst by done. by apply row_before_output.
  - rewrite !row_info_fst by done. intros E. apply row_before_ranked in Hab. unfold ranked_le, row_cmp in Hab.
    unfold row_ok, row_info in *. destruct (a.2) as [ha|], (b.2) as [hb|]; try done. cbn.
    rewrite Ha, Hb in *. cbn in *. rewrite E in Hab. 
    assert (output_cmp (htlc_out s keys hb) (htlc_out s keys hb) = Eq) as Er.
    { unfold output_cmp. rewrite Z.compare_refl. by apply bytes_cmp_eq. }
    rewrite Er in Hab. cbn in Hab. by apply Z.compare_ge_iff in Hab.
Qed.

Lemma sorted_infos s keys rows : Forall (row_ok s keys) rows -> StronglySorted (before row_better) rows ->
  StronglySorted info_le (row_info s keys <$> rows).
Proof.
  intros F. induction 1 as [|x l S IH B]; csimpl; constructor; inversion_clear F as [|? ? Fx Fl]; [by apply IH|].
  apply Forall_fmap. rewrite Forall_forall in *. intros y Hy. cbn. apply row_info_le; auto.
Qed.

(** ** Scripts *)
Lemma offer_receive_differ ripemd ripemd' expiry keys :
  htlc_offered_wscript ripemd keys <> htlc_received_wscript ripemd' expiry keys.
Proof.
  unfold htlc_offered_wscript, htlc_received_wscript. rewrite offer_pieces, receive_pieces. unfold htlc_prefix.
  generalize (push_of (pubkey_to_hash160 (self_revocation_key keys))) (push_of (pubkey_to_der (other_htlc_key keys)))
    (push_of (pubkey_to_der (self_htlc_key keys))) (push_of ripemd) (push_of ripemd') (number_of 32) (number_of 2)
    (number_of expiry).
  intros p q q' x y n m e E. injection E as E. apply app_inv_head in E. injection E as E.
  apply app_inv_head in E. injection E as E. apply app_inv_head in E. discriminate E.
Qed.

Lemma to_self_htlc_differ delay keys s h : to_self_wscript delay keys <> htlc_wscript s keys h.
Proof.
  unfold to_self_wscript, htlc_wscript, htlc_offered_wscript, htlc_received_wscript.
  rewrite to_local_pieces. intros E. apply (f_equal head) in E.
  destruct (side_eqb _ _); rewrite ?offer_pieces, ?receive_pieces in E; unfold htlc_prefix in E; cbn [head] in E;
    discriminate E.
Qed.

Lemma p2wpkh_length key : length (scriptpubkey_p2wpkh key) = 22%nat.
Proof.
  unfold scriptpubkey_p2wpkh. assert (length (pubkey_to_hash160 key) = 20%nat) as L by apply length_ripemd160.
  revert L. generalize (pubkey_to_hash160 key). intros d L.
  unfold script_of. cbn [foldl]. unfold add_op, add. rewrite add_push_bytes_app.
  rewrite push_of_short by (rewrite L; lia). cbn [length app]. by rewrite L.
Qed.

Lemma p2wsh_inj a b : scriptpubkey_p2wsh a = scriptpubkey_p2wsh b -> sha256 a = sha256 b.
Proof. rewrite !p2wsh_bytes. by intros [= E]. Qed.

Lemma p2wsh_p2wpkh a key : scriptpubkey_p2wsh a <> scriptpubkey_p2wpkh key.
Proof.
  intros E. apply (f_equal length) in E. rewrite p2wpkh_length, p2wsh_bytes in E. cbn [length] in E.
  rewrite length_sha256 in E. discriminate E.
Qed.

(** ** Two ends that agree on a commitment *)

(** [c'] is the other end of [c]: the same terms, seen from the other side. *)
Record ends (c c' : channel) : Prop := {
  ends_txid : funding_txid c' = funding_txid c;
  ends_txout : funding_txout c' = funding_txout c;
  ends_funding : funding_msat c' = funding_msat c;
  ends_funder : funder c' = other (funder c);
  ends_obscurer : commitment_number_obscurer c' = commitment_number_obscurer c;
  ends_keys s : at_side (funding_pubkey c') (other s) = at_side (funding_pubkey c) s;
  ends_config s : at_side (config c') (other s) = at_side (config c) s;
  ends_basepoints s : at_side (channel_basepoints c') (other s) = at_side (channel_basepoints c) s
}.

(** They hold the same commitment for [s], a side of [c]. *)
Record agree_on (s : side) (c c' : channel) : Prop := {
  agree_feerate : feerate_of c' (other s) = feerate_of c s;
  agree_owed t : owed (view c') (other s) (other t) = owed (view c) s t;
  agree_htlcs : stake_of s <$> committed_of c s ≡ₚ stake_of (other s) <$> committed_of c' (other s)
}.

(** No two of the scripts collide under SHA-256. *)
Definition no_collision (scripts : list bytes) : Prop :=
  forall a b, a ∈ scripts -> b ∈ scripts -> sha256 a = sha256 b -> a = b.

Definition scripts_of (c : channel) (keys : keyset) (s : side) : list bytes :=
  to_self_wscript (delay_of c s) keys :: (htlc_wscript s keys <$> committed_of c s).

Lemma rows_ok uninit c keys s : Forall (row_ok s keys) (channel_rows uninit c keys s).
Proof.
  apply Forall_forall. intros [[o cl] [h|]] Hr; [|done]. apply channel_rows_htlc in Hr as (_ & _ & -> & ->). done.
Qed.

(** The output of an entry is that of an HTLC, or goes to one side. *)
Definition info_ok (c : channel) (keys : keyset) (s : side) (x : info) : Prop :=
  (exists h, h ∈ committed_of c s /\ x = htlc_info s keys h) \/
  (exists o, x = (o, None) /\ (out_script o = scriptpubkey_p2wsh (to_self_wscript (delay_of c s) keys) \/
                              out_script o = scriptpubkey_p2wpkh (other_payment_key keys))).

Lemma rows_info_ok uninit c keys s r : r ∈ channel_rows uninit c keys s -> info_ok c keys s (row_info s keys r).
Proof.
  destruct r as [[o cl] [h|]]; intros Hr.
  - apply channel_rows_htlc in Hr as (Hin & _ & _ & _). left. by exists h.
  - right. exists o. split; [done|]. unfold channel_rows, commit_rows in Hr.
    apply elem_of_app in Hr as [Hr|Hr]; [by apply list_elem_of_fmap in Hr as (? & ? & _)|].
    apply list_elem_of_lookup_1 in Hr as [k Hr]. apply lookup_zip_with_Some in Hr as (o' & c' & E & Ho & _).
    injection E as -> ->. apply list_elem_of_lookup_2, elem_of_app in Ho as [Ho|Ho].
    + unfold to_local_out in Ho. case_match; [|by apply elem_of_nil in Ho].
      apply list_elem_of_singleton in Ho as ->. by left.
    + unfold to_remote_out in Ho. case_match; [|by apply elem_of_nil in Ho].
      apply list_elem_of_singleton in Ho as ->. by right.
Qed.

Lemma htlc_out_p2wsh s keys h : out_script (htlc_out s keys h) = scriptpubkey_p2wsh (htlc_wscript s keys h).
Proof. unfold htlc_out, htlc_wscript. by destruct (side_eqb _ _). Qed.

Lemma htlc_wscript_kind s keys h h' : htlc_wscript s keys h = htlc_wscript s keys h' ->
  side_eqb (htlc_owner h) s = side_eqb (htlc_owner h') s.
Proof.
  unfold htlc_wscript. destruct (side_eqb (htlc_owner h) s), (side_eqb (htlc_owner h') s); try done.
  - by intros ?%offer_receive_differ.
  - intros E. symmetry in E. by apply offer_receive_differ in E.
Qed.

(** An output and an expiry are of one kind, when no scripts collide. *)
Lemma info_antisym c keys s x y : no_collision (scripts_of c keys s) ->
  info_ok c keys s x -> info_ok c keys s y -> info_le x y -> info_le y x -> x = y.
Proof.
  intros NC Ox Oy [Lx Cx] [Ly Cy]. pose proof (anti_symm output_le _ _ Lx Ly) as E.
  specialize (Cx E). specialize (Cy (eq_sym E)).
  assert (forall h, h ∈ committed_of c s -> htlc_wscript s keys h ∈ scripts_of c keys s) as In1.
  { intros h Hh. right. apply list_elem_of_fmap. by exists h. }
  assert (to_self_wscript (delay_of c s) keys ∈ scripts_of c keys s) as In2 by left.
  assert (forall h o, h ∈ committed_of c s -> (out_script o = scriptpubkey_p2wsh (to_self_wscript (delay_of c s) keys) \/
    out_script o = scriptpubkey_p2wpkh (other_payment_key keys)) -> htlc_out s keys h <> o) as Mixed.
  { intros h o Hh Ho <-. rewrite htlc_out_p2wsh in Ho. destruct Ho as [Ho|Ho].
    - apply p2wsh_inj, NC in Ho; [|by apply In1|done]. symmetry in Ho. by apply to_self_htlc_differ in Ho.
    - by apply p2wsh_p2wpkh in Ho. }
  destruct Ox as [(h & Hh & ->)|(o & -> & Ho)], Oy as [(h' & Hh' & ->)|(o' & -> & Ho')]; cbn in *.
  - pose proof (f_equal out_script E) as Es. rewrite !htlc_out_p2wsh in Es.
    apply p2wsh_inj, NC in Es; [|by apply In1..]. pose proof (htlc_wscript_kind _ _ _ _ Es) as Ek.
    assert (expiry h = expiry h') as Ee by lia. unfold htlc_info. by rewrite E, Es, Ek, Ee.
  - by apply Mixed in E.
  - symmetry in E. by apply Mixed in E.
  - by rewrite E.
Qed.

(** A choice by stakes picks the same ones at both ends. *)
Lemma filter_stakes (P : bool * Z * Z * bytes -> bool) (Q Q' : htlc -> bool) s (l l' : list htlc) :
  (forall h, Q h = P (stake_of s h)) -> (forall h, Q' h = P (stake_of (other s) h)) ->
  stake_of s <$> l ≡ₚ stake_of (other s) <$> l' ->
  stake_of s <$> List.filter Q l ≡ₚ stake_of (other s) <$> List.filter Q' l'.
Proof.
  intros E E' Pl. apply (filter_bool_perm P) in Pl.
  rewrite (filter_fmap_bool (stake_of s) P Q) in Pl by (intros; by rewrite E).
  rewrite (filter_fmap_bool (stake_of (other s)) P Q') in Pl by (intros; by rewrite E'). done.
Qed.

Lemma num_untrimmed_stakes l l' feerate dust s : stake_of s <$> l ≡ₚ stake_of (other s) <$> l' ->
  commit_tx_num_untrimmed l' feerate dust (other s) = commit_tx_num_untrimmed l feerate dust s.
Proof.
  intros P. unfold commit_tx_num_untrimmed.
  apply (filter_stakes (fun x => negb (stake_trim feerate dust x)) (fun h => negb (trim h feerate dust s))
    (fun h => negb (trim h feerate dust (other s)))) in P; [|done|done].
  apply Permutation_length in P. rewrite !length_fmap in P. by rewrite P.
Qed.

Lemma htlc_infos_agree l l' feerate dust s keys : stake_of s <$> l ≡ₚ stake_of (other s) <$> l' ->
  htlc_info s keys <$> offered_htlcs l feerate dust s ++ received_htlcs l feerate dust s ≡ₚ
  htlc_info (other s) keys <$> offered_htlcs l' feerate dust (other s) ++ received_htlcs l' feerate dust (other s).
Proof.
  intros P. assert (forall (k k' : list htlc), stake_of s <$> k ≡ₚ stake_of (other s) <$> k' ->
    htlc_info s keys <$> k ≡ₚ htlc_info (other s) keys <$> k') as E.
  { intros k k' Pk. apply (fmap_Permutation (stake_info keys)) in Pk. rewrite <- !list_fmap_compose in Pk.
    etransitivity; [|etransitivity; [exact Pk|]]; apply reflexive_eq, list_fmap_ext; intros i x _.
    - exact (htlc_info_stake s keys x).
    - exact (eq_sym (htlc_info_stake (other s) keys x)). }
  rewrite !fmap_app. apply Permutation_app; apply E.
  - by apply (filter_stakes (fun x => x.1.1.1 && negb (stake_trim feerate dust x))).
  - by apply (filter_stakes (fun x => negb x.1.1.1 && negb (stake_trim feerate dust x))).
Qed.

Lemma tail_infos uninit s keys (outs : list bitcoin_tx_output) : (length outs <= 2)%nat ->
  row_info s keys <$> zip_with (fun o c => (o, c, None)) outs [uninit.1; uninit.2] = (fun o => (o, None)) <$> outs.
Proof. intros L. destruct outs as [|? [|? [|? ?]]]; cbn in *; try done; lia. Qed.

Lemma infos_agree uninit uninit' c c' s keys : ends c c' -> agree_on s c c' ->
  row_info s keys <$> channel_rows uninit c keys s ≡ₚ
  row_info (other s) keys <$> channel_rows uninit' c' keys (other s).
Proof.
  intros E A. unfold channel_rows, commit_rows. rewrite !fmap_app, !tail_infos by apply to_outs_length.
  assert (delay_of c' (other s) = delay_of c s) as Ed.
  { unfold delay_of. by rewrite (ends_config _ _ E (other s)). }
  assert (dust_of c' (other s) = dust_of c s) as Eu by (unfold dust_of; by rewrite (ends_config _ _ E s)).
  rewrite !(agree_feerate _ _ _ A), Eu, Ed, !(agree_owed _ _ _ A), (ends_funder _ _ E).
  set (self := owed (view c) s s). set (oth := owed (view c) s (other s)).
  assert (base_fee (feerate_of c s) (dust_of c s) (committed_of c' (other s)) (other s)
    = base_fee (feerate_of c s) (dust_of c s) (committed_of c s) s) as Eb.
  { unfold base_fee. by rewrite (num_untrimmed_stakes (committed_of c s) (committed_of c' (other s))) by apply A. }
  assert (forall b, try_subtract_fee (other (funder c)) (other s) b self oth = try_subtract_fee (funder c) s b self oth) as Et.
  { intros b. unfold try_subtract_fee. by rewrite side_eqb_other. }
  unfold paid_self, paid_other. rewrite Eb, Et. apply Permutation_app_tail.
  rewrite <- !fmap_app, <- !list_fmap_compose. apply (htlc_infos_agree _ _ (feerate_of c s) (dust_of c s) s keys), A.
Qed.

Lemma keys_agree c c' point s : ends c c' -> keys_of c' point (other s) = keys_of c point s.
Proof.
  intros E. unfold keys_of. by rewrite (ends_basepoints _ _ E s), (ends_basepoints _ _ E (other s)).
Qed.

Lemma can_commit_agree c c' s : ends c c' -> agree_on s c c' -> can_commit c s -> can_commit c' (other s).
Proof.
  intros E A [P Hh]. split.
  - by rewrite !(agree_owed _ _ _ A), (ends_funding _ _ E).
  - unfold heights in *. rewrite Forall_forall in *. intros h Hin.
    assert (stake_of (other s) h ∈ stake_of s <$> committed_of c s) as Hb.
    { rewrite (agree_htlcs _ _ _ A). apply list_elem_of_fmap. by exists h. }
    apply list_elem_of_fmap in Hb as (g & Eg & Hg). specialize (Hh g Hg). injection Eg as _ _ Ee _. lia.
Qed.

(** Both ends build the same transactions and scripts. *)
Lemma txs_agree uninit uninit' c c' point n s keys : ends c c' -> agree_on s c c' -> can_commit c s ->
  keys_of c point s = Some keys -> no_collision (scripts_of c keys s) ->
  exists txs wscripts htlcmap htlcmap',
    channel_txs uninit c point n s = Some (Some (txs, wscripts, htlcmap)) /\
    channel_txs uninit' c' point n (other s) = Some (Some (txs, wscripts, htlcmap')).
Proof.
  intros E A CC Hk NC.
  destruct (channel_txs_spec uninit c point n s keys CC Hk) as (sorted & P & S & ->).
  pose proof (keys_agree c c' point s E) as Hk'. rewrite Hk in Hk'.
  destruct (channel_txs_spec uninit' c' point n (other s) keys (can_commit_agree c c' s E A CC) Hk')
    as (sorted' & P' & S' & ->).
  assert (row_info s keys <$> sorted = row_info (other s) keys <$> sorted') as Ei.
  { eapply (StronglySorted_unique_strong info_le).
    - intros x y Hx Hy. rewrite <- P in Hx. rewrite <- P', <- (infos_agree uninit uninit' c c') in Hy by done.
      apply list_elem_of_fmap in Hx as (rx & -> & Hx). apply list_elem_of_fmap in Hy as (ry & -> & Hy).
      apply (info_antisym c keys s); [done|by eapply rows_info_ok..].
    - apply sorted_infos; [rewrite <- P; apply rows_ok|done].
    - apply sorted_infos; [rewrite <- P'; apply rows_ok|done].
    - rewrite <- P, <- P'. by apply infos_agree. }
  assert (sorted.*1.*1 = sorted'.*1.*1) as Eo.
  { assert (forall s rows, Forall (row_ok s keys) rows -> rows.*1.*1 = (row_info s keys <$> rows).*1) as Of.
    { intros s0 rows F. rewrite <- !list_fmap_compose. apply list_fmap_ext. intros i x Hx. cbn.
      symmetry. apply row_info_fst. by eapply Forall_lookup_1. }
    rewrite (Of s), (Of (other s)), Ei; [done|rewrite <- P'; apply rows_ok|rewrite <- P; apply rows_ok]. }
  rewrite (ends_txid _ _ E), (ends_txout _ _ E), (ends_funding _ _ E), (ends_obscurer _ _ E), Eo.
  rewrite !htlc_spends_info, Ei, (ends_keys _ _ E s), (ends_keys _ _ E (other s)), (agree_feerate _ _ _ A).
  assert (delay_of c' (other s) = delay_of c s) as -> by (unfold delay_of; by rewrite (ends_config _ _ E (other s))).
  do 4 eexists. split; reflexivity.
Qed.
End Agree.
