(* ===== verification/Faces.v ===== *)
(** * What a commitment sees of the HTLCs

    Each side's commitment depends on an HTLC only through a few facts, the same at both
    ends of the channel: whether it is in the commitment, whether a change is pending, whose
    it is and what it pays. Here, everything that [Channel] decides by (may an HTLC be
    added, is a fee rate affordable, what does a commitment pay) as a function of those. *)
From S2P Require Import Prelude HtlcState Sha256 Secp KeyDerive Params Htlc Channel Ledger.
From S2P Require Import CommitTx ChannelInv ChannelSafety ChannelTxs Mirror.
Local Open Scope Z_scope.

(** ** The face an HTLC shows a commitment *)

(** [f_own]: this side offered it; [f_paid]: it is (being) removed in this side's favour. *)
Record face := Face {
  f_was : bool;
  f_com : bool;
  f_pen : bool;
  f_own : bool;
  f_paid : bool;
  f_msat : Z;
  f_expiry : Z;
  f_hash : bytes
}.

Definition face_of (s : side) (h : htlc) : option face :=
  let was := was_committed (state h) s in
  let com := committed (state h) s in
  let pen := pending (state h) s in
  if was || pen then
    Some (Face was com pen (side_eqb (htlc_owner h) s)
            (((was && negb com) || (com && pen)) && side_eqb (paid_to h) s)
            (msatoshi h) (expiry h) (rhash h))
  else None.

(** The faces of a table. *)
Definition faces (s : side) (l : list htlc) : list face := omap (face_of s) l.

Lemma face_of_bare s h : face_of s (bare h) = face_of s h.
Proof. done. Qed.

Lemma face_of_mirror s h : face_of (other s) (mirror h) = face_of s h.
Proof.
  unfold face_of, htlc_owner, paid_to, htlc_owner. cbn [mirror state r msatoshi expiry rhash].
  rewrite !mirror_flags by set_solver. rewrite mirror_owner, other_other.
  destruct (r h); by rewrite ?side_eqb_other, <- ?(side_eqb_other _ s), ?other_other.
Qed.

Lemma zsum_omap {A B} (f : A -> option B) (g : B -> Z) l :
  zsum g (omap f l) = zsum (fun x => match f x with Some y => g y | None => 0 end) l.
Proof.
  induction l as [|x l IH]; [done|]. csimpl. destruct (f x) eqn:E; rewrite ?zsum_cons, IH, ?E; lia.
Qed.

Lemma zsum_faces (g : htlc -> Z) (k : face -> Z) s l :
  (forall h, g h = match face_of s h with Some f => k f | None => 0 end) -> zsum g l = zsum k (faces s l).
Proof. intros E. unfold faces. rewrite zsum_omap. apply zsum_ext_in. intros h _. apply E. Qed.

#[global] Instance faces_perm s : Proper ((≡ₚ) ==> (≡ₚ)) (faces s).
Proof. intros l l' P. unfold faces. by rewrite P. Qed.

(** ** Sums over faces *)

(** What is left of it once everything pending is applied: in the commitment, or not. *)
Definition slot (f : face) : Z :=
  (if f_com f then 1 else 0) - (if f_com f && f_pen f then 1 else 0) + (if negb (f_com f) && f_pen f then 1 else 0).

Definition offered (f : face) : Z := if f_own f then 0 else slot f * f_msat f.

Definition face_trim (feerate dust : Z) (f : face) : bool :=
  f_msat f / 1000 <? u64 (dust + (if f_own f then htlc_timeout_fee feerate else htlc_success_fee feerate)).

Definition untrimmed (feerate dust : Z) (f : face) : Z := if face_trim feerate dust f then 0 else slot f.

(** The changes to the balance of this side ([own]) or of the other. *)
Definition face_effect (own : bool) (f : face) : Z :=
  (if f_was f then if eqb (f_own f) own then - f_msat f else 0 else 0)
  + (if f_was f && negb (f_com f) then if eqb (f_paid f) own then f_msat f else 0 else 0).

Definition face_pend (own : bool) (f : face) : Z :=
  if f_pen f
  then if f_com f then if eqb (f_paid f) own then f_msat f else 0
       else if eqb (f_own f) own then - f_msat f else 0
  else 0.

Ltac face_cases :=
  repeat match goal with s : side |- _ => destruct s end;
  match goal with h : htlc |- _ => destruct h as [[] ? ? ? ? [?|] ? ? ? ? ?] end;
  unfold face_of, effect, pend, adding, removing, paid_to, htlc_owner; cbn [state msatoshi r expiry rhash];
  eval_flags; cbn; try done; try lia.

Lemma effect_face s t h :
  effect s t h = match face_of s h with Some f => face_effect (side_eqb t s) f | None => 0 end.
Proof. face_cases. Qed.

Lemma pend_face s t h :
  pend s t h = match face_of s h with Some f => face_pend (side_eqb t s) f | None => 0 end.
Proof. face_cases. Qed.

Lemma ledger_faces init l s t :
  ledger init l s t = at_side init t + zsum (face_effect (side_eqb t s)) (faces s l).
Proof. unfold ledger. f_equal. apply zsum_faces. intros. apply effect_face. Qed.

Lemma projected_faces init l s t :
  projected init l s t = at_side init t + zsum (face_effect (side_eqb t s)) (faces s l)
                         + zsum (face_pend (side_eqb t s)) (faces s l).
Proof. unfold projected. rewrite ledger_faces. f_equal. apply zsum_faces. intros. apply pend_face. Qed.

(** ** The arrays of [gather_htlcs] *)
Lemma length_list_filter {A} (P : A -> bool) l :
  Z.of_nat (length (List.filter P l)) = zsum (fun x => if P x then 1 else 0) l.
Proof.
  induction l as [|x l IH]; [done|]. cbn [List.filter]. rewrite zsum_cons, <- IH.
  destruct (P x); cbn [length]; lia.
Qed.

Lemma total_offered_spec l s :
  total_offered_msatoshis l s = u64 (zsum (fun h => if side_eqb (htlc_owner h) s then msatoshi h else 0) l).
Proof.
  unfold total_offered_msatoshis.
  assert (forall b, foldl (fun total h => if side_eqb (htlc_owner h) s then u64 (total + msatoshi h) else total) (u64 b) l
    = u64 (b + zsum (fun h => if side_eqb (htlc_owner h) s then msatoshi h else 0) l)) as E.
  { induction l as [|h l IH]; intros b; [by rewrite Z.add_0_r|]. cbn [foldl]. rewrite zsum_cons.
    destruct (side_eqb (htlc_owner h) s).
    - rewrite u64_add_l, IH. f_equal. lia.
    - rewrite IH. f_equal. }
  apply (E 0).
Qed.

Definition coms (s : side) (l : list htlc) := List.filter (fun h => committed (state h) s) l.
Definition rems (s : side) (l : list htlc) := List.filter (fun h => committed (state h) s && pending (state h) s) l.
Definition adds (s : side) (l : list htlc) :=
  List.filter (fun h => negb (committed (state h) s) && pending (state h) s) l.

(** Counting over the three arrays is counting over the faces. *)
Lemma slots_faces s l (w : htlc -> Z) (k : face -> Z) :
  (forall h f, face_of s h = Some f -> k f = slot f * w h) ->
  zsum w (coms s l) - zsum w (rems s l) + zsum w (adds s l) = zsum k (faces s l).
Proof.
  intros E. unfold coms, rems, adds. rewrite !zsum_list_filter.
  assert (forall a b, a - b = a + - b) as -> by (intros; lia). rewrite <- zsum_opp, <- !zsum_add.
  apply zsum_faces. intros h. destruct (face_of s h) as [f|] eqn:Ef.
  - rewrite (E h f Ef). unfold face_of in Ef. case_match; [|done]. injection Ef as <-. unfold slot; cbn.
    destruct (committed (state h) s), (pending (state h) s); cbn; lia.
  - unfold face_of in Ef. destruct (committed (state h) s) eqn:Ec, (pending (state h) s) eqn:Ep; cbn; try lia.
    + destruct s, (state h); done.
    + rewrite orb_true_r in Ef. done.
Qed.

Lemma count_faces s l :
  Z.of_nat (length (coms s l)) - Z.of_nat (length (rems s l)) + Z.of_nat (length (adds s l))
  = zsum slot (faces s l).
Proof.
  assert (forall k : list htlc, Z.of_nat (length k) = zsum (fun _ => 1) k) as L.
  { induction k as [|? k IH]; [done|]. rewrite zsum_cons, <- IH. cbn [length]. lia. }
  rewrite !L. apply slots_faces. intros. lia.
Qed.

Lemma untrimmed_faces s l feerate dust :
  commit_tx_num_untrimmed (coms s l) feerate dust s - commit_tx_num_untrimmed (rems s l) feerate dust s
  + commit_tx_num_untrimmed (adds s l) feerate dust s = zsum (untrimmed feerate dust) (faces s l).
Proof.
  unfold commit_tx_num_untrimmed. rewrite !length_list_filter. apply slots_faces.
  intros h f Ef. unfold face_of in Ef. case_match; [|done]. injection Ef as <-.
  unfold untrimmed, trim, face_trim. cbn. destruct (side_eqb (htlc_owner h) s); destruct (_ <? _); cbn; lia.
Qed.

Lemma u64_sums a b d : u64 (u64 a - u64 b + u64 d) = u64 (a - b + d).
Proof. unfold u64. by rewrite Zplus_mod, (Zminus_mod (a mod _)), !Zmod_mod, <- Zminus_mod, <- Zplus_mod. Qed.

Lemma u64_s64 z : u64 (s64 z) = u64 z.
Proof. unfold u64, s64. rewrite Zminus_mod_idemp_l. f_equal. lia. Qed.

Section Decisions.
Context `{Secp256k1} `{HtlcTable}.

(** ** May an HTLC be added? *)

(** The fee of the recipient's commitment with the new HTLC in it, for a sender who pays it. *)
Definition new_fee (cfg : channel_config) (pays_fee : bool) (rate : Z) (F : list face) (msat : Z) : Z :=
  if pays_fee then
    let new := if msat / 1000 <? u64 (dust_limit_satoshis cfg + htlc_success_fee rate) then 0 else 1 in
    s64 (commit_tx_base_fee rate (u64 (zsum (untrimmed rate (dust_limit_satoshis cfg)) F + new)))
  else 0.

(** [cfg] is the recipient's, [F] what its commitment sees, [init] what the sender had. *)
Definition add_ok (cfg : channel_config) (max_payment : Z) (pays_fee : bool) (rate init : Z) (F : list face)
    (msat : Z) : bool :=
  negb (msat =? 0) && negb (msat <? htlc_minimum_msat cfg) && negb (max_payment <? msat)
  && negb (max_accepted_htlcs cfg <? u64 (zsum slot F + 1))
  && negb (max_htlc_value_in_flight_msat cfg <? u64 (zsum offered F + msat))
  && negb (s64 (init + zsum (face_effect false) F + zsum (face_pend false) F - msat - new_fee cfg pays_fee rate F msat)
           <? s64 (u64 (channel_reserve_satoshis cfg * 1000))).

#[global] Instance add_ok_perm cfg mp pf rate init : Proper ((≡ₚ) ==> (=) ==> (=)) (add_ok cfg mp pf rate init).
Proof. intros F F' P m m' <-. unfold add_ok, new_fee. by rewrite !P. Qed.

Lemma gather_faces c l s : htlcs c = Some l -> gather_htlcs c s = (coms s l, rems s l, adds s l).
Proof. intros E. unfold gather_htlcs. by rewrite E, gather_filters. Qed.

Lemma num_untrimmed_snoc l h feerate dust s : commit_tx_num_untrimmed (l ++ [h]) feerate dust s
  = commit_tx_num_untrimmed l feerate dust s + (if trim h feerate dust s then 0 else 1).
Proof.
  unfold commit_tx_num_untrimmed. rewrite List.filter_app, length_app. cbn [List.filter].
  destruct (trim h feerate dust s); cbn [negb length]; lia.
Qed.

Lemma add_fee_faces c l sender i msat cltv ph rt :
  let h := new_htlc sender i msat cltv ph rt in
  let q := other sender in
  add_fee c h q (coms q l) (rems q l) (adds q l ++ [h])
  = new_fee (at_side (config c) q) (side_eqb (funder c) sender) (feerate_of c q) (faces q l) msat.
Proof.
  cbv zeta. unfold add_fee, new_fee. fold (feerate_of c (other sender)).
  assert (htlc_owner (new_htlc sender i msat cltv ph rt) = sender) as -> by by destruct sender.
  destruct (side_eqb (funder c) sender); [|done]. do 3 f_equal.
  rewrite <- untrimmed_faces, num_untrimmed_snoc.
  set (rate := feerate_of c (other sender)). set (dust := dust_limit_satoshis _).
  assert (trim (new_htlc sender i msat cltv ph rt) rate dust (other sender)
    = (msat / 1000 <? u64 (dust + htlc_success_fee rate))) as -> by (unfold trim; by destruct sender).
  destruct (msat / 1000 <? _); lia.
Qed.

Lemma sum_slots_snoc q l (h : htlc) :
  u64 (Z.of_nat (length (coms q l)) - Z.of_nat (length (rems q l)) + Z.of_nat (length (adds q l ++ [h])))
  = u64 (zsum slot (faces q l) + 1).
Proof. rewrite <- count_faces, length_app. f_equal. cbn [length]. lia. Qed.

Lemma sum_offered_snoc sender l (h : htlc) : htlc_owner h = sender ->
  let q := other sender in
  u64 (s64 (total_offered_msatoshis (coms q l) sender - total_offered_msatoshis (rems q l) sender
            + total_offered_msatoshis (adds q l ++ [h]) sender)) = u64 (zsum offered (faces q l) + msatoshi h).
Proof.
  intros Eo q. rewrite u64_s64, !total_offered_spec, u64_sums, zsum_app, zsum_cons, Eo, side_eqb_refl.
  rewrite <- (slots_faces q l (fun h => if side_eqb (htlc_owner h) sender then msatoshi h else 0) offered).
  - f_equal. change (zsum (fun h => if side_eqb (htlc_owner h) sender then msatoshi h else 0) []) with 0. lia.
  - intros g f Ef. unfold face_of in Ef. case_match; [|done]. injection Ef as <-. subst q.
    unfold offered. cbn [f_own f_msat]. destruct (htlc_owner g), sender; cbn [side_eqb other]; by rewrite ?Z.mul_0_r.
Qed.

(** [channel_add_htlc] succeeds exactly when this says so. *)
Lemma add_verdict init c l sender i msat cltv ph rt c' e : chan_inv init c l -> 0 <= msat ->
  let q := other sender in
  channel_add_htlc c sender i msat cltv ph rt = Some (c', e) ->
  e = CHANNEL_ERR_ADD_OK <->
  cltv < SECONDS_POINT /\ htlc_get l i sender = None /\
  add_ok (at_side (config c) q) (max_payment_msat (channel_params c)) (side_eqb (funder c) sender)
    (feerate_of c q) (at_side init sender) (faces q l) msat = true.
Proof.
  intros I Hm. cbv zeta. unfold channel_add_htlc, add_htlc, add_ok.
  set (st := match sender with LOCAL => _ | REMOTE => _ end).
  assert (htlc_state_owner st = sender) as -> by by destruct sender.
  unfold blocks_to_abs_locktime, abs_blocks_to_locktime.
  destruct (Z.leb_spec SECONDS_POINT cltv) as [|Hx]; [intros [= <- <-]; split; [done|lia]|].
  rewrite (inv_htlcs _ _ _ I). cbn [mbind option_bind].
  change (Htlc st i msat cltv ph None None rt None 0 None) with (new_htlc sender i msat cltv ph rt).
  set (h := new_htlc sender i msat cltv ph rt). assert (htlc_owner h = sender) as Eo by by destruct sender.
  rewrite Eo. destruct (htlc_get l i sender) as [[n old]|] eqn:Eg.
  { case_match; intros [= <- <-]; split; try done; by intros (_ & ? & _). }
  change (msatoshi h) with msat.
  destruct (Z.eqb_spec msat 0) as [|Hnz]; [intros [= <- <-]; split; [done|by intros (_ & _ & ?)]|].
  destruct (Z.ltb_spec msat (htlc_minimum_msat (at_side (config c) (other sender)))) as [|Hmin];
    [intros [= <- <-]; split; [done|by intros (_ & _ & ?)]|].
  destruct (Z.ltb_spec (max_payment_msat (channel_params c)) msat) as [|Hmax];
    [intros [= <- <-]; split; [done|by intros (_ & _ & ?)]|].
  rewrite (gather_faces c l (other sender)) by apply I. rewrite sum_slots_snoc.
  cbn [andb negb]. destruct (_ <? u64 (zsum slot _ + 1)); [intros [= <- <-]; split; [done|by intros (_ & _ & ?)]|].
  rewrite (sum_offered_snoc sender l h Eo). change (msatoshi h) with msat.
  cbn [andb negb]. destruct (_ <? u64 (zsum offered _ + _)); [intros [= <- <-]; split; [done|by intros (_ & _ & ?)]|].
  subst h. rewrite add_fee_faces. set (h := new_htlc sender i msat cltv ph rt).
  assert (amount_ok h) as Ah.
  { pose proof (terms_payment _ _ (inv_terms _ _ _ I)). unfold amount_ok, h. cbn. lia. }
  destruct (add_balance_exact init c l (other sender) sender h I Ah) as (B0 & B1 & B2).
  fold (owed (view c) (other sender) sender). fold (coms (other sender) l) (rems (other sender) l) (adds (other sender) l) in *.
  set (fee := new_fee _ _ _ _ _).
  assert (0 <= fee < 2 ^ 62) as Bf.
  { unfold fee. rewrite <- (add_fee_faces c l sender i msat cltv ph rt). apply add_fee_nonneg. }
  rewrite (proj2 (Z.leb_le 0 fee)) by lia. cbn [c_assert].
  rewrite (proj2 (Z.leb_le _ _) B0). cbn [c_assert].
  rewrite (proj2 (Z.leb_le _ _) B1). cbn [c_assert]. rewrite B2.
  assert (adding h sender = - msat) as Ea by by destruct sender.
  rewrite Ea, projected_faces.
  assert (side_eqb sender (other sender) = false) as -> by by destruct sender.
  fold (channel_reserve_msat c sender).
  change (u64 (channel_reserve_satoshis (at_side (config c) (other sender)) * 1000)) with (channel_reserve_msat c sender).
  replace (at_side init sender + zsum (face_effect false) (faces (other sender) l)
    + zsum (face_pend false) (faces (other sender) l) + - msat - fee) with
    (at_side init sender + zsum (face_effect false) (faces (other sender) l)
    + zsum (face_pend false) (faces (other sender) l) - msat - fee) by lia.
  destruct (_ <? s64 _); intros [= <- <-]; split; try done; by intros (_ & _ & ?).
Qed.

(** ** Is a fee rate affordable? *)

(** [cfg] is the fundee's, [F] what its commitment sees, [init] what the funder had. *)
Definition afford_ok (cfg : channel_config) (init : Z) (F : list face) (rate : Z) : bool :=
  u64 (u64 (channel_reserve_satoshis cfg * 1000)
       + commit_tx_base_fee rate (u64 (zsum (untrimmed rate (dust_limit_satoshis cfg)) F)))
    <=? init + zsum (face_effect false) F.

#[global] Instance afford_ok_perm cfg init : Proper ((≡ₚ) ==> (=) ==> (=)) (afford_ok cfg init).
Proof. intros F F' P r r' <-. unfold afford_ok. by rewrite !P. Qed.

Lemma afford_verdict init c l rate : chan_inv init c l ->
  let q := other (funder c) in
  can_funder_afford_feerate c rate = afford_ok (at_side (config c) q) (at_side init (funder c)) (faces q l) rate.
Proof.
  intros I. cbv zeta. unfold can_funder_afford_feerate, afford_ok.
  rewrite (gather_faces c l) by apply I. fold (owed (view c) (other (funder c)) (funder c)).
  rewrite (inv_owed _ _ _ I), ledger_faces, <- untrimmed_faces. unfold channel_reserve_msat.
  assert (side_eqb (funder c) (other (funder c)) = false) as -> by by destruct (funder c).
  do 5 f_equal. lia.
Qed.

(** ** The two ends agree on a commitment when they see the same of the HTLCs *)
Definition face_stake (f : face) : option (bool * Z * Z * bytes) :=
  if f_com f then Some (f_own f, f_msat f, f_expiry f, f_hash f) else None.

Lemma stakes_faces s l : stake_of s <$> coms s l = omap face_stake (faces s l).
Proof.
  induction l as [|h l IH]; [done|]. unfold coms, faces in *. cbn [List.filter]. csimpl.
  destruct (face_of s h) as [f|] eqn:Ef.
  - csimpl. unfold face_of in Ef. case_match; [|done]. injection Ef as <-. unfold face_stake at 1. cbn [f_com].
    destruct (committed (state h) s); csimpl; by rewrite IH.
  - assert (committed (state h) s = false) as ->; [|done].
    unfold face_of in Ef. case_match; [done|]. destruct s, (state h); done.
Qed.

Lemma committed_coms c l s : htlcs c = Some l -> committed_of c s = coms s l.
Proof. intros E. unfold committed_of. by rewrite (gather_faces c l s E). Qed.

Lemma agree_faces init init' c c' l l' s : chan_inv init c l -> chan_inv init' c' l' ->
  (forall t, at_side init' (other t) = at_side init t) -> feerate_of c' (other s) = feerate_of c s ->
  faces s l ≡ₚ faces (other s) l' -> agree_on s c c'.
Proof.
  intros I I' Ei Er P. constructor; [done| |].
  - intros t. rewrite (inv_owed _ _ _ I), (inv_owed _ _ _ I'), !ledger_faces, Ei, side_eqb_other. by rewrite P.
  - rewrite (committed_coms c l), (committed_coms c' l') by first [apply I | apply I'].
    rewrite !stakes_faces. by rewrite P.
Qed.
End Decisions.
