(* ===== verification/Duplex.v ===== *)
(** * The shared state of a channel's two ends

    An abstract machine: one table of HTLCs, and for each side's commitment a fee rate and
    whether changes wait for it. The operations of one party change only what the other
    party's commitment depends on, so those of both parties commute, but for a revocation
    and the next commitment, or a change of the fee rate, that it answers. *)
From stdpp Require Import gmap.
From S2P Require Import Prelude HtlcState Sha256 Secp KeyDerive Params Htlc Channel Ledger.
From S2P Require Import ChannelInv ChannelSafety ChannelTxs Mirror Faces.
Local Open Scope Z_scope.

#[global, refine] Instance side_countable : Countable side :=
  inj_countable (fun s => match s with LOCAL => false | REMOTE => true end)
    (fun b : bool => Some (if b then REMOTE else LOCAL)) _.
Proof. by intros []. Defined.

(** What the two ends agreed on; sides are those of one end. *)
Record terms := Terms {
  t_funder : side;
  t_config : sided channel_config;
  t_init : sided Z;
  t_max_payment : Z
}.

Record duplex := Duplex {
  table : gmap (Z * side) htlc;
  rates : sided Z;
  waiting : sided bool
}.

Inductive op :=
  | OAdd (i msat expiry : Z) (hash : bytes)
  | ORemove (i : Z) (preimage : option bytes)
  | OFee (rate : Z)
  | OCommit
  | ORevoke.

(** The HTLCs, in some order. *)
Definition vals (m : gmap (Z * side) htlc) : list htlc := (map_to_list m).*2.

Definition new_entry (p : side) (i msat expiry : Z) (hash : bytes) : htlc := bare (new_htlc p i msat expiry hash []).

Definition removed (preimage : option bytes) (h : htlc) : htlc :=
  set_state (default (state h) (remove_state (state h)))
    (match preimage with Some x => set_r x h | None => h end).

(** A change that the revocation answered by [s] queues for its commitment. *)
Definition newly (s : side) (h : htlc) : Z :=
  if negb (pending (state h) s) && pending (state (advance (revoke_states s) h)) s then 1 else 0.

Definition queues (s : side) (m : gmap (Z * side) htlc) : bool := 0 <? zsum (newly s) (vals m).

Section Machine.
Context (T : terms).

(** What party [p] may do. *)
Definition enabled (p : side) (o : op) (X : duplex) : Prop :=
  let q := other p in
  match o with
  | OAdd i msat expiry hash =>
      0 <= msat /\ expiry < SECONDS_POINT /\ table X !! (i, p) = None /\
      add_ok (at_side (t_config T) q) (t_max_payment T) (side_eqb (t_funder T) p) (at_side (rates X) q)
        (at_side (t_init T) p) (faces q (vals (table X))) msat = true
  | ORemove i preimage =>
      exists h, table X !! (i, q) = Some h /\ is_Some (remove_state (state h)) /\
        match preimage with Some x => r h = None /\ sha256 x = rhash h | None => True end
  | OFee rate =>
      t_funder T = p /\
      afford_ok (at_side (t_config T) q) (at_side (t_init T) p) (faces q (vals (table X))) rate = true
  | OCommit => at_side (waiting X) q = true
  | ORevoke => True
  end.

(** The funder's side takes the new rate when the other side has revoked the old one. *)
Definition follows_rate (p : side) (X : duplex) : bool :=
  side_eqb (t_funder T) (other p) && negb (at_side (rates X) (other p) =? at_side (rates X) p).

Definition new_table (p : side) (o : op) (m : gmap (Z * side) htlc) : gmap (Z * side) htlc :=
  match o with
  | OAdd i msat expiry hash => <[(i, p) := new_entry p i msat expiry hash]> m
  | ORemove i preimage => alter (removed preimage) (i, other p) m
  | OFee _ => m
  | OCommit => advance (commit_states (other p)) <$> m
  | ORevoke => advance (revoke_states (other p)) <$> m
  end.

(** The rate of the other side's commitment, and whether something waits for it. *)
Definition new_rate (p : side) (o : op) (X : duplex) : Z :=
  match o with
  | OFee rate => rate
  | ORevoke => if follows_rate p X then at_side (rates X) p else at_side (rates X) (other p)
  | _ => at_side (rates X) (other p)
  end.

Definition new_wait (p : side) (o : op) (X : duplex) : bool :=
  match o with
  | OCommit => false
  | ORevoke => at_side (waiting X) (other p) || queues (other p) (table X) || follows_rate p X
  | _ => true
  end.

Definition apply_op (p : side) (o : op) (X : duplex) : duplex :=
  Duplex (new_table p o (table X)) (set_side (other p) (new_rate p o X) (rates X))
    (set_side (other p) (new_wait p o X) (waiting X)).

(** [ops], done by [p], lead from [X] to [Y]. *)
Fixpoint leads (p : side) (ops : list op) (X Y : duplex) : Prop :=
  match ops with
  | [] => X = Y
  | o :: ops => enabled p o X /\ leads p ops (apply_op p o X) Y
  end.

Lemma leads_app p a b X Y : leads p (a ++ b) X Y <-> exists Z, leads p a X Z /\ leads p b Z Y.
Proof.
  revert X. induction a as [|o a IH]; intros X; cbn [app leads].
  - split; [by exists X|]. by intros (Z & -> & ?).
  - rewrite IH. naive_solver.
Qed.

(** Every entry is where its key says. *)
Definition keyed (X : duplex) : Prop := map_Forall (fun k h => key h = k) (table X).

(** ** The values of a table *)
Lemma vals_insert m k h : m !! k = None -> vals (<[k := h]> m) ≡ₚ h :: vals m.
Proof. intros E. unfold vals. by rewrite map_to_list_insert. Qed.

Lemma vals_fmap (f : htlc -> htlc) m : vals (f <$> m) = f <$> vals m.
Proof. unfold vals. rewrite map_to_list_fmap, <- !list_fmap_compose. done. Qed.

Lemma vals_alter (f : htlc -> htlc) m k h : m !! k = Some h ->
  exists l, vals m ≡ₚ h :: l /\ vals (alter f k m) ≡ₚ f h :: l.
Proof.
  intros E. exists (vals (delete k m)).
  rewrite <- !(vals_insert _ k) by apply lookup_delete_eq. split.
  - by rewrite insert_delete_id.
  - rewrite insert_delete_eq. unfold vals. apply reflexive_eq. do 2 f_equal. apply map_eq. intros k'.
    destruct (decide (k' = k)) as [->|].
    + by rewrite lookup_alter_eq, E, lookup_insert_eq.
    + by rewrite lookup_alter_ne, lookup_insert_ne.
Qed.

(** ** One party's operations leave its own commitment alone *)
Lemma face_commit p h : face_of p (advance (commit_states (other p)) h) = face_of p h.
Proof. by destruct p, h as [[] ? ? ? ? [] ? ? ? ? ?]. Qed.

Lemma face_revoke p h : face_of p (advance (revoke_states (other p)) h) = face_of p h.
Proof. by destruct p, h as [[] ? ? ? ? [] ? ? ? ? ?]. Qed.

Lemma face_new p i msat expiry hash : face_of p (new_entry p i msat expiry hash) = None.
Proof. by destruct p. Qed.

Lemma face_removed p x h : htlc_owner h = other p -> is_Some (remove_state (state h)) ->
  face_of p (removed x h) = face_of p h.
Proof. intros Eo [st Es]. destruct p, h as [[] ? ? ? ? [] ? ? ? ? ?]; try done; by destruct x. Qed.

Lemma faces_cons s h l : faces s (h :: l) = match face_of s h with Some f => f :: faces s l | None => faces s l end.
Proof. unfold faces. csimpl. by destruct (face_of s h). Qed.

Lemma faces_fmap s (f : htlc -> htlc) l : (forall h, face_of s (f h) = face_of s h) -> faces s (f <$> l) = faces s l.
Proof. intros E. induction l as [|h l IH]; [done|]. rewrite fmap_cons. by rewrite !faces_cons, E, IH. Qed.

(** Both have the same commitment of [s]. *)
Record same_side (s : side) (X Y : duplex) : Prop := {
  same_faces : faces s (vals (table X)) ≡ₚ faces s (vals (table Y));
  same_rate : at_side (rates X) s = at_side (rates Y) s;
  same_waiting : at_side (waiting X) s = at_side (waiting Y) s
}.

#[global] Instance same_side_equiv s : Equivalence (same_side s).
Proof.
  split; [by constructor|intros X Y []; by constructor|]. intros X Y Z [F R W] [F' R' W'].
  constructor; [by rewrite F|congruence|congruence].
Qed.

Lemma op_same p o X : keyed X -> enabled p o X -> same_side p X (apply_op p o X).
Proof.
  intros K E. constructor; cbn [apply_op table rates waiting]; [|by destruct p..].
  destruct o as [i msat expiry hash|i pre|rate| |]; cbn [new_table]; [..|].
  - destruct E as (_ & _ & En & _). rewrite (vals_insert _ _ _ En). by rewrite faces_cons, face_new.
  - destruct E as (h & Eh & Es & _).
    destruct (vals_alter (removed pre) _ _ h Eh) as (l & -> & ->). rewrite !faces_cons, face_removed; try done.
    pose proof (K _ _ Eh) as Ek. by injection Ek.
  - done.
  - by rewrite vals_fmap, faces_fmap by apply face_commit.
  - by rewrite vals_fmap, faces_fmap by apply face_revoke.
Qed.

Lemma key_advance_commit s h : key (advance (commit_states s) h) = key h.
Proof. apply (advance_key _ s). constructor. Qed.

Lemma key_advance_revoke s h : key (advance (revoke_states s) h) = key h.
Proof. apply (advance_key _ s). constructor. Qed.

Lemma key_removed x h : is_Some (remove_state (state h)) -> key (removed x h) = key h.
Proof. intros [st E]. by destruct h as [[]], x; cbn in E. Qed.

Lemma op_keyed p o X : keyed X -> enabled p o X -> keyed (apply_op p o X).
Proof.
  intros K E. destruct o as [i msat expiry hash|i pre|rate| |]; unfold keyed; cbn [apply_op table new_table].
  - apply map_Forall_insert_2; [|done]. by destruct p.
  - destruct E as (h & Eh & Es & _). intros k g. destruct (decide (k = (i, other p))) as [->|].
    + rewrite lookup_alter_eq, Eh. intros [= <-]. rewrite key_removed by done. apply (K _ _ Eh).
    + rewrite lookup_alter_ne by done. apply K.
  - done.
  - intros k g. rewrite lookup_fmap. intros (h & Eh & ->)%fmap_Some. rewrite key_advance_commit. by apply K.
  - intros k g. rewrite lookup_fmap. intros (h & Eh & ->)%fmap_Some. rewrite key_advance_revoke. by apply K.
Qed.

(** ** Operations of the two parties commute *)

(** A revocation does not commute with what it answers. *)
Definition clash (a b : op) : bool :=
  match a, b with
  | ORevoke, OCommit | OCommit, ORevoke | OFee _, ORevoke | ORevoke, OFee _ => true
  | _, _ => false
  end.

(** What an operation does at one key. *)
Definition touch (p : side) (o : op) (k : Z * side) (x : option htlc) : option htlc :=
  match o with
  | OAdd i msat expiry hash => if decide (k = (i, p)) then Some (new_entry p i msat expiry hash) else x
  | ORemove i preimage => if decide (k = (i, other p)) then removed preimage <$> x else x
  | OFee _ => x
  | OCommit => advance (commit_states (other p)) <$> x
  | ORevoke => advance (revoke_states (other p)) <$> x
  end.

Lemma lookup_new_table p o m k : new_table p o m !! k = touch p o k (m !! k).
Proof.
  destruct o as [i msat expiry hash|i pre|rate| |]; cbn [new_table touch]; [..|done| |].
  - case_decide as D; [subst k; by rewrite lookup_insert_eq|by rewrite lookup_insert_ne].
  - case_decide as D; [subst k; by rewrite lookup_alter_eq|by rewrite lookup_alter_ne].
  - by rewrite lookup_fmap.
  - by rewrite lookup_fmap.
Qed.

Lemma advance_comm p h :
  advance (commit_states p) (advance (commit_states (other p)) h)
    = advance (commit_states (other p)) (advance (commit_states p) h) /\
  advance (revoke_states p) (advance (revoke_states (other p)) h)
    = advance (revoke_states (other p)) (advance (revoke_states p) h).
Proof. by destruct p, h as [[]]. Qed.

Lemma advance_new p i msat expiry hash :
  advance (commit_states p) (new_entry p i msat expiry hash) = new_entry p i msat expiry hash /\
  advance (revoke_states p) (new_entry p i msat expiry hash) = new_entry p i msat expiry hash.
Proof. by destruct p. Qed.

Lemma advance_removed p x h : htlc_owner h = other p -> is_Some (remove_state (state h)) ->
  (advance (commit_states p) h = h /\ advance (commit_states p) (removed x h) = removed x h) /\
  (advance (revoke_states p) h = h /\ advance (revoke_states p) (removed x h) = removed x h).
Proof. intros Eo [st Es]. destruct p, h as [[]], x; try done. Qed.

(** The entry an operation on one HTLC is about. *)
Definition target (p : side) (o : op) : option (Z * side) :=
  match o with OAdd i _ _ _ => Some (i, p) | ORemove i _ => Some (i, other p) | _ => None end.

Lemma touch_elsewhere p o k k' x : target p o = Some k -> k' <> k -> touch p o k' x = x.
Proof. destruct o; intros [= <-] N; cbn [touch]; by rewrite decide_False. Qed.

(** The other party's operations leave it alone, before and after. *)
Lemma target_fixed p a b X k : keyed X -> enabled p a X -> enabled (other p) b X -> target p a = Some k ->
  touch (other p) b k (table X !! k) = table X !! k /\
  touch (other p) b k (touch p a k (table X !! k)) = touch p a k (table X !! k).
Proof.
  intros K Ea Eb Et. assert (forall p : side, p <> other p) as Np by by intros [].
  destruct a as [i msat expiry hash|i pre| | |]; try discriminate Et; injection Et as <-; cbn [touch]; rewrite decide_True by done.
  - destruct Ea as (_ & _ & En & _). rewrite En.
    destruct b as [i' msat' expiry' hash'|i' pre'|rate| |]; cbn [touch]; rewrite ?other_other.
    + assert ((i, p) <> (i', other p)) by (intros [= _ E]; by apply (Np p)). by rewrite !decide_False.
    + destruct Eb as (h & Eh & _). rewrite other_other in Eh.
      assert ((i, p) <> (i', p)) by congruence. by rewrite !decide_False.
    + done.
    + split; [done|]. cbn. f_equal. apply advance_new.
    + split; [done|]. cbn. f_equal. apply advance_new.
  - destruct Ea as (h & Eh & Es & _). rewrite Eh. pose proof (K _ _ Eh) as Ek. injection Ek as _ Eo.
    destruct (advance_removed p pre h Eo Es) as [[A1 A2] [A3 A4]].
    destruct b as [i' msat' expiry' hash'|i' pre'|rate| |]; cbn [touch fmap option_fmap option_map]; rewrite ?other_other.
    + destruct Eb as (_ & _ & En & _). assert ((i, other p) <> (i', other p)) by congruence. by rewrite !decide_False.
    + assert ((i, other p) <> (i', p)) by (intros [= _ E]; by apply (Np p)). by rewrite !decide_False.
    + done.
    + by rewrite A1, A2.
    + by rewrite A3, A4.
Qed.

Lemma touch_comm p a b X k : keyed X -> enabled p a X -> enabled (other p) b X -> clash a b = false ->
  touch p a k (touch (other p) b k (table X !! k)) = touch (other p) b k (touch p a k (table X !! k)).
Proof.
  intros K Ea Eb C. destruct (target p a) as [ka|] eqn:Ta.
  { destruct (decide (k = ka)) as [->|N]; [|by rewrite !(touch_elsewhere p a ka k)].
    destruct (target_fixed p a b X ka K Ea Eb Ta) as [-> ->]. done. }
  destruct (target (other p) b) as [kb|] eqn:Tb.
  { destruct (decide (k = kb)) as [->|N]; [|by rewrite !(touch_elsewhere (other p) b kb k)].
    rewrite <- (other_other p) in Ea. destruct (target_fixed (other p) b a X kb K Eb Ea Tb) as [E1 E2].
    rewrite other_other in E1, E2. by rewrite E1, E2. }
  destruct a, b; try discriminate; cbn [touch]; try done; rewrite other_other;
    (destruct (table X !! k) as [h|]; [|done]); cbn; f_equal.
  - symmetry. apply advance_comm.
  - symmetry. apply advance_comm.
Qed.

(** What an operation reads, the other party's do not change. *)
Lemma enabled_after p a b X : keyed X -> enabled p a X -> enabled (other p) b X ->
  enabled p a (apply_op (other p) b X).
Proof.
  intros K Ea Eb. destruct (op_same (other p) b X K Eb) as [F R W].
  destruct a as [i msat expiry hash|i pre|rate| |]; cbn [enabled] in *.
  - destruct (target_fixed p (OAdd i msat expiry hash) b X (i, p) K Ea Eb eq_refl) as [Et _].
    destruct Ea as (Hm & Hx & En & Ok). cbn [apply_op table]. rewrite lookup_new_table, Et.
    split; [done|]. split; [done|]. split; [done|]. rewrite <- Ok.
    change (new_table (other p) b (table X)) with (table (apply_op (other p) b X)). by rewrite R, F.
  - destruct (target_fixed p (ORemove i pre) b X (i, other p) K Ea Eb eq_refl) as [Et _].
    destruct Ea as (h & Eh & ?). exists h. cbn [apply_op table]. by rewrite lookup_new_table, Et.
  - destruct Ea as [Ef Ok]. split; [done|]. by rewrite <- F.
  - by rewrite <- W.
  - done.
Qed.

Lemma newly_steps q h x i msat expiry hash :
  newly q (new_entry q i msat expiry hash) = 0 /\
  newly q (advance (revoke_states (other q)) h) = newly q h /\
  (htlc_owner h = other q -> is_Some (remove_state (state h)) -> newly q (removed x h) = newly q h).
Proof.
  split; [by destruct q|]. split; [by destruct q, h as [[]]|].
  intros Eo [st Es]. by destruct q, h as [[]], x.
Qed.

Lemma queues_stable q b X : keyed X -> enabled q b X -> b <> OCommit ->
  queues q (new_table q b (table X)) = queues q (table X).
Proof.
  intros K E N. unfold queues. f_equal. destruct b as [i msat expiry hash|i pre|rate| |]; cbn [new_table]; try done.
  - destruct E as (_ & _ & En & _). rewrite (vals_insert _ _ _ En), zsum_cons.
    by rewrite (proj1 (newly_steps q (new_entry q i msat expiry hash) None i msat expiry hash)).
  - destruct E as (h & Eh & Es & _). destruct (vals_alter (removed pre) _ _ h Eh) as (l & -> & ->).
    rewrite !zsum_cons. pose proof (K _ _ Eh) as Ek. injection Ek as _ Eo.
    by rewrite (proj2 (proj2 (newly_steps q h pre 0 0 0 [])) Eo Es).
  - rewrite vals_fmap. rewrite zsum_map. apply zsum_ext_in. intros h _. apply (newly_steps q h None 0 0 0 []).
Qed.

Lemma follows_stable p b X : keyed X -> enabled (other p) b X -> (forall rate, b <> OFee rate) ->
  follows_rate p (apply_op (other p) b X) = follows_rate p X.
Proof.
  intros K E N. pose proof (same_rate _ _ _ (op_same (other p) b X K E)) as R. unfold follows_rate. rewrite <- R.
  destruct (side_eqb (t_funder T) (other p)) eqn:Ef; [|done]. cbn [andb]. do 2 f_equal.
  cbn [apply_op rates]. rewrite other_other, at_set_side. unfold new_rate. rewrite other_other.
  destruct b as [| |rate| |]; try done; [by destruct (N rate)|].
  unfold follows_rate at 1. rewrite other_other. apply side_eqb_eq in Ef as ->. by destruct p.
Qed.

Lemma new_after p a b X : keyed X -> enabled (other p) b X -> clash a b = false ->
  new_rate p a (apply_op (other p) b X) = new_rate p a X /\
  new_wait p a (apply_op (other p) b X) = new_wait p a X.
Proof.
  intros K E C. destruct (op_same (other p) b X K E) as [_ R W].
  destruct a as [| | | |]; cbn [new_rate new_wait]; rewrite <- ?R, <- ?W; try done.
  assert (b <> OCommit) as N1 by by intros ->.
  assert (forall rate, b <> OFee rate) as N2 by by intros ? ->.
  rewrite follows_stable by done. split.
  - destruct (follows_rate p X) eqn:Ef; [|done]. cbn [apply_op rates]. rewrite other_other, at_set_side.
    unfold new_rate. rewrite other_other. destruct b; try done.
    unfold follows_rate in *. rewrite other_other. apply andb_true_iff in Ef as [Ef%side_eqb_eq _].
    rewrite Ef. by destruct p.
  - cbn [apply_op table]. by rewrite queues_stable.
Qed.

Lemma ops_commute p a b X : keyed X -> enabled p a X -> enabled (other p) b X -> clash a b = false ->
  apply_op p a (apply_op (other p) b X) = apply_op (other p) b (apply_op p a X).
Proof.
  intros K Ea Eb C. destruct (new_after p a b X K Eb C) as [R1 W1].
  assert (clash b a = false) as C' by by destruct a, b.
  assert (enabled (other (other p)) a X) as Ea' by by rewrite other_other.
  destruct (new_after (other p) b a X K Ea' C') as [R2 W2]. rewrite other_other in R2, W2.
  unfold apply_op at 1 3. rewrite R1, W1, R2, W2. cbn [apply_op table rates waiting]. rewrite other_other. f_equal.
  - apply map_eq. intros k. rewrite !lookup_new_table. by apply touch_comm.
  - by destruct p.
  - by destruct p.
Qed.

(** One operation against many of the other party's. *)
Lemma leads_commute p a bs X Y : keyed X -> enabled p a X -> leads (other p) bs X Y ->
  (forall b, b ∈ bs -> clash a b = false) ->
  enabled p a Y /\ leads (other p) bs (apply_op p a X) (apply_op p a Y).
Proof.
  revert X. induction bs as [|b bs IH]; intros X K Ea L C; cbn [leads] in *.
  - by subst Y.
  - destruct L as [Eb L]. assert (clash a b = false) as Cb by (apply C; left).
    destruct (IH (apply_op (other p) b X)) as [E1 L1]; [by apply op_keyed|by apply enabled_after|done|
      intros; apply C; by right|].
    split; [done|]. split.
    + pose proof (enabled_after (other p) b a X K Eb) as En. rewrite other_other in En. by apply En.
    + by rewrite <- ops_commute.
Qed.

Lemma leads_keyed p ops X Y : keyed X -> leads p ops X Y -> keyed Y.
Proof.
  revert X. induction ops as [|o ops IH]; intros X K L; [by destruct L|]. destruct L as [E L].
  apply (IH _ (op_keyed p o X K E) L).
Qed.

Lemma leads_same p ops X Y : keyed X -> leads p ops X Y -> same_side p X Y.
Proof.
  revert X. induction ops as [|o ops IH]; intros X K L; [by destruct L|]. destruct L as [E L].
  etransitivity; [by apply op_same|]. apply (IH _ (op_keyed p o X K E) L).
Qed.

(** An operation of either party. *)
Definition moves (X Y : duplex) : Prop := exists p o, enabled p o X /\ Y = apply_op p o X.

(** What the machine reaches from a channel without HTLCs. *)
Definition runs_to (X : duplex) : Prop := exists rs, rtc moves (Duplex ∅ rs (Sided false false)) X.

Lemma runs_start rs : runs_to (Duplex ∅ rs (Sided false false)).
Proof. by exists rs. Qed.

Lemma runs_op p o X : runs_to X -> enabled p o X -> runs_to (apply_op p o X).
Proof. intros [rs R] E. exists rs. eapply rtc_r; [done|]. by exists p, o. Qed.

Lemma runs_keyed X : runs_to X -> keyed X.
Proof.
  intros [rs R]. remember (Duplex ∅ rs (Sided false false)) as X0 eqn:E0.
  assert (keyed X0) as K by (subst; apply map_Forall_empty). clear E0.
  induction R as [|X1 X2 X3 (p & o & E & ->) _ IH]; [done|]. by apply IH, op_keyed.
Qed.
End Machine.
