(* ===== verification/Link.v ===== *)
(** * A channel is one end's copy of the shared state

    Each operation of [Channel], at either end, is the operation of [Duplex] of the party
    that does it: it succeeds exactly when that is enabled, and keeps the channel a copy of
    the shared state. *)
From stdpp Require Import gmap.
From S2P Require Import Prelude HtlcState Sha256 Secp KeyDerive Params Htlc Channel Ledger.
From S2P Require Import ChannelInv ChannelSafety ChannelTxs Mirror Faces Duplex.
Local Open Scope Z_scope.

(** ** Points of view *)

(** A side of the shared state as the end [v] names it, and back. *)
Definition pov (v s : side) : side := match v with LOCAL => s | REMOTE => other s end.

Definition pov_sided {A} (v : side) (x : sided A) : sided A :=
  match v with LOCAL => x | REMOTE => Sided (on_remote x) (on_local x) end.

(** The HTLC in the shared state, from the one [v] has. *)
Definition seen (v : side) (h : htlc) : htlc := match v with LOCAL => bare h | REMOTE => mirror h end.

Lemma pov_pov v s : pov v (pov v s) = s.
Proof. by destruct v, s. Qed.

Lemma pov_other v s : pov v (other s) = other (pov v s).
Proof. by destruct v, s. Qed.

Lemma pov_inj v s t : pov v s = pov v t -> s = t.
Proof. by destruct v, s, t. Qed.

Lemma pov_eqb v s t : side_eqb (pov v s) (pov v t) = side_eqb s t.
Proof. by destruct v, s, t. Qed.

Lemma pov_own v : pov v v = LOCAL.
Proof. by destruct v. Qed.

Lemma pov_them v : pov v (other v) = REMOTE.
Proof. by destruct v. Qed.

Lemma at_pov {A} v (x : sided A) s : at_side (pov_sided v x) s = at_side x (pov v s).
Proof. by destruct v, s. Qed.

Lemma key_seen v h : key (seen v h) = (id h, pov v (htlc_owner h)).
Proof.
  destruct v; [done|]. unfold key, htlc_owner. cbn [seen mirror id state pov]. by rewrite mirror_owner.
Qed.

Lemma face_seen v s h : face_of (pov v s) (seen v h) = face_of s h.
Proof. destruct v; [done|]. apply face_of_mirror. Qed.

Lemma seen_advance v s h :
  seen v (advance (commit_states s) h) = advance (commit_states (pov v s)) (seen v h) /\
  seen v (advance (revoke_states s) h) = advance (revoke_states (pov v s)) (seen v h).
Proof. by destruct v, s, h as [[]]. Qed.

Lemma seen_removed v h x st : remove_state (state h) = Some st ->
  seen v (set_state st (match x with Some p => set_r p h | None => h end)) = removed x (seen v h) /\
  is_Some (remove_state (state (seen v h))).
Proof. intros E. destruct v, h as [[]], x; try discriminate E; injection E as <-; (split; [done|by eexists]). Qed.

Lemma seen_remove_state v h : is_Some (remove_state (state (seen v h))) <-> is_Some (remove_state (state h)).
Proof. destruct v, h as [[]]; cbn; split; intros [? E]; first [done | by eexists]. Qed.

Lemma newly_seen v s h : newly (pov v s) (seen v h) = newly s h.
Proof. by destruct v, s, h as [[]]. Qed.

Lemma seen_new v p i msat cltv ph rt : seen v (new_htlc (pov v p) i msat cltv ph rt) = new_entry p i msat cltv ph.
Proof. by destruct v, p. Qed.

Section Link.
Context `{Secp256k1} (T : terms).

(** [c], with table [l], is the copy of [X] that the end [v] has. *)
Record linked (v : side) (c : channel) (l : list htlc) (X : duplex) : Prop := {
  lk_inv : chan_inv (pov_sided v (t_init T)) c l;
  lk_table k g : table X !! k = Some g <-> exists h, h ∈ l /\ seen v h = g /\ key g = k;
  lk_rate s : feerate_of c s = at_side (rates X) (pov v s);
  lk_wait s : at_side (changes_pending c) s = at_side (waiting X) (pov v s);
  lk_funder : funder c = pov v (t_funder T);
  lk_config : config c = pov_sided v (t_config T);
  lk_payment : max_payment_msat (channel_params c) = t_max_payment T
}.

Lemma linked_keys v c l X : linked v c l X -> NoDup ((fun h => key (seen v h)) <$> l).
Proof.
  intros L. assert (NoDup ((fun k : Z * side => (k.1, pov v k.2)) <$> (key <$> l))) as N.
  { apply NoDup_fmap_2; [|apply L]. intros [] [] [= -> ?%pov_inj]. by subst. }
  rewrite <- list_fmap_compose in N. erewrite list_fmap_ext; [exact N|]. intros ? h _. apply key_seen.
Qed.

Lemma linked_keyed v c l X : linked v c l X -> keyed X.
Proof. intros L k g Hg. apply (lk_table _ _ _ _ L) in Hg as (? & _ & _ & ?). done. Qed.

Lemma linked_vals v c l X : linked v c l X -> vals (table X) ≡ₚ seen v <$> l.
Proof.
  intros L. assert (map_to_list (table X) ≡ₚ (fun h => (key (seen v h), seen v h)) <$> l) as P.
  { apply NoDup_Permutation.
    - apply NoDup_map_to_list.
    - apply (NoDup_fmap_1 fst). rewrite <- list_fmap_compose. apply (linked_keys v c l X L).
    - intros [k g]. rewrite elem_of_map_to_list, (lk_table _ _ _ _ L), list_elem_of_fmap. naive_solver. }
  unfold vals. rewrite P, <- list_fmap_compose. done.
Qed.

Lemma linked_faces v c l X s : linked v c l X -> faces (pov v s) (vals (table X)) ≡ₚ faces s l.
Proof.
  intros L. rewrite (linked_vals v c l X L). clear L. unfold faces. apply reflexive_eq.
  induction l as [|h l IH]; [done|]. csimpl. by rewrite face_seen, IH.
Qed.

Lemma linked_get v c l X i s n h : linked v c l X -> htlc_get l i s = Some (n, h) ->
  table X !! (i, pov v s) = Some (seen v h) /\ l !! n = Some h /\ key h = (i, s).
Proof.
  intros L [Hn Hk]%htlc_get_Some. split; [|done]. apply (lk_table _ _ _ _ L). exists h.
  split; [by apply list_elem_of_lookup; exists n|]. split; [done|]. rewrite key_seen. by injection Hk as -> ->.
Qed.

Lemma linked_get_None v c l X i s : linked v c l X -> htlc_get l i s = None -> table X !! (i, pov v s) = None.
Proof.
  intros L E. destruct (table X !! (i, pov v s)) as [g|] eqn:Eg; [|done].
  apply (lk_table _ _ _ _ L) in Eg as (h & Hh & <- & Ek). rewrite key_seen in Ek. injection Ek as Ei Eo%pov_inj.
  by destruct (htlc_get_None l i s E h Hh (f_equal2 pair Ei Eo)).
Qed.

(** ** Adding *)
Context `{HtlcTable}.

Lemma link_terms v c l X p : linked v c l X -> let q := other (pov v p) in
  at_side (config c) q = at_side (t_config T) (other p) /\
  side_eqb (funder c) (pov v p) = side_eqb (t_funder T) p /\
  feerate_of c q = at_side (rates X) (other p) /\
  at_side (pov_sided v (t_init T)) (pov v p) = at_side (t_init T) p /\
  faces (other p) (vals (table X)) ≡ₚ faces q l.
Proof.
  intros L. cbv zeta. assert (pov v (other (pov v p)) = other p) as E by by rewrite pov_other, pov_pov.
  rewrite (lk_config _ _ _ _ L), (lk_funder _ _ _ _ L), (lk_rate _ _ _ _ L), !at_pov, pov_eqb, E, pov_pov.
  split; [done|]. split; [done|]. split; [done|]. split; [done|]. rewrite <- E. by apply (linked_faces v c).
Qed.

Lemma mark_pending_sides sender c s :
  at_side (changes_pending (mark_pending (match sender with LOCAL => SENT_ADD_HTLC | REMOTE => RCVD_ADD_HTLC end) c)) s
  = at_side (set_side (other sender) true (changes_pending c)) s.
Proof. by destruct sender, s. Qed.

Lemma link_add v c l X p i msat cltv ph rt : linked v c l X -> 0 <= msat ->
  exists c' e, channel_add_htlc c (pov v p) i msat cltv ph rt = Some (c', e) /\
    (e = CHANNEL_ERR_ADD_OK <-> enabled T p (OAdd i msat cltv ph) X) /\
    (e = CHANNEL_ERR_ADD_OK ->
     linked v c' (htlc_map_add l (new_htlc (pov v p) i msat cltv ph rt)) (apply_op T p (OAdd i msat cltv ph) X)).
Proof.
  intros L Hm. destruct (add_preserves _ c l (pov v p) i msat cltv ph rt (lk_inv _ _ _ _ L) Hm) as (c' & e & E & P).
  exists c', e. split; [done|].
  destruct (link_terms v c l X p L) as (Ec & Ef & Er & Ei & F).
  pose proof (add_verdict _ c l (pov v p) i msat cltv ph rt c' e (lk_inv _ _ _ _ L) Hm E) as V. cbv zeta in V.
  rewrite Ec, (lk_payment _ _ _ _ L), Ef, Er, Ei in V.
  assert (e = CHANNEL_ERR_ADD_OK <-> enabled T p (OAdd i msat cltv ph) X) as V'.
  { rewrite V. cbn [enabled]. rewrite <- F. split.
    - intros (Hx & Hg & Ok). split; [done|]. split; [done|]. split; [|done].
      apply (linked_get_None v c l X i _ L) in Hg. by rewrite pov_pov in Hg.
    - intros (_ & Hx & Hn & Ok). split; [done|]. split; [|done].
      destruct (htlc_get l i (pov v p)) as [[n h]|] eqn:Eg; [|done].
      apply (linked_get v c l X i _ n h L) in Eg as (Eg & _). rewrite pov_pov in Eg. congruence. }
  split; [done|]. intros ->. destruct P as [[? _]|(_ & St & _ & I' & _)]; [done|].
  destruct (add_htlc_spec _ c l (match pov v p with LOCAL => SENT_ADD_HTLC | REMOTE => RCVD_ADD_HTLC end) i msat cltv ph rt
    true (lk_inv _ _ _ _ L) Hm) as (c2 & e2 & E2 & [[? _]|(_ & -> & _)]);
    unfold channel_add_htlc in E; rewrite E in E2; simplify_eq.
  constructor; try done.
  - intros k g. cbn [apply_op new_table table]. set (h := new_htlc (pov v p) i msat cltv ph rt).
    assert (forall h', h' ∈ htlc_map_add l h <-> h' = h \/ h' ∈ l) as Hadd
      by (intros; by rewrite htlc_map_add_perm, elem_of_cons). setoid_rewrite Hadd.
    assert (seen v h = new_entry p i msat cltv ph) as Es by apply seen_new.
    assert (key (new_entry p i msat cltv ph) = (i, p)) as Ek by by destruct p.
    destruct V' as [V' _]. destruct (V' eq_refl) as (_ & _ & Hn & _).
    destruct (decide (k = (i, p))) as [->|Nk].
    + rewrite lookup_insert_eq. split.
      * intros [= <-]. exists h. split; [by left|done].
      * intros (h' & [->|Hh'] & <- & Hk); [by rewrite Es|].
        assert (table X !! (i, p) = Some (seen v h')) as Hc by (apply (lk_table _ _ _ _ L); by exists h').
        congruence.
    + rewrite lookup_insert_ne by done. rewrite (lk_table _ _ _ _ L). split.
      * intros (h' & ? & ? & ?). exists h'. split; [by right|done].
      * intros (h' & [->|Hh'] & <- & Hk); [|by exists h']. rewrite Es, Ek in Hk. congruence.
  - intros s. cbn [apply_op rates new_rate]. unfold feerate_of.
    transitivity (feerate_of c s); [unfold mark_pending; by repeat case_match|].
    rewrite (lk_rate _ _ _ _ L). by destruct p, (pov v s).
  - intros s. rewrite mark_pending_sides. cbn [apply_op waiting new_wait set_htlcs changes_pending].
    pose proof (lk_wait _ _ _ _ L s) as W. destruct v, p, s; cbn in *; done.
  - unfold mark_pending. repeat case_match; apply L.
  - unfold mark_pending. repeat case_match; apply L.
  - unfold mark_pending. repeat case_match; apply L.
Qed.

(** ** Removing, and changes to one HTLC *)

(** The table when one HTLC is replaced, by one with the same key. *)
Lemma table_update (v : side) (c : channel) (l : list htlc) (X : duplex) (n : nat) (h h' : htlc) (m : gmap (Z * side) htlc) : linked v c l X -> l !! n = Some h -> key h' = key h ->
  (forall k, m !! k = if decide (k = key (seen v h)) then Some (seen v h') else table X !! k) ->
  forall k g, m !! k = Some g <-> exists h0, h0 ∈ <[n := h']> l /\ seen v h0 = g /\ key g = k.
Proof.
  intros L Hn Ek Em k g.
  assert (key (seen v h') = key (seen v h)) as Es by (rewrite !key_seen; unfold key in Ek; congruence).
  assert (<[n := h']> l !! n = Some h') as Hn' by (apply list_lookup_insert_eq; by eapply lookup_lt_Some).
  rewrite Em. case_decide as D.
  - subst k. split.
    + intros [= <-]. exists h'. split; [by eapply list_elem_of_lookup_2|]. split; [done|]. by rewrite Es.
    + intros (h0 & [j Hj]%list_elem_of_lookup & <- & Hk). destruct (decide (j = n)) as [->|Nj]; [by simplify_eq|].
      rewrite list_lookup_insert_ne in Hj by done. destruct Nj.
      apply (NoDup_lookup _ _ _ (key (seen v h)) (linked_keys v c l X L)); rewrite list_lookup_fmap.
      * by rewrite Hj, <- Hk.
      * by rewrite Hn.
  - rewrite (lk_table _ _ _ _ L). split; intros (h0 & [j Hj]%list_elem_of_lookup & <- & <-).
    + exists h0. split; [|done]. apply list_elem_of_lookup. exists j. rewrite list_lookup_insert_ne; [done|].
      intros ->. by simplify_eq.
    + exists h0. split; [|done]. apply list_elem_of_lookup. exists j. destruct (decide (j = n)) as [->|Nj].
      * assert (h0 = h') as -> by congruence. by destruct D.
      * by rewrite list_lookup_insert_ne in Hj by done.
Qed.

(** What only one end knows does not matter. *)
Lemma linked_private v c l X (n : nat) (h h' : htlc) : linked v c l X -> l !! n = Some h -> bare h' = bare h ->
  linked v (set_htlcs (<[n := h']> l) c) (<[n := h']> l) X.
Proof.
  intros L Hn Eb. assert (key h' = key h) as Ek.
  { pose proof (f_equal key Eb) as E. exact E. }
  assert (state h' = state h /\ msatoshi h' = msatoshi h /\ r h' = r h) as (Es & Em & Er).
  { by injection Eb. }
  assert (seen v h' = seen v h) as Ev by (destruct v; [exact Eb|exact (f_equal mirror Eb)]).
  pose proof (lk_inv _ _ _ _ L) as I. constructor; try apply L.
  - assert (forall u x, effect u x h' = effect u x h /\ pend u x h' = pend u x h) as Ee.
    { intros u x. unfold effect, pend, adding, removing, paid_to, htlc_owner. by rewrite Es, Em, Er. }
    constructor; try apply I; cbn [set_htlcs htlcs view changes_pending].
    + by apply (terms_same _ c), I.
    + done.
    + rewrite list_fmap_insert, Ek, list_insert_id; [apply I|]. by rewrite list_lookup_fmap, Hn.
    + apply Forall_insert; [apply I|]. unfold amount_ok. rewrite Em.
      exact (Forall_lookup_1 _ _ _ _ (inv_amounts _ _ _ I) Hn).
    + intros u x. unfold ledger. rewrite (zsum_insert _ _ _ h), (proj1 (Ee u x)) by done.
      rewrite (inv_owed _ _ _ I). unfold ledger. lia.
    + intros u x. unfold ledger. rewrite (zsum_insert _ _ _ h), (proj1 (Ee u x)) by done.
      pose proof (inv_ledger _ _ _ I u x) as P. unfold ledger in P. lia.
    + intros u x. unfold projected, ledger. rewrite !(zsum_insert _ _ _ h), (proj1 (Ee u x)), (proj2 (Ee u x)) by done.
      pose proof (inv_projected _ _ _ I u x) as P. unfold projected, ledger in P. lia.
    + intros u g [j Hj]%list_elem_of_lookup Hp. destruct (decide (j = n)) as [->|Nj].
      * rewrite list_lookup_insert_eq in Hj by by eapply lookup_lt_Some. injection Hj as <-. rewrite Es in Hp.
        apply (inv_pending _ _ _ I u h); [by eapply list_elem_of_lookup_2|done].
      * rewrite list_lookup_insert_ne in Hj by done. apply (inv_pending _ _ _ I u g); [by eapply list_elem_of_lookup_2|done].
  - apply (table_update v c l X n h); try done. intros k. case_decide as D; [|done]. rewrite Ev, D.
    apply (lk_table _ _ _ _ L). exists h. split; [by eapply list_elem_of_lookup_2|done].
Qed.

(** [channel_fulfill_htlc] or [channel_fail_htlc]. *)
Definition remove_htlc (c : channel) (owner : side) (i : Z) (x : option bytes) : option (channel * channel_remove_err) :=
  match x with Some preimage => channel_fulfill_htlc c owner i preimage | None => channel_fail_htlc c owner i end.

Definition removed_htlc (st : htlc_state) (x : option bytes) (h : htlc) : htlc :=
  set_state st (match x with Some preimage => set_r preimage h | None => h end).

Lemma remove_committed h : is_Some (remove_state (state h)) ->
  htlc_has h (HTLC_FLAG (other (htlc_owner h)) HTLC_F_COMMITTED) = true.
Proof. intros [st E]. by destruct h as [[]]. Qed.

Lemma link_remove v c l X p i x : linked v c l X ->
  exists c' e, remove_htlc c (pov v (other p)) i x = Some (c', e) /\
    (e = CHANNEL_ERR_REMOVE_OK <-> enabled T p (ORemove i x) X) /\
    (e = CHANNEL_ERR_REMOVE_OK -> exists n h st, htlc_get l i (pov v (other p)) = Some (n, h) /\
       remove_state (state h) = Some st /\
       linked v c' (<[n := removed_htlc st x h]> l) (apply_op T p (ORemove i x) X)).
Proof.
  intros L. pose proof (lk_inv _ _ _ _ L) as I. set (o := pov v (other p)).
  assert (pov v o = other p) as Eo by apply pov_pov.
  destruct (htlc_get l i o) as [[n h]|] eqn:Eg.
  2: { assert (enabled T p (ORemove i x) X -> False) as N.
       { intros (g & Hg & _). apply (linked_get_None v c l X i o L) in Eg. rewrite Eo in Eg. congruence. }
       exists c, CHANNEL_ERR_NO_SUCH_ID. split; [|done].
       destruct x; cbn [remove_htlc]; unfold channel_fulfill_htlc, channel_fail_htlc;
         rewrite (inv_htlcs _ _ _ I); cbn [mbind option_bind]; by rewrite Eg. }
  destruct (linked_get v c l X i o n h L Eg) as (Ht & Hn & Hk). rewrite Eo in Ht.
  assert (enabled T p (ORemove i x) X <-> is_Some (remove_state (state h)) /\
    match x with Some pre => r h = None /\ sha256 pre = rhash h | None => True end) as En.
  { cbn [enabled]. rewrite Ht. assert (r (seen v h) = r h /\ rhash (seen v h) = rhash h) as [Er Eh] by by destruct v.
    rewrite <- (seen_remove_state v h), <- Er, <- Eh. split; [by intros (? & [= <-] & ?)|]. intros. by exists (seen v h). }
  assert (forall st, remove_state (state h) = Some st ->
    (match x with Some pre => rhash h = sha256 pre | None => True end) ->
    linked v (set_pending o true (set_htlcs (<[n := removed_htlc st x h]> l) c)) (<[n := removed_htlc st x h]> l)
      (apply_op T p (ORemove i x) X)) as Lk.
  { intros st Est Hx. assert (key (removed_htlc st x h) = key h) as Ek 
      by (clear - Est; destruct h as [[]]; try discriminate Est; injection Est as <-; by destruct x).
    destruct (seen_removed v h x st Est) as [Es _]. constructor; try apply L.
    - pose proof (Forall_lookup_1 _ _ _ _ (inv_amounts _ _ _ I) Hn) as A. unfold amount_ok in A.
      destruct (remove_state_effects h (removed_htlc st x h) st ltac:(lia) Est) as (_ & Ee & Ep & Ef & _); try by destruct x.
      apply (inv_update _ c l n h); try done; [by destruct x|]. intros u Hu. rewrite (Ef u Hu). by injection Hk.
    - apply (table_update v c l X n h); try done. intros k. cbn [apply_op table new_table].
      assert (key (seen v h) = (i, other p)) as Ekk by (rewrite key_seen; injection Hk as -> ->; by rewrite Eo).
      rewrite Ekk. case_decide as D.
      + subst k. rewrite lookup_alter_eq, Ht. cbn. f_equal. symmetry. exact Es.
      + by rewrite lookup_alter_ne.
    - intros s. cbn [apply_op rates new_rate]. unfold feerate_of. cbn [set_pending set_htlcs view].
      fold (feerate_of c s). rewrite (lk_rate _ _ _ _ L). by destruct p, (pov v s).
    - intros s. cbn [apply_op waiting new_wait set_pending set_htlcs changes_pending].
      pose proof (lk_wait _ _ _ _ L s) as W. subst o. destruct v, p, s; cbn in *; done. }
  assert (htlc_has h (HTLC_FLAG (other (htlc_owner h)) HTLC_F_COMMITTED) = false -> remove_state (state h) = None) as Nc.
  { intros E. destruct (remove_state (state h)) eqn:Es; [|done]. rewrite remove_committed in E by by eexists. done. }
  destruct x as [pre|]; cbn [remove_htlc]; unfold channel_fulfill_htlc, channel_fail_htlc;
    rewrite (inv_htlcs _ _ _ I); cbn [mbind option_bind]; rewrite Eg; setoid_rewrite En.
  - case_bool_decide as Hr; [eexists _, _; split; [done|]; split; [|done]; split; [done|];
      intros [_ [Er _]]; rewrite Er in Hr; by destruct Hr|].
    case_bool_decide as Hh; cbn [negb]; [|eexists _, _; split; [done|]; split; [|done]; split; [done|]; by intros [_ [_ ?]]].
    change (htlc_has (set_r pre h) (HTLC_FLAG (other (htlc_owner (set_r pre h))) HTLC_F_COMMITTED))
      with (htlc_has h (HTLC_FLAG (other (htlc_owner h)) HTLC_F_COMMITTED)).
    change (state (set_r pre h)) with (state h).
    destruct (htlc_has h _) eqn:Hc; cbn [negb].
    2: { rewrite (Nc eq_refl). eexists _, _. split; [done|]. split; [|done]. split; [done|]. by intros [[] _]. }
    destruct (remove_state (state h)) as [st|] eqn:Es.
    2: { eexists _, _. split; [done|]. split; [|done]. split; [done|]. by intros [[] _]. }
    eexists _, _. split; [done|]. split; [|intros _; exists n, h, st; split; [done|]; split; [done|]; by apply Lk].
    split; [|done]. intros _. split; [by eexists|]. split; [|done]. destruct (r h); [by destruct Hr|done].
  - destruct (htlc_has h _) eqn:Hc; cbn [negb].
    2: { rewrite (Nc eq_refl). eexists _, _. split; [done|]. split; [|done]. split; [done|]. by intros [[] _]. }
    destruct (remove_state (state h)) as [st|] eqn:Es.
    2: { eexists _, _. split; [done|]. split; [|done]. split; [done|]. by intros [[] _]. }
    eexists _, _. split; [done|]. split; [|intros _; exists n, h, st; split; [done|]; split; [done|]; by apply Lk].
    split; [|done]. intros _. split; [by eexists|done].
Qed.

(** ** Commitments and revocations *)

(** The table of the shared state when every HTLC advances. *)
Lemma table_advance v c l X (f g : htlc -> htlc) : linked v c l X ->
  (forall h, seen v (f h) = g (seen v h)) -> (forall h, key (g h) = key h) ->
  forall k x, (g <$> table X) !! k = Some x <-> exists h, h ∈ f <$> l /\ seen v h = x /\ key x = k.
Proof.
  intros L Ef Ek k x. rewrite lookup_fmap, fmap_Some. setoid_rewrite (lk_table _ _ _ _ L).
  setoid_rewrite list_elem_of_fmap. split.
  - intros (y & (h & Hh & <- & Hk) & ->). exists (f h). split; [by exists h|]. split; [apply Ef|]. by rewrite Ek.
  - intros (h & (h' & -> & Hh) & <- & Hk). rewrite Ef in *. exists (seen v h'). split; [|done]. exists h'.
    split; [done|]. split; [done|]. by rewrite Ek in Hk.
Qed.

Lemma link_commit v c l X p : linked v c l X -> let s := pov v (other p) in
  exists c' ch, commit_side c s (commit_states s) = Some (c', at_side (waiting X) (other p), ch) /\
    (enabled T p OCommit X -> linked v c' (advance (commit_states s) <$> l) (apply_op T p OCommit X)).
Proof.
  intros L s. pose proof (lk_inv _ _ _ _ L) as I. pose proof (lk_wait _ _ _ _ L s) as W.
  assert (pov v s = other p) as Es by apply pov_pov. rewrite Es in W.
  destruct (commit_preserves _ c l s I) as (c' & ch & E & I' & _ & _). rewrite W in E. exists c', ch. split; [done|].
  cbn [enabled]. intros En. unfold commit_side in E. rewrite W, En in E. cbn [negb] in E.
  destruct (change_htlcs_spec _ c l s _ I (legal_commit s)) as (v' & ch' & E2 & (Fr & _) & _).
  rewrite E2 in E. cbn [mbind option_bind] in E. injection E as <- <-. constructor; try apply L; [done|..].
  - cbn [apply_op table new_table]. rewrite <- Es. apply (table_advance v c l X); [done| |].
    + intros h. apply seen_advance.
    + intros h. apply key_advance_commit.
  - intros u. cbn [apply_op rates new_rate]. unfold feerate_of. cbn [set_pending set_htlcs set_view view]. rewrite Fr.
    fold (feerate_of c u). rewrite (lk_rate _ _ _ _ L). by destruct p, (pov v u).
  - intros u. cbn [apply_op waiting new_wait set_pending set_htlcs set_view changes_pending].
    pose proof (lk_wait _ _ _ _ L u) as Wu. subst s. destruct v, p, u; cbn in *; done.
Qed.

(** With nothing waiting, nothing changes. *)
Lemma link_commit_idle v c l X p c' ch : linked v c l X -> let s := pov v (other p) in
  commit_side c s (commit_states s) = Some (c', false, ch) -> linked v c' l X.
Proof.
  intros L s E. pose proof (lk_inv _ _ _ _ L) as I.
  destruct (commit_preserves _ c l s I) as (c1 & ch1 & E1 & I' & _ & _). rewrite E in E1. injection E1 as <- W <-.
  assert (Forall (fun h => in_states (commit_states s) (state h) = false) l) as Idle.
  { apply Forall_forall. intros h Hh. rewrite commit_states_pending. apply not_true_is_false. intros Hp.
    pose proof (inv_pending _ _ _ I s h Hh Hp). congruence. }
  rewrite (proj1 (advance_idle _ _ Idle)) in I'. unfold commit_side in E. rewrite <- W in E. cbn [negb] in E.
  destruct (change_htlcs_spec _ c l s _ I (legal_commit s)) as (v' & ch' & E2 & (Fr & _) & _).
  rewrite E2 in E. cbn [mbind option_bind] in E. rewrite (proj2 (advance_idle _ _ Idle)) in E. injection E as <- <-.
  constructor; try apply L; [done|].
  intros u. unfold feerate_of. cbn [set_htlcs set_view view]. rewrite Fr. apply (lk_rate _ _ _ _ L).
Qed.

Lemma revoke_flag_newly s l :
  has_flag (all_changed_flags (revoke_states s) l) (HTLC_FLAG s HTLC_F_PENDING) = (0 <? zsum (newly s) l).
Proof.
  induction l as [|h l IH]; [by destruct s|].
  change (all_changed_flags (revoke_states s) (h :: l)) with
    (Z.lor (changed_flags (revoke_states s) h) (all_changed_flags (revoke_states s) l)).
  rewrite has_flag_lor, IH, zsum_cons.
  assert (0 <= zsum (newly s) l) as B by (apply zsum_nonneg; intros g _; unfold newly; case_match; lia).
  assert (has_flag (changed_flags (revoke_states s) h) (HTLC_FLAG s HTLC_F_PENDING) = (0 <? newly s h)) as ->
    by (by destruct s, h as [[]]).
  assert (newly s h = 0 \/ newly s h = 1) as [->| ->] by (unfold newly; case_match; auto).
  - done.
  - symmetry. apply Z.ltb_lt. lia.
Qed.

Lemma linked_queues v c l X s : linked v c l X -> queues (pov v s) (table X) = (0 <? zsum (newly s) l).
Proof.
  intros L. unfold queues. f_equal. rewrite (linked_vals v c l X L), zsum_map. apply zsum_ext_in.
  intros h _. apply newly_seen.
Qed.

Lemma link_revoke v c l X p : linked v c l X -> let s := pov v (other p) in
  exists c' ch, revoke_side c s (revoke_states s) = Some (c', at_side (changes_pending c') s, ch) /\
    linked v c' (advance (revoke_states s) <$> l) (apply_op T p ORevoke X).
Proof.
  intros L s. pose proof (lk_inv _ _ _ _ L) as I. assert (pov v s = other p) as Es by apply pov_pov.
  destruct (revoke_preserves _ c l s I) as (c' & ch & E & I' & _). exists c', ch. split; [done|].
  destruct (change_htlcs_spec _ c l s _ I (legal_revoke s)) as (v' & ch' & E2 & (Fr & _) & _).
  unfold revoke_side in E. rewrite E2 in E. cbn [mbind option_bind] in E. cbv zeta in E.
  rewrite revoke_flag_newly, <- (linked_queues v c l X s L), Es in E.
  set (c2 := if queues (other p) (table X) then _ else _) in E.
  assert ((forall u, channel_feerate c2 u = feerate_of c u) /\ funder c2 = funder c /\ config c2 = config c /\
    channel_params c2 = channel_params c) as (R2 & F2 & C2 & P2).
  { assert (view c2 = v') as V2 by (unfold c2; by destruct (queues _ _)).
    split; [|by unfold c2; destruct (queues _ _)]. unfold channel_feerate. rewrite V2. exact Fr. }
  assert (forall u, at_side (changes_pending c2) u
    = at_side (set_side s (at_side (changes_pending c) s || queues (other p) (table X)) (changes_pending c)) u) as W2.
  { intros u. unfold c2. destruct (queues _ _), s, u; cbn; by rewrite ?orb_true_r, ?orb_false_r. }
  assert (side_eqb (funder c2) s && negb (channel_feerate c2 s =? channel_feerate c2 (other s)) = follows_rate T p X) as Ef.
  { unfold follows_rate. rewrite F2, !R2, (lk_funder _ _ _ _ L), !(lk_rate _ _ _ _ L), pov_other, Es, other_other.
    by rewrite <- Es, <- (pov_eqb v _ (pov v s)), pov_pov. }
  rewrite Ef in E. clearbody c2. injection E as E _ _.
  assert (forall u, feerate_of c' u = at_side (rates (apply_op T p ORevoke X)) (pov v u)) as R'.
  { intros u. cbn [apply_op rates new_rate]. rewrite <- E. clear E. destruct (follows_rate T p X).
    - unfold feerate_of. cbn [set_pending set_feerate set_view view]. fold (channel_feerate c2 (other s)).
      destruct (decide (u = s)) as [->|Nu].
      + rewrite at_set_side. cbn [feerate_per_kw]. by rewrite R2, (lk_rate _ _ _ _ L), pov_other, Es, other_other, at_set_side.
      + rewrite at_set_side_ne by done. fold (channel_feerate c2 u). rewrite R2, (lk_rate _ _ _ _ L).
        rewrite at_set_side_ne; [done|]. rewrite <- Es. by intros <-%pov_inj.
    - rewrite <- Es at 1 2. fold (channel_feerate c2 u). unfold feerate_of. fold (channel_feerate c2 u).
      rewrite R2, (lk_rate _ _ _ _ L). by destruct (pov v s), (pov v u). }
  assert (forall u, at_side (changes_pending c') u = at_side (waiting (apply_op T p ORevoke X)) (pov v u)) as W'.
  { intros u. cbn [apply_op waiting new_wait]. pose proof (lk_wait _ _ _ _ L) as W. rewrite <- E. clear E R'.
    assert (at_side (waiting X) (other p) = at_side (changes_pending c) s) as -> by by rewrite W, Es.
    destruct (decide (u = s)) as [->|Nu].
    - rewrite Es, at_set_side. destruct (follows_rate T p X); cbn [set_pending set_feerate set_view changes_pending].
      + by rewrite at_set_side, orb_true_r.
      + by rewrite W2, at_set_side, orb_false_r.
    - rewrite (at_set_side_ne (other p)) by (rewrite <- Es; by intros <-%pov_inj). rewrite <- W.
      destruct (follows_rate T p X); cbn [set_pending set_feerate set_view changes_pending].
      + rewrite at_set_side_ne by done. rewrite W2. by rewrite at_set_side_ne.
      + rewrite W2. by rewrite at_set_side_ne. }
  constructor; try done.
  - cbn [apply_op table new_table]. rewrite <- Es. apply (table_advance v c l X); [done| |].
    + intros h. apply seen_advance.
    + intros h. apply key_advance_revoke.
  - rewrite <- (lk_funder _ _ _ _ L), <- F2, <- E. by destruct (follows_rate T p X).
  - rewrite <- (lk_config _ _ _ _ L), <- C2, <- E. by destruct (follows_rate T p X).
  - rewrite <- (lk_payment _ _ _ _ L), <- P2, <- E. by destruct (follows_rate T p X).
Qed.

(** ** Fee rates *)
Lemma link_fee v c l X p rate : linked v c l X -> funder c = pov v p ->
  exists c' ok, channel_update_feerate c rate = (c', ok) /\ (ok = true <-> enabled T p (OFee rate) X) /\
    (ok = true -> linked v c' l (apply_op T p (OFee rate) X)).
Proof.
  intros L Ef. destruct (link_terms v c l X p L) as (Ec & Eb & _ & Ei & F).
  assert (t_funder T = p) as Et by (apply (pov_inj v); rewrite <- Ef; symmetry; apply L).
  pose proof (afford_verdict _ c l rate (lk_inv _ _ _ _ L)) as V. cbv zeta in V. rewrite Ef, Ec, Ei, <- F in V.
  unfold channel_update_feerate. cbn [enabled]. setoid_rewrite <- V. rewrite Ef.
  destruct (can_funder_afford_feerate c rate) eqn:Ea; cbn [negb].
  - eexists _, _. split; [done|]. split; [done|]. intros _. constructor; try apply L.
    + apply inv_set_pending, inv_set_feerate, L.
    + intros u. unfold feerate_of. cbn [set_pending set_feerate set_view view apply_op rates new_rate].
      pose proof (lk_rate _ _ _ _ L u) as R. unfold feerate_of in R. destruct v, p, u; cbn in *; done.
    + intros u. cbn [apply_op waiting new_wait set_pending set_feerate set_view changes_pending].
      pose proof (lk_wait _ _ _ _ L u) as W. destruct v, p, u; cbn in *; done.
  - eexists _, _. split; [done|]. split; [|done]. split; [done|]. by intros [_ ?].
Qed.
End Link.
