(* ===== verification/Channeld.v ===== *)
(** * The channel process (src/lightning/channeld/channeld.c)

    The handlers of messages from the peer, of requests from the master daemon and of the
    commit timer, each a function on the state of the process that says what is sent and
    how it ends. Reading and writing file descriptors is left to the caller: messages
    arrive parsed, and a request to the signer is a call of [Hsm].

    Not modelled: status and billboard messages, which have no effect on the channel, and
    what only DEVELOPER builds have. The onion code (common/sphinx.c), the encoding of
    announcements and the clock are parameters. *)
From stdpp Require Import strings.
From S2P Require Import Prelude HtlcState Sha256 Secp Ecdsa PullPush BitcoinTx LnScript SigCheck Shachain KeyDerive Hsm Params Htlc.
From S2P Require Import CommitTx Channel ChannelTxs.
Local Open Scope Z_scope.

(** ** Messages *)
Inductive wire_type :=
  | WIRE_INIT | WIRE_ERROR | WIRE_OPEN_CHANNEL | WIRE_ACCEPT_CHANNEL | WIRE_FUNDING_CREATED
  | WIRE_FUNDING_SIGNED | WIRE_FUNDING_LOCKED | WIRE_SHUTDOWN | WIRE_CLOSING_SIGNED
  | WIRE_UPDATE_ADD_HTLC | WIRE_UPDATE_FULFILL_HTLC | WIRE_UPDATE_FAIL_HTLC
  | WIRE_UPDATE_FAIL_MALFORMED_HTLC | WIRE_COMMITMENT_SIGNED | WIRE_REVOKE_AND_ACK | WIRE_UPDATE_FEE
  | WIRE_CHANNEL_REESTABLISH | WIRE_ANNOUNCEMENT_SIGNATURES | WIRE_CHANNEL_ANNOUNCEMENT
  | WIRE_NODE_ANNOUNCEMENT | WIRE_CHANNEL_UPDATE | WIRE_PING | WIRE_PONG
  | WIRE_QUERY_SHORT_CHANNEL_IDS | WIRE_REPLY_SHORT_CHANNEL_IDS_END | WIRE_QUERY_CHANNEL_RANGE
  | WIRE_REPLY_CHANNEL_RANGE | WIRE_GOSSIP_TIMESTAMP_FILTER.

#[global] Instance wire_type_eq_dec : EqDecision wire_type.
Proof. solve_decision. Defined.

Definition BADONION : Z := 0x8000.
Definition ANNOUNCE_MIN_DEPTH : Z := 6.

(** The failure codes of [handle_offer_htlc]. *)
Inductive offer_failure :=
  | WIRE_INCORRECT_CLTV_EXPIRY | WIRE_TEMPORARY_CHANNEL_FAILURE | WIRE_AMOUNT_BELOW_MINIMUM.

Section Messages.
Context `{Secp256k1} `{!Signatures}.

(** [Raw t] is a message of type [t] whose contents are not looked at, or do not parse. *)
Inductive wire_msg :=
  | Funding_locked (chan : bytes) (next_per_commitment_point : pubkey)
  | Update_add_htlc (chan : bytes) (id amount_msat : Z) (payment_hash : bytes) (cltv_expiry : Z) (onion : bytes)
  | Update_fulfill_htlc (chan : bytes) (id : Z) (payment_preimage : bytes)
  | Update_fail_htlc (chan : bytes) (id : Z) (reason : bytes)
  | Update_fail_malformed_htlc (chan : bytes) (id : Z) (sha256_of_onion : bytes) (failure_code : Z)
  | Update_fee (chan : bytes) (feerate : Z)
  | Commitment_signed (chan : bytes) (commit_sig : signature) (htlc_sigs : list signature)
  | Revoke_and_ack (chan : bytes) (per_commitment_secret : bytes) (next_per_commitment_point : pubkey)
  | Shutdown (chan scriptpubkey : bytes)
  | Announcement_signatures (chan : bytes) (scid : Z) (node_signature bitcoin_signature : signature)
  | Channel_reestablish (chan : bytes) (next_local_commitment_number next_remote_revocation_number : Z)
      (dataloss : option (bytes * pubkey))
  | Open_channel (temporary_channel_id : bytes)
  | Closing_signed (chan : bytes) (fee_satoshis : Z) (sig : signature)
  | Error_msg (chan data : bytes)
  | Raw (t : wire_type).

Definition wire_type_of (m : wire_msg) : wire_type :=
  match m with
  | Funding_locked _ _ => WIRE_FUNDING_LOCKED
  | Update_add_htlc _ _ _ _ _ _ => WIRE_UPDATE_ADD_HTLC
  | Update_fulfill_htlc _ _ _ => WIRE_UPDATE_FULFILL_HTLC
  | Update_fail_htlc _ _ _ => WIRE_UPDATE_FAIL_HTLC
  | Update_fail_malformed_htlc _ _ _ _ => WIRE_UPDATE_FAIL_MALFORMED_HTLC
  | Update_fee _ _ => WIRE_UPDATE_FEE
  | Commitment_signed _ _ _ => WIRE_COMMITMENT_SIGNED
  | Revoke_and_ack _ _ _ => WIRE_REVOKE_AND_ACK
  | Shutdown _ _ => WIRE_SHUTDOWN
  | Announcement_signatures _ _ _ _ => WIRE_ANNOUNCEMENT_SIGNATURES
  | Channel_reestablish _ _ _ _ => WIRE_CHANNEL_REESTABLISH
  | Open_channel _ => WIRE_OPEN_CHANNEL
  | Closing_signed _ _ _ => WIRE_CLOSING_SIGNED
  | Error_msg _ _ => WIRE_ERROR
  | Raw t => t
  end.

Record changed_htlc := ChangedHtlc { newstate : htlc_state; ch_id : Z }.

Record commit_sigs := CommitSigs { commit_sig : signature; htlc_sigs : list signature }.

(** What the master is told of the HTLCs a commitment of ours changed. *)
Record commitsig_report := Report {
  rep_added : list added_htlc;
  rep_shared_secret : list bytes;
  rep_fulfilled : list fulfilled_htlc;
  rep_failed : list failed_htlc;
  rep_changed : list changed_htlc
}.

Inductive master_msg :=
  | Sending_commitsig (commitnum feerate : Z) (changed : list changed_htlc) (sigs : commit_sigs)
  | Got_commitsig (commitnum feerate : Z) (sigs : commit_sigs) (report : commitsig_report) (tx : bitcoin_tx)
  | Got_revoke (revokenum : Z) (per_commitment_secret : bytes) (next_per_commit_point : pubkey) (feerate : Z)
      (changed : list changed_htlc)
  | Got_funding_locked (next_per_commit_point : pubkey)
  | Got_shutdown (scriptpubkey : bytes)
  | Offer_htlc_reply (id : Z) (failure : option offer_failure)
  | Fail_fallen_behind (remote_per_commitment_point : option pubkey)
  | Shutdown_complete.

Inductive gossip_msg :=
  | Local_add_channel (scid : Z) (remote_node_id : pubkey) (satoshis : Z)
  | Local_channel_update (scid : Z) (disable : bool) (cltv_expiry_delta : Z)
      (htlc_minimum_msat fee_base_msat fee_proportional_millionths htlc_maximum_msat : Z)
  | Announcement (channel_announcement : bytes)
  | Peer_gossip (m : wire_msg).

Inductive output := ToPeer (m : wire_msg) | ToMaster (m : master_msg) | ToGossip (m : gossip_msg).

(** What the master asks for. *)
Inductive master_req :=
  | Master_funding_locked (scid depth : Z)
  | Master_offer_htlc (amount_msat cltv_expiry : Z) (payment_hash onion : bytes)
  | Master_feerates (feerate min max : Z)
  | Master_fulfill_htlc (f : fulfilled_htlc)
  | Master_fail_htlc (f : failed_htlc)
  | Master_send_shutdown.
End Messages.

(** ** The process *)
Section Peer.
Context `{Secp256k1} `{!Signatures}.

Record peer := Peer {
  funding_locked : sided bool;
  next_index : sided Z;
  feerate_min : Z;
  feerate_max : Z;
  next_local_per_commit : pubkey;
  remote_per_commit : pubkey;
  old_remote_per_commit : pubkey;
  htlc_id : Z;
  channel_id : bytes;
  peer_channel : channel;
  commit_timer : bool;
  commit_timer_attempts : Z;
  expecting_pong : bool;
  desired_feerate : Z;
  node_ids : sided pubkey;
  short_channel_ids : sided Z;
  announcement_node_sigs : sided (option signature);
  announcement_bitcoin_sigs : sided (option signature);
  have_sigs : sided bool;
  cltv_delta : Z;
  fee_base : Z;
  fee_per_satoshi : Z;
  final_scriptpubkey : bytes;
  send_shutdown : bool;
  shutdown_sent : sided bool;
  last_was_revoke : bool;
  last_sent_commit : list changed_htlc;
  revocations_received : Z;
  announce_depth_reached : bool;
  channel_local_active : bool;
  last_recv : Z
}.

Definition peer_eta (p : peer) : peer :=
  Peer (funding_locked p) (next_index p) (feerate_min p) (feerate_max p) (next_local_per_commit p)
    (remote_per_commit p) (old_remote_per_commit p) (htlc_id p) (channel_id p) (peer_channel p)
    (commit_timer p) (commit_timer_attempts p) (expecting_pong p) (desired_feerate p) (node_ids p)
    (short_channel_ids p) (announcement_node_sigs p) (announcement_bitcoin_sigs p) (have_sigs p)
    (cltv_delta p) (fee_base p) (fee_per_satoshi p) (final_scriptpubkey p) (send_shutdown p)
    (shutdown_sent p) (last_was_revoke p) (last_sent_commit p) (revocations_received p)
    (announce_depth_reached p) (channel_local_active p) (last_recv p).

(** How a handler ends: it returns, with what it sent; it fails the channel with the peer
    ([peer_failed]); the peer failed it; [status_failed]; or an assertion fails or a
    pointer is missing. *)
Inductive outcome (A : Type) :=
  | Done (a : A) (p : peer) (out : list output)
  | PeerFailed (why : string) (out : list output)
  | PeerErrored (out : list output)
  | StatusFailed (why : string)
  | Aborts.
#[global] Arguments Done {A} _ _ _.
#[global] Arguments PeerFailed {A} _ _.
#[global] Arguments PeerErrored {A} _.
#[global] Arguments StatusFailed {A} _.
#[global] Arguments Aborts {A}.

Definition run (A : Type) : Type := peer -> outcome A.

#[global] Instance run_ret : MRet run := fun A a p => Done a p [].

#[global] Instance run_bind : MBind run := fun A B f m p =>
  match m p with
  | Done a p out =>
      match f a p with
      | Done b p out' => Done b p (out ++ out')
      | PeerFailed why out' => PeerFailed why (out ++ out')
      | PeerErrored out' => PeerErrored (out ++ out')
      | StatusFailed why => StatusFailed why
      | Aborts => Aborts
      end
  | PeerFailed why out => PeerFailed why out
  | PeerErrored out => PeerErrored out
  | StatusFailed why => StatusFailed why
  | Aborts => Aborts
  end.

Definition get_peer : run peer := fun p => Done p p [].
Definition set_peer (f : peer -> peer) : run unit := fun p => Done () (f p) [].
Definition send (o : output) : run unit := fun p => Done () p [o].
Definition peer_failed {A} (why : string) : run A := fun _ => PeerFailed why [].
Definition status_failed {A} (why : string) : run A := fun _ => StatusFailed why.
Definition aborts {A} : run A := fun _ => Aborts.

(** A call that may abort; an assertion; a request to the signer, which does not answer
    one that it refuses. *)
Definition or_abort {A} (o : option A) : run A := match o with Some a => mret a | None => aborts end.
Definition asserting (b : bool) : run unit := if b then mret () else aborts.
Definition hsm_req {A} (o : option (option A)) : run A :=
  match o with Some (Some a) => mret a | _ => status_failed "HSM" end.
End Peer.

(** [put f v] is [peer->f = v]. *)
Class FieldOf `{Secp256k1} `{!Signatures} {T : Type} (f : peer -> T) := set_field : T -> peer -> peer.

#[global] Hint Extern 1 (FieldOf ?f) =>
  (let e := eval cbv beta delta [peer_eta] in peer_eta in
   let r := eval pattern f in e in
   lazymatch r with ?g _ =>
     let s := eval cbv beta in (fun v => g (fun _ => v)) in
     let ok := constr:((fun v p => eq_refl) : forall v p, f (s v p) = v) in exact s
   end)
  : typeclass_instances.

Notation "'put' f v" := (set_peer (set_field (f := f) v)) (at level 10, f at level 9, v at level 9).

(** What the process takes from elsewhere: the shared secret of an onion
    ([get_shared_secret]; zeroes if there is none), the reply for a failure of our own
    ([make_failmsg], which asks gossipd for a channel update), the two layers that wrap a
    reply, and the encoding of [create_channel_announcement]. *)
Class Onions `{Secp256k1} `{!Signatures} := {
  get_shared_secret : bytes -> bytes;
  make_failmsg : htlc -> option bytes;
  create_onionreply : bytes -> bytes -> bytes;
  wrap_onionreply : bytes -> bytes -> bytes;
  create_channel_announcement : peer -> bytes
}.

Section Handlers.
Context `{Secp256k1} `{!Signatures} `{HtlcTable} `{!Onions}.
(** The signer's seed for this channel and the node's key; the time; and memory that is
    read before it is written (see [commit_tx] and [is_peer_error]). *)
Context (channel_seed node_privkey : bytes) (now : Z) (uninit : Z * Z) (uninit_id : bytes).

(** ** Announcements *)
Definition advertised_htlc_max (c : channel) : Z :=
  let cumulative_reserve_msat :=
    u64 (u64 (channel_reserve_satoshis (at_side (config c) LOCAL)
              + channel_reserve_satoshis (at_side (config c) REMOTE)) * 1000) in
  let lower_bound := max_htlc_value_in_flight_msat (at_side (config c) REMOTE) in
  let lower_bound := if u64 (funding_msat c - cumulative_reserve_msat) <? lower_bound
                     then u64 (funding_msat c - cumulative_reserve_msat) else lower_bound in
  if max_payment_msat (channel_params c) <? lower_bound then max_payment_msat (channel_params c) else lower_bound.

Definition send_channel_update (disable : bool) : run unit :=
  p ← get_peer;
  if negb (channel_local_active p) then mret ()
  else
    asserting (negb (at_side (short_channel_ids p) LOCAL =? 0));;
    send (ToGossip (Local_channel_update (at_side (short_channel_ids p) LOCAL) disable (cltv_delta p)
            (htlc_minimum_msat (at_side (config (peer_channel p)) REMOTE)) (fee_base p) (fee_per_satoshi p)
            (advertised_htlc_max (peer_channel p)))).

Definition make_channel_local_active : run unit :=
  p ← get_peer;
  send (ToGossip (Local_add_channel (at_side (short_channel_ids p) LOCAL) (at_side (node_ids p) REMOTE)
          (funding_msat (peer_channel p) / 1000)));;
  send_channel_update false.

Definition send_announcement_signatures : run unit :=
  p ← get_peer;
  let ca := create_channel_announcement p in
  '(node_sig, bitcoin_sig) ← hsm_req (handle_cannouncement_sig channel_seed node_privkey ca);
  put announcement_node_sigs (set_side LOCAL (Some node_sig) (announcement_node_sigs p));;
  put announcement_bitcoin_sigs (set_side LOCAL (Some bitcoin_sig) (announcement_bitcoin_sigs p));;
  let hash := sha256_double (drop 258 ca) in
  if negb (check_signed_hash hash node_sig (at_side (node_ids p) LOCAL))
  then status_failed "HSM returned an invalid node signature"
  else if negb (check_signed_hash hash bitcoin_sig (at_side (funding_pubkey (peer_channel p)) LOCAL))
  then status_failed "HSM returned an invalid bitcoin signature"
  else send (ToPeer (Announcement_signatures (channel_id p) (at_side (short_channel_ids p) LOCAL)
               node_sig bitcoin_sig)).

Definition check_short_ids_match : run unit :=
  p ← get_peer;
  asserting (at_side (have_sigs p) LOCAL);; asserting (at_side (have_sigs p) REMOTE);;
  if at_side (short_channel_ids p) LOCAL =? at_side (short_channel_ids p) REMOTE then mret ()
  else peer_failed "We disagree on short_channel_ids".

Definition announce_channel : run unit :=
  check_short_ids_match;;
  p ← get_peer;
  send (ToGossip (Announcement (create_channel_announcement p)));;
  send_channel_update false.

Definition channel_announcement_negotiate : run unit :=
  p ← get_peer;
  if at_side (shutdown_sent p) LOCAL then mret ()
  else if negb (at_side (funding_locked p) LOCAL) || negb (at_side (funding_locked p) REMOTE) then mret ()
  else
    (if negb (channel_local_active p) then put channel_local_active true;; make_channel_local_active else mret ());;
    (if announce_depth_reached p && negb (at_side (have_sigs p) LOCAL)
     then send_announcement_signatures;; put have_sigs (set_side LOCAL true (have_sigs p)) else mret ());;
    p ← get_peer;
    if at_side (have_sigs p) LOCAL && at_side (have_sigs p) REMOTE then announce_channel else mret ().

Definition handle_peer_funding_locked (msg : wire_msg) : run unit :=
  p ← get_peer;
  if at_side (funding_locked p) REMOTE then mret ()
  else if at_side (shutdown_sent p) LOCAL then mret ()
  else
    put old_remote_per_commit (remote_per_commit p);;
    match msg with
    | Funding_locked chanid point =>
        put remote_per_commit point;;
        if negb (bool_decide (chanid = channel_id p)) then peer_failed "Wrong channel id"
        else
          put funding_locked (set_side REMOTE true (funding_locked p));;
          send (ToMaster (Got_funding_locked point));;
          channel_announcement_negotiate
    | _ => peer_failed "Bad funding_locked"
    end.

Definition handle_peer_announcement_signatures (msg : wire_msg) : run unit :=
  p ← get_peer;
  match msg with
  | Announcement_signatures chanid scid node_sig bitcoin_sig =>
      put short_channel_ids (set_side REMOTE scid (short_channel_ids p));;
      put announcement_node_sigs (set_side REMOTE (Some node_sig) (announcement_node_sigs p));;
      put announcement_bitcoin_sigs (set_side REMOTE (Some bitcoin_sig) (announcement_bitcoin_sigs p));;
      if negb (bool_decide (chanid = channel_id p)) then peer_failed "Wrong channel_id"
      else put have_sigs (set_side REMOTE true (have_sigs p));; channel_announcement_negotiate
  | _ => peer_failed "Bad announcement_signatures"
  end.

(** ** Committing *)
Definition changed_htlc_arr (l : list htlc) : list changed_htlc := (fun h => ChangedHtlc (state h) (id h)) <$> l.

Definition shutdown_complete (p : peer) : option bool :=
  if at_side (shutdown_sent p) LOCAL && at_side (shutdown_sent p) REMOTE then
    n ← num_channel_htlcs (peer_channel p);
    Some ((n =? 0)%nat && (revocations_received p =? u64 (at_side (next_index p) REMOTE - 1)))
  else Some false.

Definition maybe_send_shutdown : run unit :=
  p ← get_peer;
  if negb (send_shutdown p) then mret ()
  else
    send_channel_update true;;
    send (ToPeer (Shutdown (channel_id p) (final_scriptpubkey p)));;
    put send_shutdown false;;
    put shutdown_sent (set_side LOCAL true (shutdown_sent p)).

(** The amount of the first input. *)
Definition input_amount (tx : bitcoin_tx) : option Z := i ← input tx !! 0%nat; in_amount i.

(** One signature for each HTLC transaction, checked. *)
Fixpoint sign_htlcs (p : peer) (local_htlckey : pubkey) (l : list (bitcoin_tx * bytes)) : run (list signature) :=
  match l with
  | [] => mret []
  | (tx, wscript) :: l =>
      amount ← or_abort (input_amount tx);
      sig ← hsm_req (handle_sign_remote_htlc_tx channel_seed tx wscript amount (remote_per_commit p));
      ok ← or_abort (check_tx_sig tx 0 None (Some wscript) local_htlckey sig);
      asserting ok;;
      sigs ← sign_htlcs p local_htlckey l;
      mret (sig :: sigs)
  end.

Definition calc_commitsigs (commit_index : Z) : run commit_sigs :=
  p ← get_peer;
  let c := peer_channel p in
  txs ← or_abort (channel_txs uninit c (remote_per_commit p) commit_index REMOTE);
  '(txs, wscripts, _) ← or_abort txs;
  tx ← or_abort (head txs);
  amount ← or_abort (input_amount tx);
  sig ← hsm_req (handle_sign_remote_commitment_tx channel_seed tx (at_side (funding_pubkey c) REMOTE) amount);
  match derive_simple_key (htlc_bp (at_side (channel_basepoints c) LOCAL)) (remote_per_commit p) with
  | None => status_failed "Deriving local_htlckey"
  | Some local_htlckey =>
      sigs ← sign_htlcs p local_htlckey (tail (zip txs wscripts));
      mret (CommitSigs sig sigs)
  end.

Definition peer_recently_active (p : peer) : bool := now - last_recv p <? 30 * 1000000000.

Definition maybe_send_ping : run unit :=
  p ← get_peer;
  if expecting_pong p then mret ()
  else if peer_recently_active p then mret ()
  else send (ToPeer (Raw WIRE_PING));; put expecting_pong true.

Definition start_commit_timer : run unit :=
  maybe_send_ping;;
  p ← get_peer;
  if commit_timer p then mret () else put commit_timer_attempts 0;; put commit_timer true.

(** The fee rate is lowered to what [approx_max_feerate] allows. *)
Definition send_feerate : run unit :=
  p ← get_peer;
  let c := peer_channel p in
  if side_eqb (funder c) LOCAL && negb (desired_feerate p =? channel_feerate c REMOTE) then
    let max := approx_max_feerate c in
    let feerate := if max <? desired_feerate p then max else desired_feerate p in
    let '(c, ok) := channel_update_feerate c feerate in
    put peer_channel c;;
    if negb ok then status_failed "Could not afford feerate"
    else send (ToPeer (Update_fee (channel_id p) feerate))
  else mret ().

Definition send_commit : run unit :=
  p ← get_peer;
  if negb (revocations_received p =? u64 (at_side (next_index p) REMOTE - 1)) then
    asserting (revocations_received p =? u64 (at_side (next_index p) REMOTE - 2));;
    put commit_timer_attempts (u64 (commit_timer_attempts p + 1));;
    put commit_timer false;;
    start_commit_timer
  else
  final ← (if at_side (shutdown_sent p) LOCAL
           then n ← or_abort (num_channel_htlcs (peer_channel p)); mret (n =? 0)%nat else mret false);
  if final : bool then put commit_timer false
  else if negb (peer_recently_active p) then put commit_timer false;; start_commit_timer
  else
  send_feerate;;
  p ← get_peer;
  '(c, b, changed) ← or_abort (channel_sending_commit (peer_channel p));
  put peer_channel c;;
  if negb b then maybe_send_shutdown;; put commit_timer false
  else
  let index := at_side (next_index p) REMOTE in
  sigs ← calc_commitsigs index;
  send (ToMaster (Sending_commitsig index (channel_feerate c REMOTE) (changed_htlc_arr changed) sigs));;
  put next_index (set_side REMOTE (u64 (index + 1)) (next_index p));;
  send (ToPeer (Commitment_signed (channel_id p) (commit_sig sigs) (htlc_sigs sigs)));;
  maybe_send_shutdown;;
  put commit_timer false;;
  start_commit_timer.

(** ** Revoking *)

(** The point, and the secret two before it if it was asked for. *)
Definition get_per_commitment_point (index : Z) : run (pubkey * option bytes) :=
  hsm_req (handle_get_per_commitment_point channel_seed index).

Definition old_secret_of (s : option bytes) : run bytes :=
  match s with Some s => mret s | None => status_failed "No secret in per_commitment_point_reply" end.

Definition make_revocation_msg (revoke_index : Z) : run (wire_msg * pubkey) :=
  p ← get_peer;
  '(point, s) ← get_per_commitment_point (u64 (revoke_index + 2));
  old_commit_secret ← old_secret_of s;
  mret (Revoke_and_ack (channel_id p) old_commit_secret point, point).

Definition send_revocation : run unit :=
  p ← get_peer;
  '(msg, point) ← make_revocation_msg (u64 (at_side (next_index p) LOCAL - 1));
  put next_local_per_commit point;;
  put next_index (set_side LOCAL (u64 (at_side (next_index p) LOCAL + 1)) (next_index p));;
  '(c, b) ← or_abort (channel_sending_revoke_and_ack (peer_channel p));
  put peer_channel c;;
  (if b : bool then start_commit_timer else mret ());;
  send (ToPeer msg).

(** One changed HTLC in the report to the master. *)
Definition report_htlc (h : htlc) (rep : commitsig_report) : option commitsig_report :=
  if htlc_state_eqb (state h) RCVD_ADD_COMMIT then
    cltv ← abs_locktime_to_blocks (expiry h);
    s ← shared_secret h;
    Some (Report (AddedHtlc (id h) (msatoshi h) (rhash h) cltv (routing h) :: rep_added rep)
            (s :: rep_shared_secret rep) (rep_fulfilled rep) (rep_failed rep) (rep_changed rep))
  else if htlc_state_eqb (state h) RCVD_REMOVE_COMMIT then
    match r h with
    | Some preimage =>
        assert! bool_decide (fail h = None);
        Some (Report (rep_added rep) (rep_shared_secret rep) (FulfilledHtlc (id h) preimage :: rep_fulfilled rep)
                (rep_failed rep) (rep_changed rep))
    | None =>
        assert! bool_decide (is_Some (fail h));
        Some (Report (rep_added rep) (rep_shared_secret rep) (rep_fulfilled rep)
                (FailedHtlc (id h) (failcode h) (failed_scid h) (fail h) :: rep_failed rep) (rep_changed rep))
    end
  else
    assert! htlc_state_eqb (state h) RCVD_REMOVE_ACK_COMMIT || htlc_state_eqb (state h) RCVD_ADD_ACK_COMMIT;
    Some (Report (rep_added rep) (rep_shared_secret rep) (rep_fulfilled rep) (rep_failed rep)
            (ChangedHtlc (state h) (id h) :: rep_changed rep)).

(** The arrays of [got_commitsig_msg], in the order of the changed HTLCs. *)
Fixpoint got_commitsig_msg (changed : list htlc) : option commitsig_report :=
  match changed with
  | [] => Some (Report [] [] [] [] [])
  | h :: changed => rep ← got_commitsig_msg changed; report_htlc h rep
  end.

(** Every HTLC signature is for its transaction. *)
Fixpoint check_htlc_sigs (key : pubkey) (l : list (bitcoin_tx * bytes * signature)) : run unit :=
  match l with
  | [] => mret ()
  | (tx, wscript, sig) :: l =>
      ok ← or_abort (check_tx_sig tx 0 None (Some wscript) key sig);
      if negb ok then peer_failed "Bad commit_sig signature for htlc" else check_htlc_sigs key l
  end.

Definition handle_peer_commit_sig (msg : wire_msg) : run unit :=
  p ← get_peer;
  '(c, b, changed) ← or_abort (channel_rcvd_commit (peer_channel p));
  put peer_channel c;;
  if negb b then peer_failed "commit_sig with no changes"
  else
  (if side_eqb (funder c) REMOTE then asserting (can_funder_afford_feerate c (channel_feerate c LOCAL)) else mret ());;
  match msg with
  | Commitment_signed _ commit_sig htlc_sigs =>
      let index := at_side (next_index p) LOCAL in
      txs ← or_abort (channel_txs uninit c (next_local_per_commit p) index LOCAL);
      match derive_simple_key (htlc_bp (at_side (channel_basepoints c) REMOTE)) (next_local_per_commit p) with
      | None => status_failed "Deriving remote_htlckey"
      | Some remote_htlckey =>
          '(txs, wscripts, _) ← or_abort txs;
          tx ← or_abort (head txs);
          wscript ← or_abort (head wscripts);
          ok ← or_abort (check_tx_sig tx 0 None (Some wscript) (at_side (funding_pubkey c) REMOTE) commit_sig);
          if negb ok then peer_failed "Bad commit_sig signature"
          else if negb (length htlc_sigs =? length txs - 1)%nat then peer_failed "Expected another number of htlc sigs"
          else
          check_htlc_sigs remote_htlckey (zip (tail (zip txs wscripts)) htlc_sigs);;
          report ← or_abort (got_commitsig_msg changed);
          send (ToMaster (Got_commitsig index (channel_feerate c LOCAL) (CommitSigs commit_sig htlc_sigs) report tx));;
          send_revocation
      end
  | _ => peer_failed "Bad commit_sig"
  end.

Definition handle_peer_revoke_and_ack (msg : wire_msg) : run unit :=
  p ← get_peer;
  match msg with
  | Revoke_and_ack _ old_commit_secret next_per_commit =>
      if negb (revocations_received p =? u64 (at_side (next_index p) REMOTE - 2))
      then peer_failed "Unexpected revoke_and_ack"
      else match pubkey_from_privkey old_commit_secret with
      | None => peer_failed "Bad privkey"
      | Some per_commit_point =>
          if negb (bool_decide (per_commit_point = old_remote_per_commit p)) then peer_failed "Wrong privkey"
          else
          '(c, _, changed) ← or_abort (channel_rcvd_revoke_and_ack (peer_channel p));
          put peer_channel c;;
          put revocations_received (u64 (revocations_received p + 1));;
          send (ToMaster (Got_revoke (revocations_received p) old_commit_secret next_per_commit
                  (channel_feerate c LOCAL) (changed_htlc_arr changed)));;
          put old_remote_per_commit (remote_per_commit p);;
          put remote_per_commit next_per_commit;;
          start_commit_timer
      end
  | _ => peer_failed "Bad revoke_and_ack"
  end.

(** ** Updates from the peer *)

(** Writes through the pointer to an HTLC that a call returned. *)
Definition update_htlc (c : channel) (owner : side) (i : Z) (f : htlc -> htlc) : option channel :=
  l ← htlcs c;
  '(n, h) ← htlc_get l i owner;
  Some (set_htlcs (<[n := f h]> l) c).

Definition set_shared_secret (s : bytes) (h : htlc) : htlc :=
  Htlc (state h) (id h) (msatoshi h) (expiry h) (rhash h) (r h) (Some s) (routing h) (fail h) (failcode h)
    (failed_scid h).

Definition handle_peer_add_htlc (msg : wire_msg) : run unit :=
  p ← get_peer;
  match msg with
  | Update_add_htlc _ id amount_msat payment_hash cltv_expiry onion =>
      '(c, add_err) ← or_abort (channel_add_htlc (peer_channel p) REMOTE id amount_msat cltv_expiry payment_hash onion);
      put peer_channel c;;
      if negb (bool_decide (add_err = CHANNEL_ERR_ADD_OK)) then peer_failed "Bad peer_add_htlc"
      else
        c ← or_abort (update_htlc c REMOTE id (fun h => set_shared_secret (get_shared_secret (routing h)) h));
        put peer_channel c
  | _ => peer_failed "Bad peer_add_htlc"
  end.

Definition handle_peer_feechange (msg : wire_msg) : run unit :=
  p ← get_peer;
  match msg with
  | Update_fee _ feerate =>
      if negb (side_eqb (funder (peer_channel p)) REMOTE) then peer_failed "update_fee from non-funder?"
      else if (feerate <? feerate_min p) || (feerate_max p <? feerate) then peer_failed "update_fee outside range"
      else
        let '(c, ok) := channel_update_feerate (peer_channel p) feerate in
        put peer_channel c;;
        if negb ok then peer_failed "update_fee unaffordable" else mret ()
  | _ => peer_failed "Bad update_fee"
  end.

Definition handle_peer_fulfill_htlc (msg : wire_msg) : run unit :=
  p ← get_peer;
  match msg with
  | Update_fulfill_htlc _ id preimage =>
      '(c, e) ← or_abort (channel_fulfill_htlc (peer_channel p) LOCAL id preimage);
      put peer_channel c;;
      if bool_decide (e = CHANNEL_ERR_REMOVE_OK) then start_commit_timer
      else peer_failed "Bad update_fulfill_htlc: failed to fulfill"
  | _ => peer_failed "Bad update_fulfill_htlc"
  end.

(** The peer removes one of our HTLCs, for this reason. *)
Definition peer_fails_htlc (id : Z) (reason : bytes) (why : string) : run unit :=
  p ← get_peer;
  '(c, e) ← or_abort (channel_fail_htlc (peer_channel p) LOCAL id);
  put peer_channel c;;
  if bool_decide (e = CHANNEL_ERR_REMOVE_OK) then
    c ← or_abort (update_htlc c LOCAL id (fun h => set_failure (Some reason) (failcode h) (failed_scid h) h));
    put peer_channel c;;
    start_commit_timer
  else peer_failed why.

Definition handle_peer_fail_htlc (msg : wire_msg) : run unit :=
  match msg with
  | Update_fail_htlc _ id reason => peer_fails_htlc id reason "Bad update_fail_htlc: failed to remove"
  | _ => peer_failed "Bad update_fail_htlc"
  end.

Definition handle_peer_fail_malformed_htlc (msg : wire_msg) : run unit :=
  match msg with
  | Update_fail_malformed_htlc _ id sha256_of_onion failure_code =>
      if Z.land failure_code BADONION =? 0 then peer_failed "Bad update_fail_malformed_htlc failure code"
      else peer_fails_htlc id (be_bytes 2 failure_code ++ sha256_of_onion)
             "Bad update_fail_malformed_htlc: failed to remove"
  | _ => peer_failed "Bad update_fail_malformed_htlc"
  end.

Definition handle_peer_shutdown (msg : wire_msg) : run unit :=
  send_channel_update true;;
  match msg with
  | Shutdown _ scriptpubkey =>
      send (ToMaster (Got_shutdown scriptpubkey));;
      p ← get_peer;
      put shutdown_sent (set_side REMOTE true (shutdown_sent p));;
      if negb (at_side (shutdown_sent p) LOCAL) then put send_shutdown true;; start_commit_timer else mret ()
  | _ => peer_failed "Bad shutdown"
  end.

(** ** Messages from the peer (peer_in; common/read_peer_msg.c, wire/peer_wire.c) *)
Definition is_msg_for_gossipd (m : wire_msg) : bool :=
  match wire_type_of m with
  | WIRE_CHANNEL_ANNOUNCEMENT | WIRE_NODE_ANNOUNCEMENT | WIRE_CHANNEL_UPDATE | WIRE_QUERY_SHORT_CHANNEL_IDS
  | WIRE_REPLY_SHORT_CHANNEL_IDS_END | WIRE_QUERY_CHANNEL_RANGE | WIRE_REPLY_CHANNEL_RANGE
  | WIRE_GOSSIP_TIMESTAMP_FILTER | WIRE_PING | WIRE_PONG => true
  | _ => false
  end.

Definition channel_id_is_all (chan : bytes) : bool := forallb (fun b => b =? 0) chan.

(** [None]: not an error; [Some b]: one, which is about this channel if [b]. An error that
    does not parse leaves its channel id unwritten. *)
Definition is_peer_error (m : wire_msg) (chan : bytes) : option bool :=
  if bool_decide (wire_type_of m = WIRE_ERROR) then
    let err_chanid := match m with Error_msg c _ => c | _ => uninit_id end in
    Some (channel_id_is_all err_chanid || bool_decide (err_chanid = chan))
  else None.

Definition extract_channel_id (m : wire_msg) : option bytes :=
  match m with
  | Channel_reestablish chan _ _ _ => Some chan
  | Open_channel chan => Some chan
  | _ => None
  end.

Definition is_wrong_channel (m : wire_msg) (expected : bytes) : option bytes :=
  match extract_channel_id m with
  | None => None
  | Some actual => if bool_decide (expected = actual) then None else Some actual
  end.

(** "Multiple channels unsupported" *)
Definition multiple_channels : bytes :=
  [77; 117; 108; 116; 105; 112; 108; 101; 32; 99; 104; 97; 110; 110; 101; 108; 115; 32;
   117; 110; 115; 117; 112; 112; 111; 114; 116; 101; 100].

Definition handle_peer_gossip_or_error (m : wire_msg) : run bool :=
  p ← get_peer;
  if is_msg_for_gossipd m then send (ToGossip (Peer_gossip m));; mret true
  else match is_peer_error m (channel_id p) with
  | Some true => fun _ => PeerErrored []
  | Some false => mret true
  | None =>
      match is_wrong_channel m (channel_id p) with
      | Some actual => send (ToPeer (Error_msg actual multiple_channels));; mret true
      | None => mret false
      end
  end.

(** Messages that may come before [funding_locked]. *)
Definition allowed_early (t : wire_type) : bool :=
  match t with
  | WIRE_FUNDING_LOCKED | WIRE_PONG | WIRE_SHUTDOWN | WIRE_UPDATE_FEE | WIRE_ANNOUNCEMENT_SIGNATURES => true
  | _ => false
  end.

Definition peer_in (msg : wire_msg) : run unit :=
  put last_recv now;;
  p ← get_peer;
  let type := wire_type_of msg in
  if bool_decide (type = WIRE_PONG) && expecting_pong p then put expecting_pong false
  else
  handled ← handle_peer_gossip_or_error msg;
  if handled : bool then mret ()
  else if negb (at_side (funding_locked p) REMOTE) && negb (allowed_early type)
  then peer_failed "before funding locked"
  else match type with
  | WIRE_FUNDING_LOCKED => handle_peer_funding_locked msg
  | WIRE_ANNOUNCEMENT_SIGNATURES => handle_peer_announcement_signatures msg
  | WIRE_UPDATE_ADD_HTLC => handle_peer_add_htlc msg
  | WIRE_COMMITMENT_SIGNED => handle_peer_commit_sig msg
  | WIRE_UPDATE_FEE => handle_peer_feechange msg
  | WIRE_REVOKE_AND_ACK => handle_peer_revoke_and_ack msg
  | WIRE_UPDATE_FULFILL_HTLC => handle_peer_fulfill_htlc msg
  | WIRE_UPDATE_FAIL_HTLC => handle_peer_fail_htlc msg
  | WIRE_UPDATE_FAIL_MALFORMED_HTLC => handle_peer_fail_malformed_htlc msg
  | WIRE_SHUTDOWN => handle_peer_shutdown msg
  | WIRE_INIT | WIRE_OPEN_CHANNEL | WIRE_ACCEPT_CHANNEL | WIRE_FUNDING_CREATED | WIRE_FUNDING_SIGNED
  | WIRE_CHANNEL_REESTABLISH | WIRE_CLOSING_SIGNED => peer_failed "Peer sent unknown message"
  | _ => aborts
  end.

(** ** Requests of the master *)

(** How an HTLC of theirs was resolved, on the wire. *)
Definition send_fail_or_fulfill (h : htlc) : run unit :=
  p ← get_peer;
  if negb (Z.land (failcode h) BADONION =? 0) then
    send (ToPeer (Update_fail_malformed_htlc (channel_id p) (id h) (sha256 (routing h)) (failcode h)))
  else if negb (failcode h =? 0) || bool_decide (is_Some (fail h)) then
    onion ← (if negb (failcode h =? 0) then
               match make_failmsg h with
               | Some failmsg => secret ← or_abort (shared_secret h); mret (create_onionreply secret failmsg)
               | None => status_failed "Asked to create failmsg"
               end
             else or_abort (fail h));
    secret ← or_abort (shared_secret h);
    send (ToPeer (Update_fail_htlc (channel_id p) (id h) (wrap_onionreply secret onion)))
  else match r h with
  | Some preimage => send (ToPeer (Update_fulfill_htlc (channel_id p) (id h) preimage))
  | None => peer_failed "HTLC not failed/fulfilled"
  end.

Definition handle_funding_locked (scid depth : Z) : run unit :=
  p ← get_peer;
  put short_channel_ids (set_side LOCAL scid (short_channel_ids p));;
  if at_side (shutdown_sent p) LOCAL then mret ()
  else
    (if negb (at_side (funding_locked p) LOCAL) then
       send (ToPeer (Funding_locked (channel_id p) (next_local_per_commit p)));;
       put funding_locked (set_side LOCAL true (funding_locked p))
     else mret ());;
    put announce_depth_reached (ANNOUNCE_MIN_DEPTH <=? depth);;
    channel_announcement_negotiate.

Definition offer_failed (failure : offer_failure) : run unit :=
  send (ToMaster (Offer_htlc_reply 0 (Some failure))).

Definition handle_offer_htlc (amount_msat cltv_expiry : Z) (payment_hash onion : bytes) : run unit :=
  p ← get_peer;
  if negb (at_side (funding_locked p) LOCAL) || negb (at_side (funding_locked p) REMOTE)
  then status_failed "funding not locked for offer_htlc"
  else
  '(c, e) ← or_abort (channel_add_htlc (peer_channel p) LOCAL (htlc_id p) amount_msat cltv_expiry payment_hash onion);
  put peer_channel c;;
  match e with
  | CHANNEL_ERR_ADD_OK =>
      send (ToPeer (Update_add_htlc (channel_id p) (htlc_id p) amount_msat payment_hash cltv_expiry onion));;
      start_commit_timer;;
      send (ToMaster (Offer_htlc_reply (htlc_id p) None));;
      put htlc_id (u64 (htlc_id p + 1))
  | CHANNEL_ERR_INVALID_EXPIRY => offer_failed WIRE_INCORRECT_CLTV_EXPIRY
  | CHANNEL_ERR_DUPLICATE | CHANNEL_ERR_DUPLICATE_ID_DIFFERENT => status_failed "Duplicate HTLC"
  | CHANNEL_ERR_MAX_HTLC_VALUE_EXCEEDED => offer_failed WIRE_TEMPORARY_CHANNEL_FAILURE
  | CHANNEL_ERR_CHANNEL_CAPACITY_EXCEEDED => offer_failed WIRE_TEMPORARY_CHANNEL_FAILURE
  | CHANNEL_ERR_HTLC_BELOW_MINIMUM => offer_failed WIRE_AMOUNT_BELOW_MINIMUM
  | CHANNEL_ERR_TOO_MANY_HTLCS => offer_failed WIRE_TEMPORARY_CHANNEL_FAILURE
  end.

Definition handle_feerates (feerate min max : Z) : run unit :=
  p ← get_peer;
  put feerate_min min;; put feerate_max max;;
  if side_eqb (funder (peer_channel p)) LOCAL then put desired_feerate feerate;; start_commit_timer else mret ().

(** The HTLC that a call returned a pointer to. *)
Definition the_htlc (c : channel) (owner : side) (i : Z) : option htlc :=
  l ← htlcs c; '(_, h) ← htlc_get l i owner; Some h.

Definition handle_preimage (f : fulfilled_htlc) : run unit :=
  p ← get_peer;
  '(c, e) ← or_abort (channel_fulfill_htlc (peer_channel p) REMOTE (f_id f) (payment_preimage f));
  put peer_channel c;;
  if bool_decide (e = CHANNEL_ERR_REMOVE_OK) then
    h ← or_abort (the_htlc c REMOTE (f_id f));
    send_fail_or_fulfill h;;
    start_commit_timer
  else status_failed "preimage failed".

Definition handle_fail (f : failed_htlc) : run unit :=
  p ← get_peer;
  '(c, e) ← or_abort (channel_fail_htlc (peer_channel p) REMOTE (x_id f));
  put peer_channel c;;
  if bool_decide (e = CHANNEL_ERR_REMOVE_OK) then
    c ← or_abort (update_htlc c REMOTE (x_id f) (set_failure (failreason f) (x_failcode f) (x_scid f)));
    put peer_channel c;;
    h ← or_abort (the_htlc c REMOTE (x_id f));
    send_fail_or_fulfill h;;
    start_commit_timer
  else status_failed "HTLC removal failed".

Definition handle_shutdown_cmd : run unit := put send_shutdown true;; start_commit_timer.

Definition req_in (m : master_req) : run unit :=
  match m with
  | Master_funding_locked scid depth => handle_funding_locked scid depth
  | Master_offer_htlc amount cltv hash onion => handle_offer_htlc amount cltv hash onion
  | Master_feerates feerate min max => handle_feerates feerate min max
  | Master_fulfill_htlc f => handle_preimage f
  | Master_fail_htlc f => handle_fail f
  | Master_send_shutdown => handle_shutdown_cmd
  end.

(** ** Reconnecting *)
Definition resend_revoke : run unit :=
  p ← get_peer;
  '(msg, _) ← make_revocation_msg (u64 (at_side (next_index p) LOCAL - 2));
  send (ToPeer msg).

(** The updates that the last commitment we sent was for. *)
Fixpoint resend_updates (last : list changed_htlc) : run unit :=
  match last with
  | [] => mret ()
  | ch :: last =>
      p ← get_peer;
      h ← or_abort (channel_get_htlc (peer_channel p) (htlc_state_owner (newstate ch)) (ch_id ch));
      match h with
      | None => peer_failed "Can't find HTLC to resend"
      | Some (_, h) =>
          (if htlc_state_eqb (state h) SENT_ADD_COMMIT then
             cltv ← or_abort (abs_locktime_to_blocks (expiry h));
             send (ToPeer (Update_add_htlc (channel_id p) (id h) (msatoshi h) (rhash h) cltv (routing h)))
           else if htlc_state_eqb (state h) SENT_REMOVE_COMMIT then send_fail_or_fulfill h
           else mret ());;
          resend_updates last
      end
  end.

Definition resend_commitment (last : list changed_htlc) : run unit :=
  resend_updates last;;
  p ← get_peer;
  (if side_eqb (funder (peer_channel p)) LOCAL
   then send (ToPeer (Update_fee (channel_id p) (channel_feerate (peer_channel p) REMOTE))) else mret ());;
  sigs ← calc_commitsigs (u64 (at_side (next_index p) REMOTE - 1));
  send (ToPeer (Commitment_signed (channel_id p) (commit_sig sigs) (htlc_sigs sigs))).

(** It does not return. *)
Definition check_future_dataloss_fields {A} (next_remote_revocation_number : Z) (dataloss : option (bytes * pubkey))
    : run A :=
  p ← get_peer;
  asserting (u64 (at_side (next_index p) LOCAL - 1) <? next_remote_revocation_number);;
  match dataloss with
  | None => peer_failed "bad reestablish revocation_number"
  | Some (last_local_per_commit_secret, remote_current_per_commitment_point) =>
      correct ← hsm_req (handle_check_future_secret channel_seed (u64 (next_remote_revocation_number - 1))
                           last_local_per_commit_secret);
      if negb correct then peer_failed "bad future last_local_per_commit_secret"
      else
        send (ToMaster (Fail_fallen_behind (Some remote_current_per_commitment_point)));;
        peer_failed "Awaiting unilateral close"
  end.

Definition check_current_dataloss_fields (next_remote_revocation_number : Z) (dataloss : option (bytes * pubkey))
    : run unit :=
  p ← get_peer;
  asserting ((next_remote_revocation_number =? u64 (at_side (next_index p) LOCAL - 2))
             || (next_remote_revocation_number =? u64 (at_side (next_index p) LOCAL - 1)));;
  match dataloss with
  | None => mret ()
  | Some (last_local_per_commit_secret, _) =>
      old_commit_secret ←
        (if next_remote_revocation_number =? 0 then mret (replicate 32 0)
         else '(_, s) ← get_per_commitment_point (u64 (next_remote_revocation_number + 1)); old_secret_of s);
      if bool_decide (old_commit_secret = last_local_per_commit_secret) then mret ()
      else peer_failed "bad reestablish: your_last_per_commitment_secret"
  end.

(** Must the last revocation be sent again? *)
Definition retransmit_revoke (next_remote_revocation_number : Z) (dataloss : option (bytes * pubkey)) : run bool :=
  p ← get_peer;
  let next := at_side (next_index p) LOCAL in
  if next_remote_revocation_number =? u64 (next - 2) then
    if next <? 2 then peer_failed "bad reestablish revocation_number" else mret true
  else if next_remote_revocation_number <? u64 (next - 1) then peer_failed "bad reestablish revocation_number"
  else if u64 (next - 1) <? next_remote_revocation_number
  then check_future_dataloss_fields next_remote_revocation_number dataloss
  else mret false.

(** Must the last commitment be sent again? *)
Definition retransmit_commitment (next_local_commitment_number : Z) : run bool :=
  p ← get_peer;
  let next := at_side (next_index p) REMOTE in
  if next_local_commitment_number =? u64 (next - 1) then
    if next_local_commitment_number =? 0 then peer_failed "bad reestablish commitment_number" else mret true
  else if negb (next_local_commitment_number =? next) then peer_failed "bad reestablish commitment_number"
  else mret false.

(** The HTLCs we are removing are failed or fulfilled again. *)
Fixpoint resend_removals (l : list htlc) : run unit :=
  match l with
  | [] => mret ()
  | h :: l =>
      (if htlc_state_eqb (state h) SENT_REMOVE_HTLC then send_fail_or_fulfill h else mret ());;
      resend_removals l
  end.

(** Messages are read until one is neither gossip nor an error, or there are no more. *)
Fixpoint read_reply (msgs : list wire_msg) : run wire_msg :=
  match msgs with
  | [] => fun _ => PeerErrored []
  | m :: msgs =>
      handled ← handle_peer_gossip_or_error m;
      if handled : bool then read_reply msgs else mret m
  end.

Definition peer_reconnect (last_remote_per_commit_secret : bytes) (msgs : list wire_msg) : run unit :=
  p ← get_peer;
  '(my_current_per_commitment_point, _) ← get_per_commitment_point (u64 (at_side (next_index p) LOCAL - 1));
  send (ToPeer (Channel_reestablish (channel_id p) (at_side (next_index p) LOCAL) (revocations_received p)
          (Some (last_remote_per_commit_secret, my_current_per_commitment_point))));;
  msg ← read_reply msgs;
  match msg with
  | Channel_reestablish _ next_local_commitment_number next_remote_revocation_number dataloss =>
      (if at_side (funding_locked p) LOCAL && (at_side (next_index p) LOCAL =? 1) && (next_local_commitment_number =? 1)
       then send (ToPeer (Funding_locked (channel_id p) (next_local_per_commit p))) else mret ());;
      retransmit_revoke_and_ack ← retransmit_revoke next_remote_revocation_number dataloss;
      retransmit_commitment_signed ← retransmit_commitment next_local_commitment_number;
      check_current_dataloss_fields next_remote_revocation_number dataloss;;
      (if retransmit_revoke_and_ack && negb (last_was_revoke p) then resend_revoke else mret ());;
      (if retransmit_commitment_signed : bool then resend_commitment (last_sent_commit p) else mret ());;
      (if retransmit_revoke_and_ack && last_was_revoke p then resend_revoke else mret ());;
      maybe_send_shutdown;;
      start_commit_timer;;
      l ← or_abort (htlcs (peer_channel p));
      resend_removals l;;
      (if side_eqb (funder (peer_channel p)) LOCAL
       then put peer_channel (set_pending LOCAL true (peer_channel p)) else mret ())
  | _ => peer_failed "bad reestablish msg"
  end.

(** ** Starting *)

(** The last two bytes are combined with the output's number. *)
Definition derive_channel_id (txid : bytes) (txout : Z) : bytes :=
  alter (fun b => Z.lxor b (u8 txout)) 31%nat (alter (fun b => Z.lxor b (u8 (Z.shiftr txout 8))) 30%nat txid).

Fixpoint init_shared_secrets (c : channel) (l : list (added_htlc * htlc_state)) : option channel :=
  match l with
  | [] => Some c
  | (a, st) :: l =>
      c ← (if side_eqb (htlc_state_owner st) REMOTE
           then update_htlc c REMOTE (a_id a) (fun h => set_shared_secret (get_shared_secret (routing h)) h)
           else Some c);
      init_shared_secrets c l
  end.

(** The message that starts the process; HTLCs come with their states. *)
Record channel_init := ChannelInit {
  i_chain_hash : bytes; i_funding_txid : bytes; i_funding_txout : Z; i_funding_satoshi : Z;
  i_conf : sided channel_config; i_feerate_per_kw : sided Z; i_feerate_min : Z; i_feerate_max : Z;
  i_funding_pubkey : sided pubkey; i_points : sided basepoints; i_remote_per_commit : pubkey;
  i_old_remote_per_commit : pubkey; i_funder : side; i_fee_base : Z; i_fee_per_satoshi : Z;
  i_local_msatoshi : Z; i_node_ids : sided pubkey; i_cltv_delta : Z; i_last_was_revoke : bool;
  i_last_sent_commit : list changed_htlc; i_next_index : sided Z; i_revocations_received : Z; i_htlc_id : Z;
  i_htlcs : list added_htlc; i_hstates : list htlc_state; i_fulfilled : list fulfilled_htlc;
  i_fulfilled_sides : list side; i_failed : list failed_htlc; i_failed_sides : list side;
  i_funding_locked : sided bool; i_short_channel_id : Z; i_reconnected : bool; i_send_shutdown : bool;
  i_remote_shutdown_sent : bool; i_final_scriptpubkey : bytes; i_funding_signed : option wire_msg;
  i_announce_depth_reached : bool; i_last_remote_per_commit_secret : bytes
}.

(** (The rate we want is only set, and only used, by the funder.) *)
Definition init_peer (m : channel_init) (next_local_per_commit : pubkey) (c : channel) : peer :=
  Peer (i_funding_locked m) (i_next_index m) (i_feerate_min m) (i_feerate_max m) next_local_per_commit
    (i_remote_per_commit m) (i_old_remote_per_commit m) (i_htlc_id m)
    (derive_channel_id (i_funding_txid m) (i_funding_txout m)) c false 0 false (at_side (i_feerate_per_kw m) REMOTE)
    (i_node_ids m) (Sided (i_short_channel_id m) 0) (Sided None None) (Sided None None) (Sided false false)
    (i_cltv_delta m) (i_fee_base m) (i_fee_per_satoshi m) (i_final_scriptpubkey m) (i_send_shutdown m)
    (Sided false (i_remote_shutdown_sent m)) (i_last_was_revoke m) (i_last_sent_commit m)
    (i_revocations_received m) (i_announce_depth_reached m) false now.

(** The channel, with the HTLCs restored. *)
Definition init_restore (m : channel_init) : option (option channel) :=
  c ← new_full_channel (i_chain_hash m) (i_funding_txid m) (i_funding_txout m) (i_funding_satoshi m)
        (i_local_msatoshi m) (i_feerate_per_kw m) (at_side (i_conf m) LOCAL) (at_side (i_conf m) REMOTE)
        (at_side (i_points m) LOCAL) (at_side (i_points m) REMOTE)
        (at_side (i_funding_pubkey m) LOCAL) (at_side (i_funding_pubkey m) REMOTE) (i_funder m);
  '(c, ok) ← channel_force_htlcs c (i_htlcs m) (i_hstates m) (i_fulfilled m) (i_fulfilled_sides m)
               (i_failed m) (i_failed_sides m);
  if negb ok then Some None
  else c ← init_shared_secrets c (zip (i_htlcs m) (i_hstates m)); Some (Some c).

Definition init_channel (m : channel_init) (msgs : list wire_msg) : outcome unit :=
  if negb (0 <? at_side (i_next_index m) LOCAL) || negb (0 <? at_side (i_next_index m) REMOTE) then Aborts
  else match handle_get_per_commitment_point channel_seed (at_side (i_next_index m) LOCAL) with
  | Some (Some (point, _)) =>
      match init_restore m with
      | None => Aborts
      | Some None => StatusFailed "Could not restore HTLCs"
      | Some (Some c) =>
          ((if i_reconnected m then peer_reconnect (i_last_remote_per_commit_secret m) msgs else mret ());;
           match i_funding_signed m with Some s => send (ToPeer s) | None => mret () end;;
           channel_announcement_negotiate) (init_peer m point c)
      end
  | _ => StatusFailed "HSM"
  end.

(** ** The loop of [main] *)
Inductive event := Peer_msg (m : wire_msg) | Master_msg (m : master_req) | Timer_expires.

Definition handle_event (e : event) : run unit :=
  match e with
  | Peer_msg m => peer_in m
  | Master_msg m => req_in m
  | Timer_expires => p ← get_peer; if commit_timer p then send_commit else mret ()
  end.

Definition main_step (e : event) : run unit :=
  p ← get_peer;
  complete ← or_abort (shutdown_complete p);
  if complete : bool then send (ToMaster Shutdown_complete) else handle_event e.
End Handlers.
