(* ===== verification/ChanneldSpec.v ===== *)
(** * What the handlers of the channel process do

    Each handler of [Channeld], as the operations of [Duplex] that it makes on the shared
    state: the messages it sends are those operations, for the other end to repeat. *)
From stdpp Require Import gmap strings.
From S2P Require Import Prelude HtlcState Sha256 Secp Ecdsa BitcoinTx LnScript SigCheck KeyDerive Hsm Params Htlc.
From S2P Require Import CommitTx Channel Ledger ChannelInv ChannelTxs Mirror Faces Duplex Link Channeld.
Local Open Scope Z_scope.

(** ** Reasoning about runs *)
Section Wp.
Context `{Secp256k1} `{!Signatures}.

(** If [m] returns, then with [Q]; if it fails the channel, the reason satisfies [F]; and
    the peer did not fail it. *)
Definition wp {A} (m : run A) (p : peer) (Q : A -> peer -> list output -> Prop) (F : string -> Prop) : Prop :=
  match m p with Done a p out => Q a p out | PeerFailed why _ => F why | PeerErrored _ => False | _ => True end.

Lemma wp_ret {A} (a : A) p Q F : wp (mret a) p Q F <-> Q a p [].
Proof. done. Qed.

Lemma wp_bind {A B} (m : run A) (f : A -> run B) p Q F :
  wp (m ≫= f) p Q F <-> wp m p (fun a p1 o1 => wp (f a) p1 (fun b p2 o2 => Q b p2 (o1 ++ o2)) F) F.
Proof. unfold wp, mbind, run_bind. destruct (m p) as [a p1 o1| | | |]; try done. by destruct (f a p1). Qed.

Lemma wp_get p Q F : wp get_peer p Q F <-> Q p p [].
Proof. done. Qed.

Lemma wp_set f p Q F : wp (set_peer f) p Q F <-> Q () (f p) [].
Proof. done. Qed.

Lemma wp_send o p Q F : wp (send o) p Q F <-> Q () p [o].
Proof. done. Qed.

Lemma wp_peer_failed {A} why p Q (F : string -> Prop) : wp (peer_failed (A := A) why) p Q F <-> F why.
Proof. done. Qed.

Lemma wp_status_failed {A} why p Q F : wp (status_failed (A := A) why) p Q F <-> True.
Proof. done. Qed.

Lemma wp_or_abort {A} (o : option A) p Q F : wp (or_abort o) p Q F <-> (forall a, o = Some a -> Q a p []).
Proof. destruct o; cbn; split; try done; [by intros ? ? [= <-]|by intros E; apply E]. Qed.

Lemma wp_asserting b p Q F : wp (asserting b) p Q F <-> (b = true -> Q () p []).
Proof. destruct b; cbn; split; try done; by intros E; apply E. Qed.

Lemma wp_hsm {A} (o : option (option A)) p Q F : wp (hsm_req o) p Q F <-> (forall a, o = Some (Some a) -> Q a p []).
Proof. destruct o as [[a|]|]; cbn; split; try done; [by intros ? ? [= <-]|by intros E; apply E]. Qed.

Lemma wp_mono {A} (m : run A) p (Q Q' : A -> peer -> list output -> Prop) (F F' : string -> Prop) :
  wp m p Q F -> (forall a p' out, Q a p' out -> Q' a p' out) -> (forall why, F why -> F' why) -> wp m p Q' F'.
Proof. unfold wp. destruct (m p); auto. Qed.
End Wp.

Ltac wp_rules :=
  repeat first
    [ rewrite wp_bind | rewrite wp_ret | rewrite wp_get | rewrite wp_set | rewrite wp_send | rewrite wp_peer_failed
    | rewrite wp_status_failed | rewrite wp_or_abort | rewrite wp_asserting | rewrite wp_hsm ].

(** ** Messages as operations *)
Section Messages.
Context `{Secp256k1} `{!Signatures}.

Definition to_peer (out : list output) : list wire_msg :=
  omap (fun o => match o with ToPeer m => Some m | _ => None end) out.

Definition op_of (m : wire_msg) : option op :=
  match m with
  | Update_add_htlc _ i msat hash cltv _ => Some (OAdd i msat cltv hash)
  | Update_fulfill_htlc _ i preimage => Some (ORemove i (Some preimage))
  | Update_fail_htlc _ i _ | Update_fail_malformed_htlc _ i _ _ => Some (ORemove i None)
  | Update_fee _ rate => Some (OFee rate)
  | Commitment_signed _ _ _ => Some OCommit
  | Revoke_and_ack _ _ _ => Some ORevoke
  | _ => None
  end.

Definition ops (msgs : list wire_msg) : list op := omap op_of msgs.

Lemma to_peer_app a b : to_peer (a ++ b) = to_peer a ++ to_peer b.
Proof. apply omap_app. Qed.

Lemma to_peer_cons o out : to_peer (o :: out) = match o with ToPeer m => m :: to_peer out | _ => to_peer out end.
Proof. by destruct o. Qed.

Lemma ops_app a b : ops (a ++ b) = ops a ++ ops b.
Proof. apply omap_app. Qed.

(** Messages an honest node sends on channel [chan]. *)
Definition sane (chan : bytes) (m : wire_msg) : Prop :=
  match m with
  | Raw t => t = WIRE_PING
  | Announcement_signatures c _ _ _ => c = chan
  | Update_fail_malformed_htlc _ _ _ code => Z.land code BADONION <> 0
  | Update_add_htlc _ _ msat _ _ _ => 0 <= msat
  | Open_channel _ | Channel_reestablish _ _ _ _ | Closing_signed _ _ _ | Error_msg _ _ => False
  | _ => True
  end.

(** The part of the state that the protocol depends on. *)
Record core := Core {
  k_index : sided Z;
  k_next_local : pubkey;
  k_remote : pubkey;
  k_old_remote : pubkey;
  k_received : Z;
  k_locked : sided bool;
  k_chan : bytes
}.

Definition core_of (p : peer) : core :=
  Core (next_index p) (next_local_per_commit p) (remote_per_commit p) (old_remote_per_commit p)
    (revocations_received p) (funding_locked p) (channel_id p).

(** Environments disagree. *)
Definition excused (why : string) : Prop :=
  why = "We disagree on short_channel_ids"%string \/ why = "update_fee outside range"%string.

(** A computation that makes no operation. *)
Definition quiet {A} (m : run A) : Prop := forall p, wp m p
  (fun _ p' out => peer_channel p' = peer_channel p /\ core_of p' = core_of p /\ ops (to_peer out) = [] /\
                   Forall (sane (channel_id p)) (to_peer out)) excused.

Lemma quiet_ret {A} (a : A) : quiet (mret a).
Proof. intros p. rewrite wp_ret. by repeat split. Qed.

Lemma quiet_bind {A B} (m : run A) (f : A -> run B) : quiet m -> (forall a, quiet (f a)) -> quiet (m ≫= f).
Proof.
  intros Qm Qf p. rewrite wp_bind. eapply wp_mono; [apply Qm| |done]. intros a p1 o1 (C1 & E1 & O1 & S1).
  eapply wp_mono; [apply Qf| |done]. intros b p2 o2 (C2 & E2 & O2 & S2).
  rewrite C2, E2, to_peer_app, ops_app, O1, O2. split; [done|]. split; [done|]. split; [done|].
  apply Forall_app. split; [done|]. by assert (channel_id p1 = channel_id p) as <- by (exact (f_equal k_chan E1)).
Qed.

Lemma wp_quiet {A} (m : run A) p (Q : A -> peer -> list output -> Prop) (F : string -> Prop) :
  quiet m -> (forall why, excused why -> F why) ->
  (forall a p' out, peer_channel p' = peer_channel p -> core_of p' = core_of p -> ops (to_peer out) = [] ->
     Forall (sane (channel_id p)) (to_peer out) -> Q a p' out) -> wp m p Q F.
Proof. intros Qm HF HQ. eapply wp_mono; [apply Qm| |done]. intros a p' out (? & ? & ? & ?). by apply HQ. Qed.

(** Reading the state and going on. *)
Lemma quiet_get {B} (f : peer -> run B) : (forall p, wp (f p) p
    (fun _ p' out => peer_channel p' = peer_channel p /\ core_of p' = core_of p /\ ops (to_peer out) = [] /\
                     Forall (sane (channel_id p)) (to_peer out)) excused) -> quiet (get_peer ≫= f).
Proof. intros Q p. rewrite wp_bind, wp_get. apply Q. Qed.
End Messages.

(** ** The quiet parts *)
Section Quiet.
Context `{Secp256k1} `{!Signatures} `{!Onions}.
Context (channel_seed node_privkey : bytes) (now : Z).

Lemma quiet_send_channel_update b : quiet (send_channel_update b).
Proof. unfold send_channel_update. apply quiet_get. intros p. case_match; wp_rules; repeat intro; by repeat split. Qed.

Lemma quiet_maybe_send_ping : quiet (maybe_send_ping now).
Proof.
  unfold maybe_send_ping. apply quiet_get. intros p. case_match; [by repeat split|]. case_match; [by repeat split|].
  wp_rules. repeat split. by repeat constructor.
Qed.

Lemma quiet_start_commit_timer : quiet (start_commit_timer now).
Proof.
  unfold start_commit_timer. apply quiet_bind; [apply quiet_maybe_send_ping|]. intros _. apply quiet_get. intros p.
  case_match; wp_rules; by repeat split.
Qed.

Lemma quiet_maybe_send_shutdown : quiet maybe_send_shutdown.
Proof.
  unfold maybe_send_shutdown. apply quiet_get. intros p. case_match; [by repeat split|].
  rewrite wp_bind. eapply wp_mono; [apply quiet_send_channel_update| |done]. intros _ p1 o1 (C & E & O & S).
  wp_rules. rewrite to_peer_app, ops_app, O. cbn. rewrite <- C, <- E. split; [done|]. split; [done|]. split; [done|].
  apply Forall_app. split; [done|]. by repeat constructor.
Qed.

Lemma quiet_announcement_signatures : quiet (send_announcement_signatures channel_seed node_privkey).
Proof.
  unfold send_announcement_signatures. apply quiet_get. intros p. wp_rules. intros [ns bs] _. wp_rules.
  case_match; [done|]. case_match; [done|]. wp_rules. repeat split. by repeat constructor.
Qed.

Lemma quiet_announce_channel : quiet announce_channel.
Proof.
  unfold announce_channel. apply quiet_bind.
  - unfold check_short_ids_match. apply quiet_get. intros p. wp_rules. intros _ _. case_match; wp_rules; [by repeat split|].
    by left.
  - intros _. apply quiet_get. intros p. rewrite wp_bind, wp_send.
    eapply wp_mono; [apply quiet_send_channel_update| |done]. intros _ p1 o1 (C & E & O & S). done.
Qed.

Lemma quiet_negotiate : quiet (channel_announcement_negotiate channel_seed node_privkey).
Proof.
  unfold channel_announcement_negotiate. intros p0. rewrite wp_bind, wp_get. revert p0.
  assert (forall p0 : peer, quiet (if at_side (shutdown_sent p0) LOCAL then mret () else
    if negb (at_side (funding_locked p0) LOCAL) || negb (at_side (funding_locked p0) REMOTE) then mret () else
    (if negb (channel_local_active p0) then put channel_local_active true;; make_channel_local_active else mret ());;
    (if announce_depth_reached p0 && negb (at_side (have_sigs p0) LOCAL)
     then send_announcement_signatures channel_seed node_privkey;; put have_sigs (set_side LOCAL true (have_sigs p0)) else mret ());;
    p ← get_peer;
    if at_side (have_sigs p) LOCAL && at_side (have_sigs p) REMOTE then announce_channel else mret ())) as Q;
    [|intros p0; exact (Q p0 p0)].
  intros p0. case_match; [apply quiet_ret|]. case_match; [apply quiet_ret|].
  apply quiet_bind; [case_match; [|apply quiet_ret]|intros _; apply quiet_bind; [case_match; [|apply quiet_ret]|]].
  - apply quiet_bind; [intros p; wp_rules; by repeat split|]. intros _. unfold make_channel_local_active.
    apply quiet_get. intros p. rewrite wp_bind, wp_send.
    eapply wp_mono; [apply quiet_send_channel_update| |done]. intros _ p1 o1 (C & E & O & S). done.
  - apply quiet_bind; [apply quiet_announcement_signatures|]. intros _ p. wp_rules. by repeat split.
  - intros _. apply quiet_get. intros p. case_match; [apply quiet_announce_channel|]. by repeat split.
Qed.
End Quiet.

(** ** The end of a channel that one node keeps *)
Section Copy.
Context `{Secp256k1} `{!Signatures} `{HtlcTable} (T : terms).

(** What operations never change. *)
Definition statics (c : channel) :=
  (funding_txid c, funding_txout c, funding_pubkey c, funding_msat c, funder c, config c, channel_basepoints c,
   commitment_number_obscurer c, channel_params c).

(** An HTLC has one result, a preimage or a failure. *)
Definition resolved (h : htlc) : Prop :=
  (is_Some (r h) /\ fail h = None) \/ (r h = None /\ is_Some (fail h)).

(** The expiry is a height; an HTLC that nobody has proposed to remove has no result yet,
    one that the peer has just proposed to remove has one; and one that the peer has just
    added has its secret. *)
Record tidy (h : htlc) : Prop := {
  td_expiry : expiry h < SECONDS_POINT;
  td_early : (htlc_state_num (state h) mod 10 < 5)%nat -> r h = None /\ fail h = None /\ failcode h = 0;
  td_removed : state h = RCVD_REMOVE_HTLC -> resolved h;
  td_added : state h = RCVD_ADD_HTLC -> is_Some (shared_secret h)
}.

(** The node keeps its copy of [X]. *)
Record copy (v : side) (p : peer) (l : list htlc) (X : duplex) : Prop := {
  cp_linked : linked T v (peer_channel p) l X;
  cp_tidy : Forall tidy l;
  cp_funding : exists fs, funding_msat (peer_channel p) = fs * 1000;
  cp_locked : funding_locked p = Sided true true
}.

(** The signatures of a commitment of the other side, number [n] at [point]. *)
Definition signed (c : channel) (point : pubkey) (n : Z) (sig : signature) (sigs : list signature) : Prop :=
  exists uninit keys tx txs wscript wscripts htlcmap key,
    keys_of c point REMOTE = Some keys /\ can_commit c REMOTE /\
    channel_txs uninit c point n REMOTE = Some (Some (tx :: txs, wscript :: wscripts, htlcmap)) /\
    check_tx_sig tx 0 None (Some wscript) (at_side (funding_pubkey c) LOCAL) sig = Some true /\
    derive_simple_key (htlc_bp (at_side (channel_basepoints c) LOCAL)) point = Some key /\
    length wscripts = length txs /\ length sigs = length txs /\
    Forall (fun x => check_tx_sig x.1.1 0 None (Some x.1.2) key x.2 = Some true) (zip (zip txs wscripts) sigs).

Definition commits (msgs : list wire_msg) : list (signature * list signature) :=
  omap (fun m => match m with Commitment_signed _ s ss => Some (s, ss) | _ => None end) msgs.

Definition is_update (o : op) : Prop := match o with OAdd _ _ _ _ | ORemove _ _ => True | _ => False end.

(** The messages of a step of its own that a node may send: an update, or a commitment
    with perhaps a change of the fee rate before it. *)
Inductive acts (v : side) (p : peer) (X : duplex) (p' : peer) (X' : duplex) (msgs : list wire_msg) : Prop :=
  | acts_updates : Forall is_update (ops msgs) -> leads T v (ops msgs) X X' -> core_of p' = core_of p ->
      commits msgs = [] -> acts v p X p' X' msgs
  | acts_commits fees sig sigs : ops msgs = fees ++ [OCommit] -> (fees = [] \/ exists rate, fees = [OFee rate]) ->
      leads T v (ops msgs) X X' ->
      k_received (core_of p) = u64 (at_side (next_index p) REMOTE - 1) ->
      core_of p' = Core (set_side REMOTE (u64 (at_side (next_index p) REMOTE + 1)) (next_index p))
        (next_local_per_commit p) (remote_per_commit p) (old_remote_per_commit p) (revocations_received p)
        (funding_locked p) (channel_id p) ->
      commits msgs = [(sig, sigs)] ->
      signed (peer_channel p') (remote_per_commit p) (at_side (next_index p) REMOTE) sig sigs ->
      acts v p X p' X' msgs.

(** The whole of such a step. *)
Definition steps (v : side) (p : peer) (X : duplex) (p' : peer) (msgs : list wire_msg) : Prop :=
  exists l' X', acts v p X p' X' msgs /\ copy v p' l' X' /\ statics (peer_channel p') = statics (peer_channel p) /\
    Forall (sane (channel_id p)) msgs.

Lemma copy_core v p p' l X : copy v p l X -> peer_channel p' = peer_channel p -> core_of p' = core_of p -> copy v p' l X.
Proof.
  intros [L R F K] E C. constructor; [by rewrite E|done|by rewrite E|]. pose proof (f_equal k_locked C) as K'. cbn in K'. by rewrite K'.
Qed.

(** A quiet step. *)
Lemma steps_quiet v p l X p' msgs : copy v p l X -> peer_channel p' = peer_channel p -> core_of p' = core_of p ->
  ops msgs = [] -> commits msgs = [] -> Forall (sane (channel_id p)) msgs -> steps v p X p' msgs.
Proof.
  intros C E K O Cm S. exists l, X. split; [|split; [by eapply copy_core|split; [by rewrite E|done]]].
  apply acts_updates; rewrite ?O; done.
Qed.

Lemma commits_ops msgs : ops msgs = [] -> commits msgs = [].
Proof.
  induction msgs as [|m msgs IH]; [done|]. unfold ops, commits in *. csimpl. destruct m; cbn; done.
Qed.

(** ** What operations keep *)
Lemma statics_change c s states c' fl ch : change_htlcs c s states = Some (c', fl, ch) -> statics c' = statics c.
Proof.
  unfold change_htlcs. destruct (htlcs c); [|done]. cbn [mbind option_bind].
  destruct (change_list s states (view c) l) as [[[[]]]|]; [|done]. cbn. by intros [= <- _ _].
Qed.

Lemma statics_commit c s states c' b ch : commit_side c s states = Some (c', b, ch) -> statics c' = statics c.
Proof.
  unfold commit_side. destruct (change_htlcs c s states) as [[[c1 fl] ch1]|] eqn:E; [|by case_match].
  apply statics_change in E. case_match; cbn; [destruct (fl =? 0); cbn|]; by intros [= <- <- <-].
Qed.

Lemma statics_revoke c s states c' b ch : revoke_side c s states = Some (c', b, ch) -> statics c' = statics c.
Proof.
  unfold revoke_side. destruct (change_htlcs c s states) as [[[c1 fl] ch1]|] eqn:E; [|done].
  apply statics_change in E. cbn [mbind option_bind]. cbv zeta. intros [= <- _ _]. rewrite <- E. by repeat case_match.
Qed.

Lemma statics_remove c o i x c' e : remove_htlc c o i x = Some (c', e) -> statics c' = statics c.
Proof.
  destruct x; unfold remove_htlc, channel_fulfill_htlc, channel_fail_htlc; (destruct (htlcs c); [|done]); cbn [mbind option_bind];
    repeat case_match; by intros [= <- <-].
Qed.

Lemma statics_add v c l X s i msat cltv ph rt c' e : linked T v c l X -> 0 <= msat ->
  channel_add_htlc c s i msat cltv ph rt = Some (c', e) -> statics c' = statics c.
Proof.
  intros L Hm E. unfold channel_add_htlc in E. set (st := match s with LOCAL => _ | REMOTE => _ end) in E.
  destruct (add_htlc_spec _ c l st i msat cltv ph rt true (lk_inv _ _ _ _ _ L) Hm) as (c2 & e2 & E2 & P).
  rewrite E in E2. injection E2 as <- <-. destruct P as [[_ ->]|(_ & -> & _)]; [done|].
  unfold mark_pending. by repeat case_match.
Qed.

Lemma statics_fee c rate c' ok : channel_update_feerate c rate = (c', ok) -> statics c' = statics c.
Proof. unfold channel_update_feerate. case_match; by intros [= <- _]. Qed.

Lemma tidy_advance states s h : legal s states -> tidy h -> tidy (advance states h).
Proof.
  intros Lg Td. unfold advance in *. destruct (in_states states (state h)) eqn:E; [|done]. destruct Td as [Ex N Rm Ad].
  destruct Lg, s; destruct h as [[]]; try discriminate E; constructor; cbn in *; intros; try done;
    (apply N; cbn; lia) || (exfalso; match goal with B : (_ < _)%nat |- _ => vm_compute in B; lia end).
Qed.

Lemma tidy_advances states s l : legal s states -> Forall tidy l -> Forall tidy (advance states <$> l).
Proof. intros Lg F. apply Forall_fmap. eapply Forall_impl; [exact F|]. intros h. by apply (tidy_advance states s). Qed.

Lemma tidy_new i msat cltv ph rt : cltv < SECONDS_POINT -> tidy (new_htlc LOCAL i msat cltv ph rt).
Proof. by constructor. Qed.

Lemma removed_late st st' : remove_state st = Some st' -> (5 <= htlc_state_num st' mod 10)%nat.
Proof. intros E. destruct st; try discriminate E; injection E as <-; vm_compute; lia. Qed.

Lemma tidy_late st h : remove_state st = Some (state h) -> expiry h < SECONDS_POINT ->
  (state h = RCVD_REMOVE_HTLC -> resolved h) -> tidy h.
Proof.
  intros E Ex R. constructor; [done| |done|].
  - intros B. pose proof (removed_late _ _ E). lia.
  - intros Ea. rewrite Ea in E. by destruct st.
Qed.

Lemma copy_can_commit v p l X s : copy v p l X -> can_commit (peer_channel p) s.
Proof.
  intros [L R [fs F] _]. eapply inv_can_commit; [apply L|exact F|]. eapply Forall_impl; [exact R|]. by intros h [].
Qed.

Lemma funding_statics c c' : statics c' = statics c -> funding_msat c' = funding_msat c.
Proof. intros E. by injection E. Qed.

Lemma get_at (l : list htlc) n h i s : (n < length l)%nat -> key h = (i, s) -> NoDup (key <$> <[n := h]> l) ->
  htlc_get (<[n := h]> l) i s = Some (n, h).
Proof.
  intros Hn Hk Nd. assert (<[n := h]> l !! n = Some h) as Hl by by apply list_lookup_insert_eq.
  destruct (htlc_get (<[n := h]> l) i s) as [[m g]|] eqn:Eg.
  - apply htlc_get_Some in Eg as [Hm Hg]. assert (m = n) as ->; [|congruence].
    apply (NoDup_lookup _ _ _ (i, s) Nd); rewrite list_lookup_fmap; [rewrite Hm|rewrite Hl]; cbn; congruence.
  - by destruct (htlc_get_None _ _ _ Eg h); [eapply list_elem_of_lookup_2|].
Qed.

Lemma set_htlcs_same c k : htlcs c = Some k -> set_htlcs k c = c.
Proof. intros E. unfold set_htlcs. rewrite <- E. by destruct c. Qed.

End Copy.
