(* ===== verification/ChanneldLocal.v ===== *)
(** * What a node does by itself

    Requests of the master and the commit timer: the messages a node sends are operations
    of [Duplex] that it is allowed to make, and every commitment it sends carries valid
    signatures. *)
From stdpp Require Import gmap strings.
From S2P Require Import Prelude HtlcState Sha256 Secp Ecdsa BitcoinTx LnScript SigCheck KeyDerive Hsm Params Htlc.
From S2P Require Import CommitTx Channel Ledger ChannelInv ChannelTxs Mirror Faces Duplex Link Channeld ChanneldSpec.
Local Open Scope Z_scope.

(** ** The signatures of a commitment *)
Section Signing.
Context `{Secp256k1Laws} `{!Signatures} `{!SignatureLaws}.
Context (channel_seed : bytes) (uninit : Z * Z).

(** The channel was opened with the keys of this seed. *)
Definition holds_keys (c : channel) : Prop :=
  handle_get_channel_basepoints channel_seed
  = Some (Some (at_side (channel_basepoints c) LOCAL, at_side (funding_pubkey c) LOCAL)).

Lemma keys_statics c c' : statics c' = statics c -> holds_keys c -> holds_keys c'.
Proof using Type. unfold holds_keys, statics. intros E ->. injection E as _ _ -> _ _ _ -> _ _. done. Qed.

Lemma redeem_2of2_sym k1 k2 : bitcoin_redeem_2of2 k1 k2 = bitcoin_redeem_2of2 k2 k1.
Proof using Type*.
  unfold bitcoin_redeem_2of2. assert (pubkey_cmp k2 k1 = CompOpp (pubkey_cmp k1 k2)) as -> by apply memcmp_antisym.
  destruct (pubkey_cmp k1 k2) eqn:E; try done. by apply pubkey_cmp_eq in E as ->.
Qed.

Lemma set_amount0_same amount tx : one_input tx -> input_amount tx = Some amount -> set_amount0 amount tx = tx.
Proof using Type.
  intros (i & Ei & Es). unfold input_amount, set_amount0. rewrite Ei. cbn. intros Ea.
  destruct tx as [ver ins outs lock]. cbn in *. subst ins. unfold set_input. cbn. do 2 f_equal.
  destruct i. cbn in *. by rewrite Ea.
Qed.

Lemma spec_sign_htlcs p key l p0 F : wp (sign_htlcs channel_seed p key l) p0
  (fun sigs p' out => p' = p0 /\ out = [] /\ length sigs = length l /\
     Forall (fun x => check_tx_sig x.1.1 0 None (Some x.1.2) key x.2 = Some true) (zip l sigs)) F.
Proof using Type.
  induction l as [|[tx wscript] l IH]; cbn [sign_htlcs]; [by rewrite wp_ret|].
  rewrite wp_bind, wp_or_abort. intros amount _. rewrite wp_bind, wp_hsm. intros sig _.
  rewrite wp_bind, wp_or_abort. intros ok Eok. rewrite wp_bind, wp_asserting. intros ->.
  rewrite wp_bind. eapply wp_mono; [exact IH| |done]. intros sigs p' out (-> & -> & Ln & Fa). rewrite wp_ret.
  split; [done|]. split; [done|]. split; [cbn; by rewrite Ln|]. cbn [zip zip_with]. by constructor.
Qed.

Lemma spec_calc_commitsigs n p F : can_commit (peer_channel p) REMOTE -> holds_keys (peer_channel p) ->
  wp (calc_commitsigs channel_seed uninit n) p (fun s p' out => p' = p /\ out = [] /\
    signed (peer_channel p) (remote_per_commit p) n (commit_sig s) (htlc_sigs s)) F.
Proof using Type*.
  intros CC HK. unfold calc_commitsigs. rewrite wp_bind, wp_get. set (c := peer_channel p) in *.
  rewrite wp_bind, wp_or_abort. intros txs Et. rewrite wp_bind, wp_or_abort. intros [[txs' wscripts] htlcmap] ->.
  destruct (keys_of c (remote_per_commit p) REMOTE) as [keys|] eqn:Ek;
    [|exfalso; unfold channel_txs in Et; fold (keys_of c (remote_per_commit p) REMOTE) in Et; rewrite Ek in Et; congruence].
  destruct (channel_txs_spec uninit c _ n REMOTE keys CC Ek) as (sorted & _ & _ & Et'). rewrite Et in Et'.
  injection Et' as -> -> ->. set (tx := commit_tx_of _ _ _ _ _) in *. set (spends := htlc_spends _ _ _ _ _ _) in *.
  set (wscript := bitcoin_redeem_2of2 _ _) in *. rewrite wp_bind, wp_or_abort. cbn [head]. intros tx' [= <-].
  assert (one_input tx) as O by (eexists; split; reflexivity).
  rewrite wp_bind, wp_or_abort. intros amount Ea. rewrite wp_bind, wp_hsm. intros sig Es.
  destruct (funding_signs channel_seed _ _ HK tx O amount (at_side (funding_pubkey c) REMOTE)) as (sig' & Es' & Ck).
  assert (sig' = sig) as -> by (unfold handle_sign_remote_commitment_tx in Es; congruence).
  unfold checks in Ck. rewrite (set_amount0_same _ _ O Ea), redeem_2of2_sym in Ck.
  destruct (derive_simple_key _ _) as [key|] eqn:Ed; [|by rewrite wp_status_failed].
  rewrite wp_bind. eapply wp_mono; [apply spec_sign_htlcs| |done]. intros sigs p' out (-> & -> & Ln & Fa).
  rewrite wp_ret. split; [done|]. split; [done|]. cbn [zip zip_with tail] in Ln, Fa. fold (zip spends.*1 spends.*2) in Ln, Fa.
  rewrite length_zip_with_l_eq in Ln by by rewrite !length_fmap.
  exists uninit, keys, tx, spends.*1, wscript, spends.*2, sorted.*2, key.
  split; [done|]. split; [done|]. split; [done|]. split; [exact Ck|]. split; [done|].
  split; [by rewrite !length_fmap|]. split; [done|exact Fa].
Qed.
End Signing.

(** ** A node's own steps *)
Section Local.
Context `{Secp256k1} `{!Signatures} `{HtlcTable} `{!Onions} (T : terms).
Context (channel_seed node_privkey : bytes) (now : Z) (uninit : Z * Z).
Context (v : side) (p : peer) (l : list htlc) (X : duplex) (C : copy T v p l X).

Abbreviation goal := (fun (_ : unit) p' out => steps T v p X p' (to_peer out)).
Abbreviation whatever := (fun _ : string => True).

(** The step of one update, followed by something quiet. *)
Lemma steps_update o m l' p' p1 msgs : op_of m = Some o -> is_update o -> enabled T v o X ->
  linked T v (peer_channel p1) l' (apply_op T v o X) -> Forall tidy l' ->
  statics (peer_channel p1) = statics (peer_channel p) -> sane (channel_id p) m ->
  peer_channel p' = peer_channel p1 -> core_of p' = core_of p -> ops msgs = [] -> Forall (sane (channel_id p)) msgs ->
  steps T v p X p' (m :: msgs).
Proof using C.
  intros Em Eu En L R S Sm E1 E2 O Ss. exists l', (apply_op T v o X). split; [|split; [|split]].
  - assert (ops (m :: msgs) = [o]) as Eo by (unfold ops in *; csimpl; by rewrite Em, O).
    apply acts_updates; rewrite ?Eo; [by repeat constructor|by split|done|].
    unfold commits. csimpl. clear - Em Eu O. destruct m; simplify_eq/=; first [done | by apply commits_ops].
  - constructor; [by rewrite E1|done|rewrite E1, (funding_statics _ _ S); apply C|]. pose proof (f_equal k_locked E2) as K. cbn in K. rewrite K. apply C.
  - by rewrite E1.
  - by constructor.
Qed.

Lemma spec_offer_htlc amount cltv hash onion : 0 <= amount ->
  wp (handle_offer_htlc now amount cltv hash onion) p goal whatever.
Proof using C.
  intros Hm. unfold handle_offer_htlc. rewrite wp_bind, wp_get. rewrite (cp_locked _ _ _ _ _ C). cbn [at_side on_local on_remote negb orb].
  rewrite wp_bind, wp_or_abort. intros [c e] E. rewrite wp_bind, wp_set.
  pose proof (statics_add T v _ l X _ _ _ _ _ _ _ _ (cp_linked _ _ _ _ _ C) Hm E) as St.
  destruct (link_add T v (peer_channel p) l X v (htlc_id p) amount cltv hash onion (cp_linked _ _ _ _ _ C) Hm)
    as (c' & e' & E' & En & Lk). rewrite pov_own in E', Lk. rewrite E in E'. injection E' as <- <-.
  assert (e <> CHANNEL_ERR_ADD_OK -> c = peer_channel p) as Same.
  { intros Ne. destruct (add_preserves _ _ l LOCAL (htlc_id p) amount cltv hash onion (lk_inv _ _ _ _ _ (cp_linked _ _ _ _ _ C)) Hm)
      as (c2 & e2 & E2 & [[_ ->]|(? & _)]); rewrite E in E2; by simplify_eq. }
  assert (forall f, wp (offer_failed f) (set_field (f := peer_channel) c p)
    (fun b p2 o2 => steps T v p X p2 (to_peer ([] ++ [] ++ [] ++ o2))) whatever \/ e = CHANNEL_ERR_ADD_OK) as Failed.
  { intros f. destruct (decide (e = CHANNEL_ERR_ADD_OK)) as [|Ne]; [by right|left]. unfold offer_failed. rewrite wp_send.
    apply (steps_quiet T v p l X); try done. cbn. by apply Same. }
  destruct e; try (destruct (Failed WIRE_INCORRECT_CLTV_EXPIRY) as [W|]; [exact W|done]);
    try (destruct (Failed WIRE_TEMPORARY_CHANNEL_FAILURE) as [W|]; [exact W|done]);
    try (destruct (Failed WIRE_AMOUNT_BELOW_MINIMUM) as [W|]; [exact W|done]); try by rewrite wp_status_failed.
  specialize (Lk eq_refl). apply proj1 in En. specialize (En eq_refl).
  rewrite wp_bind, wp_send, wp_bind. apply wp_quiet; [apply quiet_start_commit_timer|done|].
  intros _ p1 o1 E1 K1 O1 S1. rewrite wp_bind, wp_send, wp_set. cbn [app].
  rewrite to_peer_cons, to_peer_app, to_peer_cons, app_nil_r.
  eapply (steps_update (OAdd (htlc_id p) amount cltv hash)
    (Update_add_htlc (channel_id p) (htlc_id p) amount hash cltv onion) _ _ (set_field (f := peer_channel) c p));
    try done.
  rewrite htlc_map_add_perm. constructor; [apply tidy_new, En|apply C].
Qed.

(** What the master is told of an HTLC that was not added. *)
Definition refusal (e : channel_add_err) : option offer_failure :=
  match e with
  | CHANNEL_ERR_INVALID_EXPIRY => Some WIRE_INCORRECT_CLTV_EXPIRY
  | CHANNEL_ERR_HTLC_BELOW_MINIMUM => Some WIRE_AMOUNT_BELOW_MINIMUM
  | CHANNEL_ERR_MAX_HTLC_VALUE_EXCEEDED | CHANNEL_ERR_CHANNEL_CAPACITY_EXCEEDED | CHANNEL_ERR_TOO_MANY_HTLCS =>
      Some WIRE_TEMPORARY_CHANNEL_FAILURE
  | CHANNEL_ERR_ADD_OK | CHANNEL_ERR_DUPLICATE | CHANNEL_ERR_DUPLICATE_ID_DIFFERENT => None
  end.

Lemma offer_outcome amount cltv hash onion : 0 <= amount ->
  exists c e, channel_add_htlc (peer_channel p) LOCAL (htlc_id p) amount cltv hash onion = Some (c, e) /\
  match refusal e with
  | Some f => handle_offer_htlc now amount cltv hash onion p = Done () p [ToMaster (Offer_htlc_reply 0 (Some f))]
  | None => e = CHANNEL_ERR_ADD_OK \/ handle_offer_htlc now amount cltv hash onion p = StatusFailed "Duplicate HTLC"
  end.
Proof using C.
  intros Hm. destruct (add_preserves _ _ l LOCAL (htlc_id p) amount cltv hash onion (lk_inv _ _ _ _ _ (cp_linked _ _ _ _ _ C)) Hm)
    as (c & e & E & D). exists c, e. split; [done|].
  assert (e <> CHANNEL_ERR_ADD_OK -> set_field (f := peer_channel) c p = p) as Same.
  { intros Ne. destruct D as [[_ ->]|[? _]]; [by destruct p|done]. }
  unfold handle_offer_htlc, mbind, run_bind, get_peer, or_abort. rewrite (cp_locked _ _ _ _ _ C), E.
  destruct e; cbn; first [by left | by right | by rewrite Same].
Qed.

Lemma spec_quiet (m : run unit) : quiet m -> wp m p goal whatever.
Proof using C.
  intros Q. apply wp_quiet; [done|done|]. intros _ p' out E K O S. apply (steps_quiet T v p l X); try done.
  by apply commits_ops.
Qed.

Lemma quiet_feerates feerate min max : quiet (handle_feerates now feerate min max).
Proof using Type.
  unfold handle_feerates. apply quiet_get. intros p0. rewrite wp_bind, wp_set, wp_bind, wp_set. case_match.
  - rewrite wp_bind, wp_set. apply wp_quiet; [apply quiet_start_commit_timer|done|]. intros _ p1 o1 E1 K1 O1 S1.
    cbn [app]. by rewrite E1, K1.
  - rewrite wp_ret. done.
Qed.

Lemma quiet_shutdown_cmd : quiet (handle_shutdown_cmd now).
Proof using Type.
  unfold handle_shutdown_cmd. apply quiet_bind; [intros p0; rewrite wp_set; done|]. intros _. apply quiet_start_commit_timer.
Qed.

Lemma spec_funding_locked scid depth : wp (handle_funding_locked channel_seed node_privkey scid depth) p goal whatever.
Proof using C.
  unfold handle_funding_locked. rewrite wp_bind, wp_get, wp_bind, wp_set.
  destruct (at_side (shutdown_sent p) LOCAL).
  { rewrite wp_ret. by apply (steps_quiet T v p l X). }
  rewrite (cp_locked _ _ _ _ _ C). cbn [at_side on_local negb]. rewrite wp_bind, wp_ret, wp_bind, wp_set.
  apply wp_quiet; [apply quiet_negotiate|done|]. intros _ p1 o1 E1 K1 O1 S1. cbn [app].
  apply (steps_quiet T v p l X); try done. by apply commits_ops.
Qed.

(** A removal: the message that is sent, and then the timer. *)
Lemma spec_remove i x c n h st h' m : remove_htlc (peer_channel p) REMOTE i x = Some (c, CHANNEL_ERR_REMOVE_OK) ->
  htlc_get l i REMOTE = Some (n, h) -> remove_state (state h) = Some st ->
  bare h' = bare (removed_htlc st x h) -> tidy h' ->
  op_of m = Some (ORemove i x) -> sane (channel_id p) m ->
  forall p', core_of p' = core_of p -> peer_channel p' = set_htlcs (<[n := h']> l) c ->
  wp (send (ToPeer m);; start_commit_timer now) p' goal whatever.
Proof using C.
  intros E Eg Es Eb Nr Em Sm p' K E'.
  destruct (link_remove T v (peer_channel p) l X v i x (cp_linked _ _ _ _ _ C)) as (c' & e & Er & En & Lk).
  pose proof (pov_them v) as Ev. rewrite Ev in Er, Lk. rewrite E in Er. injection Er as <- <-.
  destruct (Lk eq_refl) as (n' & h0 & st' & Eg' & Es' & L'). rewrite Eg in Eg'. injection Eg' as <- <-.
  rewrite Es in Es'. injection Es' as <-. apply proj1 in En. specialize (En eq_refl).
  destruct (htlc_get_Some _ _ _ _ _ Eg) as [Hn _].
  assert (<[n := removed_htlc st x h]> l !! n = Some (removed_htlc st x h)) as Hn'
    by (apply list_lookup_insert_eq; by eapply lookup_lt_Some).
  pose proof (linked_private T v c _ _ n _ h' L' Hn' Eb) as L2. rewrite list_insert_insert_eq in L2.
  rewrite wp_bind, wp_send. apply wp_quiet; [apply quiet_start_commit_timer|done|]. intros _ p1 o1 E1 K1 O1 S1.
  cbn [app]. rewrite to_peer_cons. apply (steps_update (ORemove i x) m (<[n := h']> l) _ p'); try done; rewrite ?E'.
  - exact L2.
  - apply Forall_insert; [apply C|done].
  - exact (statics_remove _ _ _ _ _ _ E).
  - by rewrite K1.
  - by assert (channel_id p' = channel_id p) as <- by exact (f_equal k_chan K).
Qed.

(** The HTLC a removal found, and what it is afterwards. *)
Lemma remove_found i x c : remove_htlc (peer_channel p) REMOTE i x = Some (c, CHANNEL_ERR_REMOVE_OK) ->
  exists n h st, htlc_get l i REMOTE = Some (n, h) /\ remove_state (state h) = Some st /\ st = SENT_REMOVE_HTLC /\
    id h = i /\ expiry h < SECONDS_POINT /\
    r h = None /\ fail h = None /\ failcode h = 0 /\
    let h' := removed_htlc st x h in
    htlcs c = Some (<[n := h']> l) /\ htlc_get (<[n := h']> l) i REMOTE = Some (n, h').
Proof using C.
  intros E. destruct (link_remove T v (peer_channel p) l X v i x (cp_linked _ _ _ _ _ C)) as (c' & e & Er & _ & Lk).
  pose proof (pov_them v) as Ev. rewrite Ev in Er, Lk. rewrite E in Er. injection Er as <- <-.
  destruct (Lk eq_refl) as (n & h & st & Eg & Es & L'). exists n, h, st. destruct (htlc_get_Some _ _ _ _ _ Eg) as [Hn Hk].
  assert (tidy h) as [Ex Nr _ _] by exact (Forall_lookup_1 _ _ _ _ (cp_tidy _ _ _ _ _ C) Hn).
  destruct Nr as (Hr & Hf & Hc); [clear - Es; destruct h as [[]]; try discriminate Es; vm_compute; lia|].
  assert (key (removed_htlc st x h) = (i, REMOTE)) as Hk'.
  { rewrite <- Hk. clear - Es. destruct h as [[]], x; try discriminate Es; by injection Es as <-. }
  split; [done|]. split; [done|].
  split; [clear - Es Hk; destruct h as [[]]; try discriminate Es; try discriminate Hk; by injection Es|].
  split; [by injection Hk|]. split; [done|]. split; [done|]. split; [done|]. split; [done|].
  split; [apply L'|]. apply get_at; [by eapply lookup_lt_Some|done|apply L'].
Qed.

Lemma spec_preimage f : wp (handle_preimage now f) p goal whatever.
Proof using C.
  unfold handle_preimage. rewrite wp_bind, wp_get, wp_bind, wp_or_abort. intros [c e] E. rewrite wp_bind, wp_set.
  case_bool_decide as Ee; [subst e|by rewrite wp_status_failed].
  change (channel_fulfill_htlc (peer_channel p) REMOTE (f_id f) (payment_preimage f))
    with (remove_htlc (peer_channel p) REMOTE (f_id f) (Some (payment_preimage f))) in E.
  destruct (remove_found _ _ _ E) as (n & h & st & Eg & Es & Est & Hi & Ex & Hr & Hf & Hc & El & Eg').
  set (h' := removed_htlc st (Some (payment_preimage f)) h) in *.
  rewrite wp_bind, wp_or_abort. intros h2. unfold the_htlc. rewrite El. cbn [mbind option_bind]. rewrite Eg'. intros [= <-].
  rewrite wp_bind. unfold send_fail_or_fulfill. rewrite wp_bind, wp_get.
  cbn [h' removed_htlc set_state set_r failcode fail r id]. rewrite Hc, Hf, Hi.
  change (negb (Z.land 0 BADONION =? 0)) with false. change (negb (0 =? 0)) with false. cbn [orb].
  rewrite bool_decide_eq_false_2 by by intros []. set (p1 := set_field c p).
  pose proof (spec_remove (f_id f) (Some (payment_preimage f)) c n h st h'
    (Update_fulfill_htlc (channel_id p) (f_id f) (payment_preimage f)) E Eg Es eq_refl (tidy_late (state h) h' Es Ex ltac:(by intros Ea; cbn in Ea; rewrite Est in Ea)) eq_refl I
    p1 eq_refl (eq_sym (set_htlcs_same _ _ El))) as W.
  rewrite wp_bind in W. exact W.
Qed.

Lemma spec_fail f : wp (handle_fail now f) p goal whatever.
Proof using C.
  unfold handle_fail. rewrite wp_bind, wp_get, wp_bind, wp_or_abort. intros [c e] E. rewrite wp_bind, wp_set.
  case_bool_decide as Ee; [subst e|by rewrite wp_status_failed].
  change (channel_fail_htlc (peer_channel p) REMOTE (x_id f)) with (remove_htlc (peer_channel p) REMOTE (x_id f) None) in E.
  destruct (remove_found _ _ _ E) as (n & h & st & Eg & Es & Est & Hi & Ex & Hr & Hf & Hc & El & Eg').
  set (h1 := removed_htlc st None h) in *. set (h2 := set_failure (failreason f) (x_failcode f) (x_scid f) h1).
  rewrite wp_bind, wp_or_abort. intros c2. unfold update_htlc. rewrite El. cbn [mbind option_bind]. rewrite Eg'. intros [= <-].
  rewrite list_insert_insert_eq. fold h2. rewrite wp_bind, wp_set, wp_bind, wp_or_abort. intros h3.
  assert (htlc_get (<[n := h2]> l) (x_id f) REMOTE = Some (n, h2)) as Eg2.
  { destruct (htlc_get_Some _ _ _ _ _ Eg) as [Hn Hk]. destruct (htlc_get_Some _ _ _ _ _ Eg') as [_ Hk'].
    apply get_at; [by eapply lookup_lt_Some|done|]. rewrite list_fmap_insert.
    change (key h2) with (key h1). rewrite Hk', <- Hk, list_insert_id; [apply (cp_linked _ _ _ _ _ C)|].
    by rewrite list_lookup_fmap, Hn. }
  unfold the_htlc. cbn [set_htlcs htlcs mbind option_bind]. rewrite Eg2. intros [= <-].
  set (p1 := set_field (set_htlcs (<[n := h2]> l) c) _).
  assert (forall m, op_of m = Some (ORemove (x_id f) None) -> sane (channel_id p) m ->
    wp (send (ToPeer m);; start_commit_timer now) p1 goal whatever) as W.
  { intros m Em Sm. apply (spec_remove (x_id f) None c n h st h2); try done.
    exact (tidy_late (state h) h2 Es Ex ltac:(by intros Ea; cbn in Ea; rewrite Est in Ea)). }
  rewrite wp_bind. unfold send_fail_or_fulfill. rewrite wp_bind, wp_get.
  destruct (Z.land (failcode h2) BADONION =? 0) eqn:Eb; cbn [negb].
  - case_match; [|cbn [h2 h1 removed_htlc set_failure set_state r]; by rewrite Hr].
    rewrite wp_bind. apply (wp_mono _ _ (fun _ p' out => p' = p1 /\ out = []) _ whatever); [| |done].
    + repeat case_match; wp_rules; try done; by intros.
    + intros onion p' out [-> ->]. rewrite wp_bind, wp_or_abort. intros secret _. change (id h2) with (id h). rewrite Hi.
      specialize (W (Update_fail_htlc (channel_id p) (x_id f) (wrap_onionreply secret onion)) eq_refl Logic.I).
      rewrite wp_bind in W. exact W.
  - change (id h2) with (id h). rewrite Hi.
    apply Z.eqb_neq in Eb.
    specialize (W (Update_fail_malformed_htlc (channel_id p) (x_id f) (sha256 (routing h2)) (failcode h2)) eq_refl Eb).
    rewrite wp_bind in W. exact W.
Qed.
End Local.

(** ** Committing *)
Section Committing.
Context `{Secp256k1Laws} `{!Signatures} `{!SignatureLaws} `{HtlcTable} `{!Onions} (T : terms).
Context (channel_seed node_privkey : bytes) (now : Z) (uninit : Z * Z).
Context (v : side) (p : peer) (l : list htlc) (X : duplex) (C : copy T v p l X).
Context (HK : holds_keys channel_seed (peer_channel p)).

Abbreviation goal := (fun (_ : unit) p' out => steps T v p X p' (to_peer out)).
Abbreviation whatever := (fun _ : string => True).

(** A new fee rate, if the one wanted is another. *)
Lemma spec_send_feerate : wp send_feerate p (fun _ p1 out => exists fees X1,
    ops (to_peer out) = fees /\ (fees = [] \/ exists rate, fees = [OFee rate]) /\ leads T v fees X X1 /\
    copy T v p1 l X1 /\ statics (peer_channel p1) = statics (peer_channel p) /\ core_of p1 = core_of p /\
    Forall (sane (channel_id p)) (to_peer out) /\ commits (to_peer out) = [] /\
    (fees = [] \/ at_side (waiting X1) (other v) = true)) whatever.
Proof using C.
  unfold send_feerate. rewrite wp_bind, wp_get. cbv zeta. destruct (_ && _) eqn:Ef; cycle 1.
  { rewrite wp_ret. exists [], X. cbn. split; [done|]. split; [by left|]. split; [done|]. split; [exact C|].
    repeat (split; [done|]). by left. }
  apply andb_true_iff in Ef as [Ef%side_eqb_eq _]. set (rate := if _ <? _ then _ else _).
  assert (funder (peer_channel p) = pov v v) as Efv by by rewrite pov_own.
  destruct (link_fee T v _ l X v rate (cp_linked _ _ _ _ _ C) Efv) as (c' & ok & E & En & Lk). rewrite E.
  rewrite wp_bind, wp_set. destruct ok; cbn [negb]; [|by rewrite wp_status_failed].
  apply proj1 in En. specialize (En eq_refl). specialize (Lk eq_refl). rewrite wp_send.
  pose proof (statics_fee _ _ _ _ E) as St.
  exists [OFee rate], (apply_op T v (OFee rate) X). split; [done|]. split; [right; by exists rate|].
  split; [by split|]. split.
  { constructor; [exact Lk|apply C| |apply C]. cbn. rewrite (funding_statics _ _ St). apply C. }
  split; [exact St|]. split; [done|]. split; [by repeat constructor|]. split; [done|]. right. cbn. by destruct v.
Qed.

(** What is sent once the signatures are there. *)
Lemma spec_after_commit p1 : wp (maybe_send_shutdown;; put commit_timer false;; start_commit_timer now) p1
  (fun _ p' out => peer_channel p' = peer_channel p1 /\ core_of p' = core_of p1 /\ ops (to_peer out) = [] /\
                   Forall (sane (channel_id p1)) (to_peer out)) excused.
Proof using Type.
  apply quiet_bind; [apply quiet_maybe_send_shutdown|]. intros _.
  apply quiet_bind; [intros p2; rewrite wp_set; done|]. intros _. apply quiet_start_commit_timer.
Qed.
(** The commitment itself, after the fee. *)
Lemma spec_commit p1 fees msgs X1 : ops msgs = fees -> (fees = [] \/ exists rate, fees = [OFee rate]) ->
  leads T v fees X X1 -> copy T v p1 l X1 -> statics (peer_channel p1) = statics (peer_channel p) ->
  core_of p1 = core_of p -> Forall (sane (channel_id p)) msgs -> commits msgs = [] ->
  at_side (waiting X1) (other v) = true -> revocations_received p = u64 (at_side (next_index p) REMOTE - 1) ->
  forall c ch, channel_sending_commit (peer_channel p1) = Some (c, true, ch) ->
  let index := at_side (next_index p1) REMOTE in
  wp (sigs ← calc_commitsigs channel_seed uninit index;
      send (ToMaster (Sending_commitsig index (channel_feerate c REMOTE) (changed_htlc_arr ch) sigs));;
      put next_index (set_side REMOTE (u64 (index + 1)) (next_index p1));;
      send (ToPeer (Commitment_signed (channel_id p1) (commit_sig sigs) (htlc_sigs sigs)));;
      maybe_send_shutdown;; put commit_timer false;; start_commit_timer now)
    (set_field (f := peer_channel) c p1)
    (fun _ p' out => steps T v p X p' (msgs ++ to_peer out)) whatever.
Proof using Type*.
  intros Eo Hf Ld C1 St1 K1 Sn1 Cm1 W Rr c ch E index.
  destruct (link_commit T v (peer_channel p1) l X1 v (cp_linked _ _ _ _ _ C1)) as (c' & ch' & E' & Lk).
  pose proof (pov_them v) as Ev. cbv zeta in *. rewrite Ev in E', Lk.
  change (channel_sending_commit (peer_channel p1)) with (commit_side (peer_channel p1) REMOTE (commit_states REMOTE)) in E.
  rewrite E in E'. injection E' as <- _ <-. specialize (Lk W). pose proof (statics_commit _ _ _ _ _ _ E) as St.
  set (p2 := set_field (f := peer_channel) c p1). set (X2 := apply_op T v OCommit X1) in *.
  assert (forall q, peer_channel q = c -> funding_locked q = funding_locked p1 -> copy T v q (advance (commit_states REMOTE) <$> l) X2) as C2.
  { intros q Eq Kq. constructor; rewrite ?Eq; [exact Lk|by apply (tidy_advances _ REMOTE), C1; constructor| |rewrite Kq; apply C1].
    rewrite (funding_statics _ _ St). apply C1. }
  assert (core_of p2 = core_of p) as K2 by exact K1.
  rewrite wp_bind. eapply (wp_mono _ _ _ _ whatever); [apply spec_calc_commitsigs| |done].
  { exact (copy_can_commit T v p2 _ X2 REMOTE (C2 p2 eq_refl eq_refl)). }
  { apply (keys_statics channel_seed (peer_channel p)); [|done]. by rewrite <- St1, <- St. }
  intros s p' out (-> & -> & Sg). rewrite wp_bind, wp_send, wp_bind, wp_set, wp_bind, wp_send.
  set (p3 := set_field (f := next_index) _ p2). cbn [app].
  refine (wp_mono _ _ _ _ excused _ (spec_after_commit p3) _ _); [|done]. intros _ p4 o4 (E4 & K4 & O4 & S4).
  rewrite !to_peer_cons. exists (advance (commit_states REMOTE) <$> l), X2.
  set (m := Commitment_signed _ _ _).
  assert (ops (msgs ++ m :: to_peer o4) = fees ++ [OCommit]) as Ops.
  { rewrite ops_app, Eo. f_equal. unfold ops in *. csimpl. by rewrite O4. }
  assert (next_index p1 = next_index p) as En by exact (f_equal k_index K1).
  split; [|split; [|split]].
  - apply (acts_commits T v p X p4 X2 _ fees (commit_sig s) (htlc_sigs s)); [done|done| |done| | |].
    + rewrite Ops. apply leads_app. exists X1. split; [done|]. by split.
    + rewrite K4, <- En. change (core_of p3) with (let k := core_of p1 in Core (set_side REMOTE (u64 (index + 1)) (next_index p1))
        (k_next_local k) (k_remote k) (k_old_remote k) (k_received k) (k_locked k) (k_chan k)). by rewrite K1.
    + unfold commits. rewrite omap_app. fold (commits msgs). rewrite Cm1. cbn. fold (commits (to_peer o4)).
      by rewrite commits_ops.
    + rewrite E4. pose proof (f_equal k_remote K1) as Kr. cbn in Kr. rewrite <- En, <- Kr. exact Sg.
  - apply C2; [done|]. exact (f_equal k_locked K4).
  - rewrite E4. cbn. by rewrite St, St1.
  - apply Forall_app. split; [done|]. constructor; [done|].
    assert (channel_id p3 = channel_id p) as <- by exact (f_equal k_chan K1). done.
Qed.
Lemma spec_send_commit : wp (send_commit channel_seed now uninit) p goal whatever.
Proof using Type*.
  unfold send_commit. rewrite wp_bind, wp_get. destruct (Z.eqb_spec (revocations_received p) (u64 (at_side (next_index p) REMOTE - 1))) as [Rr|Rr];
    cbn [negb]; cycle 1.
  { rewrite wp_bind, wp_asserting. intros _. rewrite wp_bind, wp_set, wp_bind, wp_set.
    apply wp_quiet; [apply quiet_start_commit_timer|done|]. intros _ p1 o1 E1 K1 O1 S1.
    apply (steps_quiet T v p l X); try done. by apply commits_ops. }
  rewrite wp_bind. apply (wp_mono _ _ (fun _ p' out => p' = p /\ out = []) _ whatever); [| |done].
  { case_match; wp_rules; [intros n _; by wp_rules|done]. }
  intros final p' out [-> ->]. destruct final; [rewrite wp_set; by apply (steps_quiet T v p l X)|].
  destruct (peer_recently_active now p); cbn [negb]; cycle 1.
  { rewrite wp_bind, wp_set. apply wp_quiet; [apply quiet_start_commit_timer|done|]. intros _ p1 o1 E1 K1 O1 S1.
    apply (steps_quiet T v p l X); try done. by apply commits_ops. }
  rewrite wp_bind. apply (wp_mono _ _ _ _ _ _ spec_send_feerate); [|done].
  intros _ p1 o1 (fees & X1 & Eo & Hf & Ld & C1 & St1 & K1 & Sn1 & Cm1 & Wt).
  rewrite wp_bind, wp_get, wp_bind, wp_or_abort. intros [[c b] ch] E. rewrite wp_bind, wp_set.
  destruct b; cbn [negb].
  - destruct (link_commit T v (peer_channel p1) l X1 v (cp_linked _ _ _ _ _ C1)) as (c' & ch' & E' & _).
    pose proof (pov_them v) as Ev. cbv zeta in E'. rewrite Ev in E'.
    change (channel_sending_commit (peer_channel p1)) with (commit_side (peer_channel p1) REMOTE (commit_states REMOTE)) in E.
    rewrite E in E'. injection E' as <- W <-.
    eapply wp_mono; [exact (spec_commit p1 fees _ X1 Eo Hf Ld C1 St1 K1 Sn1 Cm1 (eq_sym W) Rr c ch E)| |done].
    intros [] p2 o2 S2. cbn [app]. by rewrite to_peer_app.
  - pose proof (link_commit_idle T v (peer_channel p1) l X1 v c ch (cp_linked _ _ _ _ _ C1)) as Lk.
    pose proof (pov_them v) as Ev. cbv zeta in Lk. rewrite Ev in Lk. specialize (Lk E).
    destruct (link_commit T v (peer_channel p1) l X1 v (cp_linked _ _ _ _ _ C1)) as (c' & ch' & E' & _).
    cbv zeta in E'. rewrite Ev in E'.
    change (channel_sending_commit (peer_channel p1)) with (commit_side (peer_channel p1) REMOTE (commit_states REMOTE)) in E.
    rewrite E in E'. injection E' as <- W <-. destruct Wt as [->|Wt]; [|congruence]. cbn in Ld. subst X1.
    rewrite wp_bind. apply wp_quiet; [apply quiet_maybe_send_shutdown|done|]. intros _ p2 o2 E2 K2 O2 S2. rewrite wp_set.
    cbn [app]. rewrite app_nil_r, to_peer_app. pose proof (statics_commit _ _ _ _ _ _ E) as St.
    exists l, X. split; [|split; [|split]].
    + apply acts_updates; rewrite ?ops_app, ?Eo, ?O2; try done; [|by apply commits_ops; rewrite ops_app, Eo, O2].
      by transitivity (core_of p1).
    + constructor; [cbn; by rewrite E2|apply C| |].
      * cbn. rewrite E2. cbn. rewrite (funding_statics _ _ St). apply C1.
      * pose proof (f_equal k_locked K2) as K. cbn in K |- *. rewrite K. apply C1.
    + cbn. rewrite E2. cbn. by rewrite St, St1.
    + apply Forall_app. split; [done|]. by assert (channel_id p1 = channel_id p) as <- by exact (f_equal k_chan K1).
Qed.
End Committing.

(** ** Every step of its own *)
Section Own.
Context `{Secp256k1Laws} `{!Signatures} `{!SignatureLaws} `{HtlcTable} `{!Onions} (T : terms).
Context (channel_seed node_privkey : bytes) (now : Z) (uninit : Z * Z) (uninit_id : bytes).

Definition own_event (e : event) : Prop :=
  match e with
  | Peer_msg _ => False
  | Master_msg (Master_offer_htlc amount _ _ _) => 0 <= amount
  | _ => True
  end.

Lemma own_step v p l X e : copy T v p l X -> holds_keys channel_seed (peer_channel p) -> own_event e ->
  wp (handle_event channel_seed node_privkey now uninit uninit_id e) p
    (fun _ p' out => steps T v p X p' (to_peer out)) (fun _ => True).
Proof using Type*.
  intros C HK Oe. destruct e as [m|[| | | | |]|]; cbn [own_event handle_event req_in] in *.
  - done.
  - by eapply spec_funding_locked.
  - by eapply spec_offer_htlc.
  - eapply spec_quiet; [exact C|apply quiet_feerates].
  - by eapply spec_preimage.
  - by eapply spec_fail.
  - eapply spec_quiet; [exact C|apply quiet_shutdown_cmd].
  - rewrite wp_bind, wp_get. case_match; [by eapply spec_send_commit|]. rewrite wp_ret. by apply (steps_quiet T v p l X).
Qed.
End Own.
