(* ===== verification/ChanneldRemote.v ===== *)
(** * What a node does with the other end's messages

    A message that is an operation the other end may make is taken, and the node's copy
    follows; a commitment is answered with a revocation. The channel fails only where the
    two nodes were told different things by their masters. *)
From stdpp Require Import gmap strings.
From S2P Require Import Prelude HtlcState Sha256 Secp Ecdsa BitcoinTx LnScript SigCheck Shachain KeyDerive Hsm Params Htlc.
From S2P Require Import CommitTx Channel Ledger ChannelInv ChannelTxs Mirror Faces Duplex Link Channeld ChanneldSpec.
Local Open Scope Z_scope.

(** ** Dispatch *)
Section Dispatch.
Context `{Secp256k1} `{!Signatures} `{HtlcTable} `{!Onions}.
Context (channel_seed node_privkey : bytes) (now : Z) (uninit : Z * Z) (uninit_id : bytes).

Definition op_handler (m : wire_msg) : run unit :=
  match m with
  | Update_add_htlc _ _ _ _ _ _ => handle_peer_add_htlc m
  | Update_fulfill_htlc _ _ _ => handle_peer_fulfill_htlc now m
  | Update_fail_htlc _ _ _ => handle_peer_fail_htlc now m
  | Update_fail_malformed_htlc _ _ _ _ => handle_peer_fail_malformed_htlc now m
  | Update_fee _ _ => handle_peer_feechange m
  | Commitment_signed _ _ _ => handle_peer_commit_sig channel_seed now uninit m
  | Revoke_and_ack _ _ _ => handle_peer_revoke_and_ack now m
  | _ => mret ()
  end.

Definition heard (p : peer) : peer := set_field (f := last_recv) now p.

Lemma peer_in_op m o p Q F : op_of m = Some o -> at_side (funding_locked p) REMOTE = true ->
  wp (op_handler m) (heard p) Q F -> wp (peer_in channel_seed node_privkey now uninit uninit_id m) p Q F.
Proof.
  intros Eo K W. unfold peer_in. rewrite wp_bind, wp_set, wp_bind, wp_get.
  assert (funding_locked (heard p) = funding_locked p) as K' by done. unfold heard in *.
  destruct m; try discriminate Eo; cbn [wire_type_of]; rewrite bool_decide_eq_false_2 by done; cbn [andb];
    unfold handle_peer_gossip_or_error; rewrite wp_bind, wp_bind, wp_get;
    cbn [is_msg_for_gossipd wire_type_of]; unfold is_peer_error; cbn [wire_type_of]; rewrite bool_decide_eq_false_2 by done;
    cbn [is_wrong_channel extract_channel_id]; rewrite wp_ret, K', K; cbn [negb andb]; exact W.
Qed.
Lemma quiet_peer_shutdown m : (exists chan script, m = Shutdown chan script) -> quiet (handle_peer_shutdown now m).
Proof using Type.
  intros (chan & script & ->). unfold handle_peer_shutdown. apply quiet_bind; [apply quiet_send_channel_update|].
  intros _. apply quiet_bind; [intros p; rewrite wp_send; by repeat split|]. intros _. apply quiet_get. intros p.
  rewrite wp_bind, wp_set. case_match.
  - rewrite wp_bind, wp_set. apply wp_quiet; [apply quiet_start_commit_timer|done|]. intros _ p1 o1 E1 K1 O1 S1. by cbn [app].
  - rewrite wp_ret. by repeat split.
Qed.

(** Messages that are no operation. *)
Lemma peer_in_quiet m p : op_of m = None -> sane (channel_id p) m -> funding_locked p = Sided true true ->
  wp (peer_in channel_seed node_privkey now uninit uninit_id m) p
    (fun _ p' out => peer_channel p' = peer_channel p /\ core_of p' = core_of p /\ ops (to_peer out) = [] /\
                     Forall (sane (channel_id p)) (to_peer out)) excused.
Proof using Type.
  intros Eo Sm K. unfold peer_in. rewrite wp_bind, wp_set, wp_bind, wp_get. set (p1 := set_field (f := last_recv) now p).
  assert (funding_locked p1 = Sided true true) as K1 by done.
  destruct m; try discriminate Eo; cbn [sane] in Sm; try done; cbn [wire_type_of].
  4: { subst t. rewrite bool_decide_eq_false_2 by done. cbn [andb]. unfold handle_peer_gossip_or_error.
    rewrite wp_bind, wp_bind, wp_get. cbn [is_msg_for_gossipd wire_type_of]. rewrite wp_bind, wp_send, !wp_ret. by repeat split. }
  all: rewrite bool_decide_eq_false_2 by done; cbn [andb]; unfold handle_peer_gossip_or_error;
    rewrite wp_bind, wp_bind, wp_get; cbn [is_msg_for_gossipd wire_type_of]; unfold is_peer_error; cbn [wire_type_of];
    rewrite bool_decide_eq_false_2 by done; cbn [is_wrong_channel extract_channel_id]; rewrite wp_ret, K1;
    cbn [at_side on_remote negb andb app].
  - unfold handle_peer_funding_locked. rewrite wp_bind, wp_get, K1. cbn [at_side on_remote]. rewrite wp_ret. by repeat split.
  - apply wp_quiet; [apply quiet_peer_shutdown; by eexists _, _|done|]. intros _ p2 o2 E2 K2 O2 S2. by cbn [app].
  - subst chan. unfold handle_peer_announcement_signatures. rewrite wp_bind, wp_get, wp_bind, wp_set, wp_bind, wp_set, wp_bind, wp_set.
    rewrite bool_decide_eq_true_2 by done. cbn [negb]. rewrite wp_bind, wp_set.
    apply wp_quiet; [apply quiet_negotiate|done|]. intros _ p2 o2 E2 K2 O2 S2. by cbn [app].
Qed.
End Dispatch.

(** ** Updates *)
Section Updates.
Context `{Secp256k1} `{!Signatures} `{HtlcTable} `{!Onions} (T : terms) (now : Z).
Context (v : side) (p : peer) (l : list htlc) (X : duplex) (C : copy T v p l X).

(** The other end's operation [o] is taken, and nothing is sent that is one. *)
Definition follows (o : op) (p' : peer) (out : list output) : Prop :=
  (exists l', copy T v p' l' (apply_op T (other v) o X)) /\ statics (peer_channel p') = statics (peer_channel p) /\
  core_of p' = core_of p /\ ops (to_peer out) = [] /\ Forall (sane (channel_id p)) (to_peer out).

Lemma follows_intro o c l' p' out : linked T v c l' (apply_op T (other v) o X) -> Forall tidy l' ->
  statics c = statics (peer_channel p) -> peer_channel p' = c -> core_of p' = core_of p ->
  ops (to_peer out) = [] -> Forall (sane (channel_id p)) (to_peer out) -> follows o p' out.
Proof using C.
  intros L Td St E K O S. split; [|by rewrite E]. exists l'. constructor; rewrite ?E; [done|done| |].
  - rewrite (funding_statics _ _ St). apply C.
  - pose proof (f_equal k_locked K) as Kl. cbn in Kl. rewrite Kl. apply C.
Qed.

(** Only the HTLC with its key was added. *)
Lemma added_tidy (l0 : list htlc) new n h f : NoDup (key <$> l0) -> l0 ≡ₚ new :: l -> l0 !! n = Some h -> key h = key new ->
  tidy (f new) -> h = new /\ Forall tidy (<[n := f h]> l0).
Proof using C.
  intros Nd Pm Hn Hk Tn.
  assert (forall j g, l0 !! j = Some g -> key g = key new -> j = n) as Only.
  { intros j g Hj Eg. apply (NoDup_lookup (key <$> l0) j n (key new)); [done|..]; rewrite list_lookup_fmap.
    - rewrite Hj. cbn. congruence.
    - rewrite Hn. cbn. congruence. }
  assert (h = new) as ->.
  { assert (new ∈ l0) as [j Hj]%list_elem_of_lookup_1 by (rewrite Pm; left). rewrite (Only j new Hj eq_refl) in Hj. congruence. }
  split; [done|]. apply Forall_lookup. intros j g. destruct (decide (j = n)) as [->|Nj].
  - rewrite list_lookup_insert_eq by by eapply lookup_lt_Some. by intros [= <-].
  - rewrite list_lookup_insert_ne by done. intros Hj.
    assert (g ∈ new :: l) as [->|Hg]%elem_of_cons by (rewrite <- Pm; by eapply list_elem_of_lookup_2).
    + by destruct Nj, (Only j new Hj eq_refl).
    + pose proof (cp_tidy _ _ _ _ _ C) as Td. by eapply Forall_forall in Td.
Qed.

(** The HTLC is added, and gets its secret. *)
Lemma peer_adds i msat hash cltv onion : 0 <= msat -> enabled T (other v) (OAdd i msat cltv hash) X -> exists c c2 l2,
  channel_add_htlc (peer_channel p) REMOTE i msat cltv hash onion = Some (c, CHANNEL_ERR_ADD_OK) /\
  update_htlc c REMOTE i (fun h => set_shared_secret (get_shared_secret (routing h)) h) = Some c2 /\
  linked T v c2 l2 (apply_op T (other v) (OAdd i msat cltv hash) X) /\ Forall tidy l2 /\
  statics c2 = statics (peer_channel p).
Proof using C.
  intros Hm En. destruct (link_add T v (peer_channel p) l X (other v) i msat cltv hash onion (cp_linked _ _ _ _ _ C) Hm)
    as (c & e & E & Ok & Lk). rewrite pov_them in E, Lk. apply proj2 in Ok. specialize (Ok En). subst e. specialize (Lk eq_refl).
  pose proof (statics_add T v _ l X _ _ _ _ _ _ _ _ (cp_linked _ _ _ _ _ C) Hm E) as St.
  set (new := new_htlc REMOTE i msat cltv hash onion) in *. set (l1 := htlc_map_add l new) in *.
  assert (l1 ≡ₚ new :: l) as Pm by apply htlc_map_add_perm.
  destruct (htlc_get l1 i REMOTE) as [[n h]|] eqn:Eg;
    [|exfalso; apply (htlc_get_None _ _ _ Eg new); [rewrite Pm; left|done]].
  destruct (htlc_get_Some _ _ _ _ _ Eg) as [Hn Hk].
  exists c, (set_htlcs (<[n := set_shared_secret (get_shared_secret (routing h)) h]> l1) c),
    (<[n := set_shared_secret (get_shared_secret (routing h)) h]> l1).
  split; [done|]. split; [|split; [|split]].
  - unfold update_htlc. rewrite (inv_htlcs _ _ _ (lk_inv _ _ _ _ _ Lk)). cbn [mbind option_bind]. by rewrite Eg.
  - by apply (linked_private T v c l1 _ n h).
  - eapply (added_tidy l1 new n h (fun h => set_shared_secret (get_shared_secret (routing h)) h)); try done; [apply Lk|].
    constructor; try done. apply En.
  - exact St.
Qed.

Lemma spec_peer_add chan i msat hash cltv onion : 0 <= msat -> enabled T (other v) (OAdd i msat cltv hash) X ->
  wp (handle_peer_add_htlc (Update_add_htlc chan i msat hash cltv onion)) p
    (fun _ => follows (OAdd i msat cltv hash)) excused.
Proof using C.
  intros Hm En. destruct (peer_adds i msat hash cltv onion Hm En) as (c & c2 & l2 & E & E2 & Lk & Td & St).
  unfold handle_peer_add_htlc. rewrite wp_bind, wp_get, wp_bind, wp_or_abort, E. intros ? [= <-].
  rewrite wp_bind, wp_set, bool_decide_eq_true_2 by done. cbn [negb]. rewrite wp_bind, wp_or_abort, E2. intros ? [= <-].
  rewrite wp_set. by eapply follows_intro.
Qed.

Lemma spec_peer_fee chan rate : enabled T (other v) (OFee rate) X ->
  wp (handle_peer_feechange (Update_fee chan rate)) p (fun _ => follows (OFee rate)) excused.
Proof using C.
  intros En. unfold handle_peer_feechange. rewrite wp_bind, wp_get.
  assert (funder (peer_channel p) = pov v (other v)) as Ef.
  { rewrite (lk_funder _ _ _ _ _ (cp_linked _ _ _ _ _ C)). destruct En as [-> _]. done. }
  rewrite Ef, pov_them. change (negb (side_eqb REMOTE REMOTE)) with false. cbv match.
  destruct (_ || _); [rewrite wp_peer_failed; by right|].
  destruct (link_fee T v _ l X (other v) rate (cp_linked _ _ _ _ _ C) Ef) as (c' & ok & E & Ok & Lk). rewrite E.
  cbv match. apply proj2 in Ok. specialize (Ok En). subst ok. rewrite wp_bind, wp_set. cbn [negb]. rewrite wp_ret.
  by eapply follows_intro; [exact (Lk eq_refl)|apply C|exact (statics_fee _ _ _ _ E)|..].
Qed.
(** A removal, and what is written into the HTLC afterwards. *)
Lemma peer_removes i x : enabled T (other v) (ORemove i x) X ->
  exists c n h, remove_htlc (peer_channel p) LOCAL i x = Some (c, CHANNEL_ERR_REMOVE_OK) /\
  r h = x /\ fail h = None /\ htlcs c = Some (<[n := h]> l) /\ htlc_get (<[n := h]> l) i LOCAL = Some (n, h) /\
  forall h', bare h' = bare h -> resolved h' ->
    forall p' out, core_of p' = core_of p -> peer_channel p' = set_htlcs (<[n := h']> l) c ->
    ops (to_peer out) = [] -> Forall (sane (channel_id p)) (to_peer out) -> follows (ORemove i x) p' out.
Proof using C.
  intros En. destruct (link_remove T v (peer_channel p) l X (other v) i x (cp_linked _ _ _ _ _ C)) as (c & e & E & Ok & Lk).
  rewrite other_other, pov_own in E, Lk. apply proj2 in Ok. specialize (Ok En). subst e.
  destruct (Lk eq_refl) as (n & h & st & Eg & Es & L'). exists c, n, (removed_htlc st x h).
  destruct (htlc_get_Some _ _ _ _ _ Eg) as [Hn Hk].
  assert (tidy h) as [Ex Ey _ _] by exact (Forall_lookup_1 _ _ _ _ (cp_tidy _ _ _ _ _ C) Hn).
  destruct Ey as (Hr & Hf & _); [clear - Es; destruct h as [[]]; try discriminate Es; vm_compute; lia|].
  assert (key (removed_htlc st x h) = (i, LOCAL)) as Hk'.
  { rewrite <- Hk. clear - Es. destruct h as [[]], x; try discriminate Es; by injection Es as <-. }
  split; [done|]. split; [by destruct x|]. split; [by destruct x|].
  split; [apply L'|]. split; [apply get_at; [by eapply lookup_lt_Some|done|apply L']|].
  intros h' Eb Rs p' out K E' O S.
  assert (<[n := removed_htlc st x h]> l !! n = Some (removed_htlc st x h)) as Hn'
    by (apply list_lookup_insert_eq; by eapply lookup_lt_Some).
  pose proof (linked_private T v c _ _ n _ h' L' Hn' Eb) as L2. rewrite list_insert_insert_eq in L2.
  eapply follows_intro; [exact L2| |exact (statics_remove _ _ _ _ _ _ E)|done..].
  apply Forall_insert; [apply C|].
  apply (tidy_late (state h)); [by injection Eb as -> _ _ _ _ _| |done]. injection Eb as _ _ _ -> _ _. by destruct x.
Qed.

Lemma spec_peer_fulfill chan i x : enabled T (other v) (ORemove i (Some x)) X ->
  wp (handle_peer_fulfill_htlc now (Update_fulfill_htlc chan i x)) p (fun _ => follows (ORemove i (Some x))) excused.
Proof using C.
  intros En. destruct (peer_removes i (Some x) En) as (c & n & h & E & Hr & Hf & El & _ & Fl).
  unfold handle_peer_fulfill_htlc. rewrite wp_bind, wp_get, wp_bind, wp_or_abort.
  change (channel_fulfill_htlc (peer_channel p) LOCAL i x) with (remove_htlc (peer_channel p) LOCAL i (Some x)).
  rewrite E. intros ? [= <-]. rewrite wp_bind, wp_set, bool_decide_eq_true_2 by done.
  apply wp_quiet; [apply quiet_start_commit_timer|done|]. intros _ p1 o1 E1 K1 O1 S1. cbn [app].
  apply (Fl h); try done; [left; by rewrite Hr|]. rewrite E1. by rewrite (set_htlcs_same _ _ El).
Qed.

Lemma spec_peer_fails i reason why : enabled T (other v) (ORemove i None) X ->
  wp (peer_fails_htlc now i reason why) p (fun _ => follows (ORemove i None)) excused.
Proof using C.
  intros En. destruct (peer_removes i None En) as (c & n & h & E & Hr & Hf & El & Eg & Fl).
  unfold peer_fails_htlc. rewrite wp_bind, wp_get, wp_bind, wp_or_abort.
  change (channel_fail_htlc (peer_channel p) LOCAL i) with (remove_htlc (peer_channel p) LOCAL i None).
  rewrite E. intros ? [= <-]. rewrite wp_bind, wp_set, bool_decide_eq_true_2 by done. rewrite wp_bind, wp_or_abort. intros c2.
  unfold update_htlc. rewrite El. cbn [mbind option_bind]. rewrite Eg. cbn [mbind option_bind]. intros [= <-].
  rewrite list_insert_insert_eq, wp_bind, wp_set.
  apply wp_quiet; [apply quiet_start_commit_timer|done|]. intros _ p1 o1 E1 K1 O1 S1. cbn [app].
  eapply Fl; [| |exact K1|exact E1|done..]; [done|]. by right.
Qed.
End Updates.

(** ** Revocations *)
Section Revocations.
Context `{Secp256k1} `{!Signatures} `{HtlcTable} `{!Onions} (T : terms) (channel_seed : bytes) (now : Z).
Context (v : side) (p : peer) (l : list htlc) (X : duplex) (C : copy T v p l X).

(** The copy after a revocation. *)
Lemma copy_revoke r c b ch p' : let s := pov v (other r) in
  revoke_side (peer_channel p) s (revoke_states s) = Some (c, b, ch) -> peer_channel p' = c ->
  funding_locked p' = funding_locked p ->
  copy T v p' (advance (revoke_states s) <$> l) (apply_op T r ORevoke X) /\
  statics (peer_channel p') = statics (peer_channel p).
Proof using C.
  intros s E Ec K. destruct (link_revoke T v (peer_channel p) l X r (cp_linked _ _ _ _ _ C)) as (c' & ch' & E' & Lk).
  cbv zeta in *. fold s in E', Lk. rewrite E in E'. injection E' as <- _ _. pose proof (statics_revoke _ _ _ _ _ _ E) as St.
  split; [|by rewrite Ec]. constructor; rewrite ?Ec; [done|apply (tidy_advances _ s), C; constructor| |rewrite K; apply C].
  rewrite (funding_statics _ _ St). apply C.
Qed.

Lemma spec_peer_revoke chan secret point : revocations_received p = u64 (at_side (next_index p) REMOTE - 2) ->
  pubkey_from_privkey secret = Some (old_remote_per_commit p) ->
  wp (handle_peer_revoke_and_ack now (Revoke_and_ack chan secret point)) p (fun _ p' out =>
    (exists l', copy T v p' l' (apply_op T (other v) ORevoke X)) /\
    statics (peer_channel p') = statics (peer_channel p) /\
    core_of p' = Core (next_index p) (next_local_per_commit p) point (remote_per_commit p)
      (u64 (revocations_received p + 1)) (funding_locked p) (channel_id p) /\
    ops (to_peer out) = [] /\ Forall (sane (channel_id p)) (to_peer out)) excused.
Proof using C.
  intros Rr Ek. unfold handle_peer_revoke_and_ack. rewrite wp_bind, wp_get, (proj2 (Z.eqb_eq _ _) Rr). cbn [negb].
  rewrite Ek, bool_decide_eq_true_2 by done. cbn [negb]. rewrite wp_bind, wp_or_abort. intros [[c b] ch] E.
  rewrite wp_bind, wp_set, wp_bind, wp_set, wp_bind, wp_send, wp_bind, wp_set, wp_bind, wp_set.
  set (p1 := set_field (f := remote_per_commit) _ _).
  apply wp_quiet; [apply quiet_start_commit_timer|done|]. intros _ p2 o2 E2 K2 O2 S2. cbn [app]. rewrite to_peer_cons.
  destruct (copy_revoke (other v) c b ch p2) as [C2 St2].
  { cbv zeta. by rewrite other_other, pov_own. }
  { by rewrite E2. }
  { exact (f_equal k_locked K2). }
  split; [by eexists|]. split; [done|]. split; [by rewrite K2|]. done.
Qed.

(** The revocation that answers a commitment. *)
Lemma spec_send_revocation : let n := at_side (next_index p) LOCAL in
  wp (send_revocation channel_seed now) p (fun _ p' out => exists point secret,
    (exists l', copy T v p' l' (apply_op T v ORevoke X)) /\
    statics (peer_channel p') = statics (peer_channel p) /\
    core_of p' = Core (set_side LOCAL (u64 (n + 1)) (next_index p)) point (remote_per_commit p) (old_remote_per_commit p)
      (revocations_received p) (funding_locked p) (channel_id p) /\
    handle_get_per_commitment_point channel_seed (u64 (u64 (n - 1) + 2)) = Some (Some (point, Some secret)) /\
    exists quiet_msgs, to_peer out = quiet_msgs ++ [Revoke_and_ack (channel_id p) secret point] /\ ops quiet_msgs = [] /\
      Forall (sane (channel_id p)) quiet_msgs) excused.
Proof using C.
  intros n. unfold send_revocation. rewrite wp_bind, wp_get. unfold make_revocation_msg, get_per_commitment_point.
  rewrite wp_bind, wp_bind, wp_get, wp_bind, wp_hsm. fold n. intros [point s] Ep. rewrite wp_bind.
  destruct s as [secret|]; cbn [old_secret_of]; [|by rewrite wp_status_failed]. rewrite !wp_ret.
  rewrite wp_bind, wp_set, wp_bind, wp_set, wp_bind, wp_or_abort. intros [c b] E. rewrite wp_bind, wp_set.
  set (p1 := set_field (f := peer_channel) c _).
  unfold channel_sending_revoke_and_ack in E.
  destruct (revoke_side (peer_channel p) REMOTE sending_revoke_states) as [[[c1 b1] ch]|] eqn:Er; [|done]. injection E as -> ->.
  assert (quiet (if b then start_commit_timer now else mret ())) as Qt
    by (destruct b; [apply quiet_start_commit_timer|apply quiet_ret]).
  rewrite wp_bind. apply wp_quiet; [exact Qt|done|]. intros _ p2 o2 E2 K2 O2 S2. rewrite wp_send.
  cbn [app]. rewrite to_peer_app, to_peer_cons. exists point, secret.
  destruct (copy_revoke v c b ch p2) as [C2 St2].
  { cbv zeta. by rewrite pov_them. }
  { by rewrite E2. }
  { exact (f_equal k_locked K2). }
  split; [by eexists|]. split; [done|]. split; [by rewrite K2|]. split; [exact Ep|]. by eexists.
Qed.
End Revocations.

(** ** Commitments *)
Section Commitments.
Context `{Secp256k1} `{!Signatures} `{HtlcTable} `{!Onions} (T : terms) (channel_seed : bytes) (now : Z) (uninit : Z * Z).
Context (v : side).

(** The scripts of the commitment that a commitment_signed would be for. *)
Definition commit_scripts (p : peer) : list bytes :=
  match channel_rcvd_commit (peer_channel p) with
  | Some (c, _, _) =>
      match keys_of c (next_local_per_commit p) LOCAL with Some keys => scripts_of c keys LOCAL | None => [] end
  | None => []
  end.

(** The signer, whose channel was [c0] at [X0], and the receiver agree. *)
Lemma linked_agree c l Y c0 l0 X0 : linked T v c l Y -> linked T (other v) c0 l0 X0 -> same_side v X0 Y ->
  agree_on LOCAL c c0.
Proof using Type.
  intros L L0 [F R _]. assert (pov v LOCAL = v) as P1 by by destruct v. assert (pov (other v) REMOTE = v) as P2 by by destruct v.
  eapply (agree_faces _ _ c c0 l l0 LOCAL (lk_inv _ _ _ _ _ L) (lk_inv _ _ _ _ _ L0)).
  - intros t. rewrite !at_pov. by destruct v, t.
  - cbn [other]. rewrite (lk_rate _ _ _ _ _ L), (lk_rate _ _ _ _ _ L0), P1, P2. done.
  - pose proof (linked_faces T v c l Y LOCAL L) as F1. pose proof (linked_faces T (other v) c0 l0 X0 REMOTE L0) as F2.
    rewrite P1 in F1. rewrite P2 in F2. cbn [other]. by rewrite <- F1, <- F2.
Qed.

Lemma spec_check_htlc_sigs key x p : wp (check_htlc_sigs key x) p (fun _ p' out => p' = p /\ out = [])
  (fun _ => ~ Forall (fun x => check_tx_sig x.1.1 0 None (Some x.1.2) key x.2 = Some true) x).
Proof using Type.
  induction x as [|[[tx wscript] sig] x IH]; cbn [check_htlc_sigs]; [by rewrite wp_ret|].
  rewrite wp_bind, wp_or_abort. intros ok E. destruct ok; cbn [negb].
  - eapply wp_mono; [exact IH|done|]. intros why Nf Hf. apply Nf. by inversion Hf.
  - rewrite wp_peer_failed. intros Hf. inversion Hf as [|? ? Hx _]. cbn in Hx. congruence.
Qed.
Lemma ends_statics c c' d : statics c' = statics c -> ends c d -> ends c' d.
Proof using Type.
  unfold statics. intros E En. injection E as E1 E2 E3 E4 E5 E6 E7 E8 _.
  constructor; rewrite ?E1, ?E2, ?E3, ?E4, ?E5, ?E6, ?E7, ?E8; apply En.
Qed.

(** The receiver builds the transactions that were signed. *)
Lemma same_txs c l Y c0 l0 X0 point n sig sigs keys : linked T v c l Y -> linked T (other v) c0 l0 X0 -> same_side v X0 Y ->
  ends c c0 -> can_commit c LOCAL -> signed c0 point n sig sigs ->
  keys_of c point LOCAL = Some keys -> no_collision (scripts_of c keys LOCAL) ->
  exists tx txs wscript wscripts htlcmap key,
    channel_txs uninit c point n LOCAL = Some (Some (tx :: txs, wscript :: wscripts, htlcmap)) /\
    check_tx_sig tx 0 None (Some wscript) (at_side (funding_pubkey c) REMOTE) sig = Some true /\
    derive_simple_key (htlc_bp (at_side (channel_basepoints c) REMOTE)) point = Some key /\
    length wscripts = length txs /\ length sigs = length txs /\
    Forall (fun x => check_tx_sig x.1.1 0 None (Some x.1.2) key x.2 = Some true) (zip (zip txs wscripts) sigs).
Proof using Type.
  intros L L0 Ss E CC (u0 & keys0 & tx & txs & wscript & wscripts & map0 & key & _ & _ & Et & Ck & Ed & L1 & L2 & Fa) Ek NC.
  destruct (txs_agree uninit u0 c c0 point n LOCAL keys E (linked_agree _ _ _ _ _ _ L L0 Ss) CC Ek NC)
    as (txs' & ws' & map & map' & Et1 & Et2). cbn [other] in Et2. rewrite Et in Et2. injection Et2 as <- <- _.
  exists tx, txs, wscript, wscripts, map, key. split; [done|].
  pose proof (ends_keys _ _ E REMOTE) as Kf. pose proof (ends_basepoints _ _ E REMOTE) as Kb. cbn [other] in Kf, Kb.
  rewrite <- Kf, <- Kb. done.
Qed.

Context (p : peer) (l : list htlc) (X : duplex) (C : copy T v p l X).

Lemma spec_peer_commit chan sig sigs c0 l0 X0 : enabled T (other v) OCommit X ->
  linked T (other v) c0 l0 X0 -> ends (peer_channel p) c0 -> same_side v X0 (apply_op T (other v) OCommit X) ->
  let n := at_side (next_index p) LOCAL in signed c0 (next_local_per_commit p) n sig sigs ->
  wp (handle_peer_commit_sig channel_seed now uninit (Commitment_signed chan sig sigs)) p (fun _ p' out => exists point secret,
    (exists l', copy T v p' l' (apply_op T v ORevoke (apply_op T (other v) OCommit X))) /\
    statics (peer_channel p') = statics (peer_channel p) /\
    core_of p' = Core (set_side LOCAL (u64 (n + 1)) (next_index p)) point (remote_per_commit p) (old_remote_per_commit p)
      (revocations_received p) (funding_locked p) (channel_id p) /\
    handle_get_per_commitment_point channel_seed (u64 (u64 (n - 1) + 2)) = Some (Some (point, Some secret)) /\
    exists quiet_msgs, to_peer out = quiet_msgs ++ [Revoke_and_ack (channel_id p) secret point] /\ ops quiet_msgs = [] /\
      Forall (sane (channel_id p)) quiet_msgs)
  (fun why => no_collision (commit_scripts p) -> excused why).
Proof using C.
  intros En L0 E Ss n Sg. unfold handle_peer_commit_sig. rewrite wp_bind, wp_get, wp_bind, wp_or_abort. intros [[c b] ch] Ec.
  destruct (link_commit T v (peer_channel p) l X (other v) (cp_linked _ _ _ _ _ C)) as (c' & ch' & Ec' & Lk).
  cbv zeta in *. rewrite other_other, pov_own in Ec', Lk.
  assert (commit_scripts p = match keys_of c (next_local_per_commit p) LOCAL with Some keys => scripts_of c keys LOCAL | None => [] end)
    as Escr by (unfold commit_scripts; by rewrite Ec).
  change (channel_rcvd_commit (peer_channel p)) with (commit_side (peer_channel p) LOCAL (commit_states LOCAL)) in Ec.
  rewrite Ec in Ec'. injection Ec' as <- -> <-. specialize (Lk En). cbn [enabled] in En. rewrite other_other in En.
  rewrite wp_bind, wp_set, En. cbn [negb]. pose proof (statics_commit _ _ _ _ _ _ Ec) as St.
  set (p1 := set_field (f := peer_channel) c p).
  assert (copy T v p1 (advance (commit_states LOCAL) <$> l) (apply_op T (other v) OCommit X)) as C1.
  { constructor; [exact Lk|apply (tidy_advances _ LOCAL), C; constructor| |apply C]. cbn. rewrite (funding_statics _ _ St). apply C. }
  pose proof (fun keys => same_txs c _ _ c0 l0 X0 (next_local_per_commit p) n sig sigs keys Lk L0 Ss
    (ends_statics _ _ _ St E) (copy_can_commit T v p1 _ _ LOCAL C1) Sg) as Same.
  rewrite wp_bind. apply (wp_mono _ _ (fun _ p' out => p' = p1 /\ out = []) _ (fun _ => False)); [| |done].
  { destruct (side_eqb (funder c) REMOTE); [rewrite wp_asserting; by intros|by rewrite wp_ret]. }
  intros _ p' out [-> ->]. fold n. rewrite wp_bind, wp_or_abort. intros txs Et.
  destruct (derive_simple_key _ _) as [key|] eqn:Ed; [|by rewrite wp_status_failed].
  rewrite wp_bind, wp_or_abort. intros [[txs' wscripts] map] ->. 
  destruct (keys_of c (next_local_per_commit p) LOCAL) as [keys|] eqn:Ek;
    [|exfalso; unfold channel_txs in Et; fold (keys_of c (next_local_per_commit p) LOCAL) in Et; rewrite Ek in Et; congruence].
  specialize (Same keys eq_refl). rewrite Escr. rewrite Et in Same.
  rewrite wp_bind, wp_or_abort. intros tx Etx. rewrite wp_bind, wp_or_abort. intros wscript Ews.
  rewrite wp_bind, wp_or_abort. intros ok Eok. destruct ok; cbn [negb]; cycle 1.
  { rewrite wp_peer_failed. intros NC. destruct (Same NC) as (tx' & txs & ws' & wss & map' & key' & Eq & Ck & _).
    injection Eq as -> -> _. cbn in Etx, Ews. congruence. }
  destruct (length sigs =? length txs' - 1)%nat eqn:El; cbn [negb]; cycle 1.
  { rewrite wp_peer_failed. intros NC. destruct (Same NC) as (tx' & txs & ws' & wss & map' & key' & Eq & _ & _ & _ & Ls & _).
    injection Eq as -> -> _. apply Nat.eqb_neq in El. cbn in El. lia. }
  rewrite wp_bind. eapply wp_mono; [apply spec_check_htlc_sigs| |].
  2: { intros why Nf NC. destruct (Same NC) as (tx' & txs & ws' & wss & map' & key' & Eq & _ & Ek' & _ & _ & Fa).
    injection Eq as -> -> _. cbn [zip zip_with tail] in Nf. destruct Nf. assert (key' = key) as -> by congruence. exact Fa. }
  intros _ p2 o2 [-> ->]. rewrite wp_bind, wp_or_abort. intros report _. rewrite wp_bind, wp_send.
  eapply wp_mono; [exact (spec_send_revocation T channel_seed now v p1 _ _ C1)| |done].
  intros _ p3 o3 (point & secret & Cp & Sp & Kp & Hp & q & Eq & Oq & Sq). exists point, secret. cbn [app]. rewrite to_peer_cons.
  split; [done|]. split; [by rewrite Sp|]. split; [done|]. split; [done|]. by exists q.
Qed.
End Commitments.
