(* ===== verification/ChanneldTotal.v ===== *)
(** * The handlers of the peer's messages end normally

    [wp] of [ChanneldSpec] says nothing of a handler that aborts or gives up with
    [status_failed]. Here is when one does, on a message of an honest peer: only on a
    commitment, if the funder cannot pay for it or the signer has no further point. *)
From stdpp Require Import gmap strings.
From S2P Require Import Prelude HtlcState Sha256 Secp Ecdsa BitcoinTx LnScript SigCheck Shachain KeyDerive Hsm Params Htlc.
From S2P Require Import CommitTx Channel Ledger ChannelInv ChannelTxs Mirror Faces Duplex Link Channeld ChanneldSpec.
From S2P Require Import ChanneldLocal ChanneldRemote.
Local Open Scope Z_scope.

(** ** Reasoning about how runs end *)
Section Smooth.
Context `{Secp256k1} `{!Signatures}.

(** If [m] fails the channel then [GF], if it gives up then [GS], if it aborts then [GA]. *)
Definition smooth {A} (m : run A) (p : peer) (GF GS GA : Prop) : Prop :=
  match m p with PeerFailed _ _ => GF | StatusFailed _ => GS | Aborts => GA | _ => True end.

Lemma smooth_bind {A B} (m : run A) (f : A -> run B) p GF GS GA : smooth m p GF GS GA ->
  (forall a p1 out, m p = Done a p1 out -> smooth (f a) p1 GF GS GA) -> smooth (m ≫= f) p GF GS GA.
Proof.
  unfold smooth, mbind, run_bind. intros Sm Sf. destruct (m p) as [a p1 o1| | | |]; try done.
  specialize (Sf a p1 o1 eq_refl). by destruct (f a p1).
Qed.

Lemma smooth_done {A B} (m : run A) (f : A -> run B) p a p1 out GF GS GA : m p = Done a p1 out ->
  smooth (f a) p1 GF GS GA -> smooth (m ≫= f) p GF GS GA.
Proof. intros E Sf. apply smooth_bind; unfold smooth in *; rewrite E; [done|]. by intros ? ? ? [= <- <- _]. Qed.

(** What is known of the state in between. *)
Lemma smooth_wp {A B} (m : run A) (f : A -> run B) p Q F GF GS GA : smooth m p GF GS GA -> wp m p Q F ->
  (forall a p1 out, Q a p1 out -> smooth (f a) p1 GF GS GA) -> smooth (m ≫= f) p GF GS GA.
Proof. intros Sm W Sf. apply smooth_bind; [done|]. intros a p1 out E. unfold wp in W. rewrite E in W. by eapply Sf. Qed.

Lemma smooth_ret {A} (a : A) p GF GS GA : smooth (mret a) p GF GS GA.
Proof. done. Qed.

Lemma smooth_send o p GF GS GA : smooth (send o) p GF GS GA.
Proof. done. Qed.

Lemma smooth_set f p GF GS GA : smooth (set_peer f) p GF GS GA.
Proof. done. Qed.

Lemma smooth_peer_failed {A} why p (GF GS GA : Prop) : GF -> smooth (peer_failed (A := A) why) p GF GS GA.
Proof. done. Qed.

Lemma smooth_get {B} (f : peer -> run B) p GF GS GA : smooth (f p) p GF GS GA -> smooth (get_peer ≫= f) p GF GS GA.
Proof. by apply (smooth_done _ _ _ _ _ []). Qed.

Lemma smooth_set_then {B} g (f : unit -> run B) p GF GS GA : smooth (f ()) (g p) GF GS GA -> smooth (set_peer g ≫= f) p GF GS GA.
Proof. by apply (smooth_done _ _ _ _ _ []). Qed.

Lemma smooth_send_then {B} o (f : unit -> run B) p GF GS GA : smooth (f ()) p GF GS GA -> smooth (send o ≫= f) p GF GS GA.
Proof. by apply (smooth_done _ _ _ _ _ [o]). Qed.

Lemma smooth_ret_then {A B} (a : A) (f : A -> run B) p GF GS GA : smooth (f a) p GF GS GA -> smooth (mret a ≫= f) p GF GS GA.
Proof. by apply (smooth_done _ _ _ _ _ []). Qed.

Lemma smooth_or_abort {A B} (o : option A) a (f : A -> run B) p GF GS GA : o = Some a -> smooth (f a) p GF GS GA ->
  smooth (or_abort o ≫= f) p GF GS GA.
Proof. intros ->. by apply (smooth_done _ _ _ _ _ []). Qed.

Lemma smooth_assert {B} b (f : unit -> run B) p GF GS GA : (b = false -> GA) -> (b = true -> smooth (f ()) p GF GS GA) ->
  smooth (asserting b ≫= f) p GF GS GA.
Proof. intros Hf Ht. destruct b; [apply (smooth_done _ _ _ () p []); [done|by apply Ht]|by apply Hf]. Qed.

Lemma smooth_hsm {A B} (o : option (option A)) (f : A -> run B) p (GF GS GA : Prop) :
  ((forall a, o <> Some (Some a)) -> GS) -> (forall a, o = Some (Some a) -> smooth (f a) p GF GS GA) ->
  smooth (hsm_req o ≫= f) p GF GS GA.
Proof.
  intros N Sf. destruct o as [[a|]|]; [apply (smooth_done _ _ _ a p []); [done|by apply Sf]|by apply N..].
Qed.

Lemma smooth_mono {A} (m : run A) p (GF GS GA GF' GS' GA' : Prop) : smooth m p GF GS GA ->
  (GF -> GF') -> (GS -> GS') -> (GA -> GA') -> smooth m p GF' GS' GA'.
Proof. unfold smooth. destruct (m p); auto. Qed.
End Smooth.

Ltac smooth_rules :=
  cbv beta match; repeat lazymatch goal with
  | |- smooth (get_peer ≫= _) _ _ _ _ => apply smooth_get
  | |- smooth (set_peer _ ≫= _) _ _ _ _ => apply smooth_set_then
  | |- smooth (send _ ≫= _) _ _ _ _ => apply smooth_send_then
  | |- smooth (mret _ ≫= _) _ _ _ _ => apply smooth_ret_then
  | |- smooth (mret _) _ _ _ _ => apply smooth_ret
  | |- smooth (send _) _ _ _ _ => apply smooth_send
  | |- smooth (set_peer _) _ _ _ _ => apply smooth_set
  end.

(** ** Timers, pings and announcements *)
Section Announcing.
Context `{Secp256k1Laws} `{!Signatures} `{!SignatureLaws} `{!Onions}.
Context (channel_seed node_privkey : bytes) (now : Z).

Lemma smooth_timer p GF GS GA : smooth (start_commit_timer now) p GF GS GA.
Proof using Type.
  unfold start_commit_timer. apply smooth_bind.
  - unfold maybe_send_ping. smooth_rules. by repeat case_match; smooth_rules.
  - intros _ p1 out _. smooth_rules. case_match; smooth_rules.
Qed.

(** What the process needs to announce the channel: its place in the chain, the node's
    key, and announcements with room for the four signatures. *)
Record can_announce (p : peer) : Prop := {
  an_scid : at_side (short_channel_ids p) LOCAL <> 0;
  an_length : length node_privkey = 32%nat;
  an_id : pubkey_from_privkey node_privkey = Some (at_side (node_ids p) LOCAL);
  an_room q : (258 <= length (create_channel_announcement q))%nat
}.

Lemma smooth_update b p GF GS GA : at_side (short_channel_ids p) LOCAL <> 0 -> smooth (send_channel_update b) p GF GS GA.
Proof using Type.
  intros N. unfold send_channel_update. apply smooth_get. case_match; smooth_rules. apply smooth_assert; [|by intros; smooth_rules].
  intros Ef%negb_false_iff%Z.eqb_eq. done.
Qed.

(** The signer's signatures are valid for the keys of the node and of the channel. *)
Lemma announcement_signed p : can_announce p -> holds_keys channel_seed (peer_channel p) ->
  let ca := create_channel_announcement p in
  exists ns bs, handle_cannouncement_sig channel_seed node_privkey ca = Some (Some (ns, bs)) /\
    check_signed_hash (sha256_double (drop 258 ca)) ns (at_side (node_ids p) LOCAL) = true /\
    check_signed_hash (sha256_double (drop 258 ca)) bs (at_side (funding_pubkey (peer_channel p)) LOCAL) = true.
Proof using Type*.
  intros [_ Ln Ei Er] HK ca. destruct (basepoints_keys channel_seed _ _ HK) as (ks & K & F & _).
  destruct (hkdf_keys_lengths channel_seed ks K) as (Lf & _).
  destruct (derive_basepoints_consistent channel_seed) as (ks' & K' & Ef & _). rewrite K in K'. injection K' as <-.
  unfold handle_cannouncement_sig. rewrite Ef. cbn [out_pubkey]. rewrite F. cbn [mbind option_bind].
  rewrite (proj2 (Nat.ltb_ge (length ca) 258) (Er p)).
  assert (length (sha256_double (drop 258 ca)) = 32%nat) as Lh by apply length_sha256.
  revert Lh. generalize (sha256_double (drop 258 ca)). intros h Lh.
  destruct (sign_verifies node_privkey h _ Ln Lh Ei) as (ns & Sn & Vn).
  destruct (sign_verifies (key_f ks) h _ Lf Lh F) as (bs & Sb & Vb).
  exists ns, bs. unfold sign_hash, check_signed_hash. rewrite Sn. cbn [mbind option_bind]. rewrite Sb. cbn [mbind option_bind].
  rewrite Vn, Vb. done.
Qed.

(** What announcements need of the state is kept. *)
Definition kept (p p' : peer) : Prop :=
  short_channel_ids p' = short_channel_ids p /\ node_ids p' = node_ids p /\ peer_channel p' = peer_channel p.

Lemma kept_announce p p' : kept p p' -> can_announce p -> can_announce p'.
Proof using Type. intros (E1 & E2 & _) [S L I R]. constructor; rewrite ?E1, ?E2; done. Qed.

Lemma local_active_kept p : wp (put channel_local_active true;; make_channel_local_active) p (fun _ p' _ => kept p p') (fun _ => True).
Proof using Type.
  unfold make_channel_local_active, send_channel_update. wp_rules. case_match; wp_rules; repeat intro; by repeat split.
Qed.

Lemma signatures_kept p (x : sided bool) : wp (send_announcement_signatures channel_seed node_privkey;; put have_sigs x) p
  (fun _ p' _ => kept p p') (fun _ => True).
Proof using Type.
  unfold send_announcement_signatures. wp_rules. intros [ns bs] _. wp_rules. repeat case_match; wp_rules; try done; by repeat split.
Qed.

Lemma smooth_signatures p GF GS GA : can_announce p -> holds_keys channel_seed (peer_channel p) ->
  smooth (send_announcement_signatures channel_seed node_privkey) p GF GS GA.
Proof using Type*.
  intros An HK. destruct (announcement_signed p An HK) as (ns & bs & E & Vn & Vb).
  unfold send_announcement_signatures. apply smooth_get. rewrite E.
  apply smooth_hsm; [by intros N; destruct (N (ns, bs))|]. intros ? [= <-]. smooth_rules. rewrite Vn, Vb. apply smooth_send.
Qed.

(** The two sides have different places for the channel. *)
Definition misplaced (p : peer) : Prop := at_side (short_channel_ids p) LOCAL <> at_side (short_channel_ids p) REMOTE.

Lemma smooth_announce p (GF GS GA : Prop) : at_side (short_channel_ids p) LOCAL <> 0 -> (misplaced p -> GF) ->
  at_side (have_sigs p) LOCAL && at_side (have_sigs p) REMOTE = true -> smooth announce_channel p GF GS GA.
Proof using Type.
  intros N M [HL HR]%andb_prop. unfold announce_channel.
  apply (smooth_wp _ _ _ (fun _ p' _ => p' = p) (fun _ => True)).
  - unfold check_short_ids_match. apply smooth_get. rewrite HL, HR. do 2 (apply smooth_assert; [done|intros _]).
    destruct (Z.eqb_spec (at_side (short_channel_ids p) LOCAL) (at_side (short_channel_ids p) REMOTE)); smooth_rules.
    by apply smooth_peer_failed, M.
  - unfold check_short_ids_match. wp_rules. intros _ _. case_match; by wp_rules.
  - intros _ p1 _ ->. smooth_rules. by apply smooth_update.
Qed.

Lemma smooth_negotiate p (GF GS GA : Prop) : can_announce p -> holds_keys channel_seed (peer_channel p) -> (misplaced p -> GF) ->
  smooth (channel_announcement_negotiate channel_seed node_privkey) p GF GS GA.
Proof using Type*.
  intros An HK M. unfold channel_announcement_negotiate. apply smooth_get. case_match; [apply smooth_ret|].
  case_match; [apply smooth_ret|]. apply (smooth_wp _ _ _ (fun _ p' _ => kept p p') (fun _ => True)).
  - case_match; [|apply smooth_ret]. smooth_rules. unfold make_channel_local_active. smooth_rules. apply smooth_update, An.
  - case_match; [apply local_active_kept|by rewrite wp_ret].
  - intros _ p1 _ K1. apply (smooth_wp _ _ _ (fun _ p' _ => kept p1 p') (fun _ => True)).
    + case_match; [|apply smooth_ret]. pose proof K1 as (_ & _ & Ec).
      apply smooth_bind; [apply smooth_signatures; [by eapply kept_announce|by rewrite Ec]|]. intros. apply smooth_set.
    + case_match; [apply signatures_kept|by rewrite wp_ret].
    + intros _ p2 _ K2. apply smooth_get. case_match; [|apply smooth_ret]. destruct K1 as [E1 _], K2 as [E2 _].
      apply smooth_announce; [rewrite E2, E1; apply An|unfold misplaced; by rewrite E2, E1|done].
Qed.
End Announcing.

(** ** Dispatch *)
Section Dispatch.
Context `{Secp256k1Laws} `{!Signatures} `{!SignatureLaws} `{HtlcTable} `{!Onions}.
Context (channel_seed node_privkey : bytes) (now : Z) (uninit : Z * Z) (uninit_id : bytes).

Lemma smooth_in_op m o p GF GS GA : op_of m = Some o -> at_side (funding_locked p) REMOTE = true ->
  smooth (op_handler channel_seed now uninit m) (heard now p) GF GS GA ->
  smooth (peer_in channel_seed node_privkey now uninit uninit_id m) p GF GS GA.
Proof using Type.
  intros Eo K W. unfold peer_in. smooth_rules. assert (funding_locked (heard now p) = funding_locked p) as K' by done.
  unfold heard in *. destruct m; try discriminate Eo; cbn [wire_type_of]; rewrite bool_decide_eq_false_2 by done; cbn [andb];
    apply (smooth_done _ _ _ false (set_field (f := last_recv) now p) []); try done;
    rewrite K', K; cbn [negb andb]; exact W.
Qed.

(** The masters' views of the chain or of the fees do not go together. *)
Definition disagrees (m : wire_msg) (p : peer) : Prop :=
  match m with
  | Announcement_signatures _ scid _ _ => at_side (short_channel_ids p) LOCAL <> scid
  | Update_fee _ rate => rate < feerate_min p \/ feerate_max p < rate
  | _ => False
  end.

Lemma smooth_in_quiet m p GS GA : op_of m = None -> sane (channel_id p) m -> funding_locked p = Sided true true ->
  can_announce node_privkey p -> holds_keys channel_seed (peer_channel p) ->
  smooth (peer_in channel_seed node_privkey now uninit uninit_id m) p (disagrees m p) GS GA.
Proof using Type*.
  intros Eo Sm K An HK. unfold peer_in. smooth_rules. set (p1 := set_field (f := last_recv) now p).
  assert (funding_locked p1 = Sided true true) as K1 by done.
  destruct m; try discriminate Eo; cbn [sane] in Sm; try done; cbn [wire_type_of].
  4: { subst t. rewrite bool_decide_eq_false_2 by done. cbn [andb]. apply (smooth_done _ _ _ true p1 [ToGossip (Peer_gossip (Raw WIRE_PING))]); done. }
  all: rewrite bool_decide_eq_false_2 by done; cbn [andb];
    apply (smooth_done _ _ _ false p1 []); [done|]; rewrite K1; cbn [at_side on_remote negb andb].
  - unfold handle_peer_funding_locked. apply smooth_get. rewrite K1. apply smooth_ret.
  - unfold handle_peer_shutdown. apply smooth_bind; [apply smooth_update, An|]. intros _ p2 out _. smooth_rules.
    case_match; smooth_rules. apply smooth_timer.
  - subst chan. unfold handle_peer_announcement_signatures. smooth_rules. rewrite bool_decide_eq_true_2 by done. cbn [negb]. smooth_rules.
    apply smooth_negotiate; [|exact HK|done]. destruct An as [S L I R]. by constructor.
Qed.
End Dispatch.

(** ** Updates and revocations *)
Section Updates.
Context `{Secp256k1} `{!Signatures} `{HtlcTable} `{!Onions} (T : terms) (channel_seed : bytes) (now : Z).
Context (v : side) (p : peer) (l : list htlc) (X : duplex) (C : copy T v p l X).

Lemma smooth_peer_add chan i msat hash cltv onion GF GS GA : 0 <= msat -> enabled T (other v) (OAdd i msat cltv hash) X ->
  smooth (handle_peer_add_htlc (Update_add_htlc chan i msat hash cltv onion)) p GF GS GA.
Proof using C.
  intros Hm En. destruct (peer_adds T v p l X C i msat hash cltv onion Hm En) as (c & c2 & l2 & E & E2 & _).
  unfold handle_peer_add_htlc. apply smooth_get. eapply smooth_or_abort; [exact E|]. smooth_rules.
  rewrite bool_decide_eq_true_2 by done. eapply smooth_or_abort; [exact E2|]. apply smooth_set.
Qed.

Lemma smooth_peer_fee chan rate GS GA : enabled T (other v) (OFee rate) X ->
  smooth (handle_peer_feechange (Update_fee chan rate)) p (disagrees (Update_fee chan rate) p) GS GA.
Proof using C.
  intros En. unfold handle_peer_feechange. apply smooth_get.
  assert (funder (peer_channel p) = pov v (other v)) as Ef.
  { rewrite (lk_funder _ _ _ _ _ (cp_linked _ _ _ _ _ C)). destruct En as [-> _]. done. }
  rewrite Ef, pov_them. change (negb (side_eqb REMOTE REMOTE)) with false. cbv match.
  destruct (_ || _) eqn:Er; [apply smooth_peer_failed; apply orb_true_iff in Er as [E%Z.ltb_lt|E%Z.ltb_lt]; [by left|by right]|].
  destruct (link_fee T v _ l X (other v) rate (cp_linked _ _ _ _ _ C) Ef) as (c & ok & E & Ok & _). rewrite E.
  apply proj2 in Ok. specialize (Ok En). subst ok. smooth_rules. cbn [negb]. apply smooth_ret.
Qed.

Lemma smooth_peer_fulfill chan i x GF GS GA : enabled T (other v) (ORemove i (Some x)) X ->
  smooth (handle_peer_fulfill_htlc now (Update_fulfill_htlc chan i x)) p GF GS GA.
Proof using C.
  intros En. destruct (peer_removes T v p l X C i (Some x) En) as (c & n & h & E & _).
  unfold handle_peer_fulfill_htlc. apply smooth_get. eapply smooth_or_abort; [exact E|]. smooth_rules.
  rewrite bool_decide_eq_true_2 by done. apply smooth_timer.
Qed.

Lemma smooth_peer_fails i reason why GF GS GA : enabled T (other v) (ORemove i None) X ->
  smooth (peer_fails_htlc now i reason why) p GF GS GA.
Proof using C.
  intros En. destruct (peer_removes T v p l X C i None En) as (c & n & h & E & _ & _ & El & Eg & _).
  unfold peer_fails_htlc. apply smooth_get. eapply smooth_or_abort; [exact E|]. smooth_rules.
  rewrite bool_decide_eq_true_2 by done. eapply smooth_or_abort.
  { unfold update_htlc. rewrite El. cbn [mbind option_bind]. rewrite Eg. reflexivity. }
  smooth_rules. apply smooth_timer.
Qed.

Lemma smooth_peer_revoke chan secret point GF GS GA : revocations_received p = u64 (at_side (next_index p) REMOTE - 2) ->
  pubkey_from_privkey secret = Some (old_remote_per_commit p) ->
  smooth (handle_peer_revoke_and_ack now (Revoke_and_ack chan secret point)) p GF GS GA.
Proof using C.
  intros Rr Ek. unfold handle_peer_revoke_and_ack. apply smooth_get. rewrite (proj2 (Z.eqb_eq _ _) Rr). cbn [negb].
  rewrite Ek, bool_decide_eq_true_2 by done. cbn [negb].
  destruct (link_revoke T v (peer_channel p) l X (other v) (cp_linked _ _ _ _ _ C)) as (c & ch & E & _).
  cbv zeta in E. rewrite other_other, pov_own in E. eapply smooth_or_abort; [exact E|]. smooth_rules. apply smooth_timer.
Qed.

(** The revocation needs the next point but one, and the last secret. *)
Lemma smooth_send_revocation (GF GS GA : Prop) :
  ((forall point secret, handle_get_per_commitment_point channel_seed (u64 (u64 (at_side (next_index p) LOCAL - 1) + 2))
      <> Some (Some (point, Some secret))) -> GS) ->
  smooth (send_revocation channel_seed now) p GF GS GA.
Proof using C.
  intros HG. unfold send_revocation. apply smooth_get.
  apply (smooth_wp _ _ _ (fun _ p' _ => p' = p) (fun _ => True)).
  - unfold make_revocation_msg, get_per_commitment_point. apply smooth_get.
    apply smooth_hsm; [intros N; apply HG; intros point secret E; by destruct (N (point, Some secret))|].
    intros [point s] E. destruct s as [secret|]; cbn [old_secret_of]; [smooth_rules|].
    apply smooth_bind; [|done]. apply HG. intros pt sc E'. rewrite E in E'. discriminate E'.
  - unfold make_revocation_msg, get_per_commitment_point. rewrite wp_bind, wp_get, wp_bind, wp_hsm. intros [point s] _.
    rewrite wp_bind. destruct s; cbn [old_secret_of]; [by rewrite !wp_ret|by rewrite wp_status_failed].
  - intros [msg point] p1 _ ->. smooth_rules.
    destruct (link_revoke T v (peer_channel p) l X v (cp_linked _ _ _ _ _ C)) as (c & ch & E & _).
    cbv zeta in E. rewrite pov_them in E. eapply smooth_or_abort.
    { unfold channel_sending_revoke_and_ack. change (revoke_states REMOTE) with sending_revoke_states in E. rewrite E. reflexivity. }
    smooth_rules. apply smooth_bind; [|intros; apply smooth_send]. case_match; [apply smooth_timer|apply smooth_ret].
Qed.
End Updates.

(** ** Commitments *)

(** The HTLCs that a transition reports are those it moved, after it. *)
Lemma change_list_changed s states v l v' l' fl ch : legal s states ->
  change_list s states v l = Some (v', l', fl, ch) ->
  Forall (fun g => exists h, h ∈ l /\ in_states states (state h) = true /\ g = advance states h) ch.
Proof.
  intros Lg. revert v v' l' fl ch. induction l as [|h l IH]; intros v v' l' fl ch; cbn [change_list].
  { intros [= _ _ _ <-]. constructor. }
  destruct (change_one s states v h) as [[[[v1 h1] f1] n]|] eqn:E1; [|done]. cbn [mbind option_bind].
  destruct (change_list s states v1 l) as [[[[v2 l2] f2] ch2]|] eqn:E2; [|done]. cbn [mbind option_bind]. intros [= _ _ _ <-].
  apply Forall_app. split.
  - destruct (in_states states (state h)) eqn:Ei.
    + destruct (change_one_spec s states v h Lg) as (v3 & n' & E3 & _). rewrite E1 in E3. injection E3 as _ -> _ _.
      apply Forall_replicate. exists h. split; [left|done].
    + rewrite (change_one_other s states v h Ei) in E1. injection E1 as _ _ _ <-. constructor.
  - eapply Forall_impl; [exact (IH _ _ _ _ _ E2)|]. intros g (h' & Hh & R). exists h'. split; [by right|done].
Qed.

Section Commitments.
Context `{Secp256k1} `{!Signatures} `{HtlcTable} `{!Onions} (T : terms) (channel_seed : bytes) (now : Z) (uninit : Z * Z).
Context (v : side) (p : peer) (l : list htlc) (X : duplex) (C : copy T v p l X).

(** Every one of them can be reported to the master. *)
Lemma report_changed h rep : tidy h -> in_states (commit_states LOCAL) (state h) = true ->
  is_Some (report_htlc (advance (commit_states LOCAL) h) rep).
Proof using Type.
  intros [Ex _ Rm Ad] Ei. unfold advance. rewrite Ei. unfold report_htlc.
  destruct h as [st i m e rh rr ss rt f fc fs]. cbn [state] in *.
  destruct st; try discriminate Ei; cbn [set_state next_state state]; eval_eqb; cbn [orb c_assert mbind option_bind]; try done.
  - cbn [set_state r fail]. destruct (Rm eq_refl) as [[[x Ea] Ef]|[Ea [x Ef]]]; cbn in Ea, Ef; subst; done.
  - cbn [set_state expiry shared_secret]. unfold abs_locktime_to_blocks, abs_locktime_is_seconds, abs_is_seconds.
    cbn [expiry] in Ex. rewrite (proj2 (Z.leb_gt _ _) Ex). cbn [c_assert negb mbind option_bind].
    destruct (Ad eq_refl) as [x Ea]. cbn in Ea. subst ss. done.
Qed.

Lemma report_all ch : Forall (fun g => exists h, h ∈ l /\ in_states (commit_states LOCAL) (state h) = true /\
    g = advance (commit_states LOCAL) h) ch -> is_Some (got_commitsig_msg ch).
Proof using C.
  induction 1 as [|g ch (h & Hh & Ei & ->) _ [rep IH]]; cbn [got_commitsig_msg]; [done|]. rewrite IH. cbn [mbind option_bind].
  apply report_changed; [|done]. pose proof (cp_tidy _ _ _ _ _ C) as Td. by eapply Forall_forall in Td.
Qed.

Lemma commit_changed c b ch : channel_rcvd_commit (peer_channel p) = Some (c, b, ch) ->
  Forall (fun g => exists h, h ∈ l /\ in_states (commit_states LOCAL) (state h) = true /\
    g = advance (commit_states LOCAL) h) ch.
Proof using C.
  unfold channel_rcvd_commit, commit_side, change_htlcs. rewrite (inv_htlcs _ _ _ (lk_inv _ _ _ _ _ (cp_linked _ _ _ _ _ C))).
  cbn [mbind option_bind]. destruct (change_list _ _ _ l) as [[[[v' l'] fl] ch']|] eqn:E; [|by case_match]. cbn [mbind option_bind].
  apply (change_list_changed LOCAL rcvd_commit_states) in E; [|exact (legal_commit LOCAL)].
  destruct (negb _); [destruct (fl =? 0); [|done]|]; cbn; by intros [= _ _ <-].
Qed.

(** The commitment at hand is one that the funder, the other side, cannot pay for. *)
Definition overdrawn : Prop := exists c ch, channel_rcvd_commit (peer_channel p) = Some (c, true, ch) /\ funder c = REMOTE /\
  can_funder_afford_feerate c (channel_feerate c LOCAL) = false.

Lemma smooth_check_htlc_sigs key x p0 GF GS GA :
  Forall (fun x => check_tx_sig x.1.1 0 None (Some x.1.2) key x.2 = Some true) x -> smooth (check_htlc_sigs key x) p0 GF GS GA.
Proof using Type.
  induction 1 as [|[[tx wscript] sig] x E _ IH]; cbn [check_htlc_sigs]; [apply smooth_ret|]. cbn in E.
  eapply smooth_or_abort; [exact E|]. exact IH.
Qed.

Lemma smooth_peer_commit chan sig sigs c0 l0 X0 (GF GS : Prop) : enabled T (other v) OCommit X ->
  linked T (other v) c0 l0 X0 -> ends (peer_channel p) c0 -> same_side v X0 (apply_op T (other v) OCommit X) ->
  let n := at_side (next_index p) LOCAL in signed c0 (next_local_per_commit p) n sig sigs ->
  no_collision (commit_scripts p) ->
  ((forall point secret, handle_get_per_commitment_point channel_seed (u64 (u64 (n - 1) + 2))
      <> Some (Some (point, Some secret))) -> GS) ->
  smooth (handle_peer_commit_sig channel_seed now uninit (Commitment_signed chan sig sigs)) p GF GS overdrawn.
Proof using C.
  intros En L0 E Ss n Sg NC HG.
  destruct (link_commit T v (peer_channel p) l X (other v) (cp_linked _ _ _ _ _ C)) as (c & ch & Ec & Lk).
  cbv zeta in *. rewrite other_other, pov_own in Ec, Lk. specialize (Lk En). pose proof (statics_commit _ _ _ _ _ _ Ec) as St.
  assert (at_side (waiting X) v = true) as Ew by (cbn [enabled] in En; by rewrite other_other in En). rewrite Ew in Ec.
  set (p1 := set_field (f := peer_channel) c p).
  assert (copy T v p1 (advance (commit_states LOCAL) <$> l) (apply_op T (other v) OCommit X)) as C1.
  { constructor; [exact Lk|apply (tidy_advances _ LOCAL), C; constructor| |apply C]. cbn. rewrite (funding_statics _ _ St). apply C. }
  pose proof (ends_statics _ _ _ St E) as E1.
  destruct (keys_of c (next_local_per_commit p) LOCAL) as [keys|] eqn:Ek; cycle 1.
  { pose proof (keys_agree c c0 (next_local_per_commit p) LOCAL E1) as A. rewrite Ek in A.
    destruct Sg as (u0 & keys0 & tx & txs & ws & wss & m0 & key & A' & _). cbn [other] in A. congruence. }
  change (commit_side (peer_channel p) LOCAL (commit_states LOCAL)) with (channel_rcvd_commit (peer_channel p)) in Ec.
  assert (commit_scripts p = scripts_of c keys LOCAL) as Es by (unfold commit_scripts; by rewrite Ec, Ek). rewrite Es in NC.
  destruct (same_txs T uninit v c _ _ c0 l0 X0 (next_local_per_commit p) n sig sigs keys Lk L0 Ss E1
    (copy_can_commit T v p1 _ _ LOCAL C1) Sg Ek NC) as (tx & txs & wscript & wscripts & map & key & Et & Ck & Ed & L1 & L2 & Fa).
  unfold handle_peer_commit_sig. apply smooth_get. eapply smooth_or_abort; [exact Ec|]. smooth_rules. cbn [negb]. cbv match. fold p1.
  apply (smooth_wp _ _ _ (fun _ p' _ => p' = p1) (fun _ => True)).
  { destruct (side_eqb (funder c) REMOTE) eqn:Ef; [|apply smooth_ret].
    unfold smooth, asserting. destruct (can_funder_afford_feerate _ _) eqn:Ea; [done|]. exists c, ch. split; [done|]. split; [by apply side_eqb_eq|done]. }
  { destruct (side_eqb (funder c) REMOTE); wp_rules; done. }
  intros _ ? _ ->. cbv zeta. eapply smooth_or_abort; [exact Et|]. cbv beta match. rewrite Ed.
  eapply smooth_or_abort; [done|]. cbv beta match. eapply smooth_or_abort; [done|]. eapply smooth_or_abort; [done|].
  eapply smooth_or_abort; [exact Ck|]. cbn [negb length].
  rewrite Nat.sub_1_r, L2. cbn [Nat.pred]. rewrite Nat.eqb_refl. cbn [negb].
  apply (smooth_wp _ _ _ (fun _ p' _ => p' = p1) (fun _ => True)).
  { by apply smooth_check_htlc_sigs. }
  { eapply wp_mono; [apply spec_check_htlc_sigs|by intros ? ? ? [? _]|done]. }
  intros _ ? _ ->. destruct (report_all ch (commit_changed c true ch Ec)) as [report Er].
  eapply smooth_or_abort; [exact Er|]. smooth_rules. exact (smooth_send_revocation T channel_seed now v p1 _ _ C1 GF GS overdrawn HG).
Qed.
End Commitments.
