(* ===== verification/TwoParty.v ===== *)
(** * Two nodes and the messages between them

    Two channel processes, each with its own signer, table and clock, and the messages in
    flight in either direction. Whatever the two masters ask and however the events
    interleave, no message of one makes the other fail the channel, except where the
    masters themselves disagree; and when nothing is in flight the two ends have the same
    commitments. *)
From stdpp Require Import gmap strings.
From S2P Require Import Prelude HtlcState Sha256 Secp Ecdsa BitcoinTx LnScript SigCheck Shachain KeyDerive Hsm Params Htlc.
From S2P Require Import CommitTx Channel Ledger ChannelInv ChannelSafety ChannelTxs Mirror Faces Duplex Link.
From S2P Require Import Channeld ChanneldSpec ChanneldLocal ChanneldRemote.
Local Open Scope Z_scope.

(** ** Per-commitment points of a signer *)
Section Points.
Context `{Secp256k1} (seed : bytes).

Definition point_at (n : Z) (point : pubkey) : Prop :=
  exists sh, derive_shaseed seed = Some sh /\ per_commit_point sh n = Some (Some point).

Definition secret_at (n : Z) (secret : bytes) : Prop :=
  exists sh, derive_shaseed seed = Some sh /\ per_commit_secret sh n = Some (Some secret).

Lemma point_fun n a b : point_at n a -> point_at n b -> a = b.
Proof. intros (sh & Es & Ea) (sh' & Es' & Eb). congruence. Qed.

Lemma point_bound n a : point_at n a -> n < 2 ^ 48.
Proof.
  intros (sh & _ & E). unfold per_commit_point, per_commit_secret in E.
  destruct (Z.leb_spec (Z.shiftl 1 (Z.of_nat SHACHAIN_BITS)) n) as [|B]; [discriminate E|exact B].
Qed.

Lemma secret_point n s a : secret_at n s -> point_at n a -> pubkey_from_privkey s = Some a.
Proof.
  intros (sh & Es & E) (sh' & Es' & Ea). rewrite Es in Es'. injection Es' as <-.
  unfold per_commit_point in Ea. rewrite E in Ea. cbn [mbind option_bind] in Ea. by injection Ea.
Qed.

Lemma get_point n a s : handle_get_per_commitment_point seed n = Some (Some (a, s)) ->
  point_at n a /\ forall x, s = Some x -> secret_at (n - 2) x.
Proof.
  unfold handle_get_per_commitment_point. destruct (derive_shaseed seed) as [sh|] eqn:Es; [|done]. cbn [mbind option_bind].
  intros E. destruct (per_commit_point sh n) as [[b|]|] eqn:Ep; [|discriminate E|discriminate E]. cbn [mbind option_bind req_some] in E.
  destruct (2 <=? n).
  - destruct (per_commit_secret sh (n - 2)) as [[x|]|] eqn:Ex; [|discriminate E|discriminate E].
    cbn [mbind option_bind req_some] in E. injection E as <- <-. split; [exact (ex_intro _ sh (conj Es Ep))|].
    intros y E. injection E as <-. exact (ex_intro _ sh (conj Es Ex)).
  - injection E as <- <-. split; [exact (ex_intro _ sh (conj Es Ep))|]. discriminate.
Qed.
(** With a point, the secret of the one before the last comes too. *)
Lemma point_given n a b : 2 <= n -> point_at n a -> point_at (n - 2) b ->
  exists s, handle_get_per_commitment_point seed n = Some (Some (a, Some s)).
Proof.
  intros B (sh & Es & Ea) (sh' & Es' & Eb). rewrite Es in Es'. injection Es' as <-.
  unfold handle_get_per_commitment_point. rewrite Es. cbn [mbind option_bind]. rewrite Ea. cbn [mbind option_bind req_some].
  rewrite (proj2 (Z.leb_le _ _) B). unfold per_commit_point in Eb.
  destruct (per_commit_secret sh (n - 2)) as [[x|]|]; [|discriminate Eb|discriminate Eb]. cbn [mbind option_bind req_some]. by exists x.
Qed.
End Points.

(** ** Messages in flight *)
#[global] Instance op_eq_dec : EqDecision op.
Proof. solve_decision. Defined.

Section Flight.
Context `{Secp256k1} `{!Signatures} (T : terms).

Definition revokes (msgs : list wire_msg) : list (bytes * pubkey) :=
  omap (fun m => match m with Revoke_and_ack _ s point => Some (s, point) | _ => None end) msgs.

Lemma revokes_ops msgs : ORevoke ∉ ops msgs -> revokes msgs = [].
Proof.
  induction msgs as [|m msgs IH]; [done|]. unfold ops, revokes in *. csimpl. intros N.
  destruct m; cbn in *; first [apply IH; set_solver | set_solver].
Qed.

Lemma commits_app a b : commits (a ++ b) = commits a ++ commits b.
Proof. apply omap_app. Qed.

Lemma revokes_app a b : revokes (a ++ b) = revokes a ++ revokes b.
Proof. apply omap_app. Qed.
(** The state after some messages of [p]. *)
Definition after1 (p : side) (m : wire_msg) (X : duplex) : duplex :=
  match op_of m with Some o => apply_op T p o X | None => X end.

(** What is said of each commitment in flight holds where it takes effect. *)
Fixpoint flight (Pl : signature -> list signature -> duplex -> Prop) (p : side) (msgs : list wire_msg) (X : duplex) : Prop :=
  match msgs with
  | [] => True
  | m :: msgs =>
      match m with Commitment_signed _ sig sigs => Pl sig sigs (after1 p m X) | _ => True end /\
      flight Pl p msgs (after1 p m X)
  end.

Lemma ops_cons m msgs : ops (m :: msgs) = match op_of m with Some o => o :: ops msgs | None => ops msgs end.
Proof. unfold ops. csimpl. by destruct (op_of m). Qed.

Lemma leads_cons p m msgs X Y : leads T p (ops (m :: msgs)) X Y <->
  (forall o, op_of m = Some o -> enabled T p o X) /\ leads T p (ops msgs) (after1 p m X) Y.
Proof.
  rewrite ops_cons. unfold after1. destruct (op_of m) as [o|]; cbn [leads].
  - split; [|naive_solver]. intros [E L]. split; [|done]. by intros ? [= <-].
  - naive_solver.
Qed.

Lemma flight_app Pl p a b X Y : leads T p (ops a) X Y -> flight Pl p (a ++ b) X <-> flight Pl p a X /\ flight Pl p b Y.
Proof.
  revert X. induction a as [|m a IH]; intros X L; [cbn in *; subst; naive_solver|].
  apply leads_cons in L as [_ L]. cbn [app flight]. rewrite (IH _ L). naive_solver.
Qed.

Lemma flight_none Pl p msgs X : commits msgs = [] -> flight Pl p msgs X.
Proof.
  revert X. induction msgs as [|m msgs IH]; intros X E; [done|]. unfold commits in *. csimpl in E. cbn [flight].
  destruct m; cbn in E; try done; (split; [done|by apply IH]).
Qed.

Lemma flight_last (Pl : signature -> list signature -> duplex -> Prop) p msgs a X Y sig sigs :
  ops msgs = a ++ [OCommit] -> OCommit ∉ a -> leads T p (ops msgs) X Y -> commits msgs = [(sig, sigs)] ->
  Pl sig sigs Y -> flight Pl p msgs X.
Proof.
  revert a X. induction msgs as [|m msgs IH]; intros a X Eo Na L Ec HP; [done|]. apply leads_cons in L as [_ L].
  rewrite ops_cons in Eo. cbn [flight]. destruct (decide (op_of m = Some OCommit)) as [Em|Em].
  - destruct m; try discriminate Em. cbn [op_of] in Eo. destruct a as [|o a]; [|injection Eo as <- _; by destruct Na; left].
    injection Eo as Eo. unfold commits in Ec. csimpl in Ec. injection Ec as <- <- Ec. rewrite Eo in L. cbn in L. subst Y.
    split; [done|]. apply flight_none. exact Ec.
  - assert (exists a', ops msgs = a' ++ [OCommit] /\ OCommit ∉ a') as (a' & Eo' & Na').
    { destruct (op_of m) as [o|]; [|by exists a]. destruct a as [|o' a]; [by injection Eo as -> _|].
      injection Eo as _ Eo. exists a. split; [done|]. set_solver. }
    split; [by destruct m|]. eapply IH; try done. unfold commits in *. csimpl in Ec. by destruct m.
Qed.

Lemma flight_mono (Pl Pl' : signature -> list signature -> duplex -> Prop) p msgs X :
  (forall sig sigs Z, Pl sig sigs Z -> Pl' sig sigs Z) -> flight Pl p msgs X -> flight Pl' p msgs X.
Proof.
  intros HP. revert X. induction msgs as [|m msgs IH]; intros X F; [done|]. destruct F as [F1 F2].
  split; [|by apply IH]. destruct m; auto.
Qed.

(** The other end's operation, done before. *)
Lemma flight_other Pl p o msgs X Y : keyed X -> leads T p (ops msgs) X Y -> enabled T (other p) o X ->
  (forall b, b ∈ ops msgs -> clash o b = false) ->
  (forall sig sigs Z, keyed Z -> enabled T (other p) o Z -> Pl sig sigs Z -> Pl sig sigs (apply_op T (other p) o Z)) ->
  flight Pl p msgs X -> flight Pl p msgs (apply_op T (other p) o X).
Proof.
  intros K L En Cl HP. revert X K L En. induction msgs as [|m msgs IH]; intros X K L En F; [done|].
  apply leads_cons in L as [E1 L]. destruct F as [F1 F2]. cbn [flight].
  assert (keyed (after1 p m X) /\ enabled T (other p) o (after1 p m X) /\
          after1 p m (apply_op T (other p) o X) = apply_op T (other p) o (after1 p m X)) as (K' & En' & Ea).
  { unfold after1 in *. destruct (op_of m) as [b|] eqn:Eb; [|done]. specialize (E1 b eq_refl).
    split; [by apply op_keyed|]. pose proof (enabled_after T (other p) o b X K En) as A. rewrite other_other in A.
    split; [by apply A|]. apply ops_commute; try done. rewrite ops_cons, Eb in Cl.
    specialize (Cl b ltac:(left)). by destruct o, b. }
  rewrite Ea. split.
  - destruct m; try done. by apply HP.
  - apply IH; try done. intros b Hb. apply Cl. rewrite ops_cons. destruct (op_of m); [by right|done].
Qed.

(** A new fee rate comes with the commitment that uses it. *)
Fixpoint fees_ok (l : list op) : Prop :=
  match l with [] => True | OFee _ :: l => OCommit ∈ l /\ fees_ok l | _ :: l => fees_ok l end.

Lemma fees_ok_app a b : fees_ok a -> fees_ok b -> fees_ok (a ++ b).
Proof.
  intros Fa Fb. induction a as [|o a IH]; [done|]. destruct o; cbn in *; auto. destruct Fa. split; [set_solver|auto].
Qed.

Lemma fees_ok_commit l rate : fees_ok l -> OFee rate ∈ l -> OCommit ∈ l.
Proof. induction l as [|o l IH]; [set_solver|]. destruct o; cbn; intros F; rewrite !elem_of_cons; naive_solver. Qed.

Lemma commits_elem msgs : OCommit ∈ ops msgs <-> commits msgs <> [].
Proof.
  induction msgs as [|m msgs IH]; [cbn; set_solver|]. unfold ops, commits in *. csimpl.
  destruct m; cbn; rewrite ?elem_of_cons; naive_solver.
Qed.

Lemma revokes_elem msgs : ORevoke ∈ ops msgs <-> revokes msgs <> [].
Proof.
  induction msgs as [|m msgs IH]; [cbn; set_solver|]. unfold ops, revokes in *. csimpl.
  destruct m; cbn; rewrite ?elem_of_cons; naive_solver.
Qed.
End Flight.

(** ** The system *)
Section System.
Context `{Secp256k1} `{!Signatures}.

(** What belongs to one node. *)
Record node_env := NodeEnv {
  ne_seed : bytes;
  ne_privkey : bytes;
  ne_table : HtlcTable;
  ne_onions : Onions
}.

(** The two processes, and what each has sent that the other has not read. *)
Record system := System { nodes : sided peer; sent : sided (list wire_msg) }.

Context (env : side -> node_env).

Definition node_event (s : side) (now : Z) (uninit : Z * Z) (uninit_id : bytes) (e : event) : run unit :=
  @handle_event _ _ (ne_table (env s)) (ne_onions (env s)) (ne_seed (env s)) (ne_privkey (env s)) now uninit uninit_id e.

(** Node [s] went on to [p'] and sent [out]. *)
Definition goes (s : side) (p' : peer) (out : list output) (S : system) : system :=
  System (set_side s p' (nodes S)) (set_side s (at_side (sent S) s ++ to_peer out) (sent S)).

(** The first message for [s] is gone. *)
Definition taken (s : side) (rest : list wire_msg) (S : system) : system :=
  System (nodes S) (set_side (other s) rest (sent S)).

(** A node that has not finished handles a request, its timer, or a message. *)
Inductive step (S : system) : system -> Prop :=
  | step_own s now uninit uninit_id e p' out :
      own_event e -> shutdown_complete (at_side (nodes S) s) = Some false ->
      node_event s now uninit uninit_id e (at_side (nodes S) s) = Done () p' out -> step S (goes s p' out S)
  | step_take s now uninit uninit_id m rest p' out :
      at_side (sent S) (other s) = m :: rest -> shutdown_complete (at_side (nodes S) s) = Some false ->
      node_event s now uninit uninit_id (Peer_msg m) (at_side (nodes S) s) = Done () p' out ->
      step S (goes s p' out (taken s rest S)).
End System.

(** ** One direction *)
Section Direction.
Context `{Secp256k1} `{!Signatures} (T : terms).

(** Where the commitments of one node are: [n] is the number of its next one, with point
    [nl]; its peer will sign number [next], got [rr] revocations, and has these points;
    [cs] and [rs] are the commitments and revocations in flight. *)
Record phase (seed : bytes) (n : Z) (nl : pubkey) (next rr : Z) (rem old : pubkey)
    (cs : list (signature * list signature)) (rs : list (bytes * pubkey)) : Prop := {
  ph_pos : 1 <= n;
  ph_received : 0 <= rr;
  ph_next : point_at seed n nl;
  ph_remote : point_at seed (rr + 1) rem;
  ph_old : point_at seed rr old;
  ph_state : (cs = [] /\ rs = [] /\ next = n /\ rr = n - 1) \/
             ((exists x, cs = [x]) /\ rs = [] /\ next = n + 1 /\ rr = n - 1) \/
             (cs = [] /\ (exists secret, rs = [(secret, nl)] /\ secret_at seed (n - 2) secret) /\ next = n /\ rr = n - 2)
}.

(** A commitment was signed for number [n] at [nl], by an end with the terms [st]. *)
Definition pledge (p : side) (st : _) (n : Z) (nl : pubkey) (sig : signature) (sigs : list signature) (Z : duplex) : Prop :=
  exists c0 l0 X0, linked T p c0 l0 X0 /\ statics c0 = st /\ signed c0 nl n sig sigs /\ same_side (other p) X0 Z.

(** [P], the end [s], and what it sent, as seen with [Q], the other one. *)
Record side_inv (seeds : side -> bytes) (s : side) (P Q : peer) (qs qr : list wire_msg) (X : duplex) : Prop := {
  si_copy : exists l Y, leads T s (ops qs) X Y /\ copy T s P l Y;
  si_phase : phase (seeds (other s)) (at_side (next_index Q) LOCAL) (next_local_per_commit Q)
    (at_side (next_index P) REMOTE) (revocations_received P) (remote_per_commit P) (old_remote_per_commit P)
    (commits qs) (revokes qr);
  si_flight : flight T (pledge s (statics (peer_channel P)) (at_side (next_index Q) LOCAL) (next_local_per_commit Q)) s qs X;
  si_fees : fees_ok (ops qs);
  si_sane : Forall (sane (channel_id P)) qs;
  si_chan : channel_id Q = channel_id P;
  si_ends : ends (peer_channel P) (peer_channel Q);
  si_keys : holds_keys (seeds s) (peer_channel P)
}.

(** What the peer of a signer must keep. *)
Definition same_mine (Q Q' : peer) : Prop :=
  at_side (next_index Q') LOCAL = at_side (next_index Q) LOCAL /\ next_local_per_commit Q' = next_local_per_commit Q /\
  channel_id Q' = channel_id Q /\ statics (peer_channel Q') = statics (peer_channel Q).

Lemma ends_statics2 c d d' : statics d' = statics d -> ends c d -> ends c d'.
Proof.
  unfold statics. intros E En. injection E as E1 E2 E3 E4 E5 E6 E7 E8 _.
  constructor; rewrite ?E1, ?E2, ?E3, ?E4, ?E5, ?E6, ?E7, ?E8; apply En.
Qed.

Lemma side_inv_peer seeds s P Q Q' qs qr qr' X : side_inv seeds s P Q qs qr X -> same_mine Q Q' ->
  revokes qr' = revokes qr -> side_inv seeds s P Q' qs qr' X.
Proof.
  intros [Cp Ph Fl Fe Sn Ch En Ke] (M1 & M2 & M3 & M4) R.
  constructor; rewrite ?M1, ?M2, ?M3, ?R; try done.
  eapply ends_statics2; [|exact En]. exact M4.
Qed.
Lemma side_inv_heard seeds s P Q qs qr X now : side_inv seeds s P Q qs qr X -> side_inv seeds s (heard now P) Q qs qr X.
Proof.
  intros [(l & Y & L & C) Ph Fl Fe Sn Ch En Ke]. constructor; try done. exists l, Y. split; [done|]. by eapply copy_core.
Qed.

Lemma phase_small seed n nl next rr rem old cs rs : phase seed n nl next rr rem old cs rs ->
  n < 2 ^ 48 /\ 0 <= next < 2 ^ 49 /\ 0 <= rr < 2 ^ 48.
Proof.
  intros Ph. pose proof (point_bound _ _ _ (ph_next _ _ _ _ _ _ _ _ _ Ph)) as B.
  pose proof (ph_pos _ _ _ _ _ _ _ _ _ Ph). pose proof (ph_received _ _ _ _ _ _ _ _ _ Ph). eval_pow2.
  destruct (ph_state _ _ _ _ _ _ _ _ _ Ph) as [(_ & _ & -> & ->)|[(_ & _ & -> & ->)|(_ & _ & -> & ->)]]; lia.
Qed.

Lemma u64_at z : 0 <= z < 2 ^ 50 -> u64 z = z.
Proof. intros B. apply u64_small. unfold fits. eval_pow2. lia. Qed.

(** Only a signer with no commitment to wait for may sign. *)
Lemma phase_idle seed n nl next rr rem old cs rs : phase seed n nl next rr rem old cs rs -> rr = u64 (next - 1) ->
  cs = [] /\ rs = [] /\ next = n /\ rr = n - 1 /\ rem = nl.
Proof.
  intros Ph E. pose proof (phase_small _ _ _ _ _ _ _ _ _ Ph) as (B1 & B2 & B3). pose proof (ph_pos _ _ _ _ _ _ _ _ _ Ph).
  eval_pow2. pose proof (ph_received _ _ _ _ _ _ _ _ _ Ph).
  destruct (ph_state _ _ _ _ _ _ _ _ _ Ph) as [(-> & -> & -> & ->)|[(_ & _ & -> & ->)|(_ & _ & -> & ->)]];
    rewrite u64_at in E by (eval_pow2; lia); [|lia|lia].
  repeat (split; [done|]). eapply point_fun; [|apply Ph]. replace n with (n - 1 + 1) by lia. apply Ph.
Qed.

Lemma phase_sign seed n nl next rr rem old cs rs x : phase seed n nl next rr rem old cs rs -> rr = u64 (next - 1) ->
  phase seed n nl (u64 (next + 1)) rr rem old [x] rs.
Proof.
  intros Ph E. destruct (phase_idle _ _ _ _ _ _ _ _ _ Ph E) as (-> & -> & -> & Er & _).
  pose proof (phase_small _ _ _ _ _ _ _ _ _ Ph) as (B1 & B2 & B3). eval_pow2.
  rewrite u64_at by (eval_pow2; lia). constructor; try apply Ph. right. left. split; [by exists x|done].
Qed.

(** A step of the node's own. *)
Lemma own_dir seeds s P Q qs qr X l Y P' msgs : side_inv seeds s P Q qs qr X ->
  leads T s (ops qs) X Y -> copy T s P l Y -> steps T s P Y P' msgs ->
  side_inv seeds s P' Q (qs ++ msgs) qr X /\ same_mine P P' /\ revokes (qs ++ msgs) = revokes qs.
Proof.
  intros I L C (l' & Y' & A & C' & St & Sn). assert (leads T s (ops msgs) Y Y') as L' by by destruct A.
  assert (ORevoke ∉ ops msgs) as Nr.
  { destruct A as [Fu _ _ _|fees sig sigs Eo Hf _ _ _ _ _].
    - rewrite Forall_forall in Fu. by intros ?%Fu.
    - rewrite Eo, not_elem_of_app. split; [|set_solver]. destruct Hf as [->|[rate ->]]; set_solver. }
  apply revokes_ops in Nr. rewrite revokes_app, Nr, app_nil_r.
  assert (channel_id P' = channel_id P /\ at_side (next_index P') LOCAL = at_side (next_index P) LOCAL /\
          next_local_per_commit P' = next_local_per_commit P) as (Ec & Ei & En).
  { destruct A as [_ _ K _|? ? ? _ _ _ _ K _ _]; (split; [exact (f_equal k_chan K)|split; [|exact (f_equal k_next_local K)]]).
    - exact (f_equal (fun k => at_side (k_index k) LOCAL) K).
    - rewrite (f_equal (fun k => at_side (k_index k) LOCAL) K : at_side (next_index P') LOCAL = _). by destruct (next_index P). }
  split; [|done].
  constructor; rewrite ?ops_app, ?commits_app, ?Ec, ?St; try apply I.
  - exists l', Y'. split; [|done]. apply leads_app. by exists Y.
  - destruct A as [_ _ K Cm|fees sig sigs Eo Hf _ Rr K Cm _].
    + rewrite Cm, app_nil_r. pose proof (f_equal k_index K) as K1. pose proof (f_equal k_received K) as K2.
      pose proof (f_equal k_remote K) as K3. pose proof (f_equal k_old_remote K) as K4. cbn in K1, K2, K3, K4.
      rewrite K1, K2, K3, K4. apply I.
    + pose proof (f_equal (fun k => at_side (k_index k) REMOTE) K) as K1. pose proof (f_equal k_received K) as K2.
      pose proof (f_equal k_remote K) as K3. pose proof (f_equal k_old_remote K) as K4. cbn [k_index core_of k_received k_remote k_old_remote] in *.
      rewrite at_set_side in K1. rewrite K1, K2, K3, K4, Cm.
      destruct (phase_idle _ _ _ _ _ _ _ _ _ (si_phase _ _ _ _ _ _ _ I) Rr) as (-> & _). eapply phase_sign; [apply I|done].
  - apply (flight_app T _ s qs msgs X Y L). split; [apply I|].
    destruct A as [_ _ _ Cm|fees sig sigs Eo Hf _ Rr K Cm Sg]; [by apply flight_none|].
    eapply (flight_last T _ s msgs fees Y Y' sig sigs); try done.
    { destruct Hf as [->|[rate ->]]; set_solver. }
    destruct (phase_idle _ _ _ _ _ _ _ _ _ (si_phase _ _ _ _ _ _ _ I) Rr) as (_ & _ & En' & _ & Er). rewrite <- En', <- Er.
    exists (peer_channel P'), l', Y'. split; [apply C'|]. split; [exact St|]. split; [exact Sg|done].
  - apply fees_ok_app; [apply I|]. destruct A as [Fu _ _ _|fees sig sigs Eo Hf _ _ _ _ _].
    + clear - Fu. induction Fu as [|o k Ho _ IH]; [done|]. by destruct o.
    + rewrite Eo. destruct Hf as [->|[rate ->]]; cbn; [done|]. split; [set_solver|done].
  - apply Forall_app. split; [apply I|done].
  - eapply ends_statics; [exact St|apply I].
  - eapply keys_statics; [exact St|apply I].
Qed.
(** ** A message is read *)
Lemma no_clash seeds s P Q qs m rest X o b : side_inv seeds s P Q qs (m :: rest) X ->
  side_inv seeds (other s) Q P (m :: rest) qs X -> op_of m = Some o -> b ∈ ops qs -> clash o b = false.
Proof.
  intros Is Iq Eo Hb. assert (o ∈ ops (m :: rest)) as Ho by (rewrite ops_cons, Eo; left).
  assert (ORevoke ∈ ops (m :: rest) -> OCommit ∉ ops qs) as A.
  { rewrite revokes_elem, commits_elem. intros Hr Hc.
    destruct (ph_state _ _ _ _ _ _ _ _ _ (si_phase _ _ _ _ _ _ _ Is)) as [(? & ? & _)|[(_ & ? & _)|(? & _)]]; by auto. }
  assert (ORevoke ∈ ops qs -> OCommit ∉ ops (m :: rest)) as B.
  { rewrite revokes_elem, commits_elem. intros Hr Hc.
    destruct (ph_state _ _ _ _ _ _ _ _ _ (si_phase _ _ _ _ _ _ _ Iq)) as [(? & ? & _)|[(_ & ? & _)|(? & _)]]; by auto. }
  pose proof (fun rate => fees_ok_commit (ops qs) rate (si_fees _ _ _ _ _ _ _ Is)) as Fs.
  pose proof (fun rate => fees_ok_commit (ops (m :: rest)) rate (si_fees _ _ _ _ _ _ _ Iq)) as Fq.
  destruct o, b; try done; exfalso; naive_solver.
Qed.

Lemma side_inv_pop seeds s P Q m rest qr X : side_inv seeds s P Q (m :: rest) qr X -> commits (m :: rest) = commits rest ->
  side_inv seeds s P Q rest qr (after1 T s m X).
Proof.
  intros [(l & Y & L & C) Ph Fl Fe Sn Ch En Ke] Ec. rewrite Ec in Ph. apply leads_cons in L as [_ L]. destruct Fl as [_ Fl].
  constructor; try done.
  - by exists l, Y.
  - rewrite ops_cons in Fe. destruct (op_of m) as [[]|]; try done. by destruct Fe.
  - by inversion Sn.
Qed.

Lemma pledge_other p st n nl o sig sigs Z : keyed Z -> enabled T (other p) o Z ->
  pledge p st n nl sig sigs Z -> pledge p st n nl sig sigs (apply_op T (other p) o Z).
Proof.
  intros K En (c0 & l0 & X0 & L & St & Sg & Ss). exists c0, l0, X0. split; [done|]. split; [done|]. split; [done|].
  etransitivity; [exact Ss|]. by apply op_same.
Qed.

(** The receiver, which has a copy of [Y3] afterwards. *)
Lemma side_inv_take seeds s P Q qs m rest X Y P' msgs l' Y3 :
  side_inv seeds s P Q qs (m :: rest) X -> side_inv seeds (other s) Q P (m :: rest) qs X -> keyed X ->
  (forall o, op_of m = Some o -> enabled T (other s) o X) -> leads T s (ops qs) X Y ->
  leads T s (ops msgs) (after1 T (other s) m Y) Y3 -> copy T s P' l' Y3 ->
  fees_ok (ops msgs) -> commits msgs = [] -> Forall (sane (channel_id P)) msgs ->
  statics (peer_channel P') = statics (peer_channel P) -> channel_id P' = channel_id P ->
  phase (seeds (other s)) (at_side (next_index Q) LOCAL) (next_local_per_commit Q)
    (at_side (next_index P') REMOTE) (revocations_received P') (remote_per_commit P') (old_remote_per_commit P')
    (commits qs) (revokes rest) ->
  side_inv seeds s P' Q (qs ++ msgs) rest (after1 T (other s) m X).
Proof.
  intros Is Iq K En L L3 C3 Fe Cm Sn St Ec Ph.
  assert (leads T s (ops qs) (after1 T (other s) m X) (after1 T (other s) m Y) /\
    flight T (pledge s (statics (peer_channel P)) (at_side (next_index Q) LOCAL) (next_local_per_commit Q)) s qs
      (after1 T (other s) m X)) as [L1 F1].
  { pose proof (no_clash seeds s P Q qs m rest X) as Cl. unfold after1. destruct (op_of m) as [o|]; [|by split; [done|apply Is]].
    specialize (En o eq_refl). split.
    - pose proof (leads_commute T (other s) o (ops qs) X Y K En) as A. rewrite other_other in A.
      apply A; [done|]. intros b Hb. by eapply Cl.
    - eapply flight_other; try done; [intros b Hb; by eapply Cl|intros; by apply pledge_other|apply Is]. }
  constructor; rewrite ?ops_app, ?commits_app, ?Cm, ?app_nil_r, ?St, ?Ec; try apply Is; try done.
  - exists l', Y3. split; [|done]. apply leads_app. by eexists.
  - apply (flight_app T _ s qs msgs _ _ L1). split; [done|by apply flight_none].
  - apply fees_ok_app; [apply Is|done].
  - apply Forall_app. split; [apply Is|done].
  - eapply ends_statics; [exact St|apply Is].
  - eapply keys_statics; [exact St|apply Is].
Qed.
End Direction.

(** ** Both directions *)
Section Both.
Context `{Secp256k1} `{!Signatures} (T : terms).
Context (env : side -> node_env).

Definition seeds (s : side) : bytes := ne_seed (env s).

Definition inv (S : system) : Prop := exists X, runs_to T X /\ forall s,
  side_inv T seeds s (at_side (nodes S) s) (at_side (nodes S) (other s)) (at_side (sent S) s) (at_side (sent S) (other s)) X.

Lemma inv_intro s P Q qs qr X S : runs_to T X -> at_side (nodes S) s = P -> at_side (nodes S) (other s) = Q ->
  at_side (sent S) s = qs -> at_side (sent S) (other s) = qr ->
  side_inv T seeds s P Q qs qr X -> side_inv T seeds (other s) Q P qr qs X -> inv S.
Proof.
  intros K <- <- <- <- Is Iq. exists X. split; [done|]. intros t.
  assert (t = s \/ t = other s) as [-> | ->] by (destruct s, t; auto); [done|]. by rewrite other_other.
Qed.

Lemma goes_parts s p' out S : at_side (nodes (goes s p' out S)) s = p' /\
  at_side (nodes (goes s p' out S)) (other s) = at_side (nodes S) (other s) /\
  at_side (sent (goes s p' out S)) s = at_side (sent S) s ++ to_peer out /\
  at_side (sent (goes s p' out S)) (other s) = at_side (sent S) (other s).
Proof. by destruct s. Qed.

Lemma taken_parts s rest S : nodes (taken s rest S) = nodes S /\
  at_side (sent (taken s rest S)) s = at_side (sent S) s /\ at_side (sent (taken s rest S)) (other s) = rest.
Proof. by destruct s. Qed.

Lemma inv_goes s S P' out X : runs_to T X ->
  side_inv T seeds s P' (at_side (nodes S) (other s)) (at_side (sent S) s ++ to_peer out) (at_side (sent S) (other s)) X ->
  side_inv T seeds (other s) (at_side (nodes S) (other s)) P' (at_side (sent S) (other s)) (at_side (sent S) s ++ to_peer out) X ->
  inv (goes s P' out S).
Proof. intros K Is Iq. destruct (goes_parts s P' out S) as (E1 & E2 & E3 & E4). exact (inv_intro s _ _ _ _ X _ K E1 E2 E3 E4 Is Iq). Qed.

Lemma core_mine P P' : core_of P' = core_of P -> statics (peer_channel P') = statics (peer_channel P) -> same_mine P P'.
Proof.
  intros K St. split; [exact (f_equal (fun k => at_side (k_index k) LOCAL) K)|]. split; [exact (f_equal k_next_local K)|].
  split; [exact (f_equal k_chan K)|done].
Qed.

Lemma core_phase seed n nl P P' cs rs : core_of P' = core_of P ->
  phase seed n nl (at_side (next_index P) REMOTE) (revocations_received P) (remote_per_commit P) (old_remote_per_commit P) cs rs ->
  phase seed n nl (at_side (next_index P') REMOTE) (revocations_received P') (remote_per_commit P') (old_remote_per_commit P') cs rs.
Proof.
  intros K. pose proof (f_equal k_index K) as K1. pose proof (f_equal k_received K) as K2.
  pose proof (f_equal k_remote K) as K3. pose proof (f_equal k_old_remote K) as K4. cbn in K1, K2, K3, K4.
  by rewrite K1, K2, K3, K4.
Qed.

(** ** Reading one message *)
Section Reading.
Context (s : side) (P Q : peer) (qs rest : list wire_msg) (m : wire_msg) (X : duplex).
Context (Is : side_inv T seeds s P Q qs (m :: rest) X) (Iq : side_inv T seeds (other s) Q P (m :: rest) qs X) (K : keyed X).

Lemma enabled_head o : op_of m = Some o -> enabled T (other s) o X.
Proof using Iq. intros E. destruct (si_copy _ _ _ _ _ _ _ _ Iq) as (l & Y & L & _). apply leads_cons in L as [En _]. by apply En. Qed.

Lemma enabled_copy o Y : op_of m = Some o -> leads T s (ops qs) X Y -> enabled T (other s) o Y.
Proof using Is Iq K.
  intros E L. pose proof (leads_commute T (other s) o (ops qs) X Y K (enabled_head o E)) as A. rewrite other_other in A.
  apply A; [done|]. intros b Hb. by eapply no_clash.
Qed.

Lemma runs_after : runs_to T X -> runs_to T (after1 T (other s) m X).
Proof using Iq. unfold after1. destruct (op_of m) as [o|] eqn:E; [|done]. intros R. apply runs_op; [done|by apply enabled_head]. Qed.

(** A message that changes nothing but what both share. *)
Lemma read_core P' msgs l' Y : leads T s (ops qs) X Y -> copy T s P' l' (after1 T (other s) m Y) ->
  statics (peer_channel P') = statics (peer_channel P) -> core_of P' = core_of P ->
  ops msgs = [] -> Forall (sane (channel_id P)) msgs -> commits (m :: rest) = commits rest -> revokes (m :: rest) = revokes rest ->
  side_inv T seeds s P' Q (qs ++ msgs) rest (after1 T (other s) m X) /\
  side_inv T seeds (other s) Q P' rest (qs ++ msgs) (after1 T (other s) m X).
Proof using Is Iq K.
  intros L C St Kc O Sn Ec Er. assert (commits msgs = [] /\ revokes msgs = []) as [Cm Rm].
  { split; [by apply commits_ops|]. apply revokes_ops. rewrite O. set_solver. }
  split.
  - eapply (side_inv_take T seeds s P Q qs m rest X Y P' msgs l'); rewrite ?O; try done; [apply enabled_head|exact (f_equal k_chan Kc)|].
    rewrite <- Er. eapply core_phase; [done|apply Is].
  - apply side_inv_pop; [|done]. eapply side_inv_peer; [exact Iq|by apply core_mine|]. by rewrite revokes_app, Rm, app_nil_r.
Qed.
(** A revocation: the secret of the point before the last. *)
Lemma revoke_phase chan secret point : m = Revoke_and_ack chan secret point ->
  let n := at_side (next_index Q) LOCAL in
  commits qs = [] /\ revokes rest = [] /\ point = next_local_per_commit Q /\ secret_at (seeds (other s)) (n - 2) secret /\
  at_side (next_index P) REMOTE = n /\ revocations_received P = n - 2 /\ 2 <= n < 2 ^ 48.
Proof using Is Iq.
  intros -> n. pose proof (si_phase _ _ _ _ _ _ _ _ Is) as Ph. fold n in Ph.
  pose proof (phase_small _ _ _ _ _ _ _ _ _ Ph) as (B1 & B2 & B3).
  assert (revokes (Revoke_and_ack chan secret point :: rest) = (secret, point) :: revokes rest) as Er by done.
  destruct (ph_state _ _ _ _ _ _ _ _ _ Ph) as [(_ & R & _)|[(_ & R & _)|(C & (x & R & Sx) & N & Rr)]]; rewrite Er in R; try done.
  injection R as -> -> R. split; [done|]. split; [done|]. split; [done|]. split; [done|]. split; [done|]. split; [done|]. lia.
Qed.

Lemma revoke_ready chan secret point : m = Revoke_and_ack chan secret point ->
  revocations_received P = u64 (at_side (next_index P) REMOTE - 2) /\ pubkey_from_privkey secret = Some (old_remote_per_commit P).
Proof using Is Iq.
  intros E. destruct (revoke_phase chan secret point E) as (_ & _ & _ & Sx & N & Rr & B). split.
  - rewrite N, Rr, u64_at; [done|]. eval_pow2. lia.
  - eapply secret_point; [exact Sx|]. rewrite <- Rr. apply Is.
Qed.

Lemma read_revoke chan secret point P' msgs l' Y : m = Revoke_and_ack chan secret point ->
  leads T s (ops qs) X Y -> copy T s P' l' (after1 T (other s) m Y) ->
  statics (peer_channel P') = statics (peer_channel P) ->
  core_of P' = Core (next_index P) (next_local_per_commit P) point (remote_per_commit P)
      (u64 (revocations_received P + 1)) (funding_locked P) (channel_id P) ->
  ops msgs = [] -> Forall (sane (channel_id P)) msgs ->
  side_inv T seeds s P' Q (qs ++ msgs) rest (after1 T (other s) m X) /\
  side_inv T seeds (other s) Q P' rest (qs ++ msgs) (after1 T (other s) m X).
Proof using Is Iq K.
  intros E L C St Kc O Sn. assert (commits msgs = [] /\ revokes msgs = []) as [Cm Rm].
  { split; [by apply commits_ops|]. apply revokes_ops. rewrite O. set_solver. }
  destruct (revoke_phase chan secret point E) as (Cq & Rq & Ep & Sx & N & Rr & B).
  split.
  - eapply (side_inv_take T seeds s P Q qs m rest X Y P' msgs l'); rewrite ?O; try done; [apply enabled_head|exact (f_equal k_chan Kc)|].
    pose proof (f_equal k_index Kc) as K1. pose proof (f_equal k_received Kc) as K2.
    pose proof (f_equal k_remote Kc) as K3. pose proof (f_equal k_old_remote Kc) as K4. cbn in K1, K2, K3, K4.
    pose proof (si_phase _ _ _ _ _ _ _ _ Is) as Ph. rewrite K1, K2, K3, K4, Cq, Rq, N, Rr.
    rewrite u64_at by (eval_pow2; lia). constructor; [lia|lia|apply Ph| | |].
    + replace (_ - 2 + 1 + 1) with (at_side (next_index Q) LOCAL) by lia. rewrite Ep. apply Ph.
    + rewrite <- Rr. apply Ph.
    + left. split; [done|]. split; [done|]. split; [done|]. lia.
  - apply side_inv_pop; [|by subst m]. eapply side_inv_peer; [exact Iq| |by rewrite revokes_app, Rm, app_nil_r].
    split; [exact (f_equal (fun k => at_side (k_index k) LOCAL) Kc)|]. split; [exact (f_equal k_next_local Kc)|].
    split; [exact (f_equal k_chan Kc)|done].
Qed.

(** A commitment, for the number and the point that the receiver expects. *)
Lemma commit_ready chan sig sigs Y : m = Commitment_signed chan sig sigs -> leads T s (ops qs) X Y ->
  exists c0 l0 X0, linked T (other s) c0 l0 X0 /\ ends (peer_channel P) c0 /\
    same_side s X0 (apply_op T (other s) OCommit Y) /\
    signed c0 (next_local_per_commit P) (at_side (next_index P) LOCAL) sig sigs.
Proof using Is Iq K.
  intros E L. pose proof (proj1 (si_flight _ _ _ _ _ _ _ _ Iq)) as F. rewrite E in F.
  destruct F as (c0 & l0 & X0 & L0 & St & Sg & Ss). exists c0, l0, X0. split; [done|].
  split; [eapply ends_statics2; [exact St|apply Is]|]. split; [|done]. rewrite other_other in Ss.
  etransitivity; [exact Ss|]. assert (op_of m = Some OCommit) as Eo by by rewrite E.
  pose proof (enabled_head OCommit Eo) as En.
  pose proof (leads_commute T (other s) OCommit (ops qs) X Y K En) as A. rewrite other_other in A.
  destruct A as [_ A]; [done|intros b Hb; by eapply no_clash|].
  eapply leads_same; [|exact A]. by apply op_keyed.
Qed.

Lemma commit_phase chan sig sigs : m = Commitment_signed chan sig sigs -> let n := at_side (next_index P) LOCAL in
  commits rest = [] /\ revokes qs = [] /\ at_side (next_index Q) REMOTE = n + 1 /\ revocations_received Q = n - 1 /\ 1 <= n < 2 ^ 48.
Proof using Is Iq.
  intros -> n. pose proof (si_phase _ _ _ _ _ _ _ _ Iq) as Ph. fold n in Ph.
  pose proof (phase_small _ _ _ _ _ _ _ _ _ Ph) as (B1 & B2 & B3). pose proof (ph_pos _ _ _ _ _ _ _ _ _ Ph).
  assert (commits (Commitment_signed chan sig sigs :: rest) = (sig, sigs) :: commits rest) as Er by done.
  destruct (ph_state _ _ _ _ _ _ _ _ _ Ph) as [(R & _)|[((x & R) & Rq & N & Rr)|(R & _)]]; rewrite Er in R; try done.
  by injection R as _ R.
Qed.
Lemma read_commit chan sig sigs P' msgs l' Y point secret quiet_msgs : let n := at_side (next_index P) LOCAL in
  m = Commitment_signed chan sig sigs -> leads T s (ops qs) X Y ->
  copy T s P' l' (apply_op T s ORevoke (after1 T (other s) m Y)) ->
  statics (peer_channel P') = statics (peer_channel P) ->
  core_of P' = Core (set_side LOCAL (u64 (n + 1)) (next_index P)) point (remote_per_commit P) (old_remote_per_commit P)
      (revocations_received P) (funding_locked P) (channel_id P) ->
  handle_get_per_commitment_point (seeds s) (u64 (u64 (n - 1) + 2)) = Some (Some (point, Some secret)) ->
  msgs = quiet_msgs ++ [Revoke_and_ack (channel_id P) secret point] -> ops quiet_msgs = [] ->
  Forall (sane (channel_id P)) quiet_msgs ->
  side_inv T seeds s P' Q (qs ++ msgs) rest (after1 T (other s) m X) /\
  side_inv T seeds (other s) Q P' rest (qs ++ msgs) (after1 T (other s) m X).
Proof using Is Iq K.
  intros n E L C St Kc Hp Em O Sn. destruct (commit_phase chan sig sigs E) as (Cr & Rq & N & Rr & B). fold n in N, Rr, B.
  assert (ops msgs = [ORevoke] /\ commits msgs = [] /\ revokes msgs = [(secret, point)]) as (Om & Cm & Rm).
  { subst msgs. rewrite ops_app, commits_app, revokes_app, O, (commits_ops _ O), (revokes_ops quiet_msgs) by (rewrite O; set_solver). done. }
  assert (Forall (sane (channel_id P)) msgs) as Sm by (subst msgs; apply Forall_app; split; [done|by repeat constructor]).
  pose proof (f_equal k_index Kc : next_index P' = set_side LOCAL (u64 (n + 1)) (next_index P)) as K1. pose proof (f_equal k_received Kc) as K2. pose proof (f_equal k_next_local Kc) as K0.
  pose proof (f_equal k_remote Kc) as K3. pose proof (f_equal k_old_remote Kc) as K4. pose proof (f_equal k_chan Kc) as K5.
  cbn in K0, K2, K3, K4, K5. eval_pow2.
  rewrite (u64_at (n - 1)), u64_at in Hp by (eval_pow2; lia). replace (n - 1 + 2) with (n + 1) in Hp by lia.
  rewrite u64_at in K1 by (eval_pow2; lia). destruct (get_point _ _ _ _ Hp) as [Pt Sx]. specialize (Sx secret eq_refl).
  split.
  - eapply (side_inv_take T seeds s P Q qs m rest X Y P' msgs l'); rewrite ?Om; try done; [apply enabled_head|].
    rewrite K1, K2, K3, K4, at_set_side_ne by done. assert (revokes rest = revokes (m :: rest)) as -> by by subst m. apply Is.
  - destruct Iq as [(lq & Yq & Lq & Cq) Ph _ Fe Sq Ch En Ke]. apply leads_cons in Lq as [_ Lq].
    assert (op_of m = Some OCommit) as Eo by by rewrite E.
    constructor; rewrite ?K5; try done.
    + by exists lq, Yq.
    + rewrite K0, K1, at_set_side, Cr, revokes_app, Rq, Rm. rewrite other_other. fold n in Ph.
      constructor; [lia|apply Ph|done|rewrite <- (other_other s); apply Ph|rewrite <- (other_other s); apply Ph|].
      right. right. split; [done|]. split; [|lia]. exists secret. done.
    + by apply flight_none.
    + rewrite ops_cons, Eo in Fe. exact Fe.
    + by inversion Sq.
    + eapply ends_statics2; [exact St|done].
Qed.
End Reading.
End Both.

(** ** The invariant holds *)
Section Steps.
Context `{Secp256k1Laws} `{!Signatures} `{!SignatureLaws} (T : terms).
Context (env : side -> node_env).

Lemma own_keeps s now uninit uninit_id e S : inv T env S -> own_event e ->
  wp (node_event env s now uninit uninit_id e) (at_side (nodes S) s) (fun _ p' out => inv T env (goes s p' out S)) (fun _ => True).
Proof using Type*.
  intros (X & K & I) Oe. pose proof (I s) as Is. pose proof (I (other s)) as Iq. rewrite other_other in Iq.
  destruct (si_copy _ _ _ _ _ _ _ _ Is) as (l & Y & L & C). unfold node_event.
  eapply wp_mono; [eapply own_step; [exact C|exact (si_keys _ _ _ _ _ _ _ _ Is)|done]| |done].
  intros [] p' out St. destruct (own_dir T (seeds env) s _ _ _ _ X l Y p' (to_peer out) Is L C St) as (I1 & M & R).
  apply (inv_goes T env s S p' out X K I1). by eapply side_inv_peer.
Qed.

(** A message that is an operation other than a commitment or a revocation. *)
Lemma update_follows s now P Q qs rest m o X Y l :
  side_inv T (seeds env) s P Q qs (m :: rest) X -> side_inv T (seeds env) (other s) Q P (m :: rest) qs X -> keyed X ->
  leads T s (ops qs) X Y -> copy T s P l Y -> op_of m = Some o -> o <> OCommit -> o <> ORevoke ->
  forall (tb : HtlcTable) (on : Onions) seed uninit,
  wp (op_handler seed now uninit m) P (fun _ => follows T s P Y o) excused.
Proof using Type.
  intros Is Iq K L C Eo N1 N2 tb on seed uninit. pose proof (enabled_copy T env s P Q qs rest m X Is Iq K o Y Eo L) as En.
  assert (sane (channel_id Q) m) as Sm by (pose proof (si_sane _ _ _ _ _ _ _ _ Iq) as F; by inversion F).
  destruct m; try discriminate Eo; injection Eo as <-; try done; cbn [op_handler sane] in *.
  - by eapply spec_peer_add.
  - by eapply spec_peer_fulfill.
  - unfold handle_peer_fail_htlc. by eapply spec_peer_fails.
  - unfold handle_peer_fail_malformed_htlc. apply Z.eqb_neq in Sm. rewrite Sm. by eapply spec_peer_fails.
  - by eapply spec_peer_fee.
Qed.

Lemma read_keeps s now uninit uninit_id m rest S : inv T env S -> at_side (sent S) (other s) = m :: rest ->
  wp (node_event env s now uninit uninit_id (Peer_msg m)) (at_side (nodes S) s)
    (fun _ p' out => inv T env (goes s p' out (taken s rest S)))
    (fun why => no_collision (commit_scripts (at_side (nodes S) s)) -> excused why).
Proof using Type.
  intros (X & Rn & I) Eq. pose proof (runs_keyed T X Rn) as K. pose proof (I s) as Is. pose proof (I (other s)) as Iq. rewrite other_other in Iq. rewrite Eq in Is, Iq.
  set (P := at_side (nodes S) s) in *. set (Q := at_side (nodes S) (other s)) in *. set (qs := at_side (sent S) s) in *.
  destruct (si_copy _ _ _ _ _ _ _ _ Is) as (l & Y & L & C).
  assert (forall p' out X', runs_to T X' -> side_inv T (seeds env) s p' Q (qs ++ to_peer out) rest X' /\
    side_inv T (seeds env) (other s) Q p' rest (qs ++ to_peer out) X' -> inv T env (goes s p' out (taken s rest S))) as Build.
  { intros p' out X' K' [I1 I2]. destruct (taken_parts s rest S) as (E1 & E2 & E3).
    apply (inv_goes T env s (taken s rest S) p' out X' K'); rewrite E1, E2, E3; done. }
  pose proof (runs_after T env s P Q qs rest m X Iq Rn) as K'.
  assert (sane (channel_id P) m) as Sm
    by (pose proof (si_sane _ _ _ _ _ _ _ _ Iq) as F; rewrite (si_chan _ _ _ _ _ _ _ _ Is) in F; by inversion F).
  unfold node_event. cbn [handle_event]. destruct (op_of m) as [o|] eqn:Eo; cycle 1.
  { eapply wp_mono; [apply (peer_in_quiet _ _ _ _ _ m P Eo Sm (cp_locked _ _ _ _ _ C))| |auto].
    intros [] p' out (E1 & K1 & O1 & S1). apply (Build p' out _ K').
    assert (copy T s p' l (after1 T (other s) m Y)) as C'.
    { unfold after1. rewrite Eo. by eapply copy_core. }
    eapply read_core; try done; [by rewrite E1|by destruct m..]. }
  eapply peer_in_op; [exact Eo|by rewrite (cp_locked _ _ _ _ _ C)|].
  assert (copy T s (heard now P) l Y) as C1 by by eapply copy_core.
  assert (side_inv T (seeds env) s (heard now P) Q qs (m :: rest) X) as Is1 by by apply side_inv_heard.
  assert (side_inv T (seeds env) (other s) Q (heard now P) (m :: rest) qs X) as Iq1 by (by eapply side_inv_peer; [exact Iq| |]).
  change (commit_scripts P) with (commit_scripts (heard now P)).
  destruct (decide (o = OCommit)) as [->|N1]; [|destruct (decide (o = ORevoke)) as [->|N2]].
  - destruct m as [| | | | | |chan sig sigs| | | | | | | |]; try discriminate Eo. cbn [op_handler].
    destruct (commit_ready T env s _ _ _ _ _ X Is1 Iq1 K chan sig sigs Y eq_refl L) as (c0 & l0 & X0 & L0 & En & Ss & Sg).
    eapply wp_mono; [eapply (spec_peer_commit T); [exact C1|by eapply enabled_copy|exact L0|exact En|exact Ss|exact Sg]| |done].
    intros [] p' out (point & secret & (l' & C') & St & Kc & Hp & q & Eq' & Oq & Sq). apply (Build p' out _ K').
    eapply (read_commit T env s _ _ _ _ _ X Is1 Iq1 K chan sig sigs); done.
  - destruct m as [| | | | | | |chan secret point| | | | | | |]; try discriminate Eo. cbn [op_handler].
    destruct (revoke_ready T env s _ _ _ _ _ X Is1 Iq1 chan secret point eq_refl) as (Rr & Ek).
    eapply wp_mono; [eapply (spec_peer_revoke T); [exact C1|exact Rr|exact Ek]| |auto].
    intros [] p' out ((l' & C') & St & Kc & O1 & S1). apply (Build p' out _ K').
    eapply (read_revoke T env s _ _ _ _ _ X Is1 Iq1 K chan secret point); done.
  - eapply wp_mono; [eapply (update_follows s now _ _ _ _ m o X Y l Is1 Iq1 K L C1 Eo N1 N2)| |auto].
    intros [] p' out ((l' & C') & St & Kc & O1 & S1). apply (Build p' out _ K').
    assert (copy T s p' l' (after1 T (other s) m Y)) as C2 by (unfold after1; by rewrite Eo).
    eapply (read_core T env s _ _ _ _ _ X Is1 Iq1 K); try done; by destruct m; try discriminate Eo; injection Eo as <-.
Qed.
End Steps.
