(* ===== verification/TwoPartySafety.v ===== *)
(** * No message fails the channel

    Two nodes that opened a channel, and everything they may do afterwards. *)
From stdpp Require Import gmap strings.
From S2P Require Import Prelude HtlcState Sha256 Secp Ecdsa BitcoinTx LnScript SigCheck Shachain KeyDerive Hsm Params Htlc.
From S2P Require Import CommitTx Channel Ledger ChannelInv ChannelSafety ChannelTxs Mirror Faces Duplex Link.
From S2P Require Import Channeld ChanneldSpec ChanneldLocal ChanneldRemote ChanneldTotal TwoParty.
Local Open Scope Z_scope.

(** ** Opening *)
Section Opening.
Context `{Secp256k1} `{!Signatures}.
Context (env : side -> node_env).

(** The message that starts the process of a channel whose funding is not locked yet. *)
Record fresh (m : channel_init) : Prop := {
  fr_index : i_next_index m = Sided 1 1;
  fr_revocations : i_revocations_received m = 0;
  fr_htlcs : i_htlcs m = [] /\ i_hstates m = [] /\ i_fulfilled m = [] /\ i_fulfilled_sides m = [] /\
             i_failed m = [] /\ i_failed_sides m = [];
  fr_locked : i_funding_locked m = Sided false false;
  fr_new : i_reconnected m = false
}.

(** Node [s] started with [m], locked the funding, which it told its peer with [point],
    and got the peer's message with [their_point], in either order. [rest] is what it sent
    after its own. *)
Inductive opened (s : side) (m : channel_init) (point their_point : pubkey) (p : peer) (rest : list wire_msg) : Prop :=
  | opened_first now0 now1 now2 uninit uninit_id scid depth chan chan' out0 out p0 p1 rest1 out2 :
      @init_channel _ _ (ne_table (env s)) (ne_onions (env s)) (ne_seed (env s)) (ne_privkey (env s)) now0 uninit uninit_id m []
        = Done () p0 out0 ->
      node_event env s now1 uninit uninit_id (Master_msg (Master_funding_locked scid depth)) p0 = Done () p1 out ->
      node_event env s now2 uninit uninit_id (Peer_msg (Funding_locked chan their_point)) p1 = Done () p out2 ->
      to_peer out = Funding_locked chan' point :: rest1 -> rest = rest1 ++ to_peer out2 -> opened s m point their_point p rest
  | opened_second now0 now1 now2 uninit uninit_id scid depth chan chan' out0 out1 p0 p1 out :
      @init_channel _ _ (ne_table (env s)) (ne_onions (env s)) (ne_seed (env s)) (ne_privkey (env s)) now0 uninit uninit_id m []
        = Done () p0 out0 ->
      node_event env s now1 uninit uninit_id (Peer_msg (Funding_locked chan their_point)) p0 = Done () p1 out1 ->
      node_event env s now2 uninit uninit_id (Master_msg (Master_funding_locked scid depth)) p1 = Done () p out ->
      to_peer out = Funding_locked chan' point :: rest -> opened s m point their_point p rest.

(** What the two masters must agree on. *)
Record agreed (ms : side -> channel_init) : Prop := {
  ag_fresh s : fresh (ms s);
  ag_chain : i_chain_hash (ms REMOTE) = i_chain_hash (ms LOCAL);
  ag_txid : i_funding_txid (ms REMOTE) = i_funding_txid (ms LOCAL);
  ag_txout : i_funding_txout (ms REMOTE) = i_funding_txout (ms LOCAL);
  ag_funding : i_funding_satoshi (ms REMOTE) = i_funding_satoshi (ms LOCAL);
  ag_balances : i_local_msatoshi (ms LOCAL) + i_local_msatoshi (ms REMOTE) = i_funding_satoshi (ms LOCAL) * 1000;
  ag_funder : i_funder (ms REMOTE) = other (i_funder (ms LOCAL));
  ag_feerate : i_feerate_per_kw (ms REMOTE) = i_feerate_per_kw (ms LOCAL) /\
    at_side (i_feerate_per_kw (ms LOCAL)) REMOTE = at_side (i_feerate_per_kw (ms LOCAL)) LOCAL;
  ag_conf s : at_side (i_conf (ms REMOTE)) (other s) = at_side (i_conf (ms LOCAL)) s;
  ag_funding_keys s : at_side (i_funding_pubkey (ms REMOTE)) (other s) = at_side (i_funding_pubkey (ms LOCAL)) s;
  ag_points s : at_side (i_points (ms REMOTE)) (other s) = at_side (i_points (ms LOCAL)) s;
  ag_signer s : handle_get_channel_basepoints (seeds env s)
    = Some (Some (at_side (i_points (ms s)) LOCAL, at_side (i_funding_pubkey (ms s)) LOCAL));
  ag_first s : point_at (seeds env (other s)) 0 (i_remote_per_commit (ms s));
  ag_terms s : sane_terms (i_funding_satoshi (ms s)) (i_local_msatoshi (ms s))
    (at_side (i_conf (ms s)) LOCAL) (at_side (i_conf (ms s)) REMOTE)
}.

(** Both have locked the funding, each with the point that the other got. *)
Inductive starts (S : system) : Prop :=
  Starts (ms : side -> channel_init) (points : side -> pubkey) :
    agreed ms ->
    (forall s, opened s (ms s) (points s) (points (other s)) (at_side (nodes S) s) (at_side (sent S) s)) ->
    (forall s, funding_locked (at_side (nodes S) s) = Sided true true) -> starts S.

(** Everything that can happen afterwards. *)
Definition reaches (S : system) : Prop := exists S0, starts S0 /\ rtc (step env) S0 S.
End Opening.

(** ** What opening leads to *)
Section Opened.
Context `{Secp256k1} `{!Signatures} `{HtlcTable} `{!Onions}.
Context (channel_seed node_privkey : bytes) (now : Z) (uninit : Z * Z) (uninit_id : bytes).

Lemma wp_done {A} (m : run A) p Q F a p' out : wp m p Q F -> m p = Done a p' out -> Q a p' out.
Proof. unfold wp. intros W E. by rewrite E in W. Qed.

Lemma init_spec m p out : fresh m -> 
  init_channel channel_seed node_privkey now uninit uninit_id m [] = Done () p out -> exists point c,
    new_full_channel (i_chain_hash m) (i_funding_txid m) (i_funding_txout m) (i_funding_satoshi m)
      (i_local_msatoshi m) (i_feerate_per_kw m) (at_side (i_conf m) LOCAL) (at_side (i_conf m) REMOTE)
      (at_side (i_points m) LOCAL) (at_side (i_points m) REMOTE)
      (at_side (i_funding_pubkey m) LOCAL) (at_side (i_funding_pubkey m) REMOTE) (i_funder m) = Some c /\
    peer_channel p = c /\ point_at channel_seed 1 point /\
    core_of p = Core (Sided 1 1) point (i_remote_per_commit m) (i_old_remote_per_commit m) 0 (Sided false false)
      (derive_channel_id (i_funding_txid m) (i_funding_txout m)).
Proof.
  intros [Fi Fr (F1 & F2 & F3 & F4 & F5 & F6) Fl Fn] E. unfold init_channel in E. rewrite Fi in E.
  destruct (handle_get_per_commitment_point channel_seed (at_side (Sided 1 1) LOCAL)) as [[[point old]|]|] eqn:Ep;
    [|discriminate E|discriminate E]. change (_ || _) with false in E. cbv match in E.
  destruct (get_point _ _ _ _ Ep) as [Pt _]. unfold init_restore in E. rewrite F1, F2, F3, F4, F5, F6, Fn in E.
  destruct (new_full_channel _ _ _ _ _ _ _ _ _ _ _ _ _) as [c|] eqn:Ec; [|discriminate E].
  change (channel_force_htlcs c [] [] [] [] [] []) with (Some (c, true)) in E.
  change (zip [] []) with (@nil (added_htlc * htlc_state)) in E.
  cbn [mbind option_bind negb init_shared_secrets] in E.
  exists point, c. split; [done|].
  assert (wp (mret ();; match i_funding_signed m with Some s => send (ToPeer s) | None => mret () end;;
    channel_announcement_negotiate channel_seed node_privkey) (init_peer now m point c)
    (fun _ p' _ => peer_channel p' = c /\ core_of p' = core_of (init_peer now m point c)) (fun _ => True)) as W.
  { rewrite wp_bind, wp_ret, wp_bind.
    destruct (i_funding_signed m) as [fs|]; rewrite ?wp_send, ?wp_ret; (apply wp_quiet; [apply quiet_negotiate|done|done]). }
  destruct (wp_done _ _ _ _ _ _ _ W E) as [E1 E2]. split; [done|]. split; [done|]. rewrite E2. unfold core_of, init_peer.
  cbn [next_index next_local_per_commit remote_per_commit old_remote_per_commit revocations_received funding_locked channel_id].
  by rewrite Fi, Fr, Fl.
Qed.

(** Our own lock, if it was not too late. *)
Lemma lock_spec scid depth p : at_side (funding_locked p) LOCAL = false ->
  wp (handle_funding_locked channel_seed node_privkey scid depth) p (fun _ p' out =>
    at_side (funding_locked p') REMOTE = at_side (funding_locked p) REMOTE /\ (at_side (funding_locked p') LOCAL = true ->
    peer_channel p' = peer_channel p /\
    core_of p' = Core (next_index p) (next_local_per_commit p) (remote_per_commit p) (old_remote_per_commit p)
      (revocations_received p) (set_side LOCAL true (funding_locked p)) (channel_id p) /\
    exists rest, to_peer out = Funding_locked (channel_id p) (next_local_per_commit p) :: rest /\ ops rest = [] /\
      Forall (sane (channel_id p)) rest)) (fun _ => True).
Proof.
  intros Lk. unfold handle_funding_locked. rewrite wp_bind, wp_get, wp_bind, wp_set.
  destruct (at_side (shutdown_sent p) LOCAL); [rewrite wp_ret; split; [done|]; intros E; discriminate (eq_trans (eq_sym Lk) E)|].
  rewrite Lk. cbn [negb]. rewrite wp_bind, wp_bind, wp_send, wp_set, wp_bind, wp_set.
  apply wp_quiet; [apply quiet_negotiate|done|]. intros _ p1 o1 E1 K1 O1 S1. cbn [app]. rewrite to_peer_cons.
  split; [rewrite (f_equal k_locked K1 : funding_locked p1 = _); by destruct (funding_locked p)|]. intros _.
  split; [done|]. split; [exact K1|]. by eexists.
Qed.

(** The peer's. *)
Lemma peer_lock_spec chan point p : at_side (funding_locked p) REMOTE = false ->
  wp (peer_in channel_seed node_privkey now uninit uninit_id (Funding_locked chan point)) p
    (fun _ p' out => at_side (funding_locked p') LOCAL = at_side (funding_locked p) LOCAL /\ (at_side (funding_locked p') REMOTE = true ->
      peer_channel p' = peer_channel p /\
      core_of p' = Core (next_index p) (next_local_per_commit p) point (remote_per_commit p)
        (revocations_received p) (set_side REMOTE true (funding_locked p)) (channel_id p) /\
      ops (to_peer out) = [] /\ Forall (sane (channel_id p)) (to_peer out))) (fun _ => True).
Proof.
  intros Lk. unfold peer_in. rewrite wp_bind, wp_set, wp_bind, wp_get. set (p1 := set_field (f := last_recv) now p).
  cbn [wire_type_of]. rewrite bool_decide_eq_false_2 by done. cbn [andb]. unfold handle_peer_gossip_or_error.
  rewrite wp_bind, wp_bind, wp_get. cbn [is_msg_for_gossipd wire_type_of]. unfold is_peer_error. cbn [wire_type_of].
  rewrite bool_decide_eq_false_2 by done. cbn [is_wrong_channel extract_channel_id]. rewrite wp_ret.
  change (allowed_early WIRE_FUNDING_LOCKED) with true. rewrite andb_false_r. cbv match.
  unfold handle_peer_funding_locked. rewrite wp_bind, wp_get. change (funding_locked p1) with (funding_locked p). rewrite Lk.
  destruct (at_side (shutdown_sent p1) LOCAL); [rewrite wp_ret; split; [done|]; intros E; discriminate (eq_trans (eq_sym Lk) E)|].
  rewrite wp_bind, wp_set, wp_bind, wp_set. case_match; [by rewrite wp_peer_failed|].
  rewrite wp_bind, wp_set, wp_bind, wp_send.
  apply wp_quiet; [apply quiet_negotiate|done|]. intros _ p2 o2 E2 K2 O2 S2. cbn [app]. rewrite to_peer_cons.
  split; [rewrite (f_equal k_locked K2 : funding_locked p2 = _); by destruct (funding_locked p)|]. intros _.
  split; [done|]. split; [exact K2|]. done.
Qed.
End Opened.

Section Opened_state.
Context `{Secp256k1} `{!Signatures} (env : side -> node_env).

Lemma opened_spec s m point their_point p rest : fresh m -> opened env s m point their_point p rest ->
  funding_locked p = Sided true true ->
  let chan := derive_channel_id (i_funding_txid m) (i_funding_txout m) in exists c,
    new_full_channel (i_chain_hash m) (i_funding_txid m) (i_funding_txout m) (i_funding_satoshi m)
      (i_local_msatoshi m) (i_feerate_per_kw m) (at_side (i_conf m) LOCAL) (at_side (i_conf m) REMOTE)
      (at_side (i_points m) LOCAL) (at_side (i_points m) REMOTE)
      (at_side (i_funding_pubkey m) LOCAL) (at_side (i_funding_pubkey m) REMOTE) (i_funder m) = Some c /\
    peer_channel p = c /\ point_at (seeds env s) 1 point /\
    core_of p = Core (Sided 1 1) point their_point (i_remote_per_commit m) 0 (Sided true true) chan /\
    ops rest = [] /\ Forall (sane chan) rest.
Proof.
  pose (ne_table (env s)) as tb. pose (ne_onions (env s)) as on.
  intros F [now0 now1 now2 u ui scid depth ch ch' o0 o p0 p1 r1 o2 E0 E1 E2 Er ->|
            now0 now1 now2 u ui scid depth ch ch' o0 o1 p0 p1 o E0 E1 E2 Er] Lk chan;
    destruct (init_spec _ _ _ _ _ m p0 o0 F E0) as (pt & c & Ec & Ep & Pt & K0); fold chan in K0;
    pose proof (f_equal k_locked K0 : funding_locked p0 = Sided false false) as Lk0;
    exists c; (split; [done|]); unfold node_event in E1, E2; cbn [handle_event req_in] in E1, E2.
  - destruct (wp_done _ _ _ _ _ _ _ (lock_spec _ _ scid depth p0 ltac:(by rewrite Lk0)) E1) as [L1 D1].
    rewrite Lk0 in L1. destruct (wp_done _ _ _ _ _ _ _ (peer_lock_spec _ _ _ _ _ ch their_point p1 L1) E2) as [L2 D2].
    rewrite Lk in L2, D2. destruct (D2 eq_refl) as (C2 & K2 & O2 & S2). destruct (D1 (eq_sym L2)) as (C1 & K1 & r & Er' & O1 & S1).
    rewrite Er in Er'. injection Er' as -> -> ->. split; [by rewrite C2, C1|].
    unfold core_of in K0, K1. injection K1 as A1 A2 A3 A4 A5 A6 A7. injection K0 as B1 B2 B3 B4 B5 B6 B7.
    rewrite K2, A1, A2, A3, A5, A6, A7, B1, B2, B3, B5, B6, B7. rewrite A7, B7 in S2. rewrite B7 in S1.
    split; [done|]. split; [done|]. rewrite ops_app, O1, O2. split; [done|]. by apply Forall_app.
  - destruct (wp_done _ _ _ _ _ _ _ (peer_lock_spec _ _ _ _ _ ch their_point p0 ltac:(by rewrite Lk0)) E1) as [L1 D1].
    rewrite Lk0 in L1. destruct (wp_done _ _ _ _ _ _ _ (lock_spec _ _ scid depth p1 L1) E2) as [L2 D2].
    rewrite Lk in L2, D2. destruct (D2 eq_refl) as (C2 & K2 & r & Er' & O2 & S2). destruct (D1 (eq_sym L2)) as (C1 & K1 & O1 & S1).
    rewrite Er in Er'. injection Er' as -> -> ->. split; [by rewrite C2, C1|].
    unfold core_of in K0, K1. injection K1 as A1 A2 A3 A4 A5 A6 A7. injection K0 as B1 B2 B3 B4 B5 B6 B7.
    rewrite K2, A1, A2, A3, A4, A5, A6, A7, B1, B2, B3, B5, B6, B7. rewrite A7, B7 in S2. done.
Qed.
(** A new channel. *)
Lemma new_channel_fields ch ft fo fs lm fr local remote lb rb lk rk fu c :
  new_full_channel ch ft fo fs lm fr local remote lb rb lk rk fu = Some c ->
  exists params, chainparams_by_chainhash ch = Some params /\ funding_txid c = ft /\ funding_txout c = fo /\
    funding_pubkey c = Sided lk rk /\ funding_msat c = u64 (fs * 1000) /\ funder c = fu /\ config c = Sided local remote /\
    channel_basepoints c = Sided lb rb /\
    commitment_number_obscurer c = commit_number_obscurer (payment (at_side (Sided lb rb) fu)) (payment (at_side (Sided lb rb) (other fu))) /\
    changes_pending c = Sided false false /\ (forall s, feerate_of c s = at_side fr s) /\ channel_params c = params.
Proof.
  unfold new_full_channel, new_initial_channel. destruct (_ <? fs); [done|]. destruct (_ <? lm); [done|].
  destruct (chainparams_by_chainhash ch) as [params|]; [|done]. intros [= <-]. exists params. cbn.
  repeat (split; [done|]). split; [|done]. by intros [].
Qed.

Lemma new_linked T v c ch ft fo fs lm fr local remote lb rb lk rk fu :
  new_full_channel ch ft fo fs lm fr local remote lb rb lk rk fu = Some c -> sane_terms fs lm local remote ->
  init_of fs lm = pov_sided v (t_init T) -> fu = pov v (t_funder T) -> Sided local remote = pov_sided v (t_config T) ->
  (forall params, chainparams_by_chainhash ch = Some params -> max_payment_msat params = t_max_payment T) ->
  linked T v c [] (Duplex ∅ (pov_sided v fr) (Sided false false)).
Proof.
  intros E St Ei Ef Ec Em. destruct (new_channel_inv _ _ _ _ _ _ _ _ _ _ _ _ _ _ St E) as [I _].
  destruct (new_channel_fields _ _ _ _ _ _ _ _ _ _ _ _ _ _ E) as (ps & Ep & _ & _ & _ & _ & Ff & Fc & _ & _ & Fp & Fr & Fm).
  constructor; cbn [table rates waiting].
  - by rewrite <- Ei.
  - intros k g. rewrite lookup_empty. split; [done|]. by intros (h & Hh%not_elem_of_nil & _).
  - intros s. by rewrite Fr, at_pov, pov_pov.
  - intros s. rewrite Fp. by destruct v, s.
  - by rewrite Ff.
  - by rewrite Fc.
  - rewrite Fm. by apply Em.
Qed.
(** The two ends of a new channel. *)
Lemma new_ends ms cL cR : agreed env ms ->
  let new m := new_full_channel (i_chain_hash m) (i_funding_txid m) (i_funding_txout m) (i_funding_satoshi m)
      (i_local_msatoshi m) (i_feerate_per_kw m) (at_side (i_conf m) LOCAL) (at_side (i_conf m) REMOTE)
      (at_side (i_points m) LOCAL) (at_side (i_points m) REMOTE)
      (at_side (i_funding_pubkey m) LOCAL) (at_side (i_funding_pubkey m) REMOTE) (i_funder m) in
  new (ms LOCAL) = Some cL -> new (ms REMOTE) = Some cR -> ends cL cR /\ ends cR cL.
Proof.
  intros A new EL ER.
  destruct (new_channel_fields _ _ _ _ _ _ _ _ _ _ _ _ _ _ EL) as (_ & _ & L1 & L2 & L3 & L4 & L5 & L6 & L7 & L8 & _).
  destruct (new_channel_fields _ _ _ _ _ _ _ _ _ _ _ _ _ _ ER) as (_ & _ & R1 & R2 & R3 & R4 & R5 & R6 & R7 & R8 & _).
  rewrite (ag_txid _ _ A) in R1. rewrite (ag_txout _ _ A) in R2. rewrite (ag_funding _ _ A) in R4. rewrite (ag_funder _ _ A) in R5, R8.
  pose proof (ag_funding_keys _ _ A) as Ek. pose proof (ag_conf _ _ A) as Ec. pose proof (ag_points _ _ A) as Ep.
  pose proof (Ek LOCAL) as Ek1. pose proof (Ek REMOTE) as Ek2. pose proof (Ec LOCAL) as Ec1. pose proof (Ec REMOTE) as Ec2.
  pose proof (Ep LOCAL) as Ep1. pose proof (Ep REMOTE) as Ep2. cbn [other] in *.
  rewrite Ek1, Ek2 in R3. rewrite Ec1, Ec2 in R6. rewrite Ep1, Ep2 in R7, R8.
  assert (commitment_number_obscurer cR = commitment_number_obscurer cL) as Eo.
  { rewrite R8, L8, other_other. by destruct (i_funder (ms LOCAL)). }
  split; constructor; rewrite ?L1, ?L2, ?L3, ?L4, ?L5, ?L6, ?L7, ?R1, ?R2, ?R3, ?R4, ?R5, ?R6, ?R7, ?other_other; try done;
    by intros [].
Qed.
End Opened_state.

(** ** The start *)
Section Start.
Context `{Secp256k1} `{!Signatures} (env : side -> node_env).

Definition terms_of (mL mR : channel_init) (max_payment : Z) : terms :=
  Terms (i_funder mL) (i_conf mL) (Sided (i_local_msatoshi mL) (i_local_msatoshi mR)) max_payment.

Lemma start_copy ms v p c mp : agreed env ms ->
  let m := ms v in
  new_full_channel (i_chain_hash m) (i_funding_txid m) (i_funding_txout m) (i_funding_satoshi m)
      (i_local_msatoshi m) (i_feerate_per_kw m) (at_side (i_conf m) LOCAL) (at_side (i_conf m) REMOTE)
      (at_side (i_points m) LOCAL) (at_side (i_points m) REMOTE)
      (at_side (i_funding_pubkey m) LOCAL) (at_side (i_funding_pubkey m) REMOTE) (i_funder m) = Some c ->
  (forall params, chainparams_by_chainhash (i_chain_hash (ms LOCAL)) = Some params -> max_payment_msat params = mp) ->
  peer_channel p = c -> funding_locked p = Sided true true ->
  copy (terms_of (ms LOCAL) (ms REMOTE) mp) v p [] (Duplex ∅ (i_feerate_per_kw (ms LOCAL)) (Sided false false)).
Proof.
  intros A m E Em Ec Lk. pose proof (ag_balances _ _ A) as B. destruct (ag_feerate _ _ A) as [F1 F2].
  assert (forall s, i_chain_hash (ms s) = i_chain_hash (ms LOCAL)) as Eh by (intros []; [done|apply (ag_chain _ _ A)]).
  assert (i_feerate_per_kw (ms LOCAL) = pov_sided v (i_feerate_per_kw m)) as ->.
  { unfold m. destruct v; [done|]. rewrite F1. destruct (i_feerate_per_kw (ms LOCAL)) as [a b]. cbn in *. by rewrite F2. }
  constructor; rewrite ?Ec; [|done| |done].
  - eapply new_linked; [exact E|apply (ag_terms _ _ A v)|..].
    + unfold m. destruct v; cbn; unfold init_of; [f_equal; lia|]. rewrite (ag_funding _ _ A). f_equal. lia.
    + unfold m. destruct v; cbn; [done|]. apply (ag_funder _ _ A).
    + unfold m. pose proof (ag_conf _ _ A LOCAL) as C1. pose proof (ag_conf _ _ A REMOTE) as C2. cbn [other] in C1, C2.
      destruct v; cbn [terms_of t_config pov_sided]; [by destruct (i_conf (ms LOCAL))|]. by rewrite C1, C2.
    + intros params Ep. apply Em. by rewrite <- (Eh v).
  - exists (i_funding_satoshi m). exact (proj2 (new_channel_inv _ _ _ _ _ _ _ _ _ _ _ _ _ _ (ag_terms _ _ A v) E)).
Qed.
Lemma starts_inv S : starts env S -> exists T, inv T env S.
Proof.
  intros [ms points A Op Lk].
  pose proof (fun s => opened_spec env s _ _ _ _ _ (ag_fresh _ _ A s) (Op s) (Lk s)) as Sp. cbv zeta in Sp.
  destruct (Sp LOCAL) as (cL & EL & PL & _). destruct (Sp REMOTE) as (cR & ER & PR & _).
  destruct (new_ends env ms cL cR A EL ER) as [N1 N2].
  destruct (new_channel_fields _ _ _ _ _ _ _ _ _ _ _ _ _ _ EL) as (ps & Eps & _).
  set (X := Duplex ∅ (i_feerate_per_kw (ms LOCAL)) (Sided false false)).
  exists (terms_of (ms LOCAL) (ms REMOTE) (max_payment_msat ps)), X. split; [apply runs_start|]. intros s.
  destruct (Sp s) as (c & E & P & Pt & K & O & Sn). destruct (Sp (other s)) as (d & E' & P' & Pt' & K' & O' & Sn').
  assert (derive_channel_id (i_funding_txid (ms (other s))) (i_funding_txout (ms (other s)))
    = derive_channel_id (i_funding_txid (ms s)) (i_funding_txout (ms s))) as Ech.
  { pose proof (ag_txid _ _ A). pose proof (ag_txout _ _ A). by destruct s; cbn [other]; f_equal. }
  unfold core_of in K, K'. injection K as A1 A2 A3 A4 A5 A6 A7. injection K' as B1 B2 B3 B4 B5 B6 B7.
  constructor; rewrite ?A1, ?A2, ?A3, ?A4, ?A5, ?A6, ?A7, ?B1, ?B2, ?B7, ?(commits_ops _ O), ?O; try done.
  - exists [], X. split; [done|]. eapply start_copy; try done. intros params. rewrite Eps. by intros [= <-].
  - rewrite (revokes_ops (at_side (sent S) (other s))) by (rewrite O'; set_solver).
    constructor; try done; [exact (ag_first _ _ A s)|]. by left.
  - apply flight_none. by apply commits_ops.
  - rewrite P, P'. destruct s; cbn [other] in *; congruence.
  - rewrite P. destruct (new_channel_fields _ _ _ _ _ _ _ _ _ _ _ _ _ _ E) as (_ & _ & _ & _ & Fk & _ & _ & _ & Fb & _).
    unfold holds_keys. rewrite Fk, Fb. exact (ag_signer _ _ A s).
Qed.
End Start.

(** ** The theorems *)
Section Theorems.
Context `{Secp256k1Laws} `{!Signatures} `{!SignatureLaws} (env : side -> node_env).

Lemma reaches_inv S : reaches env S -> exists T, inv T env S.
Proof using Type*.
  intros (S0 & [T I]%starts_inv & R). exists T. revert I. induction R as [|S1 S2 S3 St _ IH]; [done|]. intros I. apply IH.
  destruct St as [s now u ui e p' out Oe _ E|s now u ui m rest p' out Eq _ E].
  - exact (wp_done _ _ _ _ _ _ _ (own_keeps T env s now u ui e S1 I Oe) E).
  - exact (wp_done _ _ _ _ _ _ _ (read_keeps T env s now u ui m rest S1 I Eq) E).
Qed.

(** The node cannot make its next revocation: the signer has no point with that number,
    or it is not a valid key. *)
Definition out_of_points (s : side) (p : peer) : Prop :=
  forall point, ~ point_at (seeds env s) (at_side (next_index p) LOCAL + 1) point.

Definition is_commit (m : wire_msg) : Prop := match m with Commitment_signed _ _ _ => True | _ => False end.

(** What node [s] needs to announce the channel. *)
Definition announces (s : side) (p : peer) : Prop := can_announce (H3 := ne_onions (env s)) (ne_privkey (env s)) p.

Lemma read_smooth T s now uninit uninit_id m rest S : inv T env S -> at_side (sent S) (other s) = m :: rest ->
  let p := at_side (nodes S) s in no_collision (commit_scripts p) -> announces s p ->
  smooth (node_event env s now uninit uninit_id (Peer_msg m)) p
    (disagrees m p) (is_commit m /\ out_of_points s p) (is_commit m /\ overdrawn p).
Proof using Type*.
  intros (X & Rn & I) Eq P NC An. pose proof (runs_keyed T X Rn) as K. pose proof (I s) as Is. pose proof (I (other s)) as Iq.
  rewrite other_other in Iq. rewrite Eq in Is, Iq. fold P in Is, Iq.
  set (Q := at_side (nodes S) (other s)) in *. set (qs := at_side (sent S) s) in *.
  destruct (si_copy _ _ _ _ _ _ _ _ Is) as (l & Y & L & C).
  assert (sane (channel_id P) m) as Sm
    by (pose proof (si_sane _ _ _ _ _ _ _ _ Iq) as F; rewrite (si_chan _ _ _ _ _ _ _ _ Is) in F; by inversion F).
  unfold node_event. cbn [handle_event]. destruct (op_of m) as [o|] eqn:Eo; cycle 1.
  { apply smooth_in_quiet; [done|done|apply C|exact An|exact (si_keys _ _ _ _ _ _ _ _ Is)]. }
  eapply smooth_in_op; [exact Eo|by rewrite (cp_locked _ _ _ _ _ C)|].
  assert (copy T s (heard now P) l Y) as C1 by by eapply copy_core.
  pose proof (enabled_copy T env s P Q qs rest m X Is Iq K o Y Eo L) as En.
  destruct m; try discriminate Eo; injection Eo as <-; cbn [op_handler sane] in *.
  - by eapply smooth_peer_add.
  - by eapply smooth_peer_fulfill.
  - unfold handle_peer_fail_htlc. by eapply smooth_peer_fails.
  - unfold handle_peer_fail_malformed_htlc. apply Z.eqb_neq in Sm. rewrite Sm. by eapply smooth_peer_fails.
  - exact (smooth_peer_fee T s (heard now P) l Y C1 chan feerate _ _ En).
  - destruct (commit_ready T env s _ _ _ _ _ X Is Iq K _ _ _ Y eq_refl L) as (c0 & l0 & X0 & L0 & Ee & Ss & Sg).
    eapply smooth_mono; [eapply (smooth_peer_commit T (seeds env s) now uninit s (heard now P) l Y C1 _ _ _ c0 l0 X0 False); try done;
      exact (fun N => N)|done| |by intros O; split; [|exact O]].
    intros N. split; [done|]. intros point Pt.
    destruct (commit_phase T env s _ _ _ _ _ X Is Iq _ _ _ eq_refl) as (_ & _ & _ & Rr & B). cbv zeta in *. eval_pow2.
    pose proof (ph_old _ _ _ _ _ _ _ _ _ (si_phase _ _ _ _ _ _ _ _ Iq)) as Po. rewrite Rr, other_other in Po.
    set (n := at_side (next_index P) LOCAL) in *. replace (n - 1) with (n + 1 - 2) in Po by lia.
    destruct (point_given (seeds env s) (n + 1) point _ ltac:(lia) Pt Po) as [x Ex]. apply (N point x).
    change (at_side (next_index (heard now P)) LOCAL) with n. rewrite (u64_at (n - 1)), u64_at by (eval_pow2; lia).
    by replace (n - 1 + 2) with (n + 1) by lia.
  - destruct (revoke_ready T env s _ _ _ _ _ X Is Iq _ _ _ eq_refl) as (Rr & Ek). by eapply smooth_peer_revoke.
Qed.

(** A commitment that is taken is answered with a revocation. *)
Definition answered (m : wire_msg) (out : list output) : Prop :=
  is_commit m -> exists chan secret point, Revoke_and_ack chan secret point ∈ to_peer out.

(** A node that has taken a commitment has said so. *)
Lemma commit_answered T s m rest S p' out : inv T env S -> at_side (sent S) (other s) = m :: rest ->
  inv T env (goes s p' out (taken s rest S)) -> answered m out.
Proof using Type.
  intros (X & _ & I) Eq (X' & _ & I') Cm. destruct m as [| | | | | |chan sig sigs| | | | | | | |]; try done.
  pose proof (I s) as Is. pose proof (I (other s)) as Iq. rewrite other_other in Iq. rewrite Eq in Is, Iq.
  destruct (commit_phase T env s _ _ _ _ _ X Is Iq chan sig sigs eq_refl) as (Cr & Rq & N & Rr & _).
  specialize (I' (other s)). rewrite other_other in I'. destruct (goes_parts s p' out (taken s rest S)) as (E1 & E2 & E3 & E4).
  destruct (taken_parts s rest S) as (F1 & F2 & F3). rewrite E1, E2, E3, E4, F1, F2, F3 in I'.
  pose proof (si_phase _ _ _ _ _ _ _ _ I') as Ph. rewrite Cr, revokes_app, Rq, N, Rr in Ph. cbn [app] in Ph.
  destruct (ph_state _ _ _ _ _ _ _ _ _ Ph) as [(_ & _ & A & B)|[((x & A) & _)|(_ & (secret & Er & _) & _)]]; [lia|done|].
  assert ((secret, next_local_per_commit p') ∈ revokes (to_peer out)) as Hr by (rewrite Er; left).
  apply list_elem_of_omap in Hr as (m & Hm & Em). destruct m; try discriminate Em. by eexists _, _, _.
Qed.

(** C2. Two nodes that opened a channel accept each other's messages. Whatever their masters
    ask and however the events interleave, the handler of the next message for a node
    returns, and if the message is a commitment has sent a revocation; with these
    exceptions. It fails the channel if the message has another place for the channel in
    the chain than its master, or a fee rate out of its master's range. On a commitment it
    ends the process in an assertion if the funder is the peer and cannot pay for it, and
    with an error if the signer has no further point. The peer never fails the channel. (The node can announce
    the channel, and no two scripts of the commitment at hand collide under SHA-256.) *)
Theorem messages_accepted S s m rest now uninit uninit_id : reaches env S -> at_side (sent S) (other s) = m :: rest ->
  let p := at_side (nodes S) s in no_collision (commit_scripts p) -> announces s p ->
  match node_event env s now uninit uninit_id (Peer_msg m) p with
  | Done _ _ out => answered m out
  | PeerFailed why _ => excused why /\ disagrees m p
  | PeerErrored _ => False
  | StatusFailed _ => is_commit m /\ out_of_points s p
  | Aborts => is_commit m /\ overdrawn p
  end.
Proof using Type*.
  intros [T I]%reaches_inv Eq p NC An.
  pose proof (read_keeps T env s now uninit uninit_id m rest S I Eq) as W.
  pose proof (read_smooth T s now uninit uninit_id m rest S I Eq NC An) as Sm. unfold wp, smooth in *. fold p in W.
  destruct (node_event _ _ _ _ _ _ _) as [[] p' out| | | |]; auto.
  exact (commit_answered T s m rest S p' out I Eq W).
Qed.

(** C4. The nodes refine the machine of [Duplex]. What two nodes do is a run of it: in every
    state, the operations that were sent and received lead it from an empty channel to some
    [X], and the channel of either node is [X] after the operations it has sent that are
    still on their way. *)
Theorem nodes_refine S : reaches env S -> exists T X, runs_to T X /\
  forall s, exists l Y, leads T s (ops (at_side (sent S) s)) X Y /\ linked T s (peer_channel (at_side (nodes S) s)) l Y.
Proof using Type*.
  intros (T & X & R & I)%reaches_inv. exists T, X. split; [done|]. intros s.
  destruct (si_copy _ _ _ _ _ _ _ _ (I s)) as (l & Y & L & C). exists l, Y. split; [done|]. apply C.
Qed.

Lemma agree_sym s c c' : agree_on s c c' -> agree_on (other s) c' c.
Proof using Type.
  intros [R O F]. constructor; rewrite ?other_other; [done| |done].
  intros t. rewrite <- (O (other t)). by rewrite other_other.
Qed.

Lemma agree_at_rest S : reaches env S -> (forall s, ops (at_side (sent S) s) = []) ->
  let c s := peer_channel (at_side (nodes S) s) in
  ends (c LOCAL) (c REMOTE) /\ forall s, agree_on s (c LOCAL) (c REMOTE).
Proof using Type*.
  intros (T & X & _ & I)%reaches_inv Q c. pose proof (I LOCAL) as IL. pose proof (I REMOTE) as IR.
  destruct (si_copy _ _ _ _ _ _ _ _ IL) as (l & Y & L & C). destruct (si_copy _ _ _ _ _ _ _ _ IR) as (l' & Y' & L' & C').
  rewrite Q in L, L'. cbn in L, L'. subst Y Y'. split; [exact (si_ends _ _ _ _ _ _ _ _ IL)|].
  pose proof (linked_agree T LOCAL _ _ _ _ _ _ (cp_linked _ _ _ _ _ C) (cp_linked _ _ _ _ _ C') (reflexivity _)) as A1.
  pose proof (linked_agree T REMOTE _ _ _ _ _ _ (cp_linked _ _ _ _ _ C') (cp_linked _ _ _ _ _ C) (reflexivity _)) as A2.
  intros []; [exact A1|]. exact (agree_sym _ _ _ A2).
Qed.

(** C6. When no operation is in flight, the two ends have the same commitments: for either
    side, the same fee rate, the same balances and the same HTLCs. *)
Theorem ends_agree S : reaches env S -> (forall s, ops (at_side (sent S) s) = []) ->
  let c s := peer_channel (at_side (nodes S) s) in
  ends (c LOCAL) (c REMOTE) /\ forall s, agree_on s (c LOCAL) (c REMOTE).
Proof using Type*. apply agree_at_rest. Qed.

(** C7. An HTLC that the channel cannot take is refused without a trace: the master gets the
    failure that goes with the reason, nothing is sent to the peer, and the state of the
    node does not change. Otherwise it is added, or its id was in use, which ends the
    daemon. *)
Theorem offer_refused S s now uninit uninit_id amount cltv hash onion : reaches env S -> 0 <= amount ->
  let p := at_side (nodes S) s in
  let result := node_event env s now uninit uninit_id (Master_msg (Master_offer_htlc amount cltv hash onion)) p in
  exists c e, channel_add_htlc (H0 := ne_table (env s)) (peer_channel p) LOCAL (htlc_id p) amount cltv hash onion = Some (c, e) /\
  match refusal e with
  | Some f => result = Done () p [ToMaster (Offer_htlc_reply 0 (Some f))]
  | None => e = CHANNEL_ERR_ADD_OK \/ result = StatusFailed "Duplicate HTLC"
  end.
Proof using Type*.
  intros (T & X & _ & I)%reaches_inv Hm p. destruct (si_copy _ _ _ _ _ _ _ _ (I s)) as (l & Y & _ & C).
  exact (offer_outcome T now s p l Y C amount cltv hash onion Hm).
Qed.
End Theorems.
