(* ===== verification/Drain.v ===== *)
(** * The exchange of messages ends

    Every message has a weight that is more than that of the answers to it, so nodes that
    only read messages stop after a number of them that is known in advance: an exchange
    cannot go on for ever, and it goes on until there is nothing left to read or a handler
    does not return. *)
From stdpp Require Import gmap strings.
From S2P Require Import Prelude HtlcState Sha256 Secp Ecdsa BitcoinTx LnScript SigCheck Shachain KeyDerive Hsm Params Htlc.
From S2P Require Import CommitTx Channel Ledger ChannelInv ChannelTxs Mirror Faces Duplex Link.
From S2P Require Import Channeld ChanneldSpec ChanneldLocal ChanneldRemote TwoParty TwoPartySafety.
Local Open Scope Z_scope.

Section Weight.
Context `{Secp256k1} `{!Signatures}.

Definition weight (m : wire_msg) : nat :=
  match m with
  | Funding_locked _ _ | Update_add_htlc _ _ _ _ _ _ | Update_fee _ _ | Error_msg _ _ | Raw WIRE_PING => 1
  | Commitment_signed _ _ _ | Raw _ => 4
  | _ => 2
  end.

Definition weights (msgs : list wire_msg) : nat := sum_list (weight <$> msgs).

(** A node that has not sent its announcement signatures may still do so, once. *)
Definition reserve (p : peer) : nat := if at_side (have_sigs p) LOCAL then 0 else 2.

Definition load (S : system) : nat :=
  weights (on_local (sent S)) + weights (on_remote (sent S)) + reserve (on_local (nodes S)) + reserve (on_remote (nodes S)).

Lemma weights_app a b : weights (a ++ b) = (weights a + weights b)%nat.
Proof. unfold weights. by rewrite fmap_app, sum_list_with_app. Qed.

(** [m] sends no more than [n], and what it takes from the reserve. *)
Definition sends {A} (n : nat) (m : run A) : Prop := forall p a p' out, m p = Done a p' out ->
  (weights (to_peer out) + reserve p' <= n + reserve p)%nat.

Lemma sends_ret {A} (a : A) : sends 0 (mret a).
Proof. by intros p b p' out [= <- <- <-]. Qed.

Lemma sends_bind {A B} n k (m : run A) (f : A -> run B) : sends n m -> (forall a, sends k (f a)) -> sends (n + k) (m ≫= f).
Proof.
  intros Sm Sf p b p2 out E. unfold mbind, run_bind in E. destruct (m p) as [a p1 o1| | | |] eqn:E1; try done.
  destruct (f a p1) as [b' p' o2| | | |] eqn:E2; try done. injection E as <- <- <-.
  rewrite to_peer_app, weights_app. pose proof (Sm _ _ _ _ E1). pose proof (Sf _ _ _ _ _ E2). lia.
Qed.

Lemma sends_mono {A} n k (m : run A) : (n <= k)%nat -> sends n m -> sends k m.
Proof. intros L S p a p' out E. pose proof (S _ _ _ _ E). lia. Qed.

Lemma sends_get : sends 0 get_peer.
Proof. by intros p b p' out [= <- <- <-]. Qed.

Lemma sends_set f : (forall p, (reserve (f p) <= reserve p)%nat) -> sends 0 (set_peer f).
Proof. intros L p b p' out [= <- <- <-]. cbn. apply L. Qed.

Lemma sends_send o : sends (weights (to_peer [o])) (send o).
Proof. by intros p b p' out [= <- <- <-]. Qed.

Lemma sends_fail {A} (m : run A) : (forall p, ~ exists a p' out, m p = Done a p' out) -> sends 0 m.
Proof. intros N p a p' out E. destruct (N p). by eexists _, _, _. Qed.

Lemma sends_or_abort {A} (o : option A) : sends 0 (or_abort o).
Proof. destruct o; [apply sends_ret|]. apply sends_fail. by intros p (? & ? & ? & ?). Qed.

Lemma sends_asserting b : sends 0 (asserting b).
Proof. destruct b; [apply sends_ret|]. apply sends_fail. by intros p (? & ? & ? & ?). Qed.

Lemma sends_hsm {A} (o : option (option A)) : sends 0 (hsm_req o).
Proof. destruct o as [[]|]; [apply sends_ret|..]; apply sends_fail; by intros p (? & ? & ? & ?). Qed.

Lemma sends_peer_failed {A} why : sends 0 (peer_failed (A := A) why).
Proof. apply sends_fail. by intros p (? & ? & ? & ?). Qed.

Lemma sends_status_failed {A} why : sends 0 (status_failed (A := A) why).
Proof. apply sends_fail. by intros p (? & ? & ? & ?). Qed.

Lemma sends_aborts {A} : sends 0 (aborts (A := A)).
Proof. apply sends_fail. by intros p (? & ? & ? & ?). Qed.
End Weight.

Create HintDb sends.
#[export] Hint Resolve sends_ret sends_get sends_or_abort sends_asserting sends_hsm sends_peer_failed sends_status_failed
  sends_aborts : sends.

(** One construct at a time; whatever is sent, the continuation may send the rest. *)
Ltac sends_leaf := first [ solve [eauto 1 with sends] | (apply sends_set; intros; apply le_n) | apply sends_send ].
Ltac sends_step :=
  match goal with
  | |- sends _ (mret _) => apply (sends_mono 0); [lia|apply sends_ret]
  | |- sends _ (match ?x with _ => _ end) => destruct x
  | |- sends _ (let '_ := ?x in _) => destruct x
  | |- sends _ (_ ≫= _) => eapply (sends_bind 0 _); [solve [sends_leaf]|intros; cbv beta]
  | |- sends _ _ => solve [sends_leaf] || (apply (sends_mono 0); [lia|solve [sends_leaf]])
  end.
Ltac sends := repeat sends_step.

Section Handlers.
Context `{Secp256k1} `{!Signatures} `{HtlcTable} `{!Onions}.
Context (channel_seed node_privkey : bytes) (now : Z) (uninit : Z * Z) (uninit_id : bytes).

Lemma sends_channel_update b : sends 0 (send_channel_update b).
Proof. unfold send_channel_update. sends. Qed.

Lemma sends_ping : sends 1 (maybe_send_ping now).
Proof. unfold maybe_send_ping. sends. apply (sends_bind 1 0); [sends_leaf|intros []; sends_leaf]. Qed.

Lemma sends_timer : sends 1 (start_commit_timer now).
Proof. unfold start_commit_timer. apply (sends_bind 1 0); [apply sends_ping|intros []]. sends. Qed.
Hint Resolve sends_channel_update sends_timer : sends.

Lemma sends_announce : sends 0 announce_channel.
Proof. unfold announce_channel, check_short_ids_match. apply (sends_bind 0 0); [sends|intros []]. sends. Qed.

Lemma sends_local_active : sends 0 make_channel_local_active.
Proof. unfold make_channel_local_active. sends. Qed.

Lemma bind_done {A B} (m : run A) (f : A -> run B) p b p2 out : (m ≫= f) p = Done b p2 out ->
  exists a p1 o1 o2, m p = Done a p1 o1 /\ f a p1 = Done b p2 o2 /\ out = o1 ++ o2.
Proof.
  unfold mbind, run_bind. destruct (m p) as [a p1 o1| | | |]; try done.
  destruct (f a p1) as [b' p' o2| | | |] eqn:E; try done. intros [= <- <- <-]. by eexists _, _, _, _.
Qed.

(** Nothing for the peer, and the signatures as they were. *)
Definition silent {A} (m : run A) : Prop := forall p a p' out, m p = Done a p' out ->
  to_peer out = [] /\ have_sigs p' = have_sigs p.

Lemma silent_bind {A B} (m : run A) (f : A -> run B) : silent m -> (forall a, silent (f a)) -> silent (m ≫= f).
Proof.
  intros Sm Sf p b p2 out (a & p1 & o1 & o2 & E1 & E2 & ->)%bind_done. rewrite to_peer_app.
  destruct (Sf _ _ _ _ _ E2) as [-> ->], (Sm _ _ _ _ E1) as [-> ->]. done.
Qed.

Lemma silent_channel_update b : silent (send_channel_update b).
Proof.
  unfold send_channel_update. apply silent_bind; [by intros ? ? ? ? [= <- <- <-]|]. intros p. destruct (negb _).
  - by intros ? ? ? ? [= <- <- <-].
  - apply silent_bind; [|intros []; by intros ? ? ? ? [= <- <- <-]]. intros p1 a p' out E. unfold asserting in E.
    destruct (negb _); [by injection E as <- <- <-|done].
Qed.

Lemma silent_local_active : silent (put channel_local_active true;; make_channel_local_active).
Proof.
  apply silent_bind; [by intros ? ? ? ? [= <- <- <-]|]. intros []. unfold make_channel_local_active.
  apply silent_bind; [by intros ? ? ? ? [= <- <- <-]|]. intros p.
  apply silent_bind; [by intros ? ? ? ? [= <- <- <-]|]. intros []. apply silent_channel_update.
Qed.

Lemma sends_signatures : sends 2 (send_announcement_signatures channel_seed node_privkey).
Proof. unfold send_announcement_signatures. sends. all: apply (sends_mono 2); [lia|sends_leaf]. Qed.

Lemma signatures_keep p a p' out : send_announcement_signatures channel_seed node_privkey p = Done a p' out ->
  have_sigs p' = have_sigs p.
Proof.
  unfold send_announcement_signatures. intros (p1 & ? & ? & ? & [= <- <- <-] & E & _)%bind_done.
  apply bind_done in E as ([ns bs] & p2 & ? & ? & E1 & E & _).
  assert (p2 = p) as -> by (unfold hsm_req in E1; repeat case_match; try discriminate; by injection E1).
  apply bind_done in E as (? & ? & ? & ? & [= <- <- <-] & E & _).
  apply bind_done in E as (? & ? & ? & ? & [= <- <- <-] & E & _).
  destruct (negb _); [discriminate|]. destruct (negb _); [discriminate|]. by injection E as <- <- <-.
Qed.

(** The announcement signatures are paid for by the reserve. *)
Lemma sends_negotiate : sends 0 (channel_announcement_negotiate channel_seed node_privkey).
Proof.
  unfold channel_announcement_negotiate. intros p a p' out (p0 & ? & ? & o1 & [= <- <- <-] & E & ->)%bind_done.
  destruct (at_side (shutdown_sent p) LOCAL); [by injection E as <- <- <-|].
  destruct (_ || _); [by injection E as <- <- <-|].
  apply bind_done in E as ([] & p1 & w1 & w2 & E1 & E & ->). apply bind_done in E as ([] & p2 & w3 & w4 & E2 & E & ->).
  assert (to_peer w1 = [] /\ have_sigs p1 = have_sigs p) as [W1 Hp].
  { destruct (negb _); [exact (silent_local_active _ _ _ _ E1)|]. by injection E1 as <- <-. }
  assert (weights (to_peer w3) + reserve p2 <= reserve p)%nat as W3.
  { unfold reserve at 2. destruct (at_side (have_sigs p) LOCAL) eqn:Hs.
    - rewrite andb_false_r in E2. injection E2 as <- <-. cbn. unfold reserve. by rewrite Hp, Hs.
    - cbn [negb] in E2. destruct (_ && _); cycle 1.
      { injection E2 as <- <-. cbn. unfold reserve. by rewrite Hp, Hs. }
      apply bind_done in E2 as ([] & p3 & w5 & w6 & E3 & [= <- <-] & ->).
      pose proof (sends_signatures _ _ _ _ E3) as L. rewrite to_peer_app, weights_app. unfold reserve in *.
      rewrite (signatures_keep _ _ _ _ E3), Hp, Hs in L. cbn. lia. }
  assert (weights (to_peer w4) + reserve p' <= reserve p2)%nat as W4.
  { refine (sends_bind 0 0 _ _ sends_get _ _ _ _ _ E). intros q. destruct (at_side (have_sigs q) LOCAL && at_side (have_sigs q) REMOTE); [apply sends_announce|apply sends_ret]. }
  rewrite !to_peer_app, W1, !weights_app. cbn. lia.
Qed.
Hint Resolve sends_negotiate : sends.

(** ** What each message makes a node send *)
Lemma sends_peer_funding_locked m : sends 0 (handle_peer_funding_locked channel_seed node_privkey m).
Proof. unfold handle_peer_funding_locked. sends. Qed.

Lemma sends_peer_signatures m : sends 0 (handle_peer_announcement_signatures channel_seed node_privkey m).
Proof.
  unfold handle_peer_announcement_signatures. intros p a p' out (p0 & ? & ? & o1 & [= <- <- <-] & E & ->)%bind_done.
  destruct m; try discriminate E. apply bind_done in E as (? & ? & ? & ? & [= <- <- <-] & E & ->).
  apply bind_done in E as (? & ? & ? & ? & [= <- <- <-] & E & ->). apply bind_done in E as (? & ? & ? & ? & [= <- <- <-] & E & ->).
  destruct (negb _); [discriminate|]. apply bind_done in E as (? & ? & ? & ? & [= <- <- <-] & E & ->).
  pose proof (sends_negotiate _ _ _ _ E) as L. cbn [app]. etransitivity; [exact L|]. unfold reserve. cbn. done.
Qed.

Lemma sends_peer_add m : sends 0 (handle_peer_add_htlc m).
Proof. unfold handle_peer_add_htlc. sends. Qed.

Lemma sends_peer_fee m : sends 0 (handle_peer_feechange m).
Proof. unfold handle_peer_feechange. sends. Qed.

Lemma sends_peer_fulfill m : sends 1 (handle_peer_fulfill_htlc now m).
Proof. unfold handle_peer_fulfill_htlc. sends. Qed.

Lemma sends_peer_fails i reason why : sends 1 (peer_fails_htlc now i reason why).
Proof. unfold peer_fails_htlc. sends. Qed.
Hint Resolve sends_peer_fails : sends.

Lemma sends_peer_fail m : sends 1 (handle_peer_fail_htlc now m).
Proof. unfold handle_peer_fail_htlc. sends. Qed.

Lemma sends_peer_malformed m : sends 1 (handle_peer_fail_malformed_htlc now m).
Proof. unfold handle_peer_fail_malformed_htlc. sends. Qed.

Lemma sends_peer_shutdown m : sends 1 (handle_peer_shutdown now m).
Proof. unfold handle_peer_shutdown. sends. Qed.

Lemma sends_peer_revoke m : sends 1 (handle_peer_revoke_and_ack now m).
Proof. unfold handle_peer_revoke_and_ack. sends. Qed.

Lemma sends_check_htlc_sigs key l : sends 0 (check_htlc_sigs key l).
Proof. induction l as [|[[]] l IH]; cbn [check_htlc_sigs]; sends. Qed.
Hint Resolve sends_check_htlc_sigs : sends.

Lemma revocation_msg n p msg point p' out : make_revocation_msg channel_seed n p = Done (msg, point) p' out ->
  weight msg = 2%nat /\ to_peer out = [] /\ p' = p.
Proof.
  unfold make_revocation_msg. intros (p0 & ? & ? & ? & [= <- <- <-] & E & ->)%bind_done.
  apply bind_done in E as ([pt s] & p2 & o & ? & E1 & E & ->).
  assert (p2 = p /\ o = []) as [-> ->]
    by (unfold get_per_commitment_point, hsm_req in E1; repeat case_match; try discriminate; by injection E1).
  destruct s; [|discriminate E]. apply bind_done in E as (? & ? & ? & ? & [= <- <- <-] & E & ->). by injection E as <- <- <- <-.
Qed.

Lemma sends_revocation : sends 3 (send_revocation channel_seed now).
Proof.
  unfold send_revocation. intros p a p' out (p0 & ? & ? & ? & [= <- <- <-] & E & ->)%bind_done.
  apply bind_done in E as ([msg pt] & p2 & o1 & o2 & E1 & E & ->). destruct (revocation_msg _ _ _ _ _ _ E1) as (Wm & W1 & ->).
  assert (sends 3 (put next_local_per_commit pt;;
    put next_index (set_side LOCAL (u64 (at_side (next_index p) LOCAL + 1)) (next_index p));;
    '(c, b) ← or_abort (channel_sending_revoke_and_ack (peer_channel p));
    put peer_channel c;; (if b : bool then start_commit_timer now else mret ());; send (ToPeer msg))) as Sd.
  { sends. apply (sends_bind 1 2); [sends|intros []]. pose proof (sends_send (ToPeer msg)) as Sm.
    assert (weights (to_peer [ToPeer msg]) = 2%nat) as W by (cbn; by rewrite Wm). by rewrite W in Sm. }
  pose proof (Sd _ _ _ _ E) as L. rewrite !to_peer_app, W1. exact L.
Qed.
Hint Resolve sends_revocation : sends.

Lemma sends_peer_commit m : sends 3 (handle_peer_commit_sig channel_seed now uninit m).
Proof. unfold handle_peer_commit_sig. sends. all: apply (sends_bind 0 3); [sends|intros []; sends]. Qed.

Lemma gossip_or_error m p b p' out : handle_peer_gossip_or_error uninit_id m p = Done b p' out ->
  p' = p /\ (weights (to_peer out) < weight m)%nat /\ (b = false -> to_peer out = []).
Proof.
  assert (1 <= weight m)%nat as Wm by (destruct m as [| | | | | | | | | | | | | |[]]; cbn; lia).
  unfold handle_peer_gossip_or_error. intros (? & ? & ? & ? & [= <- <- <-] & E & ->)%bind_done.
  destruct (is_msg_for_gossipd m).
  { apply bind_done in E as (? & ? & ? & ? & [= <- <- <-] & E & ->). by injection E as <- <- <-. }
  destruct (is_peer_error _ m _) as [[]|]; [discriminate|by injection E as <- <- <-|].
  destruct (is_wrong_channel m (channel_id p)) as [actual|] eqn:Ew; [|by injection E as <- <- <-].
  apply bind_done in E as (? & ? & ? & ? & [= <- <- <-] & E & ->). injection E as <- <- <-.
  split; [done|]. split; [|done]. unfold is_wrong_channel in Ew. destruct m; try discriminate Ew; cbn; lia.
Qed.

(** Every answer weighs less than what it answers. *)
Lemma peer_in_lighter m p a p' out : peer_in channel_seed node_privkey now uninit uninit_id m p = Done a p' out ->
  (weights (to_peer out) + reserve p' < weight m + reserve p)%nat.
Proof.
  unfold peer_in. intros ([] & p1 & ? & ? & [= <- <-] & E & ->)%bind_done.
  apply bind_done in E as (? & ? & ? & ? & [= <- <- <-] & E & ->). set (p1 := set_field (f := last_recv) now p) in *.
  assert (reserve p1 = reserve p) as <- by done. rewrite !to_peer_app. change (to_peer []) with (@nil wire_msg). cbn [app].
  assert (1 <= weight m)%nat as Wm by (destruct m as [| | | | | | | | | | | | | |[]]; cbn; lia).
  destruct (bool_decide _ && _).
  { injection E as <- <- <-. cbn. unfold reserve. cbn. lia. }
  apply bind_done in E as (b & p2 & o1 & o2 & E1 & E & ->). destruct (gossip_or_error _ _ _ _ _ E1) as (-> & W1 & W2).
  rewrite to_peer_app. destruct b.
  { injection E as <- <- <-. change (to_peer []) with (@nil wire_msg). rewrite app_nil_r. lia. }
  rewrite (W2 eq_refl). cbn [app]. destruct (_ && _); [discriminate|].
  assert (forall n h, sends n h -> (n < weight m)%nat -> h p1 = Done a p' o2 ->
    (weights (to_peer o2) + reserve p' < weight m + reserve p1)%nat) as Use.
  { intros n h Sh L E'. pose proof (Sh _ _ _ _ E'). lia. }
  destruct m; cbn [wire_type_of] in E; try discriminate E.
  - eapply Use; [apply sends_peer_funding_locked|cbn; lia|exact E].
  - eapply Use; [apply sends_peer_add|cbn; lia|exact E].
  - eapply Use; [apply sends_peer_fulfill|cbn; lia|exact E].
  - eapply Use; [apply sends_peer_fail|cbn; lia|exact E].
  - eapply Use; [apply sends_peer_malformed|cbn; lia|exact E].
  - eapply Use; [apply sends_peer_fee|cbn; lia|exact E].
  - eapply Use; [apply sends_peer_commit|cbn; lia|exact E].
  - eapply Use; [apply sends_peer_revoke|cbn; lia|exact E].
  - eapply Use; [apply sends_peer_shutdown|cbn; lia|exact E].
  - eapply Use; [apply sends_peer_signatures|cbn; lia|exact E].
  - destruct t; try discriminate E;
      (eapply Use; [| |exact E]; [first [ apply sends_peer_funding_locked | apply sends_peer_add | apply sends_peer_fulfill | apply sends_peer_fail
        | apply sends_peer_malformed | apply sends_peer_fee | apply sends_peer_commit | apply sends_peer_revoke
        | apply sends_peer_shutdown | apply sends_peer_signatures ]|cbn; lia]).
Qed.
End Handlers.

(** ** Two nodes *)
Section Exchange.
Context `{Secp256k1} `{!Signatures} (env : side -> node_env).
Context (now : Z) (uninit : Z * Z) (uninit_id : bytes).

(** Node [s], unless it has finished, reads the next message for it. *)
Definition reads (s : side) (S : system) : option system :=
  match at_side (sent S) (other s), shutdown_complete (at_side (nodes S) s) with
  | m :: rest, Some false =>
      match node_event env s now uninit uninit_id (Peer_msg m) (at_side (nodes S) s) with
      | Done _ p' out => Some (goes s p' out (taken s rest S))
      | _ => None
      end
  | _, _ => None
  end.

(** As long as one of them can. *)
Fixpoint exchange (fuel : nat) (S : system) : system :=
  match fuel with
  | O => S
  | Datatypes.S fuel =>
      match reads LOCAL S, reads REMOTE S with
      | Some S', _ | None, Some S' => exchange fuel S'
      | None, None => S
      end
  end.

Lemma reads_spec s S S' : reads s S = Some S' -> step env S S' /\ (load S' < load S)%nat.
Proof.
  unfold reads. destruct (at_side (sent S) (other s)) as [|m rest] eqn:Eq; [done|].
  destruct (shutdown_complete _) as [[]|] eqn:Es; try done.
  destruct (node_event _ _ _ _ _ _ _) as [[] p' out| | | |] eqn:E; try done. intros [= <-]. split; [by eapply step_take|].
  unfold node_event in E. cbn [handle_event] in E.
  apply (@peer_in_lighter _ _ (ne_table (env s)) (ne_onions (env s))) in E. unfold load.
  assert (weights (m :: rest) = weight m + weights rest)%nat as Wc by done.
  destruct s; cbn [goes taken nodes sent set_side on_local on_remote other at_side] in *; rewrite Eq, weights_app, Wc; lia.
Qed.

Lemma exchange_ends fuel S : (load S <= fuel)%nat ->
  rtc (step env) S (exchange fuel S) /\ forall s, reads s (exchange fuel S) = None.
Proof.
  revert S. induction fuel as [|fuel IH]; intros S L; cbn [exchange].
  - split; [done|]. intros s. destruct (reads s S) as [S'|] eqn:E; [|done]. apply reads_spec in E as [_ ?]. lia.
  - destruct (reads LOCAL S) as [S'|] eqn:E1; [|destruct (reads REMOTE S) as [S'|] eqn:E2].
    + apply reads_spec in E1 as [St Ld]. destruct (IH S') as [R N]; [lia|]. split; [by eapply rtc_l|done].
    + apply reads_spec in E2 as [St Ld]. destruct (IH S') as [R N]; [lia|]. split; [by eapply rtc_l|done].
    + split; [done|]. by intros [].
Qed.
End Exchange.

Section Settles.
Context `{Secp256k1Laws} `{!Signatures} `{!SignatureLaws} (env : side -> node_env).

(** C5. An exchange of messages ends. From any state of a channel, nodes that read what is
    sent to them stop after at most as many messages as the load of the state: when each
    has read everything, or has finished, or its handler did not return. If everything was
    read, the two ends then have the same commitments. *)
Theorem channel_settles now uninit uninit_id S : reaches env S ->
  let S' := exchange env now uninit uninit_id (load S) S in
  reaches env S' /\ (forall s, reads env now uninit uninit_id s S' = None) /\
  ((forall s, at_side (sent S') s = []) ->
   forall s, agree_on s (peer_channel (at_side (nodes S') LOCAL)) (peer_channel (at_side (nodes S') REMOTE))).
Proof using Type*.
  intros R S'. destruct (exchange_ends env now uninit uninit_id (load S) S (le_n _)) as [St N]. fold S' in St, N.
  assert (reaches env S') as R' by (destruct R as (S0 & B & R0); exists S0; split; [done|by etransitivity]).
  split; [done|]. split; [done|]. intros Q. apply (agree_at_rest env S' R'). intros s. by rewrite Q.
Qed.
End Settles.
