(* ===== verification/TwoPartyDemo.v ===== *)
(** * Two nodes that run

    The system of [TwoParty], executed: two nodes with the group of scalars open a channel
    of a million satoshi, one offers an HTLC of 50000 satoshi, and the other gets the
    commitment that has it. *)
From stdpp Require Import gmap strings.
From S2P Require Import Prelude HtlcState Sha256 Secp Ecdsa BitcoinTx LnScript SigCheck Shachain KeyDerive Hsm Params Htlc.
From S2P Require Import CommitTx Channel Ledger ChannelInv ChannelSafety ChannelTxs Mirror Faces Duplex Link.
From S2P Require Import Channeld ChanneldSpec ChanneldLocal ChanneldRemote ChanneldTotal TwoParty TwoPartySafety Drain.
Local Open Scope Z_scope.

(** ** Running the system *)
Section Run.
Context `{Secp256k1} `{!Signatures} (env : side -> node_env).

(** An event of node [s]'s own. *)
Definition own (s : side) (e : event) (S : system) : option system :=
  match shutdown_complete (at_side (nodes S) s), node_event env s 0 (0, 0) [] e (at_side (nodes S) s) with
  | Some false, Done _ p' out => Some (goes s p' out S)
  | _, _ => None
  end.

Lemma own_spec s e S S' : own_event e -> own s e S = Some S' -> step env S S'.
Proof.
  unfold own. intros Oe. destruct (shutdown_complete _) as [[]|] eqn:Es; [discriminate| |discriminate].
  destruct (node_event _ _ _ _ _ _ _) as [[] p' out| | | |] eqn:E; try discriminate. intros [= <-]. by eapply step_own.
Qed.

(** The node after it locked the funding, with its point and what it sent after it. *)
Definition locks (s : side) (m : channel_init) : option (peer * pubkey * list wire_msg) :=
  match @init_channel _ _ (ne_table (env s)) (ne_onions (env s)) (ne_seed (env s)) (ne_privkey (env s)) 0 (0, 0) [] m [] with
  | Done _ p0 _ =>
      match node_event env s 0 (0, 0) [] (Master_msg (Master_funding_locked 1 1)) p0 with
      | Done _ p1 out =>
          match to_peer out with Funding_locked _ point :: rest => Some (p1, point, rest) | _ => None end
      | _ => None
      end
  | _ => None
  end.

(** The other node's lock arrives. *)
Definition locked (s : side) (m : channel_init) (p1 : peer) (their_point : pubkey) : option (peer * list wire_msg) :=
  match node_event env s 0 (0, 0) [] (Peer_msg (Funding_locked (derive_channel_id (i_funding_txid m) (i_funding_txout m)) their_point)) p1 with
  | Done _ p2 out => Some (p2, to_peer out)
  | _ => None
  end.

Definition both_locked (p : peer) : bool := at_side (funding_locked p) LOCAL && at_side (funding_locked p) REMOTE.

Definition open (ms : side -> channel_init) : option system :=
  '(pL, ptL, rL) ← locks LOCAL (ms LOCAL);
  '(pR, ptR, rR) ← locks REMOTE (ms REMOTE);
  '(pL, rL') ← locked LOCAL (ms LOCAL) pL ptR;
  '(pR, rR') ← locked REMOTE (ms REMOTE) pR ptL;
  if both_locked pL && both_locked pR then Some (System (Sided pL pR) (Sided (rL ++ rL') (rR ++ rR'))) else None.

Lemma locks_opened s m p1 point r1 p2 their_point r2 : locks s m = Some (p1, point, r1) ->
  locked s m p1 their_point = Some (p2, r2) -> opened env s m point their_point p2 (r1 ++ r2).
Proof.
  unfold locks, locked. destruct (init_channel _ _ _ _ _ _ _) as [[] p0 o0| | | |] eqn:E0; try discriminate.
  destruct (node_event env s 0 (0, 0) [] (Master_msg _) p0) as [[] q out| | | |] eqn:E1; try discriminate.
  destruct (to_peer out) as [|[chan pt| | | | | | | | | | | | | |] rest] eqn:Er; try discriminate. intros [= -> -> ->].
  destruct (node_event env s 0 (0, 0) [] (Peer_msg _) p1) as [[] q2 out2| | | |] eqn:E2; try discriminate. intros [= -> <-].
  by eapply opened_first.
Qed.

Lemma both_locked_spec p : both_locked p = true -> funding_locked p = Sided true true.
Proof. unfold both_locked. destruct (funding_locked p) as [[] []]; done. Qed.

Lemma open_starts ms S : agreed env ms -> open ms = Some S -> starts env S.
Proof.
  unfold open. intros A. destruct (locks LOCAL (ms LOCAL)) as [[[pL ptL] rL]|] eqn:EL; [|discriminate]. cbn [mbind option_bind].
  destruct (locks REMOTE (ms REMOTE)) as [[[pR ptR] rR]|] eqn:ER; [|discriminate]. cbn [mbind option_bind].
  destruct (locked LOCAL (ms LOCAL) pL ptR) as [[pL' rL']|] eqn:EL'; [|discriminate]. cbn [mbind option_bind].
  destruct (locked REMOTE (ms REMOTE) pR ptL) as [[pR' rR']|] eqn:ER'; [|discriminate]. cbn [mbind option_bind].
  destruct (both_locked pL') eqn:BL; [|discriminate]. destruct (both_locked pR') eqn:BR; [|discriminate]. cbn [andb].
  intros E. injection E as <-. apply (Starts env _ ms (at_side (Sided ptL ptR))); [exact A|intros []; cbn|intros []; cbn].
  - exact (locks_opened _ _ _ _ _ _ _ _ EL EL').
  - exact (locks_opened _ _ _ _ _ _ _ _ ER ER').
  - by apply both_locked_spec.
  - by apply both_locked_spec.
Qed.
End Run.

(** ** A channel *)
Section Inits.
Context `{Secp256k1} `{!Signatures} (env : side -> node_env).
Context (bps : side -> basepoints) (fpk first ids : side -> pubkey).

Definition demo_init (s : side) : channel_init :=
  ChannelInit Demo.regtest_hash (replicate 32 1) 0 1000000 (Sided Demo.cfg Demo.cfg) (Sided 253 253) 253 10000
    (Sided (fpk s) (fpk (other s))) (Sided (bps s) (bps (other s))) (first (other s)) (first (other s))
    s 1 10 (match s with LOCAL => 700000000 | REMOTE => 300000000 end) (Sided (ids s) (ids (other s))) 6 false [] (Sided 1 1) 0 0
    [] [] [] [] [] [] (Sided false false) 0 false false false [] None false (replicate 32 0).

Lemma demo_agreed : (forall s, handle_get_channel_basepoints (seeds env s) = Some (Some (bps s, fpk s))) ->
  (forall s, point_at (seeds env s) 0 (first s)) -> agreed env demo_init.
Proof.
  intros Hb Hf. constructor; try reflexivity.
  - intros s. constructor; try reflexivity. repeat split.
  - split; reflexivity.
  - intros []; reflexivity.
  - intros []; reflexivity.
  - intros []; reflexivity.
  - exact Hb.
  - intros s. exact (Hf (other s)).
  - intros []; unfold sane_terms; cbn; lia.
Qed.
End Inits.

(** Bool tests. *)
Definition no_collision_b (scripts : list bytes) : bool :=
  forallb (fun a => forallb (fun b => bool_decide (a = b) || negb (bool_decide (sha256 a = sha256 b))) scripts) scripts.

Lemma no_collision_spec scripts : no_collision_b scripts = true -> no_collision scripts.
Proof.
  unfold no_collision_b, no_collision. intros T a b Ha Hb E. rewrite forallb_forall in T.
  apply list_elem_of_In in Ha, Hb. specialize (T a Ha). rewrite forallb_forall in T. specialize (T b Hb).
  destruct (bool_decide (a = b)) eqn:Eab; [exact (bool_decide_eq_true_1 _ Eab)|]. cbn [orb] in T.
  rewrite (bool_decide_eq_true_2 _ E) in T. discriminate T.
Qed.

Module DemoTwo.
#[local] Existing Instances Scalars.ops Scalars.laws ScalarSigs.ops ScalarSigs.laws.

Definition onions : Onions :=
  {| get_shared_secret _ := replicate 32 5; make_failmsg _ := None; create_onionreply _ m := m; wrap_onionreply _ m := m;
     create_channel_announcement _ := replicate 430 0 |}.

Definition env (s : side) : node_env :=
  NodeEnv (be_bytes 32 (match s with LOCAL => 77 | REMOTE => 78 end)) (be_bytes 32 (match s with LOCAL => 79 | REMOTE => 80 end))
    InOrder.table onions.

Definition offer : event := Master_msg (Master_offer_htlc 50000000 500000 (replicate 32 7) []).

(** The HTLC is offered, and its commitment is on the way. *)
Definition play (ms : side -> channel_init) : option system :=
  S ← open env ms;
  S ← own env LOCAL offer S;
  S ← reads env 0 (0, 0) [] REMOTE S;
  own env LOCAL Timer_expires S.

Lemma play_reaches ms S : agreed env ms -> play ms = Some S -> reaches env S.
Proof.
  unfold play. intros A. destruct (open env ms) as [S0|] eqn:E0; [|discriminate]. cbn [mbind option_bind].
  destruct (own env LOCAL offer S0) as [S1|] eqn:E1; [|discriminate]. cbn [mbind option_bind].
  destruct (reads env 0 (0, 0) [] REMOTE S1) as [S2|] eqn:E2; [|discriminate]. cbn [mbind option_bind]. intros E3.
  exists S0. split; [exact (open_starts env ms S0 A E0)|].
  eapply rtc_l; [refine (own_spec env _ _ _ _ _ E1); cbn; lia|].
  eapply rtc_l; [exact (proj1 (reads_spec env _ _ _ _ _ _ E2))|].
  eapply rtc_l; [exact (own_spec env _ Timer_expires _ _ Logic.I E3)|apply rtc_refl].
Qed.

(** Everything is derived from the seeds. *)
Definition with_inits (P : (side -> channel_init) -> bool) : bool :=
  match handle_get_channel_basepoints (seeds env LOCAL), handle_get_channel_basepoints (seeds env REMOTE),
        handle_get_per_commitment_point (seeds env LOCAL) 0, handle_get_per_commitment_point (seeds env REMOTE) 0,
        pubkey_from_privkey (ne_privkey (env LOCAL)), pubkey_from_privkey (ne_privkey (env REMOTE)) with
  | Some (Some (bL, fL)), Some (Some (bR, fR)), Some (Some (pL, _)), Some (Some (pR, _)), Some iL, Some iR =>
      P (demo_init (at_side (Sided bL bR)) (at_side (Sided fL fR)) (at_side (Sided pL pR)) (at_side (Sided iL iR)))
  | _, _, _, _, _, _ => false
  end.

Lemma with_inits_spec P : with_inits P = true -> exists ms, agreed env ms /\ P ms = true.
Proof.
  unfold with_inits. generalize (demo_agreed env).
  destruct (handle_get_channel_basepoints (seeds env LOCAL)) as [[[bL fL]|]|] eqn:EL; [|discriminate|discriminate].
  destruct (handle_get_channel_basepoints (seeds env REMOTE)) as [[[bR fR]|]|] eqn:ER; [|discriminate|discriminate].
  destruct (handle_get_per_commitment_point (seeds env LOCAL) 0) as [[[pL oL]|]|] eqn:PL; [|discriminate|discriminate].
  destruct (handle_get_per_commitment_point (seeds env REMOTE) 0) as [[[pR oR]|]|] eqn:PR; [|discriminate|discriminate].
  destruct (pubkey_from_privkey (ne_privkey (env LOCAL))) as [iL|]; [|discriminate].
  destruct (pubkey_from_privkey (ne_privkey (env REMOTE))) as [iR|]; [|discriminate].
  intros D T. eexists. split; [|exact T]. apply D.
  - intros []; [exact EL|exact ER].
  - intros []; [exact (proj1 (get_point _ _ _ _ PL))|exact (proj1 (get_point _ _ _ _ PR))].
Qed.

Definition can_announce_b (s : side) (p : peer) : bool :=
  negb (at_side (short_channel_ids p) LOCAL =? 0) &&
  bool_decide (pubkey_from_privkey (ne_privkey (env s)) = Some (at_side (node_ids p) LOCAL)).

Lemma can_announce_spec s p : can_announce_b s p = true -> announces env s p.
Proof.
  unfold can_announce_b. rewrite andb_true_iff. intros [N I].
  assert (forall q : peer, (258 <= length (create_channel_announcement (Onions := ne_onions (env s)) q))%nat) as R.
  { intros q. change (258 <= length (replicate 430 0))%nat. rewrite length_replicate. lia. }
  constructor; [|by destruct s|exact (bool_decide_eq_true_1 _ I)|exact R].
  intros E. rewrite E in N. discriminate N.
Qed.

(** What is on its way: a commitment, to be checked by its receiver. *)
Definition commit_waits (S : system) : bool :=
  match at_side (sent S) LOCAL with
  | Commitment_signed _ _ _ :: _ =>
      no_collision_b (commit_scripts (at_side (nodes S) REMOTE)) && can_announce_b REMOTE (at_side (nodes S) REMOTE)
  | _ => false
  end.

Definition plays (P : system -> bool) (ms : side -> channel_init) : bool :=
  match play ms with Some sys => P sys | None => false end.

Lemma plays_spec P : with_inits (plays P) = true -> exists S, reaches env S /\ P S = true.
Proof.
  intros (ms & A & T)%with_inits_spec. unfold plays in T. destruct (play ms) as [S|] eqn:E; [|discriminate].
  exists S. split; [exact (play_reaches ms S A E)|exact T].
Qed.

(** Both nodes read until there is nothing left. *)
Definition settled (S : system) : system := exchange env 0 (0, 0) [] (load S) S.

Definition all_read (S : system) : bool :=
  match at_side (sent S) LOCAL, at_side (sent S) REMOTE with [], [] => true | _, _ => false end.

(** The next message for a node is taken. *)
Definition takes (s : side) (S : system) : bool :=
  match at_side (sent S) (other s) with
  | m :: _ => match node_event env s 0 (0, 0) [] (Peer_msg m) (at_side (nodes S) s) with Done _ _ _ => true | _ => false end
  | [] => false
  end.

Lemma play_settles : with_inits (plays (fun S => commit_waits S && takes REMOTE S && all_read (settled S))) = true.
Proof. vm_cast_no_check (@eq_refl bool true). Qed.

Lemma play_state : exists S, reaches env S /\ commit_waits S && takes REMOTE S && all_read (settled S) = true.
Proof. exact (plays_spec _ play_settles). Qed.

Lemma commit_waits_spec S : commit_waits S = true -> exists chan sig sigs rest,
  at_side (sent S) LOCAL = Commitment_signed chan sig sigs :: rest /\ no_collision (commit_scripts (at_side (nodes S) REMOTE)) /\
  announces env REMOTE (at_side (nodes S) REMOTE).
Proof.
  unfold commit_waits. destruct (at_side (sent S) LOCAL) as [|[] rest] eqn:E; try discriminate.
  intros [T A]%andb_prop. apply no_collision_spec in T. apply can_announce_spec in A.
  do 4 eexists. split; [reflexivity|]. split; [exact T|exact A].
Qed.

Lemma all_read_spec S : all_read S = true -> forall s, at_side (sent S) s = [].
Proof.
  unfold all_read. destruct (at_side (sent S) LOCAL) eqn:EL; [|discriminate].
  destruct (at_side (sent S) REMOTE) eqn:ER; [|discriminate]. intros _ []; assumption.
Qed.

(** The commitment with the HTLC is taken and answered. *)
Lemma messages_accepted_witness : exists S chan sig sigs rest p' out, reaches env S /\
  at_side (sent S) LOCAL = Commitment_signed chan sig sigs :: rest /\
  node_event env REMOTE 0 (0, 0) [] (Peer_msg (Commitment_signed chan sig sigs)) (at_side (nodes S) REMOTE) = Done () p' out /\
  exists chan secret point, Revoke_and_ack chan secret point ∈ to_peer out.
Proof.
  destruct play_state as (S & R & T). apply andb_prop in T as [T _]. apply andb_prop in T as [T D].
  apply commit_waits_spec in T as (chan & sig & sigs & rest & E & NC & An).
  pose proof (messages_accepted env S REMOTE _ rest 0 (0, 0) [] R E NC An) as Acc. cbv zeta in Acc.
  unfold takes in D. change (other REMOTE) with LOCAL in D. rewrite E in D.
  destruct (node_event env REMOTE 0 (0, 0) [] (Peer_msg (Commitment_signed chan sig sigs)) (at_side (nodes S) REMOTE))
    as [[] p' out| | | |] eqn:Ev; try discriminate D.
  exists S, chan, sig, sigs, rest, p', out. split; [exact R|]. split; [exact E|]. split; [exact Ev|exact (Acc I)].
Defined.

(** Once it is read, and its answers are, the nodes have nothing more to read and agree. *)
Lemma channel_settles_witness : exists S, reaches env S /\ (forall s, at_side (sent (settled S)) s = []) /\
  forall s, agree_on s (peer_channel (at_side (nodes (settled S)) LOCAL)) (peer_channel (at_side (nodes (settled S)) REMOTE)).
Proof.
  destruct play_state as (S & R & T). apply andb_prop in T as [_ T]. pose proof (all_read_spec _ T) as Q.
  exists S. split; [exact R|]. split; [exact Q|]. exact (proj2 (proj2 (channel_settles env 0 (0, 0) [] S R)) Q).
Defined.

(** The commitment in flight is an operation of the machine that only its sender has done. *)
Lemma nodes_refine_witness : exists S T X, reaches env S /\ runs_to T X /\ exists l Y,
  leads T REMOTE (ops (at_side (sent S) REMOTE)) X Y /\ linked T REMOTE (peer_channel (at_side (nodes S) REMOTE)) l Y.
Proof.
  destruct play_state as (S & R & _). destruct (nodes_refine env S R) as (T & X & Rn & I).
  exists S, T, X. split; [exact R|]. split; [exact Rn|]. exact (I REMOTE).
Defined.

(** An HTLC of more than the channel has. *)
Lemma offer_refused_witness : exists S, reaches env S /\
  let p := at_side (nodes S) LOCAL in
  let result := node_event env LOCAL 0 (0, 0) [] (Master_msg (Master_offer_htlc 2000000000 500000 [] [])) p in
  exists c e, channel_add_htlc (H0 := ne_table (env LOCAL)) (peer_channel p) LOCAL (htlc_id p) 2000000000 500000 [] [] = Some (c, e) /\
  match refusal e with
  | Some f => result = Done () p [ToMaster (Offer_htlc_reply 0 (Some f))]
  | None => e = CHANNEL_ERR_ADD_OK \/ result = StatusFailed "Duplicate HTLC"
  end.
Proof.
  destruct play_state as (S & R & _). exists S. split; [exact R|].
  exact (offer_refused env S LOCAL 0 (0, 0) [] 2000000000 500000 [] [] R ltac:(lia)).
Defined.

Lemma ends_agree_witness : exists S, reaches env S /\ (forall s, ops (at_side (sent S) s) = []) /\
  ends (peer_channel (at_side (nodes S) LOCAL)) (peer_channel (at_side (nodes S) REMOTE)).
Proof.
  destruct play_state as (S & R & T). apply andb_prop in T as [_ T].
  assert (reaches env (settled S)) as R'.
  { destruct R as (S0 & B & St). exists S0. split; [exact B|].
    etransitivity; [exact St|]. exact (proj1 (exchange_ends env 0 (0, 0) [] (load S) S (le_n _))). }
  assert (forall s, ops (at_side (sent (settled S)) s) = []) as Q.
  { intros s. rewrite (all_read_spec _ T s). reflexivity. }
  exists (settled S). split; [exact R'|]. split; [exact Q|]. exact (proj1 (ends_agree env _ R' Q)).
Defined.
End DemoTwo.
