(* ===== verification/Closingd.v ===== *)
(** * The closing process and its master (src/lightning/closingd/closingd.c,
    lightningd/closing_control.c)

    Once a channel is shut down and has no HTLCs, [closingd] negotiates the fee of the
    transaction that closes it: each side in turn offers a fee with its signature, until
    the two offers are equal. The master keeps the best transaction that the peer signed.

    The process is a function of what arrives on its sockets, messages from the peer and
    from gossipd, parsed and in order of arrival; it says what was written until it ended,
    or until it waits for more. The master's acknowledgements are taken to arrive. Not
    modelled: a closed connection, status and billboard messages, and what only DEVELOPER
    builds have. *)
From stdpp Require Import strings.
From S2P Require Import Prelude HtlcState Sha256 Secp Ecdsa PullPush BitcoinTx LnScript SigCheck KeyDerive Hsm Htlc CommitTx.
From S2P Require Import Channeld.
Local Open Scope Z_scope.

(** ** The process *)
Section Process.
Context `{Secp256k1} `{!Signatures}.

(** What arrives: [From_gossipd None] is a message that does not parse. *)
Inductive incoming := From_peer (m : wire_msg) | From_gossipd (gossip : option wire_msg).

Inductive closing_out :=
  | Says (m : wire_msg)
  | To_gossipd (m : wire_msg)
  | Received_signature (their_sig : signature) (tx : bitcoin_tx)
  | Closing_complete.

(** How the process stops: it waits for a message; [peer_failed]; the peer sent an error;
    [peer_failed_connection_lost]; [status_failed]; an assertion fails; or the loop bound
    of the model was too small. *)
Inductive halt :=
  | Waits | Fails_peer (why : string) | Errored | Connection_lost | Fails_status | Crashes | Spins.

Inductive progress (A : Type) :=
  | Goes (a : A) (rest : list incoming) (out : list closing_out)
  | Halts (why : halt) (out : list closing_out).
#[global] Arguments Goes {A} _ _ _.
#[global] Arguments Halts {A} _ _.

Definition after {A} (out : list closing_out) (r : progress A) : progress A :=
  match r with Goes a rest out' => Goes a rest (out ++ out') | Halts h out' => Halts h (out ++ out') end.

Definition proc (A : Type) : Type := list incoming -> progress A.

#[global] Instance proc_ret : MRet proc := fun A a l => Goes a l [].

#[global] Instance proc_bind : MBind proc := fun A B f m l =>
  match m l with Goes a l out => after out (f a l) | Halts h out => Halts h out end.

Definition emit (o : closing_out) : proc unit := fun l => Goes () l [o].
Definition halts {A} (h : halt) : proc A := fun _ => Halts h [].
Definition or_crash {A} (o : option A) : proc A := match o with Some a => mret a | None => halts Crashes end.

(** A request to the signer, which does not answer one that it refuses. *)
Definition ask_hsm {A} (o : option (option A)) : proc A :=
  match o with Some (Some a) => mret a | _ => halts Fails_status end.

Record closing_init := ClosingInit {
  c_funding_txid : bytes;
  c_funding_txout : Z;
  c_funding_satoshi : Z;
  c_funding_pubkey : sided pubkey;
  c_funder : side;
  c_satoshi_out : sided Z;
  c_our_dust_limit : Z;
  c_min_fee_to_accept : Z;
  c_commitment_fee : Z;
  c_offer : Z;
  c_scriptpubkey : sided bytes;
  c_reconnected : bool;
  c_next_index : sided Z;
  c_revocations_received : Z;
  c_channel_reestablish : option wire_msg;
  c_final_scriptpubkey : bytes
}.
End Process.

(** ** The range of fees *)
Record feerange := Feerange { higher_side : side; fee_min : Z; fee_max : Z }.

Definition init_feerange (commitment_fee : Z) (offer : sided Z) : feerange :=
  Feerange (if at_side offer REMOTE <? at_side offer LOCAL then LOCAL else REMOTE) 0 commitment_fee.

Definition adjust_feerange (r : feerange) (offer : Z) (side : side) : feerange :=
  if side_eqb side (higher_side r) then Feerange (higher_side r) (fee_min r) (u64 (offer - 1))
  else Feerange (higher_side r) (u64 (offer + 1)) (fee_max r).

(** [None]: the range is below the minimum we accept. *)
Definition adjust_offer (r : feerange) (remote_offer min_fee_to_accept : Z) : option Z :=
  if fee_max r <=? u64 (fee_min r + 1) then Some remote_offer
  else if fee_max r <? min_fee_to_accept then None
  else
    let min_fee_to_accept := if min_fee_to_accept <? fee_min r then fee_min r else min_fee_to_accept in
    Some (u64 (fee_max r + min_fee_to_accept) / 2).

Section Daemon.
Context `{Secp256k1} `{!Signatures}.
(** The signer's seed for this channel; memory that is read before it is written (see
    [is_peer_error]); and what the master sent. *)
Context (channel_seed uninit_id : bytes) (i : closing_init).

Definition closing_channel_id : bytes := derive_channel_id (c_funding_txid i) (c_funding_txout i).

Definition funding_wscript : bytes :=
  bitcoin_redeem_2of2 (at_side (c_funding_pubkey i) LOCAL) (at_side (c_funding_pubkey i) REMOTE).

(** ** Reading *)
Inductive handled := Handled (out : list closing_out) | Unhandled | Stops (h : halt) (out : list closing_out).

Definition handle_gossip_msg (msg : option wire_msg) : handled :=
  match msg with
  | None => Stops Connection_lost []
  | Some gossip =>
      if is_msg_for_gossipd gossip then Handled [Says gossip]
      else if bool_decide (wire_type_of gossip = WIRE_ERROR) then Stops Connection_lost [Says gossip]
      else Stops Connection_lost []
  end.

Definition closing_gossip_or_error (msg : wire_msg) : handled :=
  if is_msg_for_gossipd msg then Handled [To_gossipd msg]
  else match is_peer_error uninit_id msg closing_channel_id with
  | Some true => Stops Errored []
  | Some false => Handled []
  | None =>
      match is_wrong_channel msg closing_channel_id with
      | Some actual => Handled [Says (Error_msg actual multiple_channels)]
      | None => Unhandled
      end
  end.

Fixpoint closing_read_peer_msg (l : list incoming) : progress wire_msg :=
  match l with
  | [] => Halts Waits []
  | From_gossipd g :: l =>
      match handle_gossip_msg g with
      | Handled out => after out (closing_read_peer_msg l)
      | Unhandled => closing_read_peer_msg l
      | Stops h out => Halts h out
      end
  | From_peer m :: l =>
      match closing_gossip_or_error m with
      | Handled out => after out (closing_read_peer_msg l)
      | Unhandled => Goes m l []
      | Stops h out => Halts h out
      end
  end.

(** ** Reconnecting *)
Definition closing_do_reconnect : proc unit :=
  emit (Says (Channel_reestablish closing_channel_id (at_side (c_next_index i) LOCAL)
                (c_revocations_received i) None));;
  channel_reestablish ← match c_channel_reestablish i with
                        | Some msg => mret msg
                        | None => closing_read_peer_msg : proc _
                        end;
  match channel_reestablish with
  | Channel_reestablish _ _ _ _ => emit (Says (Shutdown closing_channel_id (c_final_scriptpubkey i)))
  | _ => halts (Fails_peer "bad reestablish msg")
  end.

(** ** Offers *)
Definition close_tx (satoshi_out : sided Z) (fee : Z) : proc bitcoin_tx :=
  if at_side satoshi_out (c_funder i) <? fee then halts (Fails_peer "Funder cannot afford fee")
  else
    tx ← or_crash (create_close_tx (at_side (c_scriptpubkey i) LOCAL) (at_side (c_scriptpubkey i) REMOTE)
           (c_funding_txid i) (c_funding_txout i) (c_funding_satoshi i)
           (u64 (at_side satoshi_out LOCAL - if side_eqb (c_funder i) LOCAL then fee else 0))
           (u64 (at_side satoshi_out REMOTE - if side_eqb (c_funder i) REMOTE then fee else 0))
           (c_our_dust_limit i));
    match tx with
    | None => halts (Fails_peer "Both outputs below dust limit")
    | Some tx => mret tx
    end.

Definition send_offer (fee_to_offer : Z) : proc unit :=
  tx ← close_tx (c_satoshi_out i) fee_to_offer;
  our_sig ← ask_hsm (handle_sign_mutual_close_tx channel_seed tx (at_side (c_funding_pubkey i) REMOTE)
                       (c_funding_satoshi i));
  emit (Says (Closing_signed closing_channel_id fee_to_offer our_sig)).

Definition tell_master_their_offer (their_sig : signature) (tx : bitcoin_tx) : proc unit :=
  emit (Received_signature their_sig tx).

(** Waits for something other than [funding_locked] and [shutdown]. *)
Fixpoint read_interesting (fuel : nat) : proc wire_msg :=
  match fuel with
  | O => halts Spins
  | S fuel =>
      msg ← closing_read_peer_msg : proc _;
      match wire_type_of msg with
      | WIRE_FUNDING_LOCKED | WIRE_SHUTDOWN => read_interesting fuel
      | _ => mret msg
      end
  end.

Definition check_their_sig (tx : bitcoin_tx) (their_sig : signature) : proc bool :=
  or_crash (check_tx_sig tx 0 None (Some funding_wscript) (at_side (c_funding_pubkey i) REMOTE) their_sig).

(** The variant of the close transaction that they signed: the whole one, or the one with
    their output reduced to the minimum. *)
Definition signed_variant (received_fee : Z) (their_sig : signature) : proc bitcoin_tx :=
  tx ← close_tx (c_satoshi_out i) received_fee;
  ok ← check_their_sig tx their_sig;
  if ok : bool then mret tx
  else
    let trimming_satoshi_out :=
      Sided (at_side (c_satoshi_out i) LOCAL) (if side_eqb (c_funder i) REMOTE then received_fee else 0) in
    trimmed ← close_tx trimming_satoshi_out received_fee;
    ok ← check_their_sig trimmed their_sig;
    if ok : bool then mret trimmed else halts (Fails_peer "Bad closing_signed signature").

(** Returns the fee they offered. *)
Definition receive_offer : proc Z :=
  msg ← (fun l => read_interesting (S (length l)) l) : proc _;
  match msg with
  | Closing_signed _ received_fee their_sig =>
      tx ← signed_variant received_fee their_sig;
      (if c_min_fee_to_accept i <=? received_fee then tell_master_their_offer their_sig tx else mret ());;
      mret received_fee
  | _ => halts (Fails_peer "Expected closing_signed")
  end.

(** ** The negotiation (main) *)

(** The first offer of the side whose turn it is. *)
Definition first_offer (whose_turn : side) (offer : sided Z) : proc (sided Z) :=
  match whose_turn with
  | LOCAL => send_offer (at_side offer LOCAL);; mret offer
  | REMOTE => fee ← receive_offer; mret (set_side REMOTE fee offer)
  end.

Definition next_offer (whose_turn : side) (r : feerange) (offer : sided Z) : proc (sided Z) :=
  match whose_turn with
  | LOCAL =>
      match adjust_offer r (at_side offer REMOTE) (c_min_fee_to_accept i) with
      | None => halts (Fails_peer "Feerange below minimum acceptable")
      | Some fee => send_offer fee;; mret (set_side LOCAL fee offer)
      end
  | REMOTE => fee ← receive_offer; mret (set_side REMOTE fee offer)
  end.

(** "Now any extra rounds required." *)
Fixpoint extra_rounds (fuel : nat) (whose_turn : side) (r : feerange) (offer : sided Z) : proc Z :=
  match fuel with
  | O => halts Spins
  | S fuel =>
      if at_side offer LOCAL =? at_side offer REMOTE then mret (at_side offer LOCAL)
      else
        let r := adjust_feerange r (at_side offer (other whose_turn)) (other whose_turn) in
        offer ← next_offer whose_turn r offer;
        extra_rounds fuel (other whose_turn) r offer
  end.

Definition negotiate : proc Z :=
  let whose_turn := c_funder i in
  offer ← first_offer whose_turn (Sided (c_offer i) 0);
  offer ← first_offer (other whose_turn) offer;
  let r := init_feerange (c_commitment_fee i) offer in
  let r := adjust_feerange r (at_side offer (c_funder i)) (c_funder i) in
  (fun l => extra_rounds (2 * length l + 2) whose_turn r offer l) : proc Z.

(** Returns the fee agreed on. *)
Definition closing_main : proc Z :=
  (if c_reconnected i then closing_do_reconnect else mret ());;
  fee ← negotiate;
  emit Closing_complete;;
  mret fee.
End Daemon.

(** ** The master (lightningd/closing_control.c, peer_control.c, channel.c) *)
Inductive channel_state :=
  | CHANNELD_AWAITING_LOCKIN | CHANNELD_NORMAL | CHANNELD_SHUTTING_DOWN | CLOSINGD_SIGEXCHANGE
  | CLOSINGD_COMPLETE | AWAITING_UNILATERAL | FUNDING_SPEND_SEEN | ONCHAIN.

#[global] Instance channel_state_eq_dec : EqDecision channel_state.
Proof. solve_decision. Defined.

Definition FEERATE_FLOOR : Z := 253.

(** The estimates of the chain topology: [feerate_min], with whether the rate is unknown,
    and [mutual_close_feerate], 0 if it is unknown. *)
Record fee_estimates := FeeEstimates { feerate_min_estimate : Z; feerate_unknown : bool; mutual_close_feerate : Z }.

Section Master.
Context `{Secp256k1} `{!Signatures}.

(** The part of lightningd's [struct channel] that closing is about. [final_script] is
    [p2wpkh_for_keyidx] of the channel's key index. *)
Record ld_channel := LdChannel {
  ld_state : channel_state;
  ld_funding_txid : bytes;
  ld_funding_outnum : Z;
  ld_funding_satoshi : Z;
  local_funding_pubkey : pubkey;
  remote_fundingkey : pubkey;
  ld_funder : side;
  our_msatoshi : Z;
  ld_dust_limit : Z;
  local_feerate : Z;
  final_script : bytes;
  remote_shutdown_scriptpubkey : option bytes;
  ld_next_index : sided Z;
  num_revocations : Z;
  last_tx : bitcoin_tx;
  last_sig : signature
}.

Definition set_last (tx : bitcoin_tx) (sig : signature) (st : channel_state) (c : ld_channel) : ld_channel :=
  LdChannel st (ld_funding_txid c) (ld_funding_outnum c) (ld_funding_satoshi c) (local_funding_pubkey c)
    (remote_fundingkey c) (ld_funder c) (our_msatoshi c) (ld_dust_limit c) (local_feerate c) (final_script c)
    (remote_shutdown_scriptpubkey c) (ld_next_index c) (num_revocations c) tx sig.

Definition channel_set_last_tx (tx : bitcoin_tx) (sig : signature) (c : ld_channel) : ld_channel :=
  set_last tx sig (ld_state c) c.

(** [None] is [fatal]. *)
Definition channel_set_state (old_state state : channel_state) (c : ld_channel) : option ld_channel :=
  if bool_decide (ld_state c = old_state) then Some (set_last (last_tx c) (last_sig c) state c) else None.

(** What the process is started with; [None] if the peer's script is not known. *)
Definition peer_start_closingd (est : fee_estimates) (reconnected : bool) (channel_reestablish : option wire_msg)
    (c : ld_channel) : option closing_init :=
  remote_script ← remote_shutdown_scriptpubkey c;
  let feelimit := commit_tx_base_fee (local_feerate c) 0 in
  let minfee := commit_tx_base_fee (feerate_min_estimate est) 0 in
  let feerate := if mutual_close_feerate est =? 0
                 then let feerate := local_feerate c / 2 in
                      if feerate <? FEERATE_FLOOR then FEERATE_FLOOR else feerate
                 else mutual_close_feerate est in
  let startfee := commit_tx_base_fee feerate 0 in
  let startfee := if feelimit <? startfee then feelimit else startfee in
  let minfee := if feelimit <? minfee then feelimit else minfee in
  let funding_msatoshi := u64 (ld_funding_satoshi c * 1000) in
  let their_msatoshi := u64 (funding_msatoshi - our_msatoshi c) in
  Some (ClosingInit (ld_funding_txid c) (ld_funding_outnum c) (ld_funding_satoshi c)
    (Sided (local_funding_pubkey c) (remote_fundingkey c)) (ld_funder c)
    (Sided (our_msatoshi c / 1000) (their_msatoshi / 1000)) (ld_dust_limit c) minfee feelimit startfee
    (Sided (final_script c) remote_script) reconnected (ld_next_index c) (num_revocations c)
    channel_reestablish (final_script c)).

(** The fee that a transaction pays out of the funding. *)
Definition actual_fee (funding_satoshi : Z) (tx : bitcoin_tx) : Z :=
  foldl (fun fee o => u64 (fee - out_amount o)) funding_satoshi (BitcoinTx.output tx).

Definition better_closing_fee (est : fee_estimates) (c : ld_channel) (tx : bitcoin_tx) : bool :=
  let fee := actual_fee (ld_funding_satoshi c) tx in
  let last_fee := actual_fee (ld_funding_satoshi c) (last_tx c) in
  let weight := u64 (measure_tx_weight tx + 74 * 2) in
  let min_fee := u64 (feerate_min_estimate est * weight) / 1000 in
  if fee <? min_fee then false
  else if feerate_unknown est then last_fee <=? fee
  else fee <=? last_fee.

Definition peer_received_closing_signature (est : fee_estimates) (c : ld_channel) (sig : signature)
    (tx : bitcoin_tx) : ld_channel :=
  if better_closing_fee est c tx then channel_set_last_tx tx sig c else c.

Section Signer.
Context (channel_seed : bytes).

(** [last_tx] with its witness, as it is broadcast. *)
Definition sign_last_tx (c : ld_channel) : option bitcoin_tx :=
  input0 ← head (input (last_tx c));
  assert! match witness input0 with None => true | Some _ => false end;
  sig ← mjoin (handle_sign_commitment_tx channel_seed (last_tx c) (remote_fundingkey c) (ld_funding_satoshi c));
  w ← bitcoin_witness_2of2 (last_sig c) sig (remote_fundingkey c) (local_funding_pubkey c);
  Some (set_input (alter (fun n => TxInput (in_txid n) (in_index n) (in_script n) (sequence_number n)
    (in_amount n) (Some w)) 0%nat (input (last_tx c))) (last_tx c)).

(** The new state and what is broadcast. *)
Definition peer_closing_complete (c : ld_channel) : option (ld_channel * option bitcoin_tx) :=
  if bool_decide (ld_state c = CLOSINGD_COMPLETE) then Some (c, None)
  else
    tx ← sign_last_tx c;
    c ← channel_set_state CLOSINGD_SIGEXCHANGE CLOSINGD_COMPLETE c;
    Some (c, Some tx).

(** What the process writes to the master, in order. The transaction is taken as it was
    written: on its way through [linearize_tx] and [pull_bitcoin_tx] it loses only the
    amount of its input, which the master does not look at and the signer sets from the
    funding. *)
Definition closing_msg (est : fee_estimates) (c : ld_channel) (o : closing_out)
    : option (ld_channel * option bitcoin_tx) :=
  match o with
  | Received_signature sig tx => Some (peer_received_closing_signature est c sig tx, None)
  | Closing_complete => peer_closing_complete c
  | _ => Some (c, None)
  end.
End Signer.
End Master.
