(* ===== verification/ClosingSafe.v ===== *)
(** * What the closing process guarantees, whatever its peer does

    The messages that arrive are arbitrary. The process never loops or crashes; every
    transaction it signs, and every one it reports to the master, spends the funding and
    pays us what is ours less the fee if we are the funder; and it completes only with a
    fee that it signed for. *)
From stdpp Require Import strings.
From S2P Require Import Prelude HtlcState Sha256 Secp Ecdsa PullPush BitcoinTx LnScript SigCheck KeyDerive Hsm Htlc CommitTx.
From S2P Require Import Channeld ChanneldLocal Closingd.
Local Open Scope Z_scope.

(** Decides which side it is. *)
Ltac sides :=
  cbn [other] in *;
  change (side_eqb LOCAL LOCAL) with true in *; change (side_eqb REMOTE REMOTE) with true in *;
  change (side_eqb LOCAL REMOTE) with false in *; change (side_eqb REMOTE LOCAL) with false in *; cbv iota in *.

(** ** Reasoning about the process *)
Section Yields.
Context `{Secp256k1} `{!Signatures}.
Implicit Types (l : list incoming) (out : list closing_out).

(** Started on [l], it returns with [Q] or halts with [F]. *)
Definition yields {A} (m : proc A) l (Q : A -> list incoming -> list closing_out -> Prop)
    (F : halt -> list closing_out -> Prop) : Prop :=
  match m l with Goes a rest out => Q a rest out | Halts h out => F h out end.

Lemma yields_mono {A} (m : proc A) l (Q Q' : A -> list incoming -> list closing_out -> Prop)
    (F F' : halt -> list closing_out -> Prop) :
  yields m l Q F -> (forall a rest out, Q a rest out -> Q' a rest out) -> (forall h out, F h out -> F' h out) ->
  yields m l Q' F'.
Proof. unfold yields. destruct (m l); auto. Qed.

Lemma yields_bind {A B} (m : proc A) (f : A -> proc B) l Q F :
  yields m l (fun a rest out => yields (f a) rest (fun b r o => Q b r (out ++ o)) (fun h o => F h (out ++ o))) F ->
  yields (m ≫= f) l Q F.
Proof. unfold yields, mbind, proc_bind. destruct (m l) as [a rest out|]; [|done]. by destruct (f a rest). Qed.

Lemma yields_ret {A} (a : A) l (Q : A -> list incoming -> list closing_out -> Prop) F : Q a l [] -> yields (mret a) l Q F.
Proof. done. Qed.

Lemma yields_emit o l (Q : unit -> list incoming -> list closing_out -> Prop) F : Q () l [o] -> yields (emit o) l Q F.
Proof. done. Qed.

Lemma yields_halts {A} h l (Q : A -> list incoming -> list closing_out -> Prop) (F : halt -> list closing_out -> Prop) :
  F h [] -> yields (halts h) l Q F.
Proof. done. Qed.

(** Messages arrive parsed: a fee is a u64. *)
Definition parsed (m : wire_msg) : Prop := match m with Closing_signed _ fee _ => fits 64 fee | _ => True end.
Definition arrived (e : incoming) : Prop := match e with From_peer m => parsed m | From_gossipd _ => True end.

(** Nothing about an offer. *)
Definition aside (o : closing_out) : Prop :=
  match o with Says (Closing_signed _ _ _) | Received_signature _ _ | Closing_complete => False | _ => True end.

Lemma gossip_aside m : is_msg_for_gossipd m = true -> aside (Says m).
Proof. by destruct m. Qed.

(** How the process may stop. *)
Definition stops (h : halt) : Prop :=
  match h with Waits | Fails_peer _ | Errored | Connection_lost => True | Fails_status | Crashes | Spins => False end.
End Yields.

Section Safe.
Context `{Secp256k1Laws} `{!Signatures} `{!SignatureLaws}.
Context (channel_seed uninit_id : bytes) (i : closing_init).
Implicit Types (l rest : list incoming) (out : list closing_out) (tx : bitcoin_tx) (sig : signature).

(** What the master starts the process with: the funding key is of our seed and the
    amounts come from the funding. *)
Record started : Prop := {
  started_keys : exists bps, handle_get_channel_basepoints channel_seed
                   = Some (Some (bps, at_side (c_funding_pubkey i) LOCAL));
  started_outs : forall s, 0 <= at_side (c_satoshi_out i) s;
  started_sum : at_side (c_satoshi_out i) LOCAL + at_side (c_satoshi_out i) REMOTE <= c_funding_satoshi i;
  started_funding : fits 64 (c_funding_satoshi i);
  started_offer : fits 64 (c_offer i);
  started_reestablish : forall m, c_channel_reestablish i = Some m -> parsed m
}.
Context (St : started).

(** ** Reading *)
Lemma spec_read l : Forall arrived l ->
  yields (closing_read_peer_msg uninit_id i : proc _) l
    (fun m rest out => parsed m /\ Forall arrived rest /\ (length rest < length l)%nat /\ Forall aside out)
    (fun h out => stops h /\ Forall aside out).
Proof using Type.
  unfold yields. induction l as [|e l IH]; intros Ha; [by split|]. apply Forall_cons in Ha as [He Ha]. specialize (IH Ha).
  assert (forall o : list closing_out, Forall aside o ->
    match after o (closing_read_peer_msg uninit_id i l) with
    | Goes m rest out => parsed m /\ Forall arrived rest /\ (length rest < length (e :: l))%nat /\ Forall aside out
    | Halts h out => stops h /\ Forall aside out end) as On.
  { intros o Ho. destruct (closing_read_peer_msg uninit_id i l) as [m rest out|h out]; cbn [after length].
    - destruct IH as (Pm & Fr & Ln & Fo). split; [done|]. split; [done|]. split; [lia|]. by apply Forall_app.
    - destruct IH as [Sh Fo]. split; [done|]. by apply Forall_app. }
  destruct e as [m|g]; cbn [closing_read_peer_msg].
  - unfold closing_gossip_or_error. destruct (is_msg_for_gossipd m) eqn:Eg.
    { apply On. by constructor. }
    destruct (is_peer_error uninit_id m _) as [[]|]; [by split|by apply On|].
    destruct (is_wrong_channel m _); [apply On; by repeat constructor|]. cbn [length]. repeat split; auto; lia.
  - destruct g as [g|]; cbn [handle_gossip_msg]; [|by split]. destruct (is_msg_for_gossipd g) eqn:Eg.
    { apply On. constructor; [by apply gossip_aside|done]. }
    case_bool_decide as Ee; (split; [done|]); [|done]. constructor; [|done]. by destruct g.
Qed.

Lemma spec_interesting fuel l : Forall arrived l -> (length l < fuel)%nat ->
  yields (read_interesting uninit_id i fuel) l
    (fun m rest out => parsed m /\ Forall arrived rest /\ (length rest < length l)%nat /\ Forall aside out)
    (fun h out => stops h /\ Forall aside out).
Proof using Type.
  revert l. induction fuel as [|fuel IH]; intros l Ha Hf; [lia|]. cbn [read_interesting].
  apply yields_bind. eapply yields_mono; [by apply spec_read| |done]. cbn beta.
  intros m rest out (Pm & Fr & Ln & Fo).
  assert (yields (read_interesting uninit_id i fuel) rest
    (fun m0 r o => parsed m0 /\ Forall arrived r /\ (length r < length l)%nat /\ Forall aside (out ++ o))
    (fun h o => stops h /\ Forall aside (out ++ o))) as Again.
  { eapply yields_mono; [apply IH; [done|lia]| |]; cbn beta.
    - intros m' r' o' (? & ? & ? & ?). split; [done|]. split; [done|]. split; [lia|]. by apply Forall_app.
    - intros h o' [? ?]. split; [done|]. by apply Forall_app. }
  destruct (wire_type_of m); try exact Again; apply yields_ret; rewrite app_nil_r; done.
Qed.

(** ** The transactions *)

(** What is ours at this fee. *)
Definition our_amount (fee : Z) : Z :=
  at_side (c_satoshi_out i) LOCAL - if side_eqb (c_funder i) LOCAL then fee else 0.

(** A transaction that spends the funding and pays us. *)
Definition pays_us (fee : Z) tx : Prop :=
  input tx = [TxInput (c_funding_txid i) (c_funding_txout i) None 0xFFFFFFFF (Some (c_funding_satoshi i)) None] /\
  zsum out_amount (BitcoinTx.output tx) <= c_funding_satoshi i /\
  (c_our_dust_limit i <= our_amount fee ->
   TxOutput (our_amount fee) (at_side (c_scriptpubkey i) LOCAL) ∈ BitcoinTx.output tx).

Lemma spec_close_tx so fee l : at_side so LOCAL = at_side (c_satoshi_out i) LOCAL -> 0 <= at_side so REMOTE ->
  fits 64 fee ->
  at_side so REMOTE - (if side_eqb (c_funder i) REMOTE then fee else 0) + at_side (c_satoshi_out i) LOCAL <= c_funding_satoshi i ->
  yields (close_tx i so fee) l
    (fun tx rest out => rest = l /\ out = [] /\ fee <= at_side so (c_funder i) /\ pays_us fee tx)
    (fun h out => stops h /\ out = []).
Proof using St.
  intros El Nr Hf Hs. unfold close_tx. destruct (Z.ltb_spec (at_side so (c_funder i)) fee) as [|Le]; [by apply yields_halts|].
  pose proof (started_outs St LOCAL) as Nl. pose proof (started_funding St) as Ff. unfold fits in Ff, Hf.
  fold (our_amount fee). rewrite El. fold (our_amount fee).
  set (to_them := at_side so REMOTE - if side_eqb (c_funder i) REMOTE then fee else 0) in *.
  assert (0 <= our_amount fee /\ our_amount fee <= at_side (c_satoshi_out i) LOCAL /\ 0 <= to_them) as (Nu & Lu & Nt).
  { unfold our_amount, to_them. destruct (c_funder i); rewrite ?El in Le; sides; lia. }
  rewrite (u64_small (our_amount fee)), (u64_small to_them) by (unfold fits; lia).
  destruct (close_tx_agreed (at_side (c_scriptpubkey i) LOCAL) (at_side (c_scriptpubkey i) REMOTE)
    (c_funding_txid i) (c_funding_txout i) (c_funding_satoshi i) (our_amount fee) to_them (c_our_dust_limit i))
    as (_ & Dust & Ok); [done|done|lia|done|].
  destruct (decide (c_our_dust_limit i <= our_amount fee \/ c_our_dust_limit i <= to_them)) as [D|D].
  - destruct (Ok D) as (tx & -> & Etx & _ & Sum & P). apply yields_bind. cbn [or_crash]. apply yields_ret.
    apply yields_ret. split; [done|]. split; [done|]. split; [done|].
    split; [by rewrite Etx|]. split; [done|]. intros Du. rewrite P. apply list_elem_of_filter. split; [done|]. left.
  - rewrite Dust by lia. apply yields_bind. cbn [or_crash]. apply yields_ret. by apply yields_halts.
Qed.

Lemma pays_one_input fee tx : pays_us fee tx -> one_input tx /\ set_amount0 (c_funding_satoshi i) tx = tx.
Proof using Type*.
  intros (Ei & _). assert (one_input tx) as O by (eexists; by split). split; [done|].
  apply set_amount0_same; [done|]. unfold input_amount. by rewrite Ei.
Qed.

(** ** Offers *)
Definition checks_with (key : pubkey) tx sig : Prop :=
  check_tx_sig tx 0 None (Some (funding_wscript i)) key sig = Some true.

(** An offer of ours, and one of theirs, at [fee]. *)
Definition offered (fee : Z) sig : Prop :=
  exists tx, fee <= at_side (c_satoshi_out i) (c_funder i) /\ pays_us fee tx /\
    checks_with (at_side (c_funding_pubkey i) LOCAL) tx sig.

Definition received (fee : Z) sig tx : Prop :=
  fee <= at_side (c_satoshi_out i) (c_funder i) /\ pays_us fee tx /\
  checks_with (at_side (c_funding_pubkey i) REMOTE) tx sig.

Definition good (o : closing_out) : Prop :=
  match o with
  | Says (Closing_signed chan fee sig) => chan = closing_channel_id i /\ offered fee sig
  | Received_signature sig tx => exists fee, c_min_fee_to_accept i <= fee /\ received fee sig tx
  | Closing_complete => False
  | _ => True
  end.

Definition said (fee : Z) out : Prop := exists sig, Says (Closing_signed (closing_channel_id i) fee sig) ∈ out.

Definition reported (fee : Z) out : Prop :=
  c_min_fee_to_accept i <= fee -> exists sig tx, Received_signature sig tx ∈ out /\ received fee sig tx.

Lemma aside_good out : Forall aside out -> Forall good out.
Proof using Type. intros F. eapply Forall_impl; [exact F|]. intros [[]| | |]; done. Qed.

Lemma spec_send_offer fee l : fits 64 fee ->
  yields (send_offer channel_seed i fee) l
    (fun _ rest out => rest = l /\ Forall good out /\ said fee out)
    (fun h out => stops h /\ out = []).
Proof using Type*.
  intros Hf. unfold send_offer. apply yields_bind. pose proof (started_sum St).
  pose proof (started_outs St REMOTE). unfold fits in Hf.
  eapply yields_mono; [apply spec_close_tx; [done|done|done|destruct (side_eqb _ _); lia]| |done]. cbn beta.
  intros tx rest out (-> & -> & Le & P). destruct (started_keys St) as [bps Hb].
  destruct (pays_one_input fee tx P) as [O Ea].
  destruct (funding_signs channel_seed bps _ Hb tx O (c_funding_satoshi i) (at_side (c_funding_pubkey i) REMOTE)) as (sig & Es & Ck).
  unfold handle_sign_mutual_close_tx. rewrite Es. apply yields_bind. cbn [ask_hsm]. apply yields_ret. apply yields_emit.
  cbn [app]. split; [done|]. unfold checks in Ck. rewrite Ea in Ck. split; [|exists sig; left].
  constructor; [|done]. split; [done|]. by exists tx.
Qed.

Lemma their_sig_checked fee tx sig l : pays_us fee tx ->
  exists b, check_their_sig i tx sig l = Goes b l [] /\
    (b = true -> checks_with (at_side (c_funding_pubkey i) REMOTE) tx sig).
Proof using Type*.
  intros P. destruct (pays_one_input fee tx P) as [O Ea]. unfold check_their_sig.
  assert (exists b, check_tx_sig tx 0 None (Some (funding_wscript i)) (at_side (c_funding_pubkey i) REMOTE) sig = Some b) as [b Eb].
  { destruct (one_input_hash tx (c_funding_satoshi i) (funding_wscript i) O) as (h & Eh & _). rewrite Ea in Eh.
    unfold check_tx_sig. rewrite Eh. destruct P as (Ei & _). rewrite Ei. by eexists. }
  exists b. rewrite Eb. split; [done|]. intros ->. exact Eb.
Qed.

Lemma spec_signed_variant fee sig l : fits 64 fee ->
  yields (signed_variant i fee sig) l
    (fun tx rest out => rest = l /\ out = [] /\ received fee sig tx)
    (fun h out => stops h /\ out = []).
Proof using Type*.
  intros Hf. pose proof Hf as [Nf _]. pose proof (started_sum St). pose proof (started_outs St REMOTE).
  apply yields_bind. eapply yields_mono; [apply spec_close_tx; [done|done|done|destruct (side_eqb _ _); lia]| |done].
  cbn beta. intros tx rest out (-> & -> & Le & P). destruct (their_sig_checked fee tx sig l P) as (b & Eb & Ck).
  apply yields_bind. unfold yields at 1. rewrite Eb.
  destruct b; [apply yields_ret; split; [done|]; split; [done|]; split; [done|]; by split; [|apply Ck]|].
  cbv zeta. apply yields_bind.
  eapply yields_mono; [apply spec_close_tx; [done|destruct (side_eqb _ _); cbn; lia|done|]| |done].
  { destruct (side_eqb _ _); cbn in *; lia. }
  cbn beta. intros tx' rest out (-> & -> & _ & P'). destruct (their_sig_checked fee tx' sig l P') as (b & Eb' & Ck').
  apply yields_bind. unfold yields at 1. rewrite Eb'. destruct b; [|by apply yields_halts].
  apply yields_ret. split; [done|]. split; [done|]. split; [done|]. by split; [|apply Ck'].
Qed.

Lemma spec_receive_offer l : Forall arrived l ->
  yields (receive_offer uninit_id i) l
    (fun fee rest out => fits 64 fee /\ Forall arrived rest /\ (length rest < length l)%nat /\ Forall good out /\ reported fee out)
    (fun h out => stops h /\ Forall good out).
Proof using Type*.
  intros Ha. unfold receive_offer. apply yields_bind.
  eapply yields_mono; [apply (spec_interesting (S (length l)) l Ha); lia| |]; cbn beta;
    [|intros h out [? ?]; split; [done|by apply aside_good]].
  intros m rest out (Pm & Fr & Ln & Fo). apply aside_good in Fo.
  destruct m as [| | | | | | | | | | | |chan fee sig| |]; try (apply yields_halts; by rewrite app_nil_r).
  cbn [parsed] in Pm. apply yields_bind. eapply yields_mono; [by apply spec_signed_variant| |]; cbn beta;
    [|intros h o [? ->]; by rewrite app_nil_r].
  intros tx r o (-> & -> & Rc). apply yields_bind. destruct (Z.leb_spec (c_min_fee_to_accept i) fee) as [Lm|Lm].
  - apply yields_emit, yields_ret. split; [done|]. split; [done|]. split; [done|]. cbn [app]. split.
    + apply Forall_app. split; [done|]. constructor; [by exists fee|done].
    + intros _. exists sig, tx. split; [|done]. apply elem_of_app. right. left.
  - apply yields_ret, yields_ret. rewrite !app_nil_r. split; [done|]. split; [done|]. split; [done|]. split; [done|]. intros L. lia.
Qed.

(** ** The negotiation *)
Lemma said_app fee a b : said fee a \/ said fee b -> said fee (a ++ b).
Proof using Type. intros [[sig E]|[sig E]]; exists sig; apply elem_of_app; auto. Qed.

Lemma reported_app fee a b : reported fee a \/ reported fee b -> reported fee (a ++ b).
Proof using Type.
  intros [R|R] L; destruct (R L) as (sig & tx & E & Rc); exists sig, tx; (split; [apply elem_of_app; auto|done]).
Qed.

(** After [out], our last offer was made and theirs checked. *)
Definition on_table (offer : sided Z) out : Prop :=
  said (at_side offer LOCAL) out /\ reported (at_side offer REMOTE) out /\
  fits 64 (at_side offer LOCAL) /\ fits 64 (at_side offer REMOTE).

Lemma adjust_offer_fits r remote_offer m fee : adjust_offer r remote_offer m = Some fee -> fits 64 remote_offer -> fits 64 fee.
Proof using Type.
  unfold adjust_offer. destruct (_ <=? _); [by intros [= <-]|]. destruct (_ <? m); [done|]. intros [= <-] _.
  pose proof (u64_fits (fee_max r + (if m <? fee_min r then fee_min r else m))) as [L U]. unfold fits.
  split; [apply Z.div_pos; lia|]. apply Z.div_lt_upper_bound; lia.
Qed.

Lemma on_table_local offer fee a b : on_table offer a -> said fee b -> fits 64 fee -> on_table (set_side LOCAL fee offer) (a ++ b).
Proof using Type. intros (_ & R & _ & Fr) S Ff. split; [apply said_app; auto|]. split; [apply reported_app; auto|]. done. Qed.

Lemma on_table_remote offer fee a b : on_table offer a -> reported fee b -> fits 64 fee -> on_table (set_side REMOTE fee offer) (a ++ b).
Proof using Type. intros (S & _ & Fl & _) R Ff. split; [apply said_app; auto|]. split; [apply reported_app; auto|]. done. Qed.

Lemma spec_next_offer turn r offer out0 l : Forall arrived l -> on_table offer out0 ->
  yields (next_offer channel_seed uninit_id i turn r offer) l
    (fun offer' rest out => Forall arrived rest /\ Forall good out /\ on_table offer' (out0 ++ out) /\
       (length rest + (if side_eqb turn REMOTE then 1 else 0) <= length l)%nat)
    (fun h out => stops h /\ Forall good out).
Proof using Type*.
  intros Ha T. unfold next_offer. destruct turn.
  - destruct (adjust_offer r _ _) as [fee|] eqn:Ef; [|by apply yields_halts].
    assert (fits 64 fee) as Ff by (eapply adjust_offer_fits; [exact Ef|apply T]).
    apply yields_bind. eapply yields_mono; [by apply spec_send_offer| |]; cbn beta; [|by intros h out [? ->]].
    intros _ rest out (-> & Go & Sd). apply yields_ret. rewrite app_nil_r. split; [done|]. split; [done|].
    split; [by apply on_table_local|]. sides. lia.
  - apply yields_bind. eapply yields_mono; [by apply spec_receive_offer| |done]. cbn beta.
    intros fee rest out (Ff & Fr & Ln & Go & Rp). apply yields_ret. rewrite app_nil_r. split; [done|]. split; [done|].
    split; [by apply on_table_remote|]. sides. lia.
Qed.

(** Every second round takes a message: the rounds are bounded by what arrived. *)
Lemma spec_extra_rounds fuel turn r offer out0 l : Forall arrived l -> on_table offer out0 ->
  (2 * length l + (if side_eqb turn REMOTE then 1 else 2) <= fuel)%nat ->
  yields (extra_rounds channel_seed uninit_id i fuel turn r offer) l
    (fun fee _ out => Forall good out /\ said fee (out0 ++ out) /\ reported fee (out0 ++ out))
    (fun h out => stops h /\ Forall good out).
Proof using Type*.
  revert turn r offer out0 l. induction fuel as [|fuel IH]; intros turn r offer out0 l Ha T Hf; [destruct (side_eqb _ _); lia|].
  cbn [extra_rounds]. destruct (Z.eqb_spec (at_side offer LOCAL) (at_side offer REMOTE)) as [E|_].
  { apply yields_ret. rewrite app_nil_r. destruct T as (Sd & Rp & _). rewrite <- E in Rp. done. }
  cbv zeta. apply yields_bind. eapply yields_mono; [by apply spec_next_offer| |done]. cbn beta.
  intros offer' rest out (Fr & Go & T' & Ln).
  eapply yields_mono; [apply (IH _ _ _ (out0 ++ out)); [done|done|]| |]; cbn beta.
  - destruct turn; sides; lia.
  - intros fee _ o (Go' & Sd & Rp). rewrite app_assoc. split; [by apply Forall_app|done].
  - intros h o [Sh Go']. split; [done|by apply Forall_app].
Qed.

Lemma spec_first_offer turn offer l : Forall arrived l -> fits 64 (at_side offer LOCAL) ->
  yields (first_offer channel_seed uninit_id i turn offer) l
    (fun offer' rest out => Forall arrived rest /\ Forall good out /\ at_side offer' LOCAL = at_side offer LOCAL /\
       match turn with
       | LOCAL => said (at_side offer LOCAL) out /\ at_side offer' REMOTE = at_side offer REMOTE
       | REMOTE => reported (at_side offer' REMOTE) out /\ fits 64 (at_side offer' REMOTE)
       end)
    (fun h out => stops h /\ Forall good out).
Proof using Type*.
  intros Ha Fo. unfold first_offer. destruct turn; apply yields_bind.
  - eapply yields_mono; [by apply spec_send_offer| |]; cbn beta; [|by intros h out [? ->]].
    intros _ rest out (-> & Go & Sd). apply yields_ret. by rewrite app_nil_r.
  - eapply yields_mono; [by apply spec_receive_offer| |done]. cbn beta.
    intros fee rest out (Ff & Fr & Ln & Go & Rp). apply yields_ret. by rewrite app_nil_r.
Qed.

Lemma spec_negotiate l : Forall arrived l ->
  yields (negotiate channel_seed uninit_id i) l
    (fun fee _ out => Forall good out /\ said fee out /\ reported fee out)
    (fun h out => stops h /\ Forall good out).
Proof using Type*.
  intros Ha. unfold negotiate. cbv zeta. apply yields_bind. pose proof (started_offer St) as Fo.
  eapply yields_mono; [by apply spec_first_offer| |done]. cbn beta. intros o1 l1 out1 (Fr1 & Go1 & E1 & T1).
  apply yields_bind. eapply yields_mono; [apply spec_first_offer; [done|by rewrite E1]| |]; cbn beta;
    [|intros h out [? ?]; split; [done|by apply Forall_app]].
  intros o2 l2 out2 (Fr2 & Go2 & E2 & T2). set (r := adjust_feerange _ _ _).
  assert (on_table o2 (out1 ++ out2)) as T.
  { unfold on_table. rewrite E2, E1. destruct (c_funder i); cbn [other] in T2.
    - destruct T1 as [Sd _], T2 as [Rp F2]. split; [apply said_app; by left|]. split; [apply reported_app; by right|]. done.
    - destruct T1 as [Rp F1], T2 as [Sd ER]. rewrite E1 in Sd. rewrite ER.
      split; [apply said_app; by right|]. split; [apply reported_app; by left|]. done. }
  eapply yields_mono; [apply (spec_extra_rounds _ (c_funder i) r o2 (out1 ++ out2) l2 Fr2 T); destruct (side_eqb _ _); lia| |]; cbn beta.
  - intros fee _ o (Go & Sd & Rp). rewrite app_assoc. split; [by repeat (apply Forall_app; split)|done].
  - intros h o [Sh Go]. split; [done|]. by repeat (apply Forall_app; split).
Qed.

Lemma spec_do_reconnect l : Forall arrived l ->
  yields (closing_do_reconnect uninit_id i) l (fun _ rest out => Forall arrived rest /\ Forall good out)
    (fun h out => stops h /\ Forall good out).
Proof using Type.
  intros Ha. unfold closing_do_reconnect. apply yields_bind, yields_emit. apply yields_bind.
  assert (yields match c_channel_reestablish i with Some msg => mret msg | None => closing_read_peer_msg uninit_id i : proc _ end l
    (fun _ rest out => Forall arrived rest /\ Forall good out) (fun h out => stops h /\ Forall good out)) as R.
  { destruct (c_channel_reestablish i); [by apply yields_ret|].
    eapply yields_mono; [by apply spec_read| |]; cbn beta; [intros m rest out (_ & ? & _ & ?)|intros h out [? ?]];
      (split; [done|by apply aside_good]). }
  eapply yields_mono; [exact R| |]; cbn beta; [|intros h out [? ?]; split; [done|by constructor]].
  intros m rest out [Fr Go]. destruct m; try (apply yields_halts; split; [done|]; rewrite app_nil_r; by constructor).
  apply yields_emit. split; [done|]. constructor; [done|]. apply Forall_app. split; [done|]. by constructor.
Qed.
End Safe.

Section Safety.
Context `{Secp256k1Laws} `{!Signatures} `{!SignatureLaws}.

Lemma spec_closing_main channel_seed uninit_id i l : started channel_seed i -> Forall arrived l ->
  yields (closing_main channel_seed uninit_id i) l
    (fun fee _ out => exists before, out = before ++ [Closing_complete] /\
      Forall (good i) before /\ said i fee before /\ reported i fee before)
    (fun h out => stops h /\ Forall (good i) out).
Proof using Type*.
  intros St Ha. unfold closing_main. apply yields_bind.
  assert (yields (if c_reconnected i then closing_do_reconnect uninit_id i else mret ()) l
    (fun _ rest out => Forall arrived rest /\ Forall (good i) out) (fun h out => stops h /\ Forall (good i) out)) as R
    by (destruct (c_reconnected i); [by eapply spec_do_reconnect|by apply yields_ret]).
  eapply yields_mono; [exact R| |done]. cbn beta. intros _ l1 out1 [Fr Go1]. apply yields_bind.
  eapply yields_mono; [by apply spec_negotiate| |]; cbn beta; [|intros h out [? ?]; split; [done|by apply Forall_app]].
  intros fee l2 out2 (Go2 & Sd & Rp). apply yields_bind, yields_emit, yields_ret. exists (out1 ++ out2).
  rewrite <- app_assoc. split; [done|]. split; [by apply Forall_app|].
  split; [apply said_app; by right|apply reported_app; by right].
Qed.

(** C10. Whatever its peer and gossipd send, the closing process neither loops, nor crashes, nor
    is refused by the signer: it waits for more, fails the channel or the connection, or
    completes, as the last thing that it does. Every offer it makes is our signature on a
    transaction that spends the funding and pays us what is ours, less the fee if we are
    the funder, and every transaction it reports to the master does too, with a valid
    signature of the peer and a fee that we accept. It completes only with a fee that it
    has signed for, and, if we accept that fee, with the peer's signature at that fee
    reported. *)
Theorem closing_safe channel_seed uninit_id i l : started channel_seed i -> Forall arrived l ->
  match closing_main channel_seed uninit_id i l with
  | Goes fee _ out => exists before, out = before ++ [Closing_complete] /\
      Forall (good i) before /\ said i fee before /\ reported i fee before
  | Halts h out => stops h /\ Forall (good i) out
  end.
Proof using Type*. exact (spec_closing_main channel_seed uninit_id i l). Qed.

(** ** The limit on fees *)
Definition with_limit (limit : Z) (i : closing_init) : closing_init :=
  ClosingInit (c_funding_txid i) (c_funding_txout i) (c_funding_satoshi i) (c_funding_pubkey i) (c_funder i)
    (c_satoshi_out i) (c_our_dust_limit i) (c_min_fee_to_accept i) limit (c_offer i) (c_scriptpubkey i)
    (c_reconnected i) (c_next_index i) (c_revocations_received i) (c_channel_reestablish i) (c_final_scriptpubkey i).

(** Both ends of the range are replaced before it is used. *)
Lemma range_forgets limit limit' offer f a b :
  adjust_feerange (adjust_feerange (init_feerange limit offer) a f) b (other f)
  = adjust_feerange (adjust_feerange (init_feerange limit' offer) a f) b (other f).
Proof using Type.
  unfold init_feerange. destruct (_ <? _), f; unfold adjust_feerange; cbn [higher_side]; sides; reflexivity.
Qed.

(** The fee of the commitment transaction, which bounds the fee in BOLT 2 and which
    [init_feerange] takes as the maximum, has no effect on the process. *)
Theorem fee_limit_ignored channel_seed uninit_id i l limit :
  closing_main channel_seed uninit_id (with_limit limit i) l = closing_main channel_seed uninit_id i l.
Proof using Type.
  destruct i as [txid txout sat keys f outs dust mn cf off scr rc ni rr cr fs]. unfold closing_main, with_limit. cbn -[negotiate].
  set (i := ClosingInit txid txout sat keys f outs dust mn limit off scr rc ni rr cr fs).
  set (i' := ClosingInit txid txout sat keys f outs dust mn cf off scr rc ni rr cr fs).
  assert (forall l, negotiate channel_seed uninit_id i l = negotiate channel_seed uninit_id i' l) as E.
  { clear l. intros l. unfold negotiate. cbv zeta. cbn [c_funder c_offer c_commitment_fee i i'].
    change (first_offer channel_seed uninit_id i) with (first_offer channel_seed uninit_id i').
    unfold mbind, proc_bind. destruct (first_offer _ _ _ _ _ l) as [o1 l1 out1|]; [|done]. f_equal.
    destruct (first_offer _ _ _ _ _ l1) as [o2 l2 out2|]; [|done]. f_equal.
    rewrite Nat.add_comm. cbn [Nat.add extra_rounds]. destruct (_ =? _); [done|]. cbv zeta.
    by rewrite (range_forgets limit cf). }
  change (closing_do_reconnect uninit_id i') with (closing_do_reconnect uninit_id i).
  unfold mbind, proc_bind. destruct (if rc then _ else _) as [[] l1 out1|]; [|done]. by rewrite E.
Qed.
End Safety.
