(* ===== verification/ClosingAgree.v ===== *)
(** * Two closing processes

    Two nodes with matching views of a channel run [closing_main] against each other. They
    always agree: the bids halve the gap between the first two offers, so that both
    processes complete with the same fee after a number of offers that is logarithmic in
    that gap, each with the other's signature on the same transaction. *)
From stdpp Require Import strings.
From S2P Require Import Prelude HtlcState Sha256 Secp Ecdsa PullPush BitcoinTx LnScript SigCheck KeyDerive Hsm Htlc CommitTx.
From S2P Require Import Channeld ChanneldLocal Closingd ClosingSafe.
Local Open Scope Z_scope.

(** ** Bids *)

(** The answer to the offer [theirs] by the one who last offered [mine]. *)
Definition counter (mine theirs : Z) : Z := if Z.abs (mine - theirs) <=? 3 then theirs else (mine + theirs) / 2.

(** The offers that follow, at most [n]; the first by the one who last offered [mine]. *)
Fixpoint bids (n : nat) (mine theirs : Z) : list Z :=
  match n with
  | O => []
  | S n => if mine =? theirs then [] else counter mine theirs :: bids n theirs (counter mine theirs)
  end.

(** [n] of them end in agreement on [fee]. *)
Fixpoint settles (n : nat) (mine theirs fee : Z) : Prop :=
  if mine =? theirs then fee = mine
  else match n with O => False | S n => settles n theirs (counter mine theirs) fee end.

Definition between (a b x : Z) : Prop := Z.min a b <= x <= Z.max a b.

Lemma counter_between a b : between a b (counter a b).
Proof.
  unfold counter, between. destruct (Z.leb_spec (Z.abs (a - b)) 3); [lia|].
  pose proof (Z.div_mod (a + b) 2 ltac:(lia)). pose proof (Z.mod_pos_bound (a + b) 2 ltac:(lia)). lia.
Qed.

Lemma counter_halves a b g : 1 <= g -> Z.abs (a - b) <= 2 * g + 1 -> Z.abs (b - counter a b) <= g + 1.
Proof.
  intros G D. unfold counter. destruct (Z.leb_spec (Z.abs (a - b)) 3); [lia|].
  pose proof (Z.div_mod (a + b) 2 ltac:(lia)). pose proof (Z.mod_pos_bound (a + b) 2 ltac:(lia)). lia.
Qed.

Lemma bids_settle n a b : Z.abs (a - b) <= 2 ^ Z.of_nat n + 1 -> exists fee, settles (S n) a b fee /\ between a b fee.
Proof.
  revert a b. induction n as [|n IH]; intros a b D; cbn [settles]; (destruct (Z.eqb_spec a b) as [->|Ne]; [by exists b; split; [|unfold between; lia]|]).
  - change (2 ^ Z.of_nat 0) with 1 in D. unfold counter. destruct (Z.leb_spec (Z.abs (a - b)) 3); [|lia].
    rewrite Z.eqb_refl. exists b. split; [done|]. unfold between. lia.
  - rewrite Nat2Z.inj_succ, Z.pow_succ_r in D by lia.
    assert (1 <= 2 ^ Z.of_nat n) by (apply (Z.pow_le_mono_r 2 0); lia).
    destruct (IH b (counter a b)) as (fee & Sf & Bf); [apply counter_halves; lia|].
    exists fee. split; [exact Sf|]. pose proof (counter_between a b). unfold between in *. lia.
Qed.

(** ** The range *)

(** The side [t] last offered [a], which the range has taken into account, and the other [b]. *)
Definition applied (t : side) (r : feerange) (a b : Z) : Prop :=
  if b <? a then higher_side r = t /\ fee_max r = a - 1 else higher_side r = other t /\ fee_min r = a + 1.

Lemma adjust_counter t r a b m : applied t r a b -> a <> b -> 0 <= a < 2 ^ 63 -> 0 <= b < 2 ^ 63 -> m <= Z.min a b ->
  adjust_offer (adjust_feerange r b (other t)) b m = Some (counter a b) /\
  (counter a b <> b -> applied (other t) (adjust_feerange r b (other t)) b (counter a b)).
Proof.
  unfold applied, adjust_feerange. intros Ap Ne Ra Rb Hm. pose proof (counter_between a b) as Bc. unfold between in Bc.
  assert (2 ^ 64 = 2 * 2 ^ 63) as E64 by reflexivity.
  destruct (Z.ltb_spec b a) as [L|L]; destruct Ap as [Eh Em]; rewrite Eh.
  - assert (side_eqb (other t) t = false) as -> by (by destruct t).
    unfold adjust_offer. cbn [fee_max fee_min higher_side]. rewrite Em. unfold counter in *.
    rewrite (u64_small (b + 1)), (u64_small (b + 1 + 1)) by (unfold fits; lia). split.
    + destruct (Z.leb_spec (Z.abs (a - b)) 3), (Z.leb_spec (a - 1) (b + 1 + 1)); try lia; [done|].
      destruct (Z.ltb_spec (a - 1) m); [lia|]. destruct (Z.ltb_spec m (b + 1)); [|lia]. rewrite u64_small by (unfold fits; lia).
      do 2 f_equal. lia.
    + intros Nc. rewrite (proj2 (Z.ltb_ge _ _)) by lia. by destruct t.
  - rewrite side_eqb_refl. unfold adjust_offer. cbn [fee_max fee_min higher_side]. rewrite Em. unfold counter in *.
    rewrite (u64_small (b - 1)), (u64_small (a + 1 + 1)) by (unfold fits; lia). split.
    + destruct (Z.leb_spec (Z.abs (a - b)) 3), (Z.leb_spec (b - 1) (a + 1 + 1)); try lia; [done|].
      destruct (Z.ltb_spec (b - 1) m); [lia|]. destruct (Z.ltb_spec m (a + 1)); [|lia]. rewrite u64_small by (unfold fits; lia).
      do 2 f_equal. lia.
    + intros Nc. rewrite (proj2 (Z.ltb_lt _ _)) by lia. done.
Qed.

(** ** Turns *)

(** What the side [x] says of a conversation that the side [t] begins. *)
Fixpoint said_by (x t : side) (c : list Z) : list Z :=
  match c with [] => [] | f :: c => if side_eqb x t then f :: said_by x (other t) c else said_by x (other t) c end.

Lemma said_by_other x t c : said_by (other x) (other t) c = said_by x t c.
Proof. revert t. induction c as [|f c IH]; intros t; [done|]. cbn [said_by]. rewrite (IH (other t)). by destruct x, t. Qed.

Section Agree.
Context `{Secp256k1Laws} `{!Signatures} `{!SignatureLaws}.
Context (seeds uninits : side -> bytes) (inits : side -> closing_init).
Implicit Types (out : list closing_out) (s : side).

(** ** Messages *)
Definition says_of (o : closing_out) : option wire_msg := match o with Says m => Some m | _ => None end.

Definition outputs {A} (r : progress A) : list closing_out := match r with Goes _ _ out => out | Halts _ out => out end.

(** What node [s] sends when these messages arrive, and what both have sent after each
    has [k] times seen all that the other had sent. *)
Definition sent (s : side) (msgs : list wire_msg) : list wire_msg :=
  omap says_of (outputs (closing_main (seeds s) (uninits s) (inits s) (From_peer <$> msgs))).

Fixpoint exchange (k : nat) : sided (list wire_msg) :=
  match k with
  | O => Sided [] []
  | S k => let e := exchange k in Sided (sent LOCAL (at_side e REMOTE)) (sent REMOTE (at_side e LOCAL))
  end.

(** The message by which node [s] offers [fee]. *)
Definition offer_msgs (s : side) (fee : Z) : list wire_msg :=
  omap says_of (outputs (send_offer (seeds s) (inits s) fee [])).

(** ** Matching views *)

(** The masters agree on the channel. Neither reconnects. The funder can pay either first
    offer, which leaves a transaction, and each accepts both. *)
Record matched : Prop := {
  m_started : forall s, started (seeds s) (inits s);
  m_txid : c_funding_txid (inits REMOTE) = c_funding_txid (inits LOCAL);
  m_txout : c_funding_txout (inits REMOTE) = c_funding_txout (inits LOCAL);
  m_satoshi : c_funding_satoshi (inits REMOTE) = c_funding_satoshi (inits LOCAL);
  m_dust : c_our_dust_limit (inits REMOTE) = c_our_dust_limit (inits LOCAL);
  m_funder : c_funder (inits REMOTE) = other (c_funder (inits LOCAL));
  m_keys : forall s x, at_side (c_funding_pubkey (inits (other s))) (other x) = at_side (c_funding_pubkey (inits s)) x;
  m_outs : forall s x, at_side (c_satoshi_out (inits (other s))) (other x) = at_side (c_satoshi_out (inits s)) x;
  m_scripts : forall s x, at_side (c_scriptpubkey (inits (other s))) (other x) = at_side (c_scriptpubkey (inits s)) x;
  m_fresh : forall s, c_reconnected (inits s) = false;
  m_small : c_funding_satoshi (inits LOCAL) < 2 ^ 63;
  m_affordable : forall s, c_offer (inits s) <= at_side (c_satoshi_out (inits LOCAL)) (c_funder (inits LOCAL));
  m_not_dust : forall s, c_our_dust_limit (inits LOCAL)
      <= at_side (c_satoshi_out (inits LOCAL)) (c_funder (inits LOCAL)) - c_offer (inits s) \/
    c_our_dust_limit (inits LOCAL) <= at_side (c_satoshi_out (inits LOCAL)) (other (c_funder (inits LOCAL)));
  m_accepts : forall s x, c_min_fee_to_accept (inits s) <= c_offer (inits x)
}.
Context (M : matched).

Notation i := (inits LOCAL).
Notation chan := (closing_channel_id (inits LOCAL)).
Notation wscript := (funding_wscript (inits LOCAL)).

(** Fees between the first two offers. *)
Definition in_play (fee : Z) : Prop := between (c_offer (inits LOCAL)) (c_offer (inits REMOTE)) fee.

Lemma same_chan s : closing_channel_id (inits s) = chan.
Proof using M. destruct s; [done|]. unfold closing_channel_id. by rewrite (m_txid M), (m_txout M). Qed.

Lemma same_wscript s : funding_wscript (inits s) = wscript.
Proof using Type*.
  destruct s; [done|]. unfold funding_wscript.
  pose proof (m_keys M LOCAL LOCAL) as EL. pose proof (m_keys M LOCAL REMOTE) as ER. cbn [other] in EL, ER.
  rewrite EL, ER. apply redeem_2of2_sym.
Qed.

(** The transaction that closes at [fee]. *)
Definition to_side (fee : Z) (x : side) : Z :=
  at_side (c_satoshi_out i) x - if side_eqb (c_funder i) x then fee else 0.

Definition closing_tx (fee : Z) (tx : bitcoin_tx) : Prop :=
  create_close_tx (at_side (c_scriptpubkey i) LOCAL) (at_side (c_scriptpubkey i) REMOTE) (c_funding_txid i)
    (c_funding_txout i) (c_funding_satoshi i) (to_side fee LOCAL) (to_side fee REMOTE) (c_our_dust_limit i) = Some (Some tx) /\
  input tx = [TxInput (c_funding_txid i) (c_funding_txout i) None 0xFFFFFFFF (Some (c_funding_satoshi i)) None] /\
  BitcoinTx.output tx ≡ₚ filter (fun o => c_our_dust_limit i <= out_amount o)
    [TxOutput (to_side fee LOCAL) (at_side (c_scriptpubkey i) LOCAL);
     TxOutput (to_side fee REMOTE) (at_side (c_scriptpubkey i) REMOTE)].

Lemma play_bounds fee : in_play fee -> 0 <= fee /\ fee < 2 ^ 63 /\
  (forall x, 0 <= to_side fee x) /\ to_side fee LOCAL + to_side fee REMOTE <= c_funding_satoshi i /\
  (c_our_dust_limit i <= to_side fee LOCAL \/ c_our_dust_limit i <= to_side fee REMOTE).
Proof using M.
  unfold in_play, between, to_side. intros B.
  pose proof (started_offer _ _ (m_started M LOCAL)) as [OL _]. pose proof (started_offer _ _ (m_started M REMOTE)) as [OR _].
  pose proof (m_affordable M LOCAL) as AL. pose proof (m_affordable M REMOTE) as AR.
  pose proof (m_not_dust M LOCAL) as DL. pose proof (m_not_dust M REMOTE) as DR. pose proof (m_small M).
  pose proof (started_outs _ _ (m_started M LOCAL) LOCAL). pose proof (started_outs _ _ (m_started M LOCAL) REMOTE).
  pose proof (started_sum _ _ (m_started M LOCAL)).
  destruct (c_funder i); sides; repeat split; try lia; intros []; sides; lia.
Qed.

Lemma closing_tx_ex fee : in_play fee -> exists tx, closing_tx fee tx.
Proof using M.
  intros B. destruct (play_bounds fee B) as (N & U & P & Sm & D).
  destruct (close_tx_agreed (at_side (c_scriptpubkey i) LOCAL) (at_side (c_scriptpubkey i) REMOTE) (c_funding_txid i)
    (c_funding_txout i) (c_funding_satoshi i) (to_side fee LOCAL) (to_side fee REMOTE) (c_our_dust_limit i))
    as (_ & _ & Ok); [done|done|done|apply (m_started M LOCAL)|].
  destruct (Ok D) as (tx & Et & Ei & _ & _ & Po). exists tx. split; [done|]. split; [by rewrite Ei|done].
Qed.

(** Both nodes build it. *)
Lemma both_close s fee tx l : in_play fee -> closing_tx fee tx ->
  close_tx (inits s) (c_satoshi_out (inits s)) fee l = Goes tx l [].
Proof using M.
  intros B (Et & _). destruct (play_bounds fee B) as (N & U & P & Sm & D). unfold close_tx.
  assert (fee <= at_side (c_satoshi_out (inits s)) (c_funder (inits s))) as A.
  { specialize (P (c_funder i)). unfold to_side in P. rewrite side_eqb_refl in P. destruct s; [lia|].
    rewrite (m_funder M), (m_outs M LOCAL). lia. }
  rewrite (proj2 (Z.ltb_ge _ _) A). pose proof (m_small M). pose proof (P LOCAL) as PL. pose proof (P REMOTE) as PR.
  assert (forall x, u64 (to_side fee x) = to_side fee x) as W.
  { intros x. apply u64_small. unfold fits. eval_pow2. destruct x; lia. }
  assert (create_close_tx (at_side (c_scriptpubkey (inits s)) LOCAL) (at_side (c_scriptpubkey (inits s)) REMOTE)
    (c_funding_txid (inits s)) (c_funding_txout (inits s)) (c_funding_satoshi (inits s))
    (u64 (at_side (c_satoshi_out (inits s)) LOCAL - if side_eqb (c_funder (inits s)) LOCAL then fee else 0))
    (u64 (at_side (c_satoshi_out (inits s)) REMOTE - if side_eqb (c_funder (inits s)) REMOTE then fee else 0))
    (c_our_dust_limit (inits s)) = Some (Some tx)) as ->; [|done].
  rewrite <- Et. destruct s.
  - pose proof (W LOCAL) as WL. pose proof (W REMOTE) as WR. unfold to_side in WL, WR. rewrite WL, WR. reflexivity.
  - rewrite (m_txid M), (m_txout M), (m_satoshi M), (m_dust M), (m_funder M).
    pose proof (m_outs M LOCAL LOCAL) as OL. pose proof (m_outs M LOCAL REMOTE) as OR.
    pose proof (m_scripts M LOCAL LOCAL) as SL. pose proof (m_scripts M LOCAL REMOTE) as SR. cbn [other] in OL, OR, SL, SR.
    rewrite OL, OR, SL, SR.
    assert (forall x, side_eqb (other (c_funder i)) (other x) = side_eqb (c_funder i) x) as F by (by destruct (c_funder i), x).
    pose proof (F LOCAL) as FL. pose proof (F REMOTE) as FR. cbn [other] in FL, FR. rewrite FL, FR.
    fold (to_side fee LOCAL) (to_side fee REMOTE). rewrite !W.
    destruct (close_tx_agreed (at_side (c_scriptpubkey i) LOCAL) (at_side (c_scriptpubkey i) REMOTE) (c_funding_txid i)
      (c_funding_txout i) (c_funding_satoshi i) (to_side fee LOCAL) (to_side fee REMOTE) (c_our_dust_limit i))
      as (Sym & _ & _); [done|done|done|apply (m_started M LOCAL)|]. by rewrite Sym.
Qed.

(** Node [s]'s signature on it verifies. *)
Definition signs (s : side) (tx : bitcoin_tx) (sig : signature) : Prop :=
  check_tx_sig tx 0 None (Some wscript) (at_side (c_funding_pubkey (inits s)) LOCAL) sig = Some true.

Lemma closing_amount fee tx : closing_tx fee tx -> one_input tx /\ set_amount0 (c_funding_satoshi i) tx = tx.
Proof using Type*.
  intros (_ & Ei & _). assert (one_input tx) as O by (eexists; by split). split; [done|].
  apply set_amount0_same; [done|]. unfold input_amount. by rewrite Ei.
Qed.

Lemma same_satoshi s : c_funding_satoshi (inits s) = c_funding_satoshi i.
Proof using M. destruct s; [done|apply (m_satoshi M)]. Qed.

Lemma offer_sent s fee tx : in_play fee -> closing_tx fee tx ->
  exists sig, offer_msgs s fee = [Closing_signed chan fee sig] /\ signs s tx sig /\
    forall l, send_offer (seeds s) (inits s) fee l = Goes () l [Says (Closing_signed chan fee sig)].
Proof using Type*.
  intros B C. destruct (started_keys _ _ (m_started M s)) as [bps Hb]. destruct (closing_amount fee tx C) as [O Ea].
  destruct (funding_signs (seeds s) bps _ Hb tx O (c_funding_satoshi i) (at_side (c_funding_pubkey (inits s)) REMOTE)) as (sig & Es & Ck).
  assert (forall l, send_offer (seeds s) (inits s) fee l = Goes () l [Says (Closing_signed chan fee sig)]) as Snd.
  { intros l. unfold send_offer, mbind, proc_bind. rewrite (both_close s fee tx l B C).
    unfold handle_sign_mutual_close_tx. rewrite (same_satoshi s), Es. cbn. by rewrite same_chan. }
  exists sig. split; [unfold offer_msgs; by rewrite Snd|]. split; [|exact Snd].
  unfold signs. unfold checks in Ck. rewrite Ea in Ck. fold (funding_wscript (inits s)) in Ck. by rewrite same_wscript in Ck.
Qed.

Lemma offer_received s fee tx : in_play fee -> closing_tx fee tx -> exists sig, signs (other s) tx sig /\
  forall l, receive_offer (uninits s) (inits s) ((From_peer <$> offer_msgs (other s) fee) ++ l)
    = Goes fee l [Received_signature sig tx].
Proof using Type*.
  intros B C. destruct (offer_sent (other s) fee tx B C) as (sig & Em & Sg & _). exists sig. split; [done|]. intros l.
  rewrite Em. unfold receive_offer, mbind at 1, proc_bind at 1. cbn [fmap list_fmap app read_interesting].
  unfold mbind at 1, proc_bind at 1. cbn [closing_read_peer_msg].
  assert (closing_gossip_or_error (uninits s) (inits s) (Closing_signed chan fee sig) = Unhandled) as ->
    by (unfold closing_gossip_or_error, is_peer_error; cbn [is_msg_for_gossipd wire_type_of];
        rewrite bool_decide_eq_false_2 by done; done).
  cbn [wire_type_of after mret proc_ret app]. unfold signed_variant, mbind, proc_bind. rewrite (both_close s fee tx _ B C).
  unfold check_their_sig. rewrite same_wscript.
  assert (at_side (c_funding_pubkey (inits s)) REMOTE = at_side (c_funding_pubkey (inits (other s))) LOCAL) as ->
    by (by rewrite <- (m_keys M s REMOTE)).
  unfold signs in Sg. rewrite Sg. cbn [or_crash mret proc_ret after app].
  assert (c_min_fee_to_accept (inits s) <= fee) as Lm.
  { pose proof (m_accepts M s LOCAL). pose proof (m_accepts M s REMOTE). unfold in_play, between in B. lia. }
  rewrite (proj2 (Z.leb_le _ _) Lm). done.
Qed.

(** ** A node in the conversation *)

(** The messages of node [s], and those that reach it, in a conversation [c] in which [t]
    is the first to speak as [s] sees it. *)
Definition mine (s t : side) (c : list Z) : list wire_msg := said_by LOCAL t c ≫= offer_msgs s.
Definition theirs (s t : side) (c : list Z) : list incoming := From_peer <$> (said_by REMOTE t c ≫= offer_msgs (other s)).

(** The node holds the other's signature at [fee]. *)
Definition heard (s : side) (fee : Z) out : Prop :=
  exists tx sig, closing_tx fee tx /\ signs (other s) tx sig /\ Received_signature sig tx ∈ out.

Lemma heard_app s fee a b : heard s fee a \/ heard s fee b -> heard s fee (a ++ b).
Proof using Type. intros [(tx & sig & C & S & E)|(tx & sig & C & S & E)]; exists tx, sig; rewrite elem_of_app; auto. Qed.

Definition offers (t : side) (a b : Z) : sided Z := match t with LOCAL => Sided a b | REMOTE => Sided b a end.

Lemma says_app (a b : list closing_out) : omap says_of (a ++ b) = omap says_of a ++ omap says_of b.
Proof using Type. apply omap_app. Qed.

Lemma outputs_after {A} out (r : progress A) : outputs (after out r) = out ++ outputs r.
Proof using Type. by destruct r. Qed.

Lemma play_counter a b : in_play a -> in_play b -> in_play (counter a b).
Proof using Type. unfold in_play, between. intros Ha Hb. pose proof (counter_between a b) as B. unfold between in B. lia. Qed.

Lemma accepts_play s a b : in_play a -> in_play b -> c_min_fee_to_accept (inits s) <= Z.min a b.
Proof using M. unfold in_play, between. intros Ha Hb. pose proof (m_accepts M s LOCAL). pose proof (m_accepts M s REMOTE). lia. Qed.

(** One round of ours, and one of theirs. *)
Lemma our_round s r a b fuel l : a <> b -> applied LOCAL r a b -> in_play a -> in_play b -> exists out r',
  extra_rounds (seeds s) (uninits s) (inits s) (S fuel) LOCAL r (offers LOCAL a b) l
    = after out (extra_rounds (seeds s) (uninits s) (inits s) fuel REMOTE r' (offers REMOTE b (counter a b)) l) /\
  omap says_of out = offer_msgs s (counter a b) /\
  (b <> counter a b -> applied REMOTE r' b (counter a b)).
Proof using Type*.
  intros Ne Ap Pa Pb. destruct (play_bounds a Pa) as (? & ? & _). destruct (play_bounds b Pb) as (? & ? & _).
  destruct (adjust_counter LOCAL r a b (c_min_fee_to_accept (inits s)) Ap) as [Ea Ap']; [done|lia|lia|by apply accepts_play|].
  destruct (closing_tx_ex (counter a b) (play_counter a b Pa Pb)) as [tx C].
  destruct (offer_sent s _ tx (play_counter a b Pa Pb) C) as (sig & Em & _ & Snd). cbn [other] in *.
  exists [Says (Closing_signed chan (counter a b) sig)], (adjust_feerange r b REMOTE).
  cbn [extra_rounds offers at_side on_local on_remote]. rewrite (proj2 (Z.eqb_neq _ _) Ne). cbn [other].
  unfold mbind, proc_bind, next_offer. change (at_side (Sided a b) REMOTE) with b. rewrite Ea.
  unfold mbind, proc_bind. rewrite Snd, Em. split; [done|]. split; [done|]. intros N. apply Ap'. congruence.
Qed.

Lemma their_round s r a b fuel l : a <> b -> applied REMOTE r a b -> in_play a -> in_play b -> exists out r',
  extra_rounds (seeds s) (uninits s) (inits s) (S fuel) REMOTE r (offers REMOTE a b)
      ((From_peer <$> offer_msgs (other s) (counter a b)) ++ l)
    = after out (extra_rounds (seeds s) (uninits s) (inits s) fuel LOCAL r' (offers LOCAL b (counter a b)) l) /\
  omap says_of out = [] /\ heard s (counter a b) out /\
  (b <> counter a b -> applied LOCAL r' b (counter a b)).
Proof using Type*.
  intros Ne Ap Pa Pb. destruct (play_bounds a Pa) as (? & ? & _). destruct (play_bounds b Pb) as (? & ? & _).
  destruct (adjust_counter REMOTE r a b (c_min_fee_to_accept (inits s)) Ap) as [_ Ap']; [done|lia|lia|by apply accepts_play|].
  destruct (closing_tx_ex (counter a b) (play_counter a b Pa Pb)) as [tx C].
  destruct (offer_received s _ tx (play_counter a b Pa Pb) C) as (sig & Sg & Rcv). cbn [other] in *.
  exists [Received_signature sig tx], (adjust_feerange r b LOCAL).
  cbn [extra_rounds offers at_side on_local on_remote]. rewrite (proj2 (Z.eqb_neq _ _) (not_eq_sym Ne)). cbn [other].
  unfold mbind, proc_bind, next_offer. unfold mbind, proc_bind. rewrite Rcv. split; [done|]. split; [done|].
  split; [exists tx, sig; split; [done|]; split; [done|left]|]. intros N. apply Ap'. congruence.
Qed.

(** After the first [k] offers of the conversation [bs], the node has made its own of the
    first [S k]; after all of them it has returned. *)
Definition plays (s t : side) (bs : list Z) (k : nat) (fee : Z) (out0 : list closing_out) (res : progress Z) : Prop :=
  omap says_of (outputs res) = mine s t (take (S k) bs) /\
  ((length bs <= k)%nat -> exists out, res = Goes fee [] out /\ heard s fee (out0 ++ out)).

Lemma plays_after s t t' bs bs' k k' fee out0 o res : plays s t bs k fee (out0 ++ o) res ->
  omap says_of o ++ mine s t (take (S k) bs) = mine s t' (take (S k') bs') -> (length bs' <= k' -> length bs <= k)%nat ->
  plays s t' bs' k' fee out0 (after o res).
Proof using Type.
  intros [Es Ed] Em Hl. unfold plays. rewrite outputs_after, says_app, Es. split; [exact Em|].
  intros L. destruct (Ed (Hl L)) as (out & -> & Hd). exists (o ++ out). by rewrite app_assoc.
Qed.

(** An offer of ours, one of theirs, and the wait for one. *)
Lemma plays_ours s f bs k fee out0 o res : omap says_of o = offer_msgs s f ->
  plays s REMOTE bs (k - 1) fee (out0 ++ o) res -> plays s LOCAL (f :: bs) k fee out0 (after o res).
Proof using Type.
  intros Eo P. eapply plays_after; [exact P| |cbn [length]; lia]. rewrite Eo.
  destruct k as [|k]; [by destruct bs|]. by rewrite Nat.sub_succ, Nat.sub_0_r.
Qed.

Lemma plays_theirs s f bs k fee out0 o res : omap says_of o = [] ->
  plays s LOCAL bs k fee (out0 ++ o) res -> plays s REMOTE (f :: bs) (S k) fee out0 (after o res).
Proof using Type. intros Eo P. eapply plays_after; [exact P|by rewrite Eo|cbn [length]; lia]. Qed.

Lemma plays_waits s f bs fee out0 : plays s REMOTE (f :: bs) 0 fee out0 (Halts Waits []).
Proof using Type. split; [done|cbn [length]; lia]. Qed.

Lemma theirs_local s f bs k : theirs s LOCAL (take k (f :: bs)) = theirs s REMOTE (take (k - 1) bs).
Proof using Type. destruct k as [|k]; [by destruct bs|]. by rewrite Nat.sub_succ, Nat.sub_0_r. Qed.

Lemma theirs_remote s f c : theirs s REMOTE (f :: c) = (From_peer <$> offer_msgs (other s) f) ++ theirs s LOCAL c.
Proof using Type. unfold theirs. cbn [said_by]. sides. by rewrite bind_cons, fmap_app. Qed.

Lemma length_offer s fee : in_play fee -> length (offer_msgs s fee) = 1%nat.
Proof using Type*.
  intros P. destruct (closing_tx_ex fee P) as [tx C]. by destruct (offer_sent s fee tx P C) as (sig & -> & _).
Qed.

Lemma rounds s n a b t r fuel k fee out0 : settles n a b fee -> in_play a -> in_play b -> (a <> b -> applied t r a b) ->
  heard s (at_side (offers t a b) REMOTE) out0 ->
  (2 * length (theirs s t (take k (bids n a b))) + (if side_eqb t REMOTE then 1 else 2) <= fuel)%nat ->
  plays s t (bids n a b) k fee out0
    (extra_rounds (seeds s) (uninits s) (inits s) fuel t r (offers t a b) (theirs s t (take k (bids n a b)))).
Proof using Type*.
  revert a b t r fuel k out0. induction n as [|n IH]; intros a b t r fuel k out0 Sf Pa Pb Ap Hd Hf;
    (destruct fuel as [|fuel]; [destruct (side_eqb t REMOTE); lia|]); cbn [settles bids] in *;
    (destruct (Z.eqb_spec a b) as [->|Ne]; [|try done]).
  1, 2: rewrite take_nil; cbn [extra_rounds]; assert (offers t b b = Sided b b) as -> by (by destruct t);
    cbn [at_side on_local on_remote]; rewrite Z.eqb_refl, Sf; (split; [by rewrite take_nil|]);
    intros _; exists []; rewrite app_nil_r; split; [done|]; by destruct t.
  specialize (Ap Ne). pose proof (play_counter a b Pa Pb) as Pc. set (c := counter a b) in *. set (bs := bids n b c) in *.
  destruct t; sides.
  - rewrite theirs_local in Hf |- *.
    destruct (our_round s r a b fuel (theirs s REMOTE (take (k - 1) bs)) Ne Ap Pa Pb) as (o & r' & -> & Eo & Ap').
    apply plays_ours; [exact Eo|]. apply IH; auto; [apply heard_app; by left|fold c bs; sides; lia].
  - destruct k as [|k].
    { cbn [take extra_rounds offers at_side on_local on_remote]. rewrite (proj2 (Z.eqb_neq b a)) by done. apply plays_waits. }
    cbn [take] in Hf |- *. rewrite theirs_remote in Hf |- *. rewrite length_app, length_fmap, (length_offer (other s) c Pc) in Hf.
    destruct (their_round s r a b fuel (theirs s LOCAL (take k bs)) Ne Ap Pa Pb) as (o & r' & Er & Eo & Hc & Ap').
    fold c in Er. rewrite Er. apply plays_theirs; [exact Eo|].
    apply IH; auto; [apply heard_app; by right|fold c bs; sides; lia].
Qed.

Lemma init_applied limit t a b : a <> b -> 0 <= a < 2 ^ 63 -> 0 <= b < 2 ^ 63 ->
  applied t (adjust_feerange (init_feerange limit (offers t a b)) a t) a b.
Proof using Type.
  intros Ne Ra Rb. assert (2 ^ 64 = 2 * 2 ^ 63) as E64 by reflexivity. unfold applied, init_feerange, adjust_feerange.
  destruct t; cbn [offers at_side on_local on_remote];
    destruct (Z.ltb_spec b a); destruct (Z.ltb_spec a b); try lia; cbn [higher_side fee_min fee_max]; sides;
    cbn [higher_side fee_min fee_max]; (split; [done|]); apply u64_small; unfold fits; lia.
Qed.

(** ** The conversation *)

(** The first offers of the funder and of the other, and their bids. *)
Definition begins (s : side) : Z := c_offer (inits (if side_eqb (c_funder i) LOCAL then s else other s)).
Definition conv (n : nat) : list Z := begins LOCAL :: begins REMOTE :: bids n (begins LOCAL) (begins REMOTE).

Lemma begins_play s : in_play (begins s).
Proof using Type. unfold begins, in_play, between. destruct s, (c_funder i); sides; lia. Qed.

Lemma own_offer s : c_offer (inits s) = begins (if side_eqb (c_funder (inits s)) LOCAL then LOCAL else REMOTE).
Proof using M. unfold begins. destruct s; rewrite ?(m_funder M); by destruct (c_funder i). Qed.

Lemma first_ours s fee x : in_play fee -> exists out, omap says_of out = offer_msgs s fee /\
  forall l, first_offer (seeds s) (uninits s) (inits s) LOCAL (Sided fee x) l = Goes (Sided fee x) l out.
Proof using Type*.
  intros P. destruct (closing_tx_ex fee P) as [tx C]. destruct (offer_sent s fee tx P C) as (sig & Em & _ & Snd).
  eexists. split; [|intros l; unfold first_offer, mbind, proc_bind; change (at_side (Sided fee x) LOCAL) with fee;
    rewrite Snd; reflexivity]. by rewrite Em.
Qed.

Lemma first_theirs s fee o : in_play fee -> exists out, omap says_of out = [] /\ heard s fee out /\
  forall l, first_offer (seeds s) (uninits s) (inits s) REMOTE o ((From_peer <$> offer_msgs (other s) fee) ++ l)
    = Goes (set_side REMOTE fee o) l out.
Proof using Type*.
  intros P. destruct (closing_tx_ex fee P) as [tx C]. destruct (offer_received s fee tx P C) as (sig & Sg & Rcv).
  exists [Received_signature sig tx]. split; [done|]. split; [exists tx, sig; split; [done|]; split; [done|left]|].
  intros l. unfold first_offer, mbind, proc_bind. by rewrite Rcv.
Qed.

Lemma negotiate_plays s k n fee : settles n (begins LOCAL) (begins REMOTE) fee ->
  plays s (c_funder (inits s)) (conv n) k fee []
    (negotiate (seeds s) (uninits s) (inits s) (theirs s (c_funder (inits s)) (take k (conv n)))).
Proof using Type*.
  intros Sf. unfold negotiate, conv. cbv zeta. rewrite own_offer.
  pose proof (begins_play LOCAL) as Pl. pose proof (begins_play REMOTE) as Pr.
  set (a := begins LOCAL) in *. set (b := begins REMOTE) in *. set (bs := bids n a b).
  destruct (play_bounds a Pl) as (? & ? & _). destruct (play_bounds b Pr) as (? & ? & _).
  unfold mbind, proc_bind. destruct (c_funder (inits s)) eqn:Ef; sides.
  - destruct (first_ours s a 0 Pl) as (oa & Ea & Fa). destruct (first_theirs s b (Sided a 0) Pr) as (ob & Eb & Hb & Fb).
    rewrite theirs_local, Fa. apply plays_ours; [exact Ea|]. destruct (k - 1)%nat as [|k']; [apply plays_waits|].
    cbn [take]. rewrite theirs_remote, Fb. apply plays_theirs; [exact Eb|].
    apply rounds; [done|done|done|intros Ne; by apply init_applied|apply heard_app; by right|sides; fold bs; lia].
  - destruct k as [|k]; [apply plays_waits|]. cbn [take].
    destruct (first_theirs s a (Sided b 0) Pl) as (oa & Ea & Ha & Fa). destruct (first_ours s b a Pr) as (ob & Eb & Fb).
    rewrite theirs_remote, Fa. apply plays_theirs; [exact Ea|].
    rewrite theirs_local. change (set_side REMOTE a (Sided b 0)) with (Sided b a). rewrite Fb. apply plays_ours; [exact Eb|].
    apply (rounds s n a b REMOTE);
      [done|done|done|intros Ne; by apply (init_applied _ REMOTE)|apply heard_app; by left|sides; fold bs; lia].
Qed.

Lemma main_plays s k n fee : settles n (begins LOCAL) (begins REMOTE) fee ->
  plays s (c_funder (inits s)) (conv n) k fee []
    (closing_main (seeds s) (uninits s) (inits s) (theirs s (c_funder (inits s)) (take k (conv n)))).
Proof using Type*.
  intros Sf. unfold closing_main. rewrite (m_fresh M). destruct (negotiate_plays s k n fee Sf) as [Es Ed].
  unfold mbind, proc_bind. cbn [mret proc_ret after app]. unfold plays in *.
  destruct (negotiate _ _ _ _) as [f rest out|h out]; cbn [after outputs app emit] in *.
  - split; [by rewrite says_app, Es, app_nil_r|]. intros L. destruct (Ed L) as (out' & [= -> -> ->] & Hd).
    eexists. split; [reflexivity|]. apply heard_app. by left.
  - split; [done|]. intros L. by destruct (Ed L) as (? & [=] & _).
Qed.

Lemma mine_theirs s k n : From_peer <$> mine (other s) (c_funder (inits (other s))) (take k (conv n))
  = theirs s (c_funder (inits s)) (take k (conv n)).
Proof using M.
  unfold theirs, mine. assert (c_funder (inits (other s)) = other (c_funder (inits s))) as ->
    by (destruct s; cbn [other]; rewrite (m_funder M); by destruct (c_funder i)).
  by rewrite <- (said_by_other REMOTE).
Qed.

Lemma exchange_mine n fee k s : settles n (begins LOCAL) (begins REMOTE) fee ->
  at_side (exchange k) s = mine s (c_funder (inits s)) (take k (conv n)).
Proof using Type*.
  intros Sf. revert s. induction k as [|k IH]; intros s; [by destruct s|].
  assert (at_side (exchange (S k)) s = sent s (at_side (exchange k) (other s))) as -> by (by destruct s).
  rewrite IH. unfold sent. rewrite mine_theirs. by destruct (main_plays s k n fee Sf).
Qed.

Lemma length_bids n a b : (length (bids n a b) <= n)%nat.
Proof using Type. revert a b. induction n as [|n IH]; intros a b; cbn [bids]; [done|]. destruct (_ =? _); cbn [length]; [lia|]. specialize (IH b (counter a b)). lia. Qed.
End Agree.

Section Agreement.
Context `{Secp256k1Laws} `{!Signatures} `{!SignatureLaws}.

(** C8. Two nodes that agree on the channel agree on how to close it: the masters gave both
    the same funding, balances, scripts and dust limit, neither is reconnecting, the funder
    can pay either first offer with an output left, and each accepts both. If the first
    offers differ by at most [2^n + 1], then once each has [n + 3] times or more seen all that the
    other has sent, both closing processes have completed, with the same fee, which lies
    between the two first offers. Each has reported to its master a transaction that
    spends the funding and pays each side its part at that fee, less dust, with a valid
    signature of the other, and it is the same transaction on both sides. *)
Theorem closing_agrees seeds uninits inits n k : matched seeds inits ->
  Z.abs (c_offer (inits LOCAL) - c_offer (inits REMOTE)) <= 2 ^ Z.of_nat n + 1 -> (n + 3 <= k)%nat ->
  exists fee tx, in_play inits fee /\ closing_tx inits fee tx /\
    forall s, exists out sig,
      closing_main (seeds s) (uninits s) (inits s) (From_peer <$> at_side (exchange seeds uninits inits k) (other s))
        = Goes fee [] out /\
      Received_signature sig tx ∈ out /\ signs inits (other s) tx sig.
Proof using Type*.
  intros M D L.
  destruct (bids_settle n (begins inits LOCAL) (begins inits REMOTE)) as (fee & Sf & Bf).
  { unfold begins. destruct (c_funder (inits LOCAL)); sides; lia. }
  assert (in_play inits fee) as P.
  { unfold in_play, between in *. unfold begins in Bf. destruct (c_funder (inits LOCAL)); sides; lia. }
  destruct (closing_tx_ex seeds inits M fee P) as [tx C]. exists fee, tx. split; [done|]. split; [done|]. intros s.
  rewrite (exchange_mine seeds uninits inits M (S n) fee k (other s) Sf), (mine_theirs seeds inits M).
  destruct (main_plays seeds uninits inits M s k (S n) fee Sf) as [_ Ed].
  destruct Ed as (out & -> & tx' & sig & C' & Sg & Hin).
  { unfold conv. cbn [length]. pose proof (length_bids (S n) (begins inits LOCAL) (begins inits REMOTE)). lia. }
  assert (tx' = tx) as -> by (destruct C as [E _], C' as [E' _]; congruence).
  exists out, sig. done.
Qed.
End Agreement.
