(* ===== verification/ClosingMaster.v ===== *)
(** * The master at the end of a channel (src/lightning/lightningd/closing_control.c)

    From the message that starts the closing process to the transaction that is broadcast:
    whatever the peer does, when the process completes, the master broadcasts a transaction
    that spends the funding and that Bitcoin Core accepts. *)
From S2P Require Import Prelude HtlcState Sha256 Secp Ecdsa PullPush BitcoinTx CoreTx CScript Interp.
From S2P Require Import LnScript SigCheck ScriptSpend ChannelSpend KeyDerive Hsm Htlc CommitTx.
From S2P Require Import Channeld ChanneldLocal Closingd ClosingSafe.
Local Open Scope Z_scope.

#[local] Opaque sha256.

Section Master.
Context `{Secp256k1Laws} `{!Signatures} `{!SignatureLaws}.
Implicit Types (tx : bitcoin_tx) (sig : signature) (c : ld_channel) (out : list closing_out).

(** ** Witnesses are not signed *)
Definition funding_input (txid : bytes) (index seq amount : Z) (w : option (list bytes)) : bitcoin_tx_input :=
  TxInput txid index None seq (Some amount) w.

Lemma check_hash tx txid index seq amount w wscript key sig : input tx = [funding_input txid index seq amount w] ->
  check_tx_sig tx 0 None (Some wscript) key sig
  = Some (check_signed_hash (BitcoinTx.Spec.hash256
      (BitcoinTx.Spec.sig_preimage tx (funding_input txid index seq amount w) amount wscript)) sig key).
Proof using Type.
  destruct tx as [ver ins outs lock]. cbn [input]. intros ->. set (n := funding_input txid index seq amount w).
  assert (sha256_tx_one_input (BitcoinTx ver [n] outs lock) 0 None (Some wscript)
    = sha256_tx_for_sig (BitcoinTx ver [n] outs lock) 0 (Some wscript)) as E
    by (unfold sha256_tx_one_input; generalize sha256_tx_for_sig; reflexivity).
  rewrite sighash_eq in E. revert E. unfold check_tx_sig.
  generalize sha256_tx_one_input BitcoinTx.Spec.hash256. intros f h E. cbn [input].
  change ([n] !! 0%nat) with (Some n). cbn [mbind option_bind]. rewrite E. reflexivity.
Qed.

Lemma preimage_witness tx txid index seq amount w w' wscript :
  BitcoinTx.Spec.sig_preimage (set_input [funding_input txid index seq amount w] tx) (funding_input txid index seq amount w) amount wscript
  = BitcoinTx.Spec.sig_preimage (set_input [funding_input txid index seq amount w'] tx) (funding_input txid index seq amount w') amount wscript.
Proof using Type. unfold BitcoinTx.Spec.sig_preimage. generalize BitcoinTx.Spec.hash256. intros h. reflexivity. Qed.

Lemma check_with_witness tx txid index seq amount w wscript key sig :
  input tx = [funding_input txid index seq amount None] ->
  check_tx_sig (set_input [funding_input txid index seq amount w] tx) 0 None (Some wscript) key sig
  = check_tx_sig tx 0 None (Some wscript) key sig.
Proof using Type.
  intros Ei. rewrite (check_hash _ _ _ _ _ _ _ _ _ Ei), (check_hash (set_input _ tx) txid index seq amount w) by done.
  rewrite (preimage_witness tx txid index seq amount w None).
  assert (set_input [funding_input txid index seq amount None] tx = tx) as -> by (destruct tx; cbn in *; by subst). done.
Qed.

(** ** The transaction that the master holds *)
Definition ld_wscript c : bytes := bitcoin_redeem_2of2 (local_funding_pubkey c) (remote_fundingkey c).

(** It spends the funding, and the peer signed it. *)
Definition countersigned c tx sig : Prop :=
  (exists seq, input tx = [funding_input (ld_funding_txid c) (ld_funding_outnum c) seq (ld_funding_satoshi c) None]) /\
  check_tx_sig tx 0 None (Some (ld_wscript c)) (remote_fundingkey c) sig = Some true.

(** What the peer's signer signed. *)
Lemma countersigned_by peer_seed bps seq c tx sig :
  handle_get_channel_basepoints peer_seed = Some (Some (bps, remote_fundingkey c)) ->
  input tx = [funding_input (ld_funding_txid c) (ld_funding_outnum c) seq (ld_funding_satoshi c) None] ->
  handle_sign_commitment_tx peer_seed tx (local_funding_pubkey c) (ld_funding_satoshi c) = Some (Some sig) ->
  countersigned c tx sig.
Proof using Type*.
  intros Hb Ei Es. assert (one_input tx) as O by (eexists; by split).
  destruct (funding_signs peer_seed bps _ Hb tx O (ld_funding_satoshi c) (local_funding_pubkey c)) as (sig' & Es' & Ck).
  unfold handle_sign_commitment_tx in Es. rewrite Es in Es'. injection Es' as <-. unfold checks in Ck.
  rewrite (set_amount0_same _ _ O), redeem_2of2_sym in Ck by (unfold input_amount; by rewrite Ei).
  split; [by exists seq|exact Ck].
Qed.

(** A channel that is closing: our key is of our seed, what is ours is part of the
    funding, and the last transaction, a commitment, is signed. *)
Record closing (seed : bytes) c : Prop := {
  closing_state : ld_state c = CLOSINGD_SIGEXCHANGE;
  closing_keys : exists bps, handle_get_channel_basepoints seed = Some (Some (bps, local_funding_pubkey c));
  closing_ours : 0 <= our_msatoshi c <= ld_funding_satoshi c * 1000;
  closing_fits : fits 64 (ld_funding_satoshi c * 1000);
  closing_last : countersigned c (last_tx c) (last_sig c)
}.

Lemma base_fee_fits f n : fits 64 (commit_tx_base_fee f n).
Proof using Type.
  unfold commit_tx_base_fee. pose proof (u64_fits (f * u64 (724 + u64 (172 * n)))) as [L U]. unfold fits.
  split; [apply Z.div_pos; lia|]. apply Z.div_lt_upper_bound; lia.
Qed.

Lemma starts_right seed c est rc re i : closing seed c -> (forall m, re = Some m -> parsed m) ->
  peer_start_closingd est rc re c = Some i -> started seed i.
Proof using Type.
  intros C Pr. unfold peer_start_closingd. destruct (remote_shutdown_scriptpubkey c) as [script|]; [|done].
  cbn [mbind option_bind]. intros [= <-]. pose proof (closing_ours _ _ C) as [N U]. pose proof (closing_fits _ _ C) as F.
  rewrite (u64_small (ld_funding_satoshi c * 1000)) by done. unfold fits in F.
  rewrite (u64_small (_ - _)) by (unfold fits; lia). constructor; cbn [c_funding_pubkey c_satoshi_out c_funding_satoshi c_offer c_channel_reestablish].
  - exact (closing_keys _ _ C).
  - intros []; cbn [at_side on_local on_remote]; apply Z.div_pos; lia.
  - cbn [at_side on_local on_remote]. apply Z.mul_le_mono_pos_r with 1000; [lia|].
    pose proof (Z.mul_div_le (our_msatoshi c) 1000). pose proof (Z.mul_div_le (ld_funding_satoshi c * 1000 - our_msatoshi c) 1000). lia.
  - unfold fits. lia.
  - destruct (_ <? _); apply base_fee_fits.
  - exact Pr.
Qed.

(** ** What the process tells it *)

(** The messages with the fee estimates of the time; the new state and what is broadcast. *)
Fixpoint master_run (seed : bytes) (c : ld_channel) (l : list (fee_estimates * closing_out))
    : option (ld_channel * list bitcoin_tx) :=
  match l with
  | [] => Some (c, [])
  | (est, o) :: l =>
      '(c, b) ← closing_msg seed est c o;
      '(c, bs) ← master_run seed c l;
      Some (c, option_list b ++ bs)
  end.

Lemma master_run_app seed c a b : master_run seed c (a ++ b)
  = ('(c, bs) ← master_run seed c a; '(c, bs') ← master_run seed c b; Some (c, bs ++ bs')).
Proof using Type.
  revert c. induction a as [|[est o] a IH]; intros c; cbn [app master_run].
  - cbn [mbind option_bind]. by destruct (master_run seed c b) as [[? ?]|].
  - destruct (closing_msg seed est c o) as [[c1 b1]|]; [|done]. cbn [mbind option_bind]. rewrite IH.
    destruct (master_run seed c1 a) as [[c2 b2]|]; [|done]. cbn [mbind option_bind].
    destruct (master_run seed c2 b) as [[c3 b3]|]; [|done]. cbn [mbind option_bind]. by rewrite app_assoc.
Qed.

(** While the process runs, only the transaction changes, to one that it reported. *)
Lemma step_keeps seed i c est o : good i o -> exists tx sig,
  closing_msg seed est c o = Some (channel_set_last_tx tx sig c, None) /\
  ((tx = last_tx c /\ sig = last_sig c) \/ (o = Received_signature sig tx /\ better_closing_fee est c tx = true)).
Proof using Type.
  intros G. assert (channel_set_last_tx (last_tx c) (last_sig c) c = c) as E by (by destruct c).
  destruct o as [m|m|sig tx|]; [..|done]; cbn [closing_msg].
  1, 2: exists (last_tx c), (last_sig c); rewrite E; auto.
  unfold peer_received_closing_signature. destruct (better_closing_fee est c tx) eqn:B; [by exists tx, sig; auto|].
  exists (last_tx c), (last_sig c). rewrite E. auto.
Qed.

Lemma run_keeps seed i c l : Forall (good i) l.*2 -> exists tx sig,
  master_run seed c l = Some (channel_set_last_tx tx sig c, []) /\
  ((tx = last_tx c /\ sig = last_sig c) \/ Received_signature sig tx ∈ l.*2).
Proof using Type.
  revert c. induction l as [|[est o] l IH]; intros c G.
  - exists (last_tx c), (last_sig c). split; [by destruct c|auto].
  - rewrite fmap_cons in G. apply Forall_cons in G as [Go G]. destruct (step_keeps seed i c est o Go) as (tx & sig & E & K).
    destruct (IH (channel_set_last_tx tx sig c) G) as (tx' & sig' & E' & K'). exists tx', sig'.
    cbn [master_run]. rewrite E. cbn [mbind option_bind]. rewrite E'. split; [done|]. rewrite fmap_cons, elem_of_cons.
    destruct K' as [[-> ->]|K']; [|auto]. cbn [channel_set_last_tx set_last last_tx last_sig].
    destruct K as [[-> ->]|[-> _]]; auto.
Qed.

(** ** The broadcast *)
Definition signed_with (w : list bytes) tx : bitcoin_tx :=
  set_input (alter (fun n => TxInput (in_txid n) (in_index n) (in_script n) (sequence_number n) (in_amount n) (Some w))
    0%nat (input tx)) tx.

(** Bitcoin Core accepts the witness of the transaction for the funding output. *)
Definition core_accepts (flags : Z) c tx : Prop :=
  forall cache, cache_ok tx cache ->
    spends_output tx 0 (ld_funding_satoshi c) cache flags (n ← input tx !! 0%nat; witness n) (ld_wscript c).

Lemma last_tx_spends seed c flags : (exists bps, handle_get_channel_basepoints seed = Some (Some (bps, local_funding_pubkey c))) ->
  countersigned c (last_tx c) (last_sig c) -> CastToBool (sha256 (ld_wscript c)) = true ->
  has flags SCRIPT_VERIFY_P2SH = true -> has flags SCRIPT_VERIFY_WITNESS = true ->
  exists w, sign_last_tx seed c = Some (signed_with w (last_tx c)) /\ core_accepts flags c (signed_with w (last_tx c)).
Proof using Type*.
  intros [bps Hb] [[seq Ei] Ck] Hh Fp Fw. set (tx := last_tx c) in *.
  set (n := funding_input (ld_funding_txid c) (ld_funding_outnum c) seq (ld_funding_satoshi c)) in *.
  assert (one_input tx) as O by (eexists; by split).
  assert (set_amount0 (ld_funding_satoshi c) tx = tx) as Ea
    by (apply set_amount0_same; [done|unfold input_amount; by rewrite Ei]).
  destruct (funding_signs seed bps _ Hb tx O (ld_funding_satoshi c) (remote_fundingkey c)) as (sig & Es & Cs).
  unfold checks in Cs. rewrite Ea in Cs. fold (ld_wscript c) in Cs.
  assert (bitcoin_redeem_2of2 (remote_fundingkey c) (local_funding_pubkey c) = ld_wscript c) as Ew by apply redeem_2of2_sym.
  assert (forall w tx', tx' = set_input [n (Some w)] tx -> forall cache, cache_ok tx' cache ->
    spends_output tx' 0 (ld_funding_satoshi c) cache flags
      (bitcoin_witness_2of2 (last_sig c) sig (remote_fundingkey c) (local_funding_pubkey c)) (ld_wscript c)) as Acc.
  { intros w tx' -> cache Hc. rewrite <- Ew.
    apply (funding_accepted (set_input [n (Some w)] tx) 0 (ld_funding_satoshi c) cache (n (Some w)) eq_refl eq_refl Hc flags Fp Fw); rewrite Ew; [exact Hh| |];
      by rewrite (check_with_witness tx _ _ _ _ (Some w) _ _ _ Ei). }
  destruct (bitcoin_witness_2of2 (last_sig c) sig (remote_fundingkey c) (local_funding_pubkey c)) as [w|] eqn:Bw;
    [|by destruct (Acc [] _ eq_refl None (or_introl eq_refl)) as (? & [=] & _)].
  assert (signed_with w tx = set_input [n (Some w)] tx) as Et by (unfold signed_with; by rewrite Ei).
  exists w. split.
  - unfold sign_last_tx. fold tx. rewrite Ei. cbn [head mbind option_bind witness n funding_input c_assert].
    unfold handle_sign_commitment_tx. rewrite Es. cbn [mjoin option_join mbind option_bind]. rewrite Bw. cbn [mbind option_bind].
    unfold signed_with. by rewrite Ei.
  - intros cache Hc. rewrite Et in *. exact (Acc w _ eq_refl cache Hc).
Qed.

(** ** The best one *)

(** A fee that is high enough for the weight; and [tx] has as good a fee as [tx']. *)
Definition pays_enough (e : fee_estimates) c tx : Prop :=
  u64 (feerate_min_estimate e * u64 (measure_tx_weight tx + 74 * 2)) / 1000 <= actual_fee (ld_funding_satoshi c) tx.

Definition as_good (e : fee_estimates) c tx tx' : Prop :=
  if feerate_unknown e then actual_fee (ld_funding_satoshi c) tx' <= actual_fee (ld_funding_satoshi c) tx
  else actual_fee (ld_funding_satoshi c) tx <= actual_fee (ld_funding_satoshi c) tx'.

Lemma as_good_refl e c tx : as_good e c tx tx.
Proof using Type. unfold as_good. destruct (feerate_unknown e); lia. Qed.

Lemma as_good_trans e c a b d : as_good e c a b -> as_good e c b d -> as_good e c a d.
Proof using Type. unfold as_good. destruct (feerate_unknown e); lia. Qed.

Lemma better_spec e c tx : pays_enough e c tx -> better_closing_fee e c tx = true <-> as_good e c tx (last_tx c).
Proof using Type.
  unfold pays_enough, better_closing_fee, as_good. intros P. rewrite (proj2 (Z.ltb_ge _ _) P).
  destruct (feerate_unknown e); apply Z.leb_le.
Qed.

Lemma worse_good e c tx : pays_enough e c tx -> better_closing_fee e c tx = false -> as_good e c (last_tx c) tx.
Proof using Type.
  intros P F. destruct (decide (better_closing_fee e c tx = true)) as [?|N]; [congruence|].
  rewrite (better_spec e c tx P) in N. unfold as_good in *. destruct (feerate_unknown e); lia.
Qed.

Lemma better_good e c tx : better_closing_fee e c tx = true -> as_good e c tx (last_tx c).
Proof using Type.
  unfold better_closing_fee, as_good. destruct (_ <? _); [done|]. destruct (feerate_unknown e); apply Z.leb_le.
Qed.

Lemma run_best seed i c l e c' bs : Forall (good i) l.*2 -> Forall (eq e) l.*1 -> master_run seed c l = Some (c', bs) ->
  as_good e c (last_tx c') (last_tx c) /\
  forall sig tx, Received_signature sig tx ∈ l.*2 -> pays_enough e c tx -> as_good e c (last_tx c') tx.
Proof using Type.
  revert c bs. induction l as [|[est o] l IH]; intros c bs G Fe.
  - intros [= <- <-]. split; [apply as_good_refl|]. intros sig tx Hin. by apply not_elem_of_nil in Hin.
  - rewrite fmap_cons in G. rewrite fmap_cons in Fe. rewrite fmap_cons. apply Forall_cons in G as [Go G]. apply Forall_cons in Fe as [Ee Fe]. cbn [fst snd] in *. subst est.
    destruct (step_keeps seed i c e o Go) as (t & sg & E & K). cbn [master_run]. rewrite E. cbn [mbind option_bind].
    destruct (master_run seed _ l) as [[c2 bs2]|] eqn:R; [|done]. cbn [mbind option_bind]. intros [= <- <-].
    destruct (IH _ _ G Fe R) as [B1 B2]. cbn [channel_set_last_tx set_last last_tx] in B1.
    assert (as_good e c t (last_tx c)) as B0 by (destruct K as [[-> _]|[_ B]]; [apply as_good_refl|by apply better_good]).
    split; [by eapply as_good_trans|]. intros sig tx Hin P. apply elem_of_cons in Hin as [<-|Hin]; [|by eapply B2].
    eapply as_good_trans; [exact B1|]. destruct K as [[-> ->]|[[= <- <-] _]]; [|apply as_good_refl].
    destruct (better_closing_fee e c tx) eqn:B; [|by apply worse_good].
    cbn [closing_msg] in E. unfold peer_received_closing_signature in E. rewrite B in E. injection E as E _.
    rewrite E. apply as_good_refl.
Qed.

(** C9. A channel is closed by a transaction that Bitcoin Core accepts. Whatever the peer and
    gossipd send, when the closing process completes, the master, told what the process
    wrote, with whatever fee estimates it has at each time, broadcasts exactly one
    transaction, whose witness is accepted for the funding output; and the channel's
    state is complete. The transaction is the commitment it had, or one that pays us
    what is ours, at a fee that we accept. While the estimates do not change it has the best fee
    of those reported that pay enough for their weight and of the commitment. *)
Theorem mutual_close_accepted seed uninit c est reconnected reestablish i l fee rest out ests flags :
  closing seed c -> (forall m, reestablish = Some m -> parsed m) ->
  peer_start_closingd est reconnected reestablish c = Some i -> Forall arrived l ->
  closing_main seed uninit i l = Goes fee rest out -> length ests = length out ->
  CastToBool (sha256 (ld_wscript c)) = true ->
  has flags SCRIPT_VERIFY_P2SH = true -> has flags SCRIPT_VERIFY_WITNESS = true ->
  exists c' w, let tx := signed_with w (last_tx c') in
    master_run seed c (zip ests out) = Some (c', [tx]) /\ ld_state c' = CLOSINGD_COMPLETE /\ core_accepts flags c tx /\
    (last_tx c' = last_tx c \/ exists f, c_min_fee_to_accept i <= f /\ pays_us i f (last_tx c')) /\
    forall e, Forall (eq e) ests ->
      as_good e c (last_tx c') (last_tx c) /\
      forall sig t, Received_signature sig t ∈ out -> pays_enough e c t -> as_good e c (last_tx c') t.
Proof using Type*.
  intros C Pr Hi Ha Hm Le Hh Fp Fw. pose proof (starts_right _ _ _ _ _ _ C Pr Hi) as St.
  pose proof (spec_closing_main seed uninit i l St Ha) as Sp. unfold yields in Sp. rewrite Hm in Sp.
  destruct Sp as (before & -> & G & _). rewrite length_app in Le. cbn [length] in Le.
  destruct (exists_last (l := ests)) as (es & e1 & ->); [by intros ->; cbn in Le; lia|].
  rewrite length_app in Le. cbn [length] in Le. assert (length es = length before) as Lb by lia.
  assert (zip (es ++ [e1]) (before ++ [Closing_complete]) = zip es before ++ [(e1, Closing_complete)]) as ->
    by (by rewrite zip_with_app).
  set (run := zip es before). assert (run.*2 = before) as E2 by (apply snd_zip; lia).
  assert (run.*1 = es) as E1 by (apply fst_zip; lia). rewrite <- E2 in G.
  destruct (run_keeps seed i c run G) as (tx & sig & R & K). rewrite E2 in K.
  set (c1 := channel_set_last_tx tx sig c) in *.
  assert (countersigned c1 (last_tx c1) (last_sig c1) /\ (tx = last_tx c \/ exists f, c_min_fee_to_accept i <= f /\ pays_us i f tx)) as [Cs Kp].
  { destruct K as [[-> ->]|K]; [split; [exact (closing_last _ _ C)|by left]|].
    rewrite E2 in G. rewrite Forall_forall in G. destruct (G _ K) as (f & Lf & _ & P & Ck). split; [|right; by exists f].
    unfold peer_start_closingd in Hi. destruct (remote_shutdown_scriptpubkey c); [|done]. injection Hi as <-.
    destruct P as (Ei & _). split; [by eexists|exact Ck]. }
  destruct (last_tx_spends seed c1 flags (closing_keys _ _ C) Cs Hh Fp Fw) as (w & Es & Acc).
  exists (set_last tx sig CLOSINGD_COMPLETE c), w. cbv zeta. rewrite master_run_app, R. cbn [mbind option_bind master_run closing_msg].
  unfold peer_closing_complete.
  assert (ld_state c1 = CLOSINGD_SIGEXCHANGE) as Sc by exact (closing_state _ _ C). rewrite Sc.
  rewrite bool_decide_eq_false_2 by done. rewrite Es. cbn [mbind option_bind]. unfold channel_set_state.
  rewrite Sc, bool_decide_eq_true_2 by done. cbn [mbind option_bind].
  split; [done|]. split; [done|]. split; [exact Acc|]. split; [exact Kp|]. intros e Fe. apply Forall_app in Fe as [Fe _].
  rewrite <- E1 in Fe. destruct (run_best seed i c run e c1 [] G Fe R) as [B1 B2]. split; [exact B1|]. rewrite E2 in B2.
  intros sig' t Hin P. apply elem_of_app in Hin as [Hin|Hin%list_elem_of_singleton]; [by eapply B2|done].
Qed.
End Master.
