(* ===== verification/ClosingDemo.v ===== *)
(** * Closing a channel, run

    The closing processes of two nodes, and the master of one, executed at the group of
    scalars on a channel of a million satoshi; and a close in which the master broadcasts
    its commitment, because the fee agreed on is above that of the commitment. *)
From stdpp Require Import strings.
From S2P Require Import Prelude HtlcState Sha256 Secp Ecdsa PullPush BitcoinTx CScript Interp InterpFacts LnScript.
From S2P Require Import SigCheck ChannelSpend KeyDerive Hsm Htlc CommitTx Channeld ChanneldLocal.
From S2P Require Import Closingd ClosingSafe ClosingAgree ClosingMaster.
Local Open Scope Z_scope.

#[local] Instance input_eq_dec : EqDecision bitcoin_tx_input.
Proof. solve_decision. Defined.
#[local] Instance output_eq_dec : EqDecision bitcoin_tx_output.
Proof. solve_decision. Defined.
#[local] Instance tx_eq_dec : EqDecision bitcoin_tx.
Proof. solve_decision. Defined.

Definition arrived_b `{Secp256k1} `{!Signatures} (e : incoming) : bool :=
  match e with From_peer (Closing_signed _ fee _) => (0 <=? fee) && (fee <? 2 ^ 64) | _ => true end.

Lemma arrived_spec `{Secp256k1} `{!Signatures} l : forallb arrived_b l = true -> Forall arrived l.
Proof.
  rewrite forallb_forall. intros T. apply Forall_forall. intros e Hin. specialize (T e (proj1 (list_elem_of_In _ _) Hin)).
  destruct e as [[]|]; try done. cbn in *. unfold fits. lia.
Qed.

Module DemoClosing.
#[local] Existing Instances Scalars.ops Scalars.laws ScalarSigs.ops ScalarSigs.laws.

Definition seeds (s : side) : bytes := be_bytes 32 (match s with LOCAL => 77 | REMOTE => 78 end).
Definition uninits (s : side) : bytes := [].

(** ** The channel *)
Definition script (s : side) : bytes := 0 :: 20 :: replicate 20 (match s with LOCAL => 1 | REMOTE => 2 end).
Definition share (s : side) : Z := match s with LOCAL => 700000 | REMOTE => 300000 end.

(** Node [s]'s commitment, at a fee of 3620 satoshi. *)
Definition commitment (s : side) : bitcoin_tx :=
  BitcoinTx 2 [TxInput (replicate 32 1) 0 None 0x80000000 (Some 1000000) None]
    [TxOutput 300000 (script REMOTE); TxOutput 696380 (script LOCAL)] 0x20000000.

Section Channel.
Context (fpk : side -> pubkey) (sig : signature).

Definition demo_channel (s : side) : ld_channel :=
  LdChannel CLOSINGD_SIGEXCHANGE (replicate 32 1) 0 1000000 (fpk s) (fpk (other s)) s (share s * 1000) 546 5000
    (script s) (Some (script (other s))) (Sided 1 1) 0 (commitment s) sig.

Definition init (offer : side -> Z) (s : side) : closing_init :=
  ClosingInit (replicate 32 1) 0 1000000 (Sided (fpk s) (fpk (other s))) s (Sided (share s) (share (other s))) 546 183 3620
    (offer s) (Sided (script s) (script (other s))) false (Sided 1 1) 0 None (script s).

(** The estimates at which the master makes the first offer. *)
Definition estimates (rate : Z) : fee_estimates := FeeEstimates 253 false rate.

Lemma channel_starts s rate offer : Z.min 3620 (commit_tx_base_fee rate 0) = offer s -> rate <> 0 ->
  peer_start_closingd (estimates rate) false None (demo_channel s) = Some (init offer s).
Proof.
  intros E N. unfold peer_start_closingd, init. rewrite <- E. cbn -[commit_tx_base_fee]. rewrite (proj2 (Z.eqb_neq _ _) N).
  change (commit_tx_base_fee 5000 0) with 3620. change (commit_tx_base_fee 253 0) with 183.
  destruct (Z.ltb_spec 3620 (commit_tx_base_fee rate 0)); rewrite ?Z.min_l, ?Z.min_r by lia; by destruct s.
Qed.

Context (bps : side -> basepoints).
Context (Keys : forall s, handle_get_channel_basepoints (seeds s) = Some (Some (bps s, fpk s))).

Lemma init_started offer s : 0 <= offer s < 2 ^ 64 -> started (seeds s) (init offer s).
Proof.
  intros F. constructor; cbn [init c_funding_pubkey c_satoshi_out c_funding_satoshi c_offer c_channel_reestablish at_side on_local on_remote].
  - exists (bps s). apply Keys.
  - intros []; destruct s; cbn; lia.
  - destruct s; cbn; lia.
  - unfold fits. lia.
  - exact F.
  - discriminate.
Qed.

Lemma inits_matched offer : (forall s, 183 <= offer s <= 100000) -> matched seeds (init offer).
Proof.
  intros F. pose proof (F LOCAL). pose proof (F REMOTE). constructor; try reflexivity.
  - intros s. apply init_started. specialize (F s). lia.
  - by intros [] [].
  - by intros [] [].
  - by intros [] [].
  - intros []; cbn; lia.
  - intros []; cbn; lia.
  - intros [] []; cbn; lia.
Qed.

Lemma channel_closing : handle_sign_commitment_tx (seeds REMOTE) (commitment LOCAL) (fpk LOCAL) 1000000 = Some (Some sig) ->
  closing (seeds LOCAL) (demo_channel LOCAL).
Proof.
  intros Es. constructor; [reflexivity|exact (ex_intro _ (bps LOCAL) (Keys LOCAL))|cbn; lia|unfold fits; cbn; lia|].
  exact (countersigned_by (seeds REMOTE) (bps REMOTE) 0x80000000 (demo_channel LOCAL) (commitment LOCAL) sig (Keys REMOTE) eq_refl Es).
Qed.
End Channel.

(** Everything is derived from the seeds. *)
Definition with_keys (P : (side -> pubkey) -> signature -> bool) : bool :=
  match handle_get_channel_basepoints (seeds LOCAL), handle_get_channel_basepoints (seeds REMOTE) with
  | Some (Some (_, fL)), Some (Some (_, fR)) =>
      match handle_sign_commitment_tx (seeds REMOTE) (commitment LOCAL) fL 1000000 with
      | Some (Some sig) => P (at_side (Sided fL fR)) sig
      | _ => false
      end
  | _, _ => false
  end.

Lemma with_keys_spec P : with_keys P = true -> exists fpk sig bps,
  (forall s, handle_get_channel_basepoints (seeds s) = Some (Some (bps s, fpk s))) /\
  closing (seeds LOCAL) (demo_channel fpk sig LOCAL) /\ P fpk sig = true.
Proof.
  unfold with_keys. destruct (handle_get_channel_basepoints (seeds LOCAL)) as [[[bL fL]|]|] eqn:EL; [|discriminate|discriminate].
  destruct (handle_get_channel_basepoints (seeds REMOTE)) as [[[bR fR]|]|] eqn:ER; [|discriminate|discriminate].
  destruct (handle_sign_commitment_tx _ _ _ _) as [[sig|]|] eqn:Es; [|discriminate|discriminate]. intros T.
  exists (at_side (Sided fL fR)), sig, (at_side (Sided bL bR)).
  assert (forall s, handle_get_channel_basepoints (seeds s) = Some (Some (at_side (Sided bL bR) s, at_side (Sided fL fR) s))) as K
    by (intros []; [exact EL|exact ER]).
  split; [exact K|]. split; [exact (channel_closing _ _ _ K Es)|exact T].
Qed.

(** ** A close *)
Definition first_offers (s : side) : Z := match s with LOCAL => 724 | REMOTE => 727 end.

(** The offer that the other node sends to node [LOCAL], after a ping and its [shutdown]. *)
Definition arrives (fpk : side -> pubkey) (offer : side -> Z) : list incoming :=
  [From_peer (Raw WIRE_PING); From_peer (Shutdown (replicate 32 1) (script REMOTE))]
  ++ (From_peer <$> offer_msgs seeds (init fpk offer) REMOTE (offer REMOTE)).

Definition completes (fpk : side -> pubkey) (offer : side -> Z) (P : Z -> list closing_out -> bool) : bool :=
  forallb arrived_b (arrives fpk offer) && CastToBool (sha256 (bitcoin_redeem_2of2 (fpk LOCAL) (fpk REMOTE))) &&
  match closing_main (seeds LOCAL) [] (init fpk offer LOCAL) (arrives fpk offer) with
  | Goes fee _ out => P fee out
  | Halts _ _ => false
  end.

Lemma completes_spec fpk offer P : completes fpk offer P = true -> Forall arrived (arrives fpk offer) /\
  CastToBool (sha256 (bitcoin_redeem_2of2 (fpk LOCAL) (fpk REMOTE))) = true /\
  exists fee rest out, closing_main (seeds LOCAL) [] (init fpk offer LOCAL) (arrives fpk offer) = Goes fee rest out /\ P fee out = true.
Proof.
  unfold completes. intros [[A C]%andb_prop T]%andb_prop. split; [by apply arrived_spec|]. split; [exact C|].
  destruct (closing_main _ _ _ _) as [fee rest out|]; [|discriminate]. by exists fee, rest, out.
Qed.

Lemma close_runs : with_keys (fun fpk _ => completes fpk first_offers (fun _ _ => true)) = true.
Proof. vm_cast_no_check (@eq_refl bool true). Qed.

Lemma closing_safe_witness : exists i l fee rest before, started (seeds LOCAL) i /\ Forall arrived l /\
  closing_main (seeds LOCAL) [] i l = Goes fee rest (before ++ [Closing_complete]) /\
  Forall (good i) before /\ said i fee before /\ reported i fee before.
Proof.
  destruct (with_keys_spec _ close_runs) as (fpk & sig & bps & K & _ & T).
  destruct (completes_spec _ _ _ T) as (A & _ & fee & rest & out & E & _).
  assert (started (seeds LOCAL) (init fpk first_offers LOCAL)) as St by (apply (init_started fpk bps K); cbn; lia).
  pose proof (closing_safe (seeds LOCAL) [] (init fpk first_offers LOCAL) (arrives fpk first_offers) St A) as Sf. rewrite E in Sf.
  destruct Sf as (before & -> & G & S & R). exists (init fpk first_offers LOCAL), (arrives fpk first_offers), fee, rest, before.
  split; [exact St|]. split; [exact A|]. split; [exact E|]. split; [exact G|]. split; [exact S|exact R].
Defined.

(** Offers that are further apart. *)
Definition wide_offers (s : side) : Z := match s with LOCAL => 724 | REMOTE => 1448 end.

Lemma closing_agrees_witness : exists inits, matched seeds inits /\ c_offer (inits LOCAL) = 724 /\ c_offer (inits REMOTE) = 1448 /\
  exists fee tx, in_play inits fee /\ closing_tx inits fee tx /\
    forall s, exists out sig,
      closing_main (seeds s) (uninits s) (inits s) (From_peer <$> at_side (exchange seeds uninits inits 13) (other s))
        = Goes fee [] out /\ Received_signature sig tx ∈ out /\ signs inits (other s) tx sig.
Proof.
  destruct (with_keys_spec _ close_runs) as (fpk & sig & bps & K & _ & _). exists (init fpk wide_offers).
  assert (matched seeds (init fpk wide_offers)) as M by (apply (inits_matched fpk bps K); intros []; cbn; lia).
  split; [exact M|]. split; [reflexivity|]. split; [reflexivity|].
  apply (closing_agrees seeds uninits (init fpk wide_offers) 10 13 M); [cbn; lia|lia].
Defined.

Definition flags : Z := Z.lor SCRIPT_VERIFY_P2SH SCRIPT_VERIFY_WITNESS.

Lemma mutual_close_accepted_witness : exists c fee out c' tx, closing (seeds LOCAL) c /\
  (exists i l rest, peer_start_closingd (estimates 1000) false None c = Some i /\ closing_main (seeds LOCAL) [] i l = Goes fee rest out) /\
  master_run (seeds LOCAL) c (zip (replicate (length out) (estimates 1000)) out) = Some (c', [tx]) /\
  ld_state c' = CLOSINGD_COMPLETE /\ core_accepts flags c tx.
Proof.
  destruct (with_keys_spec _ close_runs) as (fpk & sig & bps & K & C & T).
  destruct (completes_spec _ _ _ T) as (A & H & fee & rest & out & E & _).
  pose proof (channel_starts fpk sig LOCAL 1000 first_offers eq_refl ltac:(lia)) as Hs.
  destruct (mutual_close_accepted (seeds LOCAL) [] (demo_channel fpk sig LOCAL) (estimates 1000) false None
    (init fpk first_offers LOCAL) (arrives fpk first_offers) fee rest out (replicate (length out) (estimates 1000)) flags
    C ltac:(discriminate) Hs A E ltac:(apply length_replicate) H eq_refl eq_refl) as (c' & w & R & S & Acc & _).
  exists (demo_channel fpk sig LOCAL), fee, out, c', (signed_with w (last_tx c')). split; [exact C|].
  split; [exists (init fpk first_offers LOCAL), (arrives fpk first_offers), rest; exact (conj Hs E)|].
  split; [exact R|]. split; [exact S|exact Acc].
Defined.

(** ** A fee above the commitment's *)
Definition high_offers (s : side) : Z := match s with LOCAL => 3620 | REMOTE => 3623 end.

Definition keeps_commitment (c : ld_channel) (fee : Z) (out : list closing_out) : bool :=
  (3620 <? fee) &&
  match master_run (seeds LOCAL) c (zip (replicate (length out) (estimates 5000)) out) with
  | Some (c', [tx]) => bool_decide (last_tx c' = last_tx c) && bool_decide (BitcoinTx.output tx = BitcoinTx.output (last_tx c))
  | _ => false
  end.

Lemma keeps_spec c fee out : keeps_commitment c fee out = true -> 3620 < fee /\ exists c' tx,
  master_run (seeds LOCAL) c (zip (replicate (length out) (estimates 5000)) out) = Some (c', [tx]) /\
  last_tx c' = last_tx c /\ BitcoinTx.output tx = BitcoinTx.output (last_tx c).
Proof.
  unfold keeps_commitment. intros [L Kc]%andb_prop. split; [by apply Z.ltb_lt|].
  destruct (master_run _ _ _) as [[c' [|tx [|? ?]]]|]; [discriminate| |discriminate|discriminate].
  apply andb_prop in Kc as [K1 K2]. exists c', tx.
  split; [reflexivity|]. split; [exact (bool_decide_eq_true_1 _ K1)|exact (bool_decide_eq_true_1 _ K2)].
Qed.

Lemma high_runs : with_keys (fun fpk sig => completes fpk high_offers (keeps_commitment (demo_channel fpk sig LOCAL))) = true.
Proof. vm_cast_no_check (@eq_refl bool true). Qed.

(** The process can agree on a fee above that of the commitment, which [init_feerange] means
    to be the limit. The master then finds the close transaction worse than the commitment
    it has, and completes the mutual close by broadcasting the commitment. *)
Theorem commitment_broadcast : exists c i l fee rest out c' tx,
  closing (seeds LOCAL) c /\ peer_start_closingd (estimates 5000) false None c = Some i /\ Forall arrived l /\
  closing_main (seeds LOCAL) [] i l = Goes fee rest out /\ c_commitment_fee i < fee /\
  master_run (seeds LOCAL) c (zip (replicate (length out) (estimates 5000)) out) = Some (c', [tx]) /\
  last_tx c' = last_tx c /\ BitcoinTx.output tx = BitcoinTx.output (last_tx c).
Proof.
  destruct (with_keys_spec _ high_runs) as (fpk & sig & bps & K & C & T).
  destruct (completes_spec _ _ _ T) as (A & _ & fee & rest & out & E & Kc).
  pose proof (channel_starts fpk sig LOCAL 5000 high_offers eq_refl ltac:(lia)) as Hs.
  apply keeps_spec in Kc as (L & c' & tx & R & K1 & K2).
  exists (demo_channel fpk sig LOCAL), (init fpk high_offers LOCAL), (arrives fpk high_offers), fee, rest, out, c', tx.
  split; [exact C|]. split; [exact Hs|]. split; [exact A|]. split; [exact E|]. split; [exact L|].
  split; [exact R|]. split; [exact K1|exact K2].
Qed.
End DemoClosing.
