(* ===== verification/Evm.v ===== *)
(** * Token contracts: words, mappings and the interface of a token

    What the Solidity contracts of dexfintoken and ChainBridge use of the language:
    256-bit words, mappings from addresses, and calls that either revert, which is [None]
    and undoes everything, or return. [Token] is what a token promises, and the theorems
    on sequences of calls are proved against it. *)
From stdpp Require Import gmap.
From S2P Require Import Prelude.
Local Open Scope Z_scope.

(** ** Words and mappings *)

(** [uint256] arithmetic wraps (Solidity before 0.8). *)
Definition u256 (z : Z) : Z := z mod 2 ^ 256.

Lemma u256_fits z : fits 256 (u256 z).
Proof. unfold u256, fits. apply Z.mod_pos_bound. lia. Qed.

Lemma u256_small z : fits 256 z -> u256 z = z.
Proof. apply Z.mod_small. Qed.

(** [mapping (address => uint256)]: what was never written is zero. *)
Abbreviation mapping := (gmap Z Z).
Definition at_key (m : mapping) (k : Z) : Z := default 0 (m !! k).
Definition row (m : gmap Z mapping) (k : Z) : mapping := default ∅ (m !! k).

(** [m[k][l] = v] of a mapping of mappings. *)
Definition set_at (k l v : Z) (m : gmap Z mapping) : gmap Z mapping := <[k := <[l := v]> (row m k)]> m.

Definition total (m : mapping) : Z := map_fold (fun _ v sum => v + sum) 0 m.
Definition words (m : mapping) : Prop := map_Forall (fun _ v => fits 256 v) m.

Lemma at_insert m k v : at_key (<[k := v]> m) k = v.
Proof. unfold at_key. by rewrite lookup_insert_eq. Qed.

Lemma at_insert_ne m k l v : k <> l -> at_key (<[k := v]> m) l = at_key m l.
Proof. intros N. unfold at_key. by rewrite lookup_insert_ne. Qed.

Lemma row_set m k l v : row (set_at k l v m) k = <[l := v]> (row m k).
Proof. unfold set_at, row. by rewrite lookup_insert_eq. Qed.

Lemma row_set_ne m k k' l v : k <> k' -> row (set_at k l v m) k' = row m k'.
Proof. intros N. unfold set_at, row. by rewrite lookup_insert_ne. Qed.

Lemma total_fresh m k v : m !! k = None -> total (<[k := v]> m) = v + total m.
Proof. intros E. unfold total. rewrite map_fold_insert_L; [done| |done]. intros. lia. Qed.

Lemma total_insert m k v : total (<[k := v]> m) = total m - at_key m k + v.
Proof.
  unfold at_key. destruct (m !! k) as [x|] eqn:E; cbn.
  - rewrite <- (insert_delete_id m k x E) at 2. rewrite <- (insert_delete_eq m k v), !total_fresh by apply lookup_delete_eq. lia.
  - rewrite total_fresh by done. lia.
Qed.

Lemma words_at m k : words m -> fits 256 (at_key m k).
Proof. intros W. unfold at_key. destruct (m !! k) as [x|] eqn:E; cbn; [exact (W k x E)|unfold fits; lia]. Qed.

Lemma words_insert m k v : words m -> fits 256 v -> words (<[k := v]> m).
Proof. intros. by apply map_Forall_insert_2. Qed.

Lemma total_nonneg m : words m -> 0 <= total m.
Proof.
  induction m as [|k v m E IH] using map_ind; [done|]. intros [F W]%map_Forall_insert; [|done].
  rewrite total_fresh by done. unfold fits in F. specialize (IH W). lia.
Qed.

(** One account, and two. *)
Lemma at_le_total m k : words m -> at_key m k <= total m.
Proof.
  intros W. pose proof (total_insert m k 0).
  assert (words (<[k := 0]> m)) as N%total_nonneg by (apply words_insert; [done|unfold fits; lia]). lia.
Qed.

Lemma two_le_total m k l : k <> l -> words m -> at_key m k + at_key m l <= total m.
Proof.
  intros N W. pose proof (total_insert m k 0).
  assert (words (<[k := 0]> m)) as A by (apply words_insert; [done|unfold fits; lia]).
  apply (at_le_total _ l) in A. rewrite at_insert_ne in A by done. lia.
Qed.

Lemma allow_words m k : map_Forall (fun _ => words) m -> words (row m k).
Proof. intros W. unfold row. destruct (m !! k) as [r|] eqn:E; cbn; [exact (W k r E)|apply map_Forall_empty]. Qed.

Lemma allow_set m k l v : map_Forall (fun _ => words) m -> fits 256 v -> map_Forall (fun _ => words) (set_at k l v m).
Proof. intros W F. apply map_Forall_insert_2; [|done]. apply words_insert; [|done]. by apply allow_words. Qed.

Lemma allow_total m k l v a :
  total (row (set_at k l v m) a) = total (row m a) + (if k =? a then v - at_key (row m k) l else 0).
Proof.
  destruct (Z.eqb_spec k a) as [->|N]; [rewrite row_set, total_insert; lia|rewrite row_set_ne by done; lia].
Qed.

(** [m[from] -= v; m[to] += v], when [from] has it: nothing wraps. *)
Section Moves.
Context (m : mapping) (from to v : Z) (W : words m) (T : fits 256 (total m)).
Context (V : 0 <= v <= at_key m from).

Let m1 : mapping := <[from := u256 (at_key m from - v)]> m.

Lemma moved_sub : u256 (at_key m from - v) = at_key m from - v.
Proof using W T V. pose proof (words_at m from W). unfold fits in *. apply u256_small. unfold fits. lia. Qed.

Lemma moved_room : fits 256 (at_key m1 to + v).
Proof using W T V.
  unfold m1. rewrite moved_sub. pose proof (words_at m from W). unfold fits in *. destruct (decide (from = to)) as [->|N].
  - rewrite at_insert. lia.
  - rewrite at_insert_ne by done. pose proof (two_le_total m from to N W). pose proof (words_at m to W). unfold fits in *. lia.
Qed.

Lemma moved_at a : at_key (<[to := u256 (at_key m1 to + v)]> m1) a
  = at_key m a - (if from =? a then v else 0) + (if to =? a then v else 0).
Proof using W T V.
  rewrite (u256_small _ moved_room). unfold m1. rewrite moved_sub.
  destruct (Z.eqb_spec to a) as [->|N1]; [rewrite at_insert|rewrite at_insert_ne by done];
    (destruct (Z.eqb_spec from a) as [->|N2]; [rewrite at_insert|rewrite at_insert_ne by done]); lia.
Qed.

Lemma moved_total : total (<[to := u256 (at_key m1 to + v)]> m1) = total m.
Proof using W T V. rewrite (u256_small _ moved_room), total_insert. unfold m1. rewrite moved_sub, total_insert. lia. Qed.

Lemma moved_words : words (<[to := u256 (at_key m1 to + v)]> m1).
Proof using W. apply words_insert; [apply words_insert; [done|]|]; apply u256_fits. Qed.
End Moves.

(** [b[from] -= v; b[to] += v]. *)
Definition moves (from to v : Z) (b : mapping) : mapping :=
  let b1 : mapping := <[from := u256 (at_key b from - v)]> b in <[to := u256 (at_key b1 to + v)]> b1.

(** ** What a token promises *)
Class Token (S C : Type) := {
  run_call : Z -> C -> S -> option S;
  callers : Z -> C -> list Z;
  holdings : S -> mapping;
  supply : S -> Z;
  allowances : S -> gmap Z mapping
}.

(** [run_call sender c s] is a call of the account [sender]; [callers] are the accounts that
    make a call in its course. *)
Section Interface.
Context {S C : Type} `{Token S C}.

(** Every stored value is a word. *)
Definition well_typed (s : S) : Prop :=
  fits 256 (supply s) /\ words (holdings s) /\ map_Forall (fun _ => words) (allowances s).

Definition backed (s : S) : Prop := well_typed s /\ total (holdings s) = supply s.

(** What an account holds beyond what it lets others spend. *)
Definition free (s : S) (a : Z) : Z := at_key (holdings s) a - total (row (allowances s) a).

(** Calls that revert have no effect. *)
Definition run_calls (l : list (Z * C)) (s : S) : S :=
  foldl (fun s '(sender, c) => default s (run_call sender c s)) s l.

(** A call in whose course only [who] act leaves the tokens backed and takes
    from the others no more than they let it. *)
Definition respects (who : list Z) (s s' : S) : Prop :=
  backed s' /\ forall a, a ∉ who -> free s a <= free s' a.

Lemma respects_refl who s : backed s -> respects who s s.
Proof. by intros B. Qed.

Lemma respects_trans who who' s s1 s2 : respects who s s1 -> respects who' s1 s2 -> respects (who ++ who') s s2.
Proof.
  intros (B1 & F1) (B2 & F2). split; [done|]. intros a N. rewrite elem_of_app in N.
  etransitivity; [apply F1|apply F2]; tauto.
Qed.

(** [sender] may take [v] from an account: it is its own, or it uses its allowance. *)
Definition takes (sender from v : Z) (s s' : S) : Prop :=
  (from = sender /\ allowances s' = allowances s) \/
  (v <= at_key (row (allowances s) from) sender /\
   allowances s' = set_at from sender (u256 (at_key (row (allowances s) from) sender - v)) (allowances s)).

Lemma takes_words sender from v s s' : takes sender from v s s' -> map_Forall (fun _ => words) (allowances s) ->
  map_Forall (fun _ => words) (allowances s').
Proof. intros [[_ ->]|[_ ->]] A; [done|]. apply allow_set; [done|apply u256_fits]. Qed.

(** It takes as much from the allowance, if the account is not its own. *)
Lemma takes_free sender from v s s' a : takes sender from v s s' -> map_Forall (fun _ => words) (allowances s) -> 0 <= v ->
  a <> sender -> total (row (allowances s') a) = total (row (allowances s) a) - (if from =? a then v else 0).
Proof.
  intros [[-> ->]|[L ->]] A V N; [destruct (Z.eqb_spec sender a); [done|lia]|]. rewrite allow_total.
  pose proof (words_at _ sender (allow_words _ from A)) as Wa. unfold fits in Wa.
  rewrite (u256_small (_ - v)) by (unfold fits; lia). destruct (from =? a); lia.
Qed.

Lemma respects_moves sender from to v s s' : backed s -> 0 <= v <= at_key (holdings s) from ->
  takes sender from v s s' -> supply s' = supply s -> holdings s' = moves from to v (holdings s) ->
  respects [sender] s s'.
Proof.
  intros ((F & W & A) & T) V Tk Es Eb.
  assert (fits 256 (total (holdings s))) as Ft by by rewrite T.
  split; [|intros a N%not_elem_of_cons; destruct N as [N _]].
  - split; [split; [|split]|]; rewrite ?Es, ?Eb; [done|by apply moved_words|by eapply takes_words|].
    unfold moves. by rewrite (moved_total _ from to v W Ft V).
  - unfold free. rewrite Eb, (takes_free _ _ _ _ _ _ Tk A (proj1 V) N). unfold moves.
    rewrite (moved_at _ from to v W Ft V). destruct (to =? a); lia.
Qed.

Lemma respects_burns sender from v s s' : backed s -> 0 <= v <= at_key (holdings s) from ->
  takes sender from v s s' -> supply s' = u256 (supply s - v) ->
  holdings s' = <[from := u256 (at_key (holdings s) from - v)]> (holdings s) -> respects [sender] s s'.
Proof.
  intros ((F & W & A) & T) V Tk Es Eb.
  assert (fits 256 (total (holdings s))) as Ft by by rewrite T.
  pose proof (at_le_total _ from W). pose proof (words_at _ from W) as Wf. unfold fits in F, Wf.
  rewrite u256_small in Es by (unfold fits; lia). rewrite u256_small in Eb by (unfold fits; lia).
  split; [|intros a N%not_elem_of_cons; destruct N as [N _]].
  - split; [split; [|split]|]; rewrite ?Es, ?Eb; [unfold fits; lia| |by eapply takes_words|rewrite total_insert; lia].
    apply words_insert; [done|unfold fits; lia].
  - unfold free. rewrite Eb, (takes_free _ _ _ _ _ _ Tk A (proj1 V) N).
    destruct (Z.eqb_spec from a) as [->|]; [rewrite at_insert|rewrite at_insert_ne by done]; lia.
Qed.

(** [_amount] new tokens for an account. *)
Lemma respects_mints who to v s s' : backed s -> fits 256 (supply s + v) -> 0 <= v -> allowances s' = allowances s ->
  supply s' = supply s + v -> holdings s' = <[to := u256 (at_key (holdings s) to + v)]> (holdings s) -> respects who s s'.
Proof.
  intros ((F & W & A) & T) R V Ea Es Eb. pose proof (at_le_total _ to W). pose proof (words_at _ to W) as Wt.
  unfold fits in *. rewrite u256_small in Eb by (unfold fits; lia). split; [|intros a _].
  - split; [split; [|split]|]; rewrite ?Es, ?Eb, ?Ea; [done| |done|rewrite total_insert; lia].
    apply words_insert; [done|unfold fits; lia].
  - unfold free. rewrite Eb, Ea. destruct (decide (to = a)) as [->|]; [rewrite at_insert|rewrite at_insert_ne by done]; lia.
Qed.

Lemma respects_approves sender spender v s s' : backed s -> fits 256 v ->
  allowances s' = set_at sender spender v (allowances s) -> supply s' = supply s -> holdings s' = holdings s ->
  respects [sender] s s'.
Proof.
  intros ((F & W & A) & T) V Ea Es Eb. split; [|intros a N%not_elem_of_cons; destruct N as [N _]].
  - split; [split; [|split]|]; rewrite ?Es, ?Eb, ?Ea; try done. by apply allow_set.
  - unfold free. by rewrite Eb, Ea, row_set_ne.
Qed.

(** Nothing of the token's changes. *)
Lemma respects_same who s s' : backed s -> allowances s' = allowances s -> supply s' = supply s ->
  holdings s' = holdings s -> respects who s s'.
Proof.
  intros B Ea Es Eb. split; [|intros a _; unfold free; by rewrite Eb, Ea].
  unfold backed, well_typed. rewrite Ea, Es, Eb. exact B.
Qed.
End Interface.

Class TokenLaws (S C : Type) `{Token S C} := {
  call_respects (s s' : S) sender c : backed s -> run_call sender c s = Some s' -> respects (callers sender c) s s'
}.

Section Calls.
Context {S C : Type} `{TokenLaws S C}.

Lemma calls_backed l (s : S) : backed s -> backed (run_calls l s).
Proof.
  revert s. induction l as [|[x c] l IH]; intros s B; cbn; [done|]. apply IH.
  destruct (run_call x c s) eqn:E; cbn; [exact (proj1 (call_respects _ _ _ _ B E))|done].
Qed.

Lemma calls_spend l (s : S) a : backed s -> Forall (fun x => a ∉ callers x.1 x.2) l -> free s a <= free (run_calls l s) a.
Proof.
  revert s. induction l as [|[x c] l IH]; intros s B F; cbn; [done|]. apply Forall_cons in F as [F Fs].
  destruct (run_call x c s) as [s'|] eqn:E; cbn; [|by apply IH].
  etransitivity; [exact (proj2 (call_respects _ _ _ _ B E) a F)|].
  apply IH; [exact (proj1 (call_respects _ _ _ _ B E))|done].
Qed.

(** An account that makes no call keeps what it does not let others spend. *)
Lemma calls_keep l (s : S) a : backed s -> Forall (fun x => a ∉ callers x.1 x.2) l ->
  at_key (holdings s) a - total (row (allowances s) a) <= at_key (holdings (run_calls l s)) a.
Proof.
  intros B F. pose proof (calls_spend l s a B F) as L. unfold free in L.
  pose proof (total_nonneg _ (allow_words _ a (proj2 (proj2 (proj1 (calls_backed l s B)))))). lia.
Qed.
End Calls.
