(* ===== verification/DxfToken.v ===== *)
(** * The DXF token

    src/dexfintoken/DXFToken.sol. [call] is a call from outside; the contract that
    [approveAndCall] notifies is not known, so what it does is a part of the call: it
    reverts, or it makes calls of its own to the token, which can fail and can nest. *)
From stdpp Require Import gmap strings.
From S2P Require Import Prelude Evm.
Local Open Scope Z_scope.

Module DXFToken.

Record state := State {
  name : string;
  symbol : string;
  decimals : Z;
  totalSupply : Z;
  balanceOf : mapping;
  allowance : gmap Z mapping
}.

Inductive event := Transfer (from to value : Z) | Approval (owner spender value : Z) | Burn (from value : Z).

Abbreviation result := (option (state * list event)).

Definition set_balances (b : mapping) (s : state) : state :=
  State (name s) (symbol s) (decimals s) (totalSupply s) b (allowance s).
Definition set_allowance (owner spender v : Z) (s : state) : state :=
  State (name s) (symbol s) (decimals s) (totalSupply s) (balanceOf s) (set_at owner spender v (allowance s)).
Definition set_supply (v : Z) (s : state) : state :=
  State (name s) (symbol s) (decimals s) v (balanceOf s) (allowance s).

Definition constructor (sender : Z) : state :=
  let decimals := 18 in
  let totalSupply := u256 (210000000 * 10 ^ decimals) in
  State "DEXFin" "DXF" decimals totalSupply {[sender := totalSupply]} ∅.

(** [require] and [assert] revert. *)
Definition _transfer (_from _to _value : Z) (s : state) : result :=
  let b := balanceOf s in
  assert! negb (_to =? 0);
  assert! _value <=? at_key b _from;
  assert! at_key b _to <=? u256 (at_key b _to + _value);
  let previousBalances := u256 (at_key b _from + at_key b _to) in
  let b := <[_from := u256 (at_key b _from - _value)]> b in
  let b := <[_to := u256 (at_key b _to + _value)]> b in
  assert! u256 (at_key b _from + at_key b _to) =? previousBalances;
  Some (set_balances b s, [Transfer _from _to _value]).

Definition transfer (sender _to _value : Z) (s : state) : result := _transfer sender _to _value s.

Definition transferFrom (sender _from _to _value : Z) (s : state) : result :=
  let allowed := at_key (row (allowance s) _from) sender in
  assert! _value <=? allowed;
  _transfer _from _to _value (set_allowance _from sender (u256 (allowed - _value)) s).

Definition approve (sender _spender _value : Z) (s : state) : result :=
  Some (set_allowance sender _spender _value s, [Approval sender _spender _value]).

Definition approveAndCall (receiveApproval : state -> result) (sender _spender _value : Z) (s : state) : result :=
  '(s, events) ← approve sender _spender _value s;
  '(s, more) ← receiveApproval s;
  Some (s, events ++ more).

Definition burn (sender _value : Z) (s : state) : result :=
  let b := balanceOf s in
  assert! _value <=? at_key b sender;
  Some (set_supply (u256 (totalSupply s - _value)) (set_balances (<[sender := u256 (at_key b sender - _value)]> b) s),
        [Burn sender _value]).

Definition burnFrom (sender _from _value : Z) (s : state) : result :=
  let b := balanceOf s in
  let allowed := at_key (row (allowance s) _from) sender in
  assert! _value <=? at_key b _from;
  assert! _value <=? allowed;
  Some (set_supply (u256 (totalSupply s - _value))
          (set_allowance _from sender (u256 (allowed - _value)) (set_balances (<[_from := u256 (at_key b _from - _value)]> b) s)),
        [Burn _from _value]).

(** Arguments are words. *)
Inductive call :=
  | CTransfer (to value : Z)
  | CTransferFrom (from to value : Z)
  | CApprove (spender value : Z)
  | CApproveAndCall (spender value : Z) (recipient : option (list (Z * call)))
  | CBurn (value : Z)
  | CBurnFrom (from value : Z).

Fixpoint exec (sender : Z) (c : call) (s : state) : result :=
  match c with
  | CTransfer to value => transfer sender to (u256 value) s
  | CTransferFrom from to value => transferFrom sender from to (u256 value) s
  | CApprove spender value => approve sender spender (u256 value) s
  | CApproveAndCall spender value recipient =>
      let receive := match recipient with
        | None => fun _ => None
        | Some l => (fix receive (l : list (Z * call)) (s : state) : result :=
            match l with
            | [] => Some (s, [])
            | (x, c) :: l =>
                let '(s, events) := default (s, []) (exec x c s) in
                '(s, more) ← receive l s;
                Some (s, events ++ more)
            end) l
        end in
      approveAndCall receive sender spender (u256 value) s
  | CBurn value => burn sender (u256 value) s
  | CBurnFrom from value => burnFrom sender from (u256 value) s
  end.

(** Who makes a call in the course of [c]. *)
Fixpoint calling (sender : Z) (c : call) : list Z :=
  sender :: match c with
  | CApproveAndCall _ _ (Some l) =>
      (fix inner (l : list (Z * call)) : list Z := match l with [] => [] | (x, c) :: l => calling x c ++ inner l end) l
  | _ => []
  end.

#[global] Instance dxf_token : Token state call := {|
  run_call sender c s := fst <$> exec sender c s;
  callers := calling; holdings := balanceOf; supply := totalSupply; allowances := allowance
|}.

(** ** What each operation does *)

Lemma _transfer_done _from _to _value s s' events : _transfer _from _to _value s = Some (s', events) ->
  _to <> 0 /\ _value <= at_key (balanceOf s) _from /\ s' = set_balances (moves _from _to _value (balanceOf s)) s /\
  events = [Transfer _from _to _value].
Proof.
  unfold _transfer. destruct (Z.eqb_spec _to 0) as [|N]; [done|]. cbn [negb].
  destruct (Z.leb_spec _value (at_key (balanceOf s) _from)) as [L|L]; [|done].
  destruct (at_key (balanceOf s) _to <=? _); [|done]. destruct (u256 _ =? _); [|done]. by intros [= <- <-].
Qed.

(** The checks for overflow and the assertion never fail: a transfer needs a recipient and
    the amount. *)
Lemma _transfer_spec _from _to _value s : backed s -> totalSupply s < 2 ^ 255 -> 0 <= _value ->
  _transfer _from _to _value s
  = if negb (_to =? 0) && (_value <=? at_key (balanceOf s) _from)
    then Some (set_balances (moves _from _to _value (balanceOf s)) s, [Transfer _from _to _value]) else None.
Proof.
  intros ((F & W & _) & T) Small V. cbn [holdings supply dxf_token] in *. unfold _transfer.
  destruct (_to =? 0); [done|]. cbn [negb andb].
  destruct (Z.leb_spec _value (at_key (balanceOf s) _from)) as [L|L]; [|done]. rewrite <- T in F, Small.
  pose proof (words_at _ _from W) as Wf. pose proof (words_at _ _to W) as Wt.
  pose proof (at_le_total _ _from W). pose proof (at_le_total _ _to W). unfold fits in Wf, Wt.
  rewrite (u256_small (at_key (balanceOf s) _to + _value)) by (unfold fits; lia).
  destruct (Z.leb_spec (at_key (balanceOf s) _to) (at_key (balanceOf s) _to + _value)) as [_|]; [|lia].
  rewrite !(moved_at _ _from _to _value W F (conj V L)), !Z.eqb_refl, (Z.eqb_sym _to _from).
  destruct (Z.eqb_spec _from _to) as [->|N].
  - replace (_ + _) with (at_key (balanceOf s) _to + at_key (balanceOf s) _to) by lia. by rewrite Z.eqb_refl.
  - replace (_ + _) with (at_key (balanceOf s) _from + at_key (balanceOf s) _to) by lia. by rewrite Z.eqb_refl.
Qed.

(** ** The laws of a token *)

(** The calls that the contract notified by [approveAndCall] makes. *)
Fixpoint receives (l : list (Z * call)) (s : state) : result :=
  match l with
  | [] => Some (s, [])
  | (x, c) :: l =>
      let '(s, events) := default (s, []) (exec x c s) in
      '(s, more) ← receives l s;
      Some (s, events ++ more)
  end.

Lemma exec_approve_and_call sender spender value l s :
  exec sender (CApproveAndCall spender value (Some l)) s = approveAndCall (receives l) sender spender (u256 value) s.
Proof. reflexivity. Qed.

Lemma calling_approve_and_call sender spender value l :
  calling sender (CApproveAndCall spender value (Some l)) = sender :: concat ((fun y => calling y.1 y.2) <$> l).
Proof. cbn. f_equal. induction l as [|[x c] l IH]; cbn; [done|]. by rewrite IH. Qed.

(** Induction over the nested calls. *)
Section CallInduction.
Context (P : call -> Prop) (Ptransfer : forall to v, P (CTransfer to v))
  (Pfrom : forall from to v, P (CTransferFrom from to v)) (Papprove : forall sp v, P (CApprove sp v))
  (Pcall : forall sp v l, Forall (fun y => P y.2) (default [] l) -> P (CApproveAndCall sp v l))
  (Pburn : forall v, P (CBurn v)) (Pburn_from : forall from v, P (CBurnFrom from v)).

Fixpoint call_nested_ind (c : call) : P c :=
  match c with
  | CTransfer to v => Ptransfer to v
  | CTransferFrom from to v => Pfrom from to v
  | CApprove sp v => Papprove sp v
  | CApproveAndCall sp v None => Pcall sp v None (Forall_nil_2 _)
  | CApproveAndCall sp v (Some l) =>
      Pcall sp v (Some l) ((fix all (l : list (Z * call)) : Forall (fun y => P y.2) l :=
        match l with [] => Forall_nil_2 _ | y :: l => Forall_cons_2 _ _ _ (call_nested_ind y.2) (all l) end) l)
  | CBurn v => Pburn v
  | CBurnFrom from v => Pburn_from from v
  end.
End CallInduction.

(** A call respects the other accounts, and creates no tokens. *)
Definition keeps (who : list Z) (s s' : state) : Prop := respects who s s' /\ totalSupply s' <= totalSupply s.

Lemma transfer_keeps sender from to v s s0 s' events : backed s -> 0 <= v ->
  takes sender from v s s0 -> totalSupply s0 = totalSupply s -> balanceOf s0 = balanceOf s ->
  _transfer from to v s0 = Some (s', events) -> keeps [sender] s s'.
Proof.
  intros B V Tk Es Eb D. apply _transfer_done in D as (_ & L & -> & _). rewrite Eb in L. split; [|cbn; lia].
  apply (respects_moves sender from to v); try done. cbn. by rewrite Eb.
Qed.

Lemma burn_keeps sender from v s s' : backed s -> 0 <= v <= at_key (balanceOf s) from -> takes sender from v s s' ->
  totalSupply s' = u256 (totalSupply s - v) -> balanceOf s' = <[from := u256 (at_key (balanceOf s) from - v)]> (balanceOf s) ->
  keeps [sender] s s'.
Proof.
  intros B V Tk Es Eb. split; [by apply (respects_burns sender from v)|]. destruct B as ((F & W & _) & T). cbn in *.
  pose proof (at_le_total _ from W). unfold fits in F. rewrite Es, u256_small by (unfold fits; lia). lia.
Qed.

Lemma receives_keep l s s' events :
  Forall (fun y => forall x s s' ev, backed s -> exec x y.2 s = Some (s', ev) -> keeps (calling x y.2) s s') l ->
  backed s -> receives l s = Some (s', events) -> keeps (concat ((fun y => calling y.1 y.2) <$> l)) s s'.
Proof.
  revert s events. induction l as [|[x c] l IH]; intros s events F B; cbn.
  - intros [= <- _]. split; [by apply respects_refl|lia].
  - apply Forall_cons in F as [F Fs]. destruct (exec x c s) as [[s1 ev]|] eqn:E; cbn.
    + destruct (F x s s1 ev B E) as [R1 L1]. destruct (receives l s1) as [[s2 more]|] eqn:El; [|done]. cbn. intros [= <- _].
      destruct (IH s1 more Fs (proj1 R1) El) as [R2 L2]. split; [by eapply respects_trans|lia].
    + destruct (receives l s) as [[s2 more]|] eqn:El; [|done]. cbn. intros [= <- _].
      destruct (IH s more Fs B El) as [R2 L2]. split; [|done].
      by apply (respects_trans _ _ _ s); [apply respects_refl|].
Qed.

Lemma exec_keeps c : forall sender s s' events, backed s -> exec sender c s = Some (s', events) -> keeps (calling sender c) s s'.
Proof.
  induction c as [to v|from to v|sp v|sp v l IH|v|from v] using call_nested_ind; intros sender s s' events B;
    pose proof (u256_fits v) as V.
  - cbn. apply (transfer_keeps sender sender to (u256 v) s s); try done; [apply V|by left].
  - cbn. unfold transferFrom. destruct (Z.leb_spec (u256 v) (at_key (row (allowance s) from) sender)) as [L|]; [|done].
    eapply transfer_keeps; try done; [apply V|by right].
  - cbn. intros [= <- _]. split; [by apply (respects_approves sender sp (u256 v))|done].
  - destruct l as [l|]; [|done]. rewrite exec_approve_and_call, calling_approve_and_call. unfold approveAndCall. cbn.
    destruct (receives l _) as [[s2 more]|] eqn:El; [|done]. cbn. intros [= <- _].
    assert (respects [sender] s (set_allowance sender sp (u256 v) s)) as R by (by apply (respects_approves sender sp (u256 v))).
    destruct (receives_keep l _ _ _ IH (proj1 R) El) as [R2 L2]. split; [|done].
    by apply (respects_trans [sender] _ _ _ _ R).
  - cbn. unfold burn. destruct (Z.leb_spec (u256 v) (at_key (balanceOf s) sender)) as [L|]; [|done]. intros [= <- _].
    apply (burn_keeps sender sender (u256 v)); try done; [split; [apply V|done]|by left].
  - cbn. unfold burnFrom. destruct (Z.leb_spec (u256 v) (at_key (balanceOf s) from)) as [L|]; [|done].
    destruct (Z.leb_spec (u256 v) (at_key (row (allowance s) from) sender)) as [L'|]; [|done]. intros [= <- _].
    apply (burn_keeps sender from (u256 v)); try done; [split; [apply V|done]|by right].
Qed.

#[global, refine] Instance dxf_laws : TokenLaws state call := {}.
Proof.
  intros s s' sender c B E. cbn in E. destruct (exec sender c s) as [[s1 ev]|] eqn:Ex; [|done]. injection E as <-.
  exact (proj1 (exec_keeps c sender s _ ev B Ex)).
Qed.

(** ** From the constructor on *)
Lemma dxf_constructed creator : backed (constructor creator).
Proof.
  split; [split; [|split]|].
  - apply u256_fits.
  - cbn. apply words_insert; [apply map_Forall_empty|apply u256_fits].
  - apply map_Forall_empty.
  - cbn. rewrite <- insert_empty, total_insert. done.
Qed.

Lemma calls_supply l s : backed s -> totalSupply (run_calls l s) <= totalSupply s.
Proof.
  revert s. induction l as [|[x c] l IH]; intros s B; cbn; [done|].
  destruct (exec x c s) as [[s' ev]|] eqn:E; cbn; [|by apply IH].
  destruct (exec_keeps c x s s' ev B E) as [R L]. etransitivity; [by apply IH, R|done].
Qed.
End DXFToken.
