(* ===== verification/BridgeToken.v ===== *)
(** * The contracts of the bridge

    src/ChainBridge/leth/contracts: [SafeMath], the ERC 20 token of lib/StandardToken.sol,
    [BridgeableToken], which burns tokens that leave for another chain and mints those that
    arrive, [Bridge], which does the same with ether, and [BridgeSafe]. *)
From stdpp Require Import gmap.
From S2P Require Import Prelude Evm.
Local Open Scope Z_scope.

(** ** lib/SafeMath.sol *)
Module SafeMath.
Definition mul (_a _b : Z) : option Z :=
  if _a =? 0 then Some 0
  else
    let c := u256 (_a * _b) in
    assert! c / _a =? _b;
    Some c.

Definition div (_a _b : Z) : option Z :=
  assert! 0 <? _b;
  Some (_a / _b).

Definition sub (_a _b : Z) : option Z :=
  assert! _b <=? _a;
  Some (u256 (_a - _b)).

Definition add (_a _b : Z) : option Z :=
  let c := u256 (_a + _b) in
  assert! _a <=? c;
  Some c.

Definition mod_ (a b : Z) : option Z :=
  assert! negb (b =? 0);
  Some (a mod b).

Section Correct.
Context (a b : Z) (A : fits 256 a) (B : fits 256 b).

(** Each is the operation on integers, and reverts when the result is not a word. *)
Lemma add_spec : add a b = if a + b <? 2 ^ 256 then Some (a + b) else None.
Proof using A B.
  unfold add, fits in *. destruct (Z.ltb_spec (a + b) (2 ^ 256)) as [L|L].
  - rewrite u256_small by (unfold fits; lia). by destruct (Z.leb_spec a (a + b)); [|lia].
  - assert (u256 (a + b) = a + b - 2 ^ 256) as -> by (unfold u256; symmetry; apply (Z.mod_unique _ _ 1); lia).
    by destruct (Z.leb_spec a (a + b - 2 ^ 256)); [lia|].
Qed.

Lemma sub_spec : sub a b = if b <=? a then Some (a - b) else None.
Proof using A B.
  unfold sub, fits in *. destruct (Z.leb_spec b a); [|done]. rewrite u256_small by (unfold fits; lia). done.
Qed.

Lemma mul_spec : mul a b = if a * b <? 2 ^ 256 then Some (a * b) else None.
Proof using A B.
  unfold mul, fits in *. destruct (Z.eqb_spec a 0) as [->|N]; [done|]. destruct (Z.ltb_spec (a * b) (2 ^ 256)) as [L|L].
  - rewrite u256_small by (unfold fits; lia). rewrite Z.mul_comm, Z.div_mul by lia. by rewrite Z.eqb_refl.
  - destruct (Z.eqb_spec (u256 (a * b) / a) b) as [E|]; [|done]. exfalso.
    pose proof (u256_fits (a * b)) as [_ U]. pose proof (Z.mul_div_le (u256 (a * b)) a ltac:(lia)). rewrite E in *. lia.
Qed.
End Correct.
End SafeMath.

(** ** lib/StandardToken.sol *)
Module StandardToken.
Record state := State {
  balances : mapping;
  allowed : gmap Z mapping;
  totalSupply_ : Z
}.

Inductive event := Transfer (from to value : Z) | Approval (owner spender value : Z).

Abbreviation result := (option (state * list event)).

Definition set_balances (b : mapping) (s : state) : state := State b (allowed s) (totalSupply_ s).
Definition set_allowed (owner spender v : Z) (s : state) : state :=
  State (balances s) (set_at owner spender v (allowed s)) (totalSupply_ s).
Definition set_supply (v : Z) (s : state) : state := State (balances s) (allowed s) v.

Definition totalSupply (s : state) : Z := totalSupply_ s.
Definition balanceOf (s : state) (_owner : Z) : Z := at_key (balances s) _owner.
Definition allowance (s : state) (_owner _spender : Z) : Z := at_key (row (allowed s) _owner) _spender.

(** [balances[k] = balances[k].sub(v)], and the same with [add]. *)
Definition sub_balance (k v : Z) (s : state) : option state :=
  x ← SafeMath.sub (balanceOf s k) v; Some (set_balances (<[k := x]> (balances s)) s).
Definition add_balance (k v : Z) (s : state) : option state :=
  x ← SafeMath.add (balanceOf s k) v; Some (set_balances (<[k := x]> (balances s)) s).

Definition transfer (sender _to _value : Z) (s : state) : result :=
  assert! _value <=? balanceOf s sender;
  assert! negb (_to =? 0);
  s ← sub_balance sender _value s;
  s ← add_balance _to _value s;
  Some (s, [Transfer sender _to _value]).

Definition approve (sender _spender _value : Z) (s : state) : result :=
  Some (set_allowed sender _spender _value s, [Approval sender _spender _value]).

Definition transferFrom (sender _from _to _value : Z) (s : state) : result :=
  assert! _value <=? balanceOf s _from;
  assert! _value <=? allowance s _from sender;
  assert! negb (_to =? 0);
  s ← sub_balance _from _value s;
  s ← add_balance _to _value s;
  x ← SafeMath.sub (allowance s _from sender) _value;
  Some (set_allowed _from sender x s, [Transfer _from _to _value]).

Definition increaseApproval (sender _spender _addedValue : Z) (s : state) : result :=
  x ← SafeMath.add (allowance s sender _spender) _addedValue;
  Some (set_allowed sender _spender x s, [Approval sender _spender x]).

Definition decreaseApproval (sender _spender _subtractedValue : Z) (s : state) : result :=
  let oldValue := allowance s sender _spender in
  x ← (if oldValue <=? _subtractedValue then Some 0 else SafeMath.sub oldValue _subtractedValue);
  Some (set_allowed sender _spender x s, [Approval sender _spender x]).

Definition _mint (_account _amount : Z) (s : state) : result :=
  assert! negb (_account =? 0);
  x ← SafeMath.add (totalSupply_ s) _amount;
  s ← add_balance _account _amount (set_supply x s);
  Some (s, [Transfer 0 _account _amount]).

Definition _burn (_account _amount : Z) (s : state) : result :=
  assert! negb (_account =? 0);
  assert! _amount <=? balanceOf s _account;
  x ← SafeMath.sub (totalSupply_ s) _amount;
  s ← sub_balance _account _amount (set_supply x s);
  Some (s, [Transfer _account 0 _amount]).

Definition _burnFrom (sender _account _amount : Z) (s : state) : result :=
  assert! _amount <=? allowance s _account sender;
  x ← SafeMath.sub (allowance s _account sender) _amount;
  _burn _account _amount (set_allowed _account sender x s).
End StandardToken.

(** ** BridgeableToken.sol *)
Module BridgeableToken.
Import StandardToken.

Record state := State {
  token : StandardToken.state;
  owner : Z;
  bridge : Z
}.

Inductive event :=
  | Erc20 (e : StandardToken.event)
  | Deposit (recipient value toChain : Z)
  | Withdraw (recipient value fromChain : Z).

Abbreviation result := (option (state * list event)).

(** A function of [StandardToken], inherited. *)
Definition inherited (f : StandardToken.state -> StandardToken.result) (s : state) : result :=
  '(t, events) ← f (token s); Some (State t (owner s) (bridge s), map Erc20 events).

Definition constructor (sender : Z) : result :=
  let initialSupply := u256 (33 ^ 18) in
  inherited (_mint sender initialSupply) (State (StandardToken.State ∅ ∅ 0) sender sender).

Definition setBridge (sender _addr : Z) (s : state) : result :=
  assert! sender =? owner s;
  Some (State (token s) (owner s) _addr, []).

Definition deposit (sender _recipient _value _toChain : Z) (s : state) : result :=
  '(s, events) ← inherited (_burn sender _value) s;
  Some (s, events ++ [Deposit _recipient _value _toChain]).

Definition withdraw (sender _recipient _value _fromChain : Z) (s : state) : result :=
  assert! sender =? bridge s;
  '(s, events) ← inherited (_mint _recipient _value) s;
  Some (s, events ++ [Withdraw _recipient _value _fromChain]).

(** Arguments are words. *)
Inductive call :=
  | CTransfer (to value : Z)
  | CApprove (spender value : Z)
  | CTransferFrom (from to value : Z)
  | CIncreaseApproval (spender value : Z)
  | CDecreaseApproval (spender value : Z)
  | CSetBridge (addr : Z)
  | CDeposit (recipient value toChain : Z)
  | CWithdraw (recipient value fromChain : Z).

Definition exec (sender : Z) (c : call) (s : state) : result :=
  match c with
  | CTransfer to value => inherited (transfer sender to (u256 value)) s
  | CApprove spender value => inherited (approve sender spender (u256 value)) s
  | CTransferFrom from to value => inherited (transferFrom sender from to (u256 value)) s
  | CIncreaseApproval spender value => inherited (increaseApproval sender spender (u256 value)) s
  | CDecreaseApproval spender value => inherited (decreaseApproval sender spender (u256 value)) s
  | CSetBridge addr => setBridge sender addr s
  | CDeposit recipient value toChain => deposit sender recipient (u256 value) (u256 toChain) s
  | CWithdraw recipient value fromChain => withdraw sender recipient (u256 value) (u256 fromChain) s
  end.

#[global] Instance bridgeable_token : Token state call := {|
  run_call sender c s := fst <$> exec sender c s;
  callers sender _ := [sender];
  holdings s := balances (token s); supply s := totalSupply_ (token s); allowances s := allowed (token s)
|}.

(** ** The laws of a token *)

Lemma inherited_done f s s' events : inherited f s = Some (s', events) ->
  exists t ev, f (token s) = Some (t, ev) /\ s' = State t (owner s) (bridge s) /\ events = map Erc20 ev.
Proof. unfold inherited. destruct (f (token s)) as [[t ev]|]; [|done]. intros [= <- <-]. by exists t, ev. Qed.

Lemma add_done a b c : SafeMath.add a b = Some c -> c = u256 (a + b).
Proof. unfold SafeMath.add. destruct (a <=? _); [|done]. by intros [= <-]. Qed.

Lemma sub_done a b c : SafeMath.sub a b = Some c -> b <= a /\ c = u256 (a - b).
Proof. unfold SafeMath.sub. destruct (Z.leb_spec b a); [|done]. by intros [= <-]. Qed.

(** Moving a balance. *)
Lemma move_done from to v t t1 t2 : sub_balance from v t = Some t1 -> add_balance to v t1 = Some t2 ->
  v <= balanceOf t from /\ t2 = StandardToken.State (moves from to v (balances t)) (allowed t) (totalSupply_ t).
Proof.
  unfold sub_balance, add_balance. destruct (SafeMath.sub _ _) as [x|] eqn:Ex; [|done]. cbn. intros [= <-].
  destruct (SafeMath.add _ _) as [y|] eqn:Ey; [|done]. cbn. intros [= <-].
  apply sub_done in Ex as [L ->]. by apply add_done in Ey as ->.
Qed.

Section Laws.
Context (s : state) (B : backed s) (sender v : Z) (V : fits 256 v).

Lemma transfer_respects to t ev : transfer sender to v (token s) = Some (t, ev) ->
  respects [sender] s (State t (owner s) (bridge s)).
Proof using B V.
  unfold transfer. destruct (v <=? _); [|done]. destruct (to =? 0); [done|]. cbn [negb].
  destruct (sub_balance _ _ _) as [t1|] eqn:E1; [|done]. cbn. destruct (add_balance _ _ _) as [t2|] eqn:E2; [|done]. cbn.
  intros [= <- _]. destruct (move_done _ _ _ _ _ _ E1 E2) as [L ->].
  apply (respects_moves sender sender to v); try done; [split; [apply V|exact L]|by left].
Qed.

Lemma transferFrom_respects from to t ev : transferFrom sender from to v (token s) = Some (t, ev) ->
  respects [sender] s (State t (owner s) (bridge s)).
Proof using B V.
  unfold transferFrom. destruct (v <=? _); [|done]. destruct (v <=? _); [|done]. destruct (to =? 0); [done|]. cbn [negb].
  destruct (sub_balance _ _ _) as [t1|] eqn:E1; [|done]. cbn. destruct (add_balance _ _ _) as [t2|] eqn:E2; [|done]. cbn.
  destruct (move_done _ _ _ _ _ _ E1 E2) as [L ->]. destruct (SafeMath.sub _ _) as [x|] eqn:Ex; [|done]. cbn.
  intros [= <- _]. apply sub_done in Ex as [La ->].
  apply (respects_moves sender from to v); try done; [split; [apply V|exact L]|by right].
Qed.

(** Whatever is set is a word. *)
Lemma allows_respects spender x : fits 256 x -> respects [sender] s (State (set_allowed sender spender x (token s)) (owner s) (bridge s)).
Proof using B. intros X. by apply (respects_approves sender spender x). Qed.

Lemma increase_respects spender t ev : increaseApproval sender spender v (token s) = Some (t, ev) ->
  respects [sender] s (State t (owner s) (bridge s)).
Proof using B.
  unfold increaseApproval. destruct (SafeMath.add _ _) as [x|] eqn:Ex; [|done]. apply add_done in Ex as ->. cbn.
  intros [= <- _]. apply allows_respects, u256_fits.
Qed.

Lemma decrease_respects spender t ev : decreaseApproval sender spender v (token s) = Some (t, ev) ->
  respects [sender] s (State t (owner s) (bridge s)).
Proof using B.
  unfold decreaseApproval. destruct (_ <=? _).
  - cbn. intros [= <- _]. apply allows_respects. unfold fits. lia.
  - destruct (SafeMath.sub _ _) as [x|] eqn:Ex; [|done]. apply sub_done in Ex as [_ ->]. cbn.
    intros [= <- _]. apply allows_respects, u256_fits.
Qed.

Lemma mint_respects account t ev : _mint account v (token s) = Some (t, ev) ->
  respects [sender] s (State t (owner s) (bridge s)) /\ totalSupply_ t = totalSupply_ (token s) + v.
Proof using B V.
  unfold _mint. destruct (account =? 0); [done|]. cbn [negb]. destruct B as ((F & _) & _). cbn in F.
  rewrite SafeMath.add_spec by done. destruct (Z.ltb_spec (totalSupply_ (token s) + v) (2 ^ 256)) as [L|]; [|done]. cbn.
  unfold add_balance. destruct (SafeMath.add _ _) as [y|] eqn:Ey; [|done]. apply add_done in Ey as ->. cbn.
  intros [= <- _]. split; [|done]. unfold fits in F, V.
  apply (respects_mints [sender] account v); try done; [unfold fits; cbn; lia|lia].
Qed.

Lemma burn_respects t ev : _burn sender v (token s) = Some (t, ev) ->
  respects [sender] s (State t (owner s) (bridge s)) /\ totalSupply_ t = totalSupply_ (token s) - v.
Proof using B V.
  unfold _burn. destruct (sender =? 0); [done|]. cbn [negb]. destruct (Z.leb_spec v (balanceOf (token s) sender)) as [L|]; [|done].
  destruct (SafeMath.sub (totalSupply_ (token s)) v) as [x|] eqn:Ex; [|done]. cbn.
  unfold sub_balance. destruct (SafeMath.sub (balanceOf (set_supply x (token s)) sender) v) as [y|] eqn:Ey; [|done]. apply sub_done in Ey as [_ ->]. cbn.
  intros [= <- _]. split.
  - apply sub_done in Ex as [_ ->]. apply (respects_burns sender sender v); try done; [split; [apply V|exact L]|by left].
  - destruct B as ((F & _) & _). cbn in F. rewrite SafeMath.sub_spec in Ex by done. destruct (v <=? _); [|done]. by injection Ex as <-.
Qed.
End Laws.

Lemma exec_respects sender c s s' events : backed s -> exec sender c s = Some (s', events) -> respects [sender] s s'.
Proof.
  intros B. destruct c as [to v|sp v|from to v|sp v|sp v|addr|to v chain|to v chain]; cbn [exec];
    try (intros (t & ev & E & -> & _)%inherited_done; pose proof (u256_fits v) as V).
  - by eapply transfer_respects.
  - injection E as <- _. by apply allows_respects.
  - by eapply transferFrom_respects.
  - by eapply increase_respects.
  - by eapply decrease_respects.
  - unfold setBridge. destruct (_ =? _); [|done]. intros [= <- _]. by apply respects_same.
  - unfold deposit. destruct (inherited _ s) as [[s1 ev1]|] eqn:E; [|done]. cbn. intros [= <- _].
    apply inherited_done in E as (t & ev & E & -> & _). eapply burn_respects; [done|apply u256_fits|exact E].
  - unfold withdraw. destruct (_ =? _); [|done]. destruct (inherited _ s) as [[s1 ev1]|] eqn:E; [|done]. cbn. intros [= <- _].
    apply inherited_done in E as (t & ev & E & -> & _). eapply mint_respects; [done|apply u256_fits|exact E].
Qed.

#[global, refine] Instance bridgeable_laws : TokenLaws state call := {}.
Proof.
  intros s s' sender c B E. cbn in E. destruct (exec sender c s) as [[s1 ev]|] eqn:Ex; [|done]. injection E as <-.
  exact (exec_respects sender c s _ ev B Ex).
Qed.

Lemma constructor_reverts sender : constructor sender = None -> sender = 0.
Proof.
  unfold constructor, inherited, _mint. destruct (Z.eqb_spec sender 0) as [|N]; [done|]. cbn [negb token].
  assert (fits 256 0) as F0 by (unfold fits; lia). assert (u256 (33 ^ 18) = 33 ^ 18) as -> by (apply u256_small; unfold fits; lia).
  assert (SafeMath.add 0 (33 ^ 18) = Some (33 ^ 18)) as E.
  { rewrite SafeMath.add_spec; [|done|unfold fits; lia]. destruct (Z.ltb_spec (0 + 33 ^ 18) (2 ^ 256)); [done|lia]. }
  cbn [totalSupply_]. rewrite E. cbn [mbind option_bind]. unfold add_balance, balanceOf, at_key. cbn [balances set_supply].
  rewrite lookup_empty. cbn [default]. rewrite E. done.
Qed.

Lemma bridgeable_constructed sender s events : constructor sender = Some (s, events) -> backed s.
Proof.
  unfold constructor. intros (t & ev & E & -> & _)%inherited_done.
  refine (proj1 (proj1 (mint_respects (State (StandardToken.State ∅ ∅ 0) sender sender) _ sender _ (u256_fits _) sender t ev E))).
  split; [|done]. split; [unfold fits; cbn; lia|]. split; apply map_Forall_empty.
Qed.
End BridgeableToken.

(** ** Bridge.sol *)
Module Bridge.

(** [ether] is the balance of the contract itself. *)
Record state := State {
  owner : Z;
  bridge : Z;
  balance : mapping;
  withdrawSubmitted : gset Z;
  ether : Z
}.

Inductive event :=
  | ContractCreation (owner : Z) | BridgeSet (addr : Z) | BridgeFunded (addr : Z) | Paid (addr value : Z)
  | Deposit (recipient value toChain : Z) | Withdraw (recipient value fromChain : Z).

Abbreviation result := (option (state * list event)).

Definition constructor (sender : Z) : state * list event := (State sender sender ∅ ∅ 0, [ContractCreation sender]).

(** A payable function first gets the value. *)
Definition receive (value : Z) (s : state) : state :=
  State (owner s) (bridge s) (balance s) (withdrawSubmitted s) (ether s + value).

Definition fallback (sender value : Z) (s : state) : result :=
  let s := receive value s in
  let b := <[sender := u256 (at_key (balance s) sender + value)]> (balance s) in
  Some (State (owner s) (bridge s) b (withdrawSubmitted s) (ether s), [Paid sender value]).

Definition fundBridge (sender value : Z) (s : state) : result := Some (receive value s, [BridgeFunded sender]).

Definition deposit (value _recipient _toChain : Z) (s : state) : result :=
  Some (receive value s, [Deposit _recipient value _toChain]).

Definition withdrawTo (sender _recipient _toChain _value : Z) (s : state) : result :=
  assert! _value <=? at_key (balance s) sender;
  let b := <[sender := u256 (at_key (balance s) sender - _value)]> (balance s) in
  Some (State (owner s) (bridge s) b (withdrawSubmitted s) (ether s), [Deposit _recipient _value _toChain]).

Definition setBridge (sender _addr : Z) (s : state) : result :=
  assert! sender =? owner s;
  Some (State (owner s) _addr (balance s) (withdrawSubmitted s) (ether s), [BridgeSet _addr]).

(** [accepts]: the recipients that take a payment with the gas it comes with. *)
Definition withdraw (accepts : Z -> bool) (sender _recipient _value _fromChain _txHash : Z) (s : state) : result :=
  assert! sender =? bridge s;
  assert! negb (bool_decide (_txHash ∈ withdrawSubmitted s));
  let submitted := {[ _txHash ]} ∪ withdrawSubmitted s in
  assert! (_value <=? ether s) && accepts _recipient;
  Some (State (owner s) (bridge s) (balance s) submitted (ether s - _value), [Withdraw _recipient _value _fromChain]).

(** Arguments are words, the value too. *)
Inductive call :=
  | CFallback (value : Z)
  | CFundBridge (value : Z)
  | CDeposit (value recipient toChain : Z)
  | CWithdrawTo (recipient toChain value : Z)
  | CSetBridge (addr : Z)
  | CWithdraw (recipient value fromChain txHash : Z)
  | COwner
  | CBridge.

(** The getters that the compiler makes for the public variables. *)
Definition returns (c : call) (s : state) : option Z :=
  match c with COwner => Some (owner s) | CBridge => Some (bridge s) | _ => None end.

Definition exec (accepts : Z -> bool) (sender : Z) (c : call) (s : state) : result :=
  match c with
  | CFallback value => fallback sender (u256 value) s
  | CFundBridge value => fundBridge sender (u256 value) s
  | CDeposit value recipient toChain => deposit (u256 value) recipient (u256 toChain) s
  | CWithdrawTo recipient toChain value => withdrawTo sender recipient (u256 toChain) (u256 value) s
  | CSetBridge addr => setBridge sender addr s
  | CWithdraw recipient value fromChain txHash => withdraw accepts sender recipient (u256 value) (u256 fromChain) (u256 txHash) s
  | COwner | CBridge => Some (s, [])
  end.

(** *** Calls as data

    What the compiler makes of the functions: the first four bytes select one, and its
    arguments are words after them. A function that is not payable reverts if there is a
    value. *)
Definition word_at (data : bytes) (i : nat) : Z := be_val (take 32 (drop (4 + 32 * i) (data ++ replicate 256 0))).
Definition address_at (data : bytes) (i : nat) : Z := word_at data i mod 2 ^ 160.

Definition dispatch (value : Z) (data : bytes) : option call :=
  let selector := be_val (take 4 data) in
  if (length data <? 4)%nat then Some (CFallback value)
  else if selector =? 0xc9c0909f then Some (CFundBridge value)
  else if selector =? 0x47e7ef24 then Some (CDeposit value (address_at data 0) (word_at data 1))
  else if selector =? 0x5fcbc20e then
    assert! value =? 0; Some (CWithdrawTo (address_at data 0) (word_at data 1) (word_at data 2))
  else if selector =? 0x8dd14802 then assert! value =? 0; Some (CSetBridge (address_at data 0))
  else if selector =? 0x4250a6f3 then
    assert! value =? 0; Some (CWithdraw (address_at data 0) (word_at data 1) (word_at data 2) (word_at data 3))
  else if selector =? 0x8da5cb5b then assert! value =? 0; Some COwner
  else if selector =? 0xe78cea92 then assert! value =? 0; Some CBridge
  else Some (CFallback value).

(** ** What was paid *)

(** The calls that return, and the state they lead to. *)
Fixpoint run (accepts : Z -> bool) (l : list (Z * call)) (s : state) : state * list (Z * call) :=
  match l with
  | [] => (s, [])
  | (x, c) :: l =>
      match exec accepts x c s with
      | Some (s', _) => let '(s'', log) := run accepts l s' in (s'', (x, c) :: log)
      | None => run accepts l s
      end
  end.

Definition hash_of (y : Z * call) : option Z := match y.2 with CWithdraw _ _ _ h => Some (u256 h) | _ => None end.

Definition paid_in (c : call) : Z := match c with CFallback v | CFundBridge v | CDeposit v _ _ => u256 v | _ => 0 end.
Definition paid_out (c : call) : Z := match c with CWithdraw _ v _ _ => u256 v | _ => 0 end.
Definition sums (f : call -> Z) (log : list (Z * call)) : Z := foldr (fun y a => f y.2 + a) 0 log.

Lemma exec_done accepts x c s s' ev : exec accepts x c s = Some (s', ev) ->
  ether s' = ether s + paid_in c - paid_out c /\ (0 <= ether s -> 0 <= ether s') /\
  withdrawSubmitted s' = match hash_of (x, c) with Some h => {[ h ]} | None => ∅ end ∪ withdrawSubmitted s /\
  match hash_of (x, c) with Some h => h ∉ withdrawSubmitted s /\ x = bridge s | None => True end.
Proof.
  destruct c as [v|v|v r ch|r ch v|a|r v ch h| |]; cbn [exec hash_of paid_in paid_out snd]; rewrite ?(left_id_L ∅ (∪)).
  - intros [= <- _]. cbn. pose proof (u256_fits v) as [V _]. repeat split; lia.
  - intros [= <- _]. cbn. pose proof (u256_fits v) as [V _]. repeat split; lia.
  - intros [= <- _]. cbn. pose proof (u256_fits v) as [V _]. repeat split; lia.
  - unfold withdrawTo. destruct (_ <=? _); [|done]. intros [= <- _]. cbn. repeat split; lia.
  - unfold setBridge. destruct (_ =? _); [|done]. intros [= <- _]. cbn. repeat split; lia.
  - unfold withdraw. destruct (Z.eqb_spec x (bridge s)) as [->|]; [|done]. cbn [negb].
    destruct (bool_decide (u256 h ∈ withdrawSubmitted s)) eqn:D; [done|]. apply bool_decide_eq_false in D. cbn [negb].
    destruct (Z.leb_spec (u256 v) (ether s)) as [L|]; [|done]. cbn [andb]. destruct (accepts r); [|done].
    intros [= <- _]. cbn. repeat split; [lia|lia|done].
  - intros [= <- _]. repeat split; lia.
  - intros [= <- _]. repeat split; lia.
Qed.

Lemma run_once accepts l s s' log : run accepts l s = (s', log) ->
  NoDup (omap hash_of log) /\ (forall h, h ∈ omap hash_of log -> h ∉ withdrawSubmitted s) /\
  ether s' = ether s + sums paid_in log - sums paid_out log /\ (0 <= ether s -> 0 <= ether s').
Proof.
  revert s s' log. induction l as [|[x c] l IH]; intros s s' log; cbn [run].
  - intros [= <- <-]. cbn. split; [constructor|]. split; [intros h I; by apply elem_of_nil in I|]. split; lia.
  - destruct (exec accepts x c s) as [[s1 ev]|] eqn:E; [|apply IH].
    destruct (run accepts l s1) as [s2 log1] eqn:R. intros [= <- <-].
    destruct (exec_done _ _ _ _ _ _ E) as (Ee & Ep & Es & Eh). destruct (IH s1 s2 log1 R) as (N & F & Se & P).
    cbn [omap list_omap sums foldr snd]. fold (sums paid_in log1) (sums paid_out log1).
    assert (forall h, h ∈ omap hash_of log1 -> h ∉ withdrawSubmitted s) as F'.
    { intros h I J. apply (F h I). rewrite Es, elem_of_union. by right. }
    split; [|split; [|split; [lia|auto]]]; destruct (hash_of (x, c)) as [h|]; try done.
    + constructor; [|done]. intros I. apply (F h I). rewrite Es, elem_of_union. left. by apply elem_of_singleton.
    + intros h' [->|I]%elem_of_cons; [apply Eh|by apply F'].
Qed.

(** The addresses that [x] made the bridge. *)
Definition appointed (x : Z) (y : Z * call) : option Z :=
  match y.2 with CSetBridge a => if y.1 =? x then Some a else None | _ => None end.

Lemma exec_bridge accepts x c s s' ev : exec accepts x c s = Some (s', ev) ->
  owner s' = owner s /\ bridge s' = default (bridge s) (appointed (owner s) (x, c)).
Proof.
  destruct c as [v|v|v r ch|r ch v|a|r v ch h| |]; cbn [exec appointed fst snd]; try by intros [= <- _].
  - unfold withdrawTo. destruct (_ <=? _); [|done]. by intros [= <- _].
  - unfold setBridge. destruct (x =? owner s); [|done]. by intros [= <- _].
  - unfold withdraw. destruct (x =? bridge s); [|done]. cbn [negb]. destruct (bool_decide _); [done|]. cbn [negb].
    destruct (_ && _); [|done]. by intros [= <- _].
Qed.

Lemma run_trusted accepts l s s' log : run accepts l s = (s', log) ->
  Forall (fun y => is_Some (hash_of y) -> y.1 ∈ bridge s :: omap (appointed (owner s)) log) log.
Proof.
  revert s s' log. induction l as [|[x c] l IH]; intros s s' log; cbn [run].
  - intros [= <- <-]. constructor.
  - destruct (exec accepts x c s) as [[s1 ev]|] eqn:E; [|apply IH].
    destruct (run accepts l s1) as [s2 log1] eqn:R. intros [= <- <-]. destruct (exec_bridge _ _ _ _ _ _ E) as [Eo Eb].
    destruct (exec_done _ _ _ _ _ _ E) as (_ & _ & _ & Eh). constructor.
    + intros [h Hh]. rewrite Hh in Eh. destruct Eh as [_ ->]. apply elem_of_cons. by left.
    + eapply Forall_impl; [exact (IH s1 s2 log1 R)|]. intros y Hy I. specialize (Hy I). rewrite Eo, Eb in Hy.
      cbn [omap list_omap]. destruct (appointed (owner s) (x, c)) as [a|]; cbn [default] in Hy; [|exact Hy].
      apply elem_of_cons. right. exact Hy.
Qed.

(** C37. Ether leaves the bridge at most once for a transaction of the other chain, on the
    word of an account that the owner made the bridge: of the calls that return, no two
    withdrawals have the same hash, each is made by such an account, and the contract has
    what was paid in less what they paid out, which it always has. *)
Theorem bridge_pays_once accepts creator l :
  let '(s, log) := run accepts l (fst (constructor creator)) in
  NoDup (omap hash_of log) /\
  Forall (fun y => is_Some (hash_of y) -> y.1 ∈ creator :: omap (appointed creator) log) log /\
  ether s = sums paid_in log - sums paid_out log /\ 0 <= ether s.
Proof.
  destruct (run accepts l (fst (constructor creator))) as [s log] eqn:R.
  destruct (run_once _ _ _ _ _ R) as (N & _ & E & P). cbn in E, P. split; [done|]. split; [exact (run_trusted _ _ _ _ _ R)|].
  split; [lia|by apply P].
Qed.
End Bridge.

(** ** BridgeSafe.sol *)
Module BridgeSafe.
Record state := State { owner : Z; ether : Z }.

Definition constructor (sender : Z) : state := State sender 0.
Definition fallback (value : Z) (s : state) : option state := Some (State (owner s) (ether s + value)).
Definition transferOwnership (sender _addr : Z) (s : state) : option state :=
  assert! owner s =? sender;
  Some (State _addr (ether s)).

(** Nothing but a call of its owner changes the owner. *)
Lemma owner_changes sender addr s s' : transferOwnership sender addr s = Some s' -> owner s = sender /\ owner s' = addr.
Proof. unfold transferOwnership. destruct (Z.eqb_spec (owner s) sender); [|done]. by intros [= <-]. Qed.
End BridgeSafe.
