(* ===== verification/BridgeClient.v ===== *)
(** * The relayer of the bridge

    src/ChainBridge/client: what client.go and transaction.go compute. A string of
    hexadecimal digits is the list of its digits. Sending a transaction, keys, and the
    connection to a chain are not modelled: a function that sends one returns it. *)
From stdpp Require Import gmap.
From S2P Require Import Prelude Evm BridgeToken.
Local Open Scope Z_scope.

(** ** Hexadecimal strings (encoding/hex, math/big) *)
Abbreviation hexstring := (list Z).

Fixpoint EncodeToString (b : bytes) : hexstring :=
  match b with
  | [] => []
  | x :: b => x / 16 :: x mod 16 :: EncodeToString b
  end.

(** What is decoded before an odd digit at the end. *)
Fixpoint DecodeString (s : hexstring) : bytes :=
  match s with
  | a :: b :: s => (16 * a + b) :: DecodeString s
  | _ => []
  end.

(** [new(big.Int).SetString(s, 16)] *)
Definition SetString16 (s : hexstring) : Z := foldl (fun n d => 16 * n + d) 0 s.

(** [n.Bytes()]: big-endian, without zeros in front. *)
Definition Bytes (n : Z) : bytes := be_bytes (if n =? 0 then 0 else Z.to_nat (Z.log2 n / 8 + 1)) n.

(** [s[i:j]], which panics beyond the end. *)
Definition slice (i j : nat) (s : hexstring) : option hexstring :=
  if (length s <? j)%nat then None else Some (take (j - i) (drop i s)).

Definition zeros (n : nat) : hexstring := replicate n 0.

(** ** Chains and transactions *)
Record Chain := NewChain { Id : Z; Contract : Z; From : Z }.

Record Transaction := NewTransaction { tx_to : Z; tx_value : Z; tx_data : bytes }.

Record Withdrawal := NewWithdrawal {
  Recipient : hexstring;
  Value : Z;
  FromChain : hexstring;
  TxHash : hexstring
}.

(** [a.Hex()[2:]] of an address and of a hash. *)
Definition address_hex (a : Z) : hexstring := EncodeToString (be_bytes 20 a).
Definition hash_hex (h : Z) : hexstring := EncodeToString (be_bytes 32 h).

(** The loop of [padTo32Bytes], which does not end on a string of more than 64 digits. *)
Fixpoint pad_loop (fuel l : nat) (s : hexstring) : option hexstring :=
  if (l =? 64)%nat then Some s
  else match fuel with
  | O => None
  | S fuel => pad_loop fuel (l + 1) (0 :: s)
  end.

Definition padTo32Bytes (s : hexstring) : option hexstring := pad_loop 64 (length s) s.
Definition padBigTo32Bytes (n : Z) : option hexstring := padTo32Bytes (EncodeToString (Bytes n)).

Definition setWithdrawalData (w : Withdrawal) : option hexstring :=
  valueString ← padTo32Bytes (EncodeToString (Bytes (Value w)));
  Some (Recipient w ++ valueString ++ FromChain w ++ TxHash w).

Fixpoint findChainIndex (id : Z) (allChains : list Chain) : option nat :=
  match allChains with
  | [] => None
  | chain :: allChains => if Id chain =? id then Some 0%nat else S <$> findChainIndex id allChains
  end.

(** ** The transactions (transaction.go) *)

(** The digits of the function signatures in the code. *)
Definition signature (z : Z) : hexstring := EncodeToString (be_bytes 4 z).

Definition SetBridge (chain : Chain) : Transaction :=
  let dataStr := signature 0x8dd14802 ++ zeros 24 ++ address_hex (From chain) in
  NewTransaction (Contract chain) 0 (DecodeString dataStr).

Definition Deposit (chain : Chain) (value : Z) (id : hexstring) : option Transaction :=
  chainId ← padTo32Bytes id;
  let dataStr := signature 0x47e7ef24 ++ zeros 24 ++ address_hex (From chain) ++ chainId in
  Some (NewTransaction (Contract chain) value (DecodeString dataStr)).

Definition PayBridge (chain : Chain) (value : Z) : Transaction := NewTransaction (Contract chain) value [].

Definition WithdrawTo (chain : Chain) (value : Z) (id : hexstring) : option Transaction :=
  chainId ← padTo32Bytes id;
  amount ← padBigTo32Bytes value;
  let dataStr := signature 0x5fcbc20e ++ zeros 24 ++ address_hex (From chain) ++ chainId ++ amount in
  Some (NewTransaction (Contract chain) 0 (DecodeString dataStr)).

Definition Withdraw (chain : Chain) (w : Withdrawal) : option Transaction :=
  data ← setWithdrawalData w;
  let dataStr := signature 0x4250a6f3 ++ zeros 24 ++ data in
  Some (NewTransaction (Contract chain) 0 (DecodeString dataStr)).

Definition FundBridge (chain : Chain) (value : Z) : Transaction :=
  NewTransaction (Contract chain) value (DecodeString (signature 0xc9c0909f)).

(** ** Events (client.go) *)

(** What is sent for the transaction that made the event, and to which chain. [None]: the
    relayer panics, or does not return. *)
Definition HandleDeposit (allChains : list Chain) (tx : Transaction) (txHash : Z) : option (option (nat * Transaction)) :=
  let data := EncodeToString (tx_data tx) in
  if (72 <? length data)%nat then
    receiver ← slice 32 72 data;
    toChain ← slice 72 136 data;
    let value := tx_value tx in
    let withdrawal := NewWithdrawal receiver value toChain (hash_hex txHash) in
    match findChainIndex (SetString16 toChain) allChains with
    | None => Some None
    | Some idx =>
        chain ← allChains !! idx;
        tx' ← Withdraw chain withdrawal;
        Some (Some (idx, tx'))
    end
  else Some None.

(** Nothing but what the slices do: [None] is their panic, on more than 136 digits and
    fewer than 200. *)
Definition printWithdraw (tx : Transaction) : option unit :=
  let data := EncodeToString (tx_data tx) in
  if (136 <? length data)%nat then
    _ ← slice 32 72 data; _ ← slice 72 136 data; _ ← slice 136 200 data; Some ()
  else Some ().

(** The ids of the events that the client tells apart. *)
Record Events := NewEvents {
  DepositId : Z; CreationId : Z; WithdrawId : Z; BridgeSetId : Z; BridgeFundedId : Z; PaidId : Z
}.

Record Log := NewLog { log_TxHash : Z; Topics : list Z }.

(** One topic of a log: what is sent for it. [waitOnPending] gets the transaction. The
    last three events are only printed. *)
Definition handle_topic (events : Events) (waitOnPending : Z -> Transaction) (allChains : list Chain)
    (txHash topic : Z) : option (list (nat * Transaction)) :=
  if topic =? DepositId events then
    r ← HandleDeposit allChains (waitOnPending txHash) txHash;
    Some (option_list r)
  else if topic =? CreationId events then Some []
  else if topic =? WithdrawId events then
    _ ← printWithdraw (waitOnPending txHash); Some []
  else Some [].

Fixpoint handle_topics (events : Events) (waitOnPending : Z -> Transaction) (allChains : list Chain)
    (txHash : Z) (topics : list Z) : option (list (nat * Transaction)) :=
  match topics with
  | [] => Some []
  | topic :: topics =>
      sent ← handle_topic events waitOnPending allChains txHash topic;
      more ← handle_topics events waitOnPending allChains txHash topics;
      Some (sent ++ more)
  end.

(** [logsRead] is a global variable. *)
Fixpoint ReadLogs (events : Events) (waitOnPending : Z -> Transaction) (allChains : list Chain) (logs : list Log)
    (logsRead : gset Z) : option (gset Z * list (nat * Transaction)) :=
  match logs with
  | [] => Some (logsRead, [])
  | log :: logs =>
      if bool_decide (log_TxHash log ∈ logsRead) then ReadLogs events waitOnPending allChains logs logsRead
      else
        sent ← handle_topics events waitOnPending allChains (log_TxHash log) (Topics log);
        '(logsRead, more) ← ReadLogs events waitOnPending allChains logs ({[ log_TxHash log ]} ∪ logsRead);
        Some (logsRead, sent ++ more)
  end.

(** ** Strings and numbers *)
Lemma pad_loop_spec fuel s : (length s <= 64 <= length s + fuel)%nat ->
  pad_loop fuel (length s) s = Some (zeros (64 - length s) ++ s).
Proof.
  revert s. induction fuel as [|fuel IH]; intros s L; cbn [pad_loop]; destruct (Nat.eqb_spec (length s) 64) as [E|N];
    try (by rewrite E); [lia|]. replace (length s + 1)%nat with (length (0 :: s)) by (cbn; lia).
  rewrite IH by (cbn; lia). cbn [length]. replace (64 - length s)%nat with (S (64 - S (length s))) by lia.
  unfold zeros. rewrite replicate_S_end, <- (assoc_L (++)). done.
Qed.

Lemma padTo32Bytes_spec s : (length s <= 64)%nat -> padTo32Bytes s = Some (zeros (64 - length s) ++ s).
Proof. intros L. apply pad_loop_spec. lia. Qed.

(** Whatever the number of turns. *)
Lemma pad_diverges fuel l s : (64 < l)%nat -> pad_loop fuel l s = None.
Proof.
  revert l s. induction fuel as [|fuel IH]; intros l s L; cbn [pad_loop]; destruct (Nat.eqb_spec l 64); try lia; [done|].
  apply IH. lia.
Qed.

Lemma encode_app a b : EncodeToString (a ++ b) = EncodeToString a ++ EncodeToString b.
Proof. induction a as [|x a IH]; cbn; [done|]. by rewrite IH. Qed.

Lemma encode_length b : length (EncodeToString b) = (2 * length b)%nat.
Proof. induction b as [|x b IH]; cbn in *; lia. Qed.

Lemma encode_zeros n : EncodeToString (replicate n 0) = zeros (2 * n).
Proof.
  induction n as [|n IH]; [done|]. replace (2 * S n)%nat with (S (S (2 * n))) by lia. cbn in *. by rewrite IH.
Qed.

Lemma decode_encode b : DecodeString (EncodeToString b) = b.
Proof. induction b as [|x b IH]; cbn; [done|]. f_equal; [|exact IH]. pose proof (Z.div_mod x 16). lia. Qed.

(** Slices at even places are those of the bytes. *)
Lemma encode_take n b : take (2 * n) (EncodeToString b) = EncodeToString (take n b).
Proof.
  revert b. induction n as [|n IH]; intros b; [done|]. replace (2 * S n)%nat with (S (S (2 * n))) by lia.
  destruct b as [|x b]; [done|]. cbn in *. by rewrite IH.
Qed.

Lemma encode_drop n b : drop (2 * n) (EncodeToString b) = EncodeToString (drop n b).
Proof.
  revert b. induction n as [|n IH]; intros b; [done|]. replace (2 * S n)%nat with (S (S (2 * n))) by lia.
  destruct b as [|x b]; [done|]. cbn in *. by rewrite IH.
Qed.

Lemma encode_slice i j b : (i <= j <= length b)%nat ->
  slice (2 * i) (2 * j) (EncodeToString b) = Some (EncodeToString (take (j - i) (drop i b))).
Proof.
  intros L. unfold slice. rewrite encode_length. destruct (Nat.ltb_spec (2 * length b) (2 * j)); [lia|].
  rewrite encode_drop. replace (2 * j - 2 * i)%nat with (2 * (j - i))%nat by lia. by rewrite encode_take.
Qed.

Lemma be_val_snoc l x : be_val (l ++ [x]) = 256 * be_val l + x.
Proof. unfold be_val. rewrite rev_app_distr. transitivity (x + 256 * le_val (rev l)); [done|lia]. Qed.

Lemma be_val_zeros n l : be_val (replicate n 0 ++ l) = be_val l.
Proof.
  induction l as [|x l IH] using rev_ind.
  - rewrite app_nil_r. induction n as [|n IH]; [done|]. by rewrite replicate_S_end, be_val_snoc, IH.
  - by rewrite (assoc_L (++)), !be_val_snoc, IH.
Qed.

Lemma SetString16_encode b : SetString16 (EncodeToString b) = be_val b.
Proof.
  unfold SetString16. induction b as [|x b IH] using rev_ind; [done|].
  rewrite encode_app, foldl_app, IH, be_val_snoc. cbn. pose proof (Z.div_mod x 16). lia.
Qed.

(** Zeros in front do not change the number. *)
Lemma be_bytes_pad n k z : (k <= n)%nat -> 0 <= z < 256 ^ Z.of_nat k -> be_bytes n z = replicate (n - k) 0 ++ be_bytes k z.
Proof.
  intros L Hz. set (l := replicate (n - k) 0 ++ be_bytes k z).
  assert (length l = n) as El by (unfold l; rewrite length_app, length_replicate, length_be_bytes; lia).
  assert (be_val l = z) as Ev by (unfold l; rewrite be_val_zeros, be_val_be_bytes; by apply Z.mod_small).
  rewrite <- El at 1. rewrite <- Ev at 1. apply be_bytes_be_val.
  apply Forall_app. split; [|apply be_bytes_ok]. apply Forall_replicate. lia.
Qed.

Lemma Bytes_spec n : fits 256 n -> exists k, (k <= 32)%nat /\ Bytes n = be_bytes k n /\ 0 <= n < 256 ^ Z.of_nat k.
Proof.
  intros [N0 N1]. unfold Bytes. destruct (Z.eqb_spec n 0) as [->|Nz]; [exists 0%nat; split; [lia|split; [done|cbn; lia]]|]. eexists. split; [|split; [done|]].
  - assert (Z.log2 n < 256) by (apply Z.log2_lt_pow2; lia). pose proof (Z.log2_nonneg n).
    pose proof (Z.div_mod (Z.log2 n) 8). pose proof (Z.mod_pos_bound (Z.log2 n) 8). lia.
  - split; [done|]. pose proof (Z.log2_nonneg n). pose proof (Z.div_mod (Z.log2 n) 8). pose proof (Z.mod_pos_bound (Z.log2 n) 8).
    rewrite Z2Nat.id by lia. change 256 with (2 ^ 8). rewrite <- Z.pow_mul_r by lia.
    destruct (Z.log2_spec n) as [_ U]; [lia|]. eapply Z.lt_le_trans; [exact U|]. apply Z.pow_le_mono_r; lia.
Qed.

Lemma pad_value n : fits 256 n -> padTo32Bytes (EncodeToString (Bytes n)) = Some (EncodeToString (be_bytes 32 n)).
Proof.
  intros F. destruct (Bytes_spec n F) as (k & L & -> & R). rewrite padTo32Bytes_spec; rewrite encode_length, length_be_bytes; [|lia].
  rewrite (be_bytes_pad 32 k n L R), encode_app, encode_zeros. repeat f_equal. lia.
Qed.

(** Digits in pairs are bytes. *)
Definition digits (s : hexstring) : Prop := Forall (fun d => 0 <= d < 16) s.

Lemma encode_decode n s : digits s -> length s = (2 * n)%nat ->
  EncodeToString (DecodeString s) = s /\ length (DecodeString s) = n /\ bytes_ok (DecodeString s).
Proof.
  revert s. induction n as [|n IH]; intros s D L.
  - destruct s; [|done]. split; [done|]. split; [done|constructor].
  - destruct s as [|a [|b s]]; [cbn in L; lia..|]. apply Forall_cons in D as [Da D]. apply Forall_cons in D as [Db D].
    cbn in L. destruct (IH s D) as (E & El & Ok); [lia|]. cbn. rewrite E, El. split; [|split; [done|]].
    + assert ((16 * a + b) / 16 = a) as -> by (symmetry; apply (Z.div_unique _ _ _ b); lia).
      assert ((16 * a + b) mod 16 = b) as -> by (symmetry; apply (Z.mod_unique _ _ a); lia). done.
    + constructor; [lia|done].
Qed.

(** A chain's id, as the word of its padded digits. *)
Lemma pad_id id : digits id -> (length id <= 64)%nat -> exists w, padTo32Bytes id = Some (EncodeToString w) /\
  length w = 32%nat /\ be_val w = SetString16 id.
Proof.
  intros D L. rewrite padTo32Bytes_spec by done. set (s := zeros (64 - length id) ++ id).
  destruct (encode_decode 32 s) as (E & El & _).
  - apply Forall_app. split; [|done]. apply Forall_replicate. lia.
  - unfold s, zeros. rewrite length_app, length_replicate. lia.
  - exists (DecodeString s). rewrite E. split; [done|]. split; [done|]. rewrite <- SetString16_encode, E.
    unfold s, SetString16. rewrite foldl_app. f_equal. unfold zeros. generalize (64 - length id)%nat as n.
    induction n as [|n IH]; [done|]. rewrite replicate_S_end, foldl_app, IH. done.
Qed.

(** ** Words of a call *)
Lemma word_at_words sel ws i w : length sel = 4%nat -> Forall (fun w => length w = 32%nat) ws -> ws !! i = Some w ->
  Bridge.word_at (sel ++ concat ws) i = be_val w.
Proof.
  intros Ls F Hi. unfold Bridge.word_at. f_equal. rewrite <- (assoc_L (++)).
  replace (4 + 32 * i)%nat with (length sel + 32 * i)%nat by lia. rewrite <- drop_drop, drop_app_length.
  revert i w Hi. induction F as [|x ws Lx F IH]; intros [|i] w Hi; try done; cbn in Hi.
  - injection Hi as ->. rewrite drop_0. cbn [concat]. rewrite <- (assoc_L (++)). by rewrite take_app_length'.
  - cbn [concat]. rewrite <- (assoc_L (++)). replace (32 * S i)%nat with (length x + 32 * i)%nat by lia.
    rewrite <- drop_drop, drop_app_length. by apply IH.
Qed.

Definition call_data (sel : Z) (ws : list bytes) : bytes := be_bytes 4 sel ++ concat ws.

Lemma decode_call sel ws : DecodeString (signature sel ++ EncodeToString (concat ws)) = call_data sel ws.
Proof. unfold signature. by rewrite <- encode_app, decode_encode. Qed.

(** The word of an address. *)
Definition address_word (a : Z) : bytes := replicate 12 0 ++ be_bytes 20 a.

Lemma address_word_hex a : zeros 24 ++ address_hex a = EncodeToString (address_word a).
Proof. unfold address_word, address_hex. by rewrite encode_app, encode_zeros. Qed.

Lemma address_word_length a : length (address_word a) = 32%nat.
Proof. unfold address_word. by rewrite length_app, length_replicate, length_be_bytes. Qed.

(** Every word has its length. *)
Ltac words32 :=
  repeat (apply Forall_cons_2; [first [apply address_word_length | apply length_be_bytes | done]|]); apply Forall_nil_2.

Lemma address_word_val a : 0 <= a < 2 ^ 160 -> be_val (address_word a) = a.
Proof. intros R. unfold address_word. rewrite be_val_zeros, be_val_be_bytes. apply Z.mod_small. exact R. Qed.

Lemma word_val z : fits 256 z -> be_val (be_bytes 32 z) = z.
Proof. intros R. rewrite be_val_be_bytes. apply Z.mod_small. exact R. Qed.

Lemma call_selector sel ws : be_val (take 4 (call_data sel ws)) = sel mod 256 ^ 4.
Proof. unfold call_data. rewrite take_app_length' by by rewrite length_be_bytes. apply be_val_be_bytes. Qed.

Lemma call_length sel ws : (length (call_data sel ws) <? 4)%nat = false.
Proof. apply Nat.ltb_ge. unfold call_data. rewrite length_app, length_be_bytes. lia. Qed.

Section Words.
Context (sel : Z) (ws : list bytes) (F : Forall (fun w => length w = 32%nat) ws).

Lemma call_word i w : ws !! i = Some w -> Bridge.word_at (call_data sel ws) i = be_val w.
Proof using F. apply word_at_words; [by rewrite length_be_bytes|done]. Qed.

Lemma call_address i a : ws !! i = Some (address_word a) -> 0 <= a < 2 ^ 160 -> Bridge.address_at (call_data sel ws) i = a.
Proof using F.
  intros E R. unfold Bridge.address_at. rewrite (call_word i _ E), address_word_val by done. by apply Z.mod_small.
Qed.
End Words.

(** ** What the relayer does with a transaction that called the bridge *)
Section Relay.
Context (allChains : list Chain) (src dst : Chain) (i : nat) (id : hexstring) (txHash : Z).
Context (D : digits id) (L : (length id <= 64)%nat) (A : 0 <= From src < 2 ^ 160) (H : fits 256 txHash).
Context (Fi : findChainIndex (SetString16 id) allChains = Some i) (Ei : allChains !! i = Some dst).

(** The withdrawal that the contract of the other chain gets. *)
Definition withdrawal_call (value : Z) : Bridge.call := Bridge.CWithdraw (From src) value (SetString16 id) txHash.

Lemma handle_call tx sel w ws : length w = 32%nat -> be_val w = SetString16 id -> fits 256 (tx_value tx) ->
  tx_data tx = call_data sel (address_word (From src) :: w :: ws) ->
  exists tx', HandleDeposit allChains tx txHash = Some (Some (i, tx')) /\ tx_to tx' = Contract dst /\ tx_value tx' = 0 /\
    Bridge.dispatch 0 (tx_data tx') = Some (withdrawal_call (tx_value tx)).
Proof using Type*.
  intros Lw Vw Fv Ed. unfold HandleDeposit. rewrite Ed. set (data := call_data _ _).
  assert (data = be_bytes 4 sel ++ replicate 12 0 ++ be_bytes 20 (From src) ++ w ++ concat ws) as E.
  { unfold data, call_data, address_word. cbn [concat]. by rewrite <- !(assoc_L (++)). }
  assert (length data = 68 + length (concat ws))%nat as Ld.
  { rewrite E, !length_app, !length_be_bytes, length_replicate, Lw. lia. }
  rewrite encode_length, Ld. destruct (Nat.ltb_spec 72 (2 * (68 + length (concat ws)))) as [_|]; [|lia].
  rewrite (encode_slice 16 36 data ltac:(lia) : slice 32 72 _ = _). cbn [mbind option_bind].
  rewrite (encode_slice 36 68 data ltac:(lia) : slice 72 136 _ = _). cbn [mbind option_bind].
  assert (take (36 - 16) (drop 16 data) = be_bytes 20 (From src)) as ->.
  { rewrite E. rewrite (assoc_L (++) (be_bytes 4 sel)). rewrite drop_app_length' by by rewrite length_app, length_be_bytes, length_replicate.
    by rewrite take_app_length' by by rewrite length_be_bytes. }
  assert (take (68 - 36) (drop 36 data) = w) as ->.
  { rewrite E. rewrite 2!(assoc_L (++)). rewrite drop_app_length' by by rewrite !length_app, !length_be_bytes, length_replicate.
    by rewrite take_app_length' by done. }
  rewrite SetString16_encode, Vw, Fi. cbn [mbind option_bind]. rewrite Ei. cbn [mbind option_bind].
  unfold Withdraw, setWithdrawalData. cbn [Value Recipient FromChain TxHash]. rewrite pad_value by done. cbn [mbind option_bind].
  eexists. split; [done|]. split; [done|]. split; [done|]. cbn [tx_data].
  rewrite (assoc_L (++) (zeros 24)). change (EncodeToString (be_bytes 20 (From src))) with (address_hex (From src)).
  rewrite address_word_hex. unfold hash_hex. rewrite <- !encode_app.
  set (ws' := [address_word (From src); be_bytes 32 (tx_value tx); w; be_bytes 32 txHash]).
  assert (Forall (fun w => length w = 32%nat) ws') as F'.
  { words32. }
  replace (address_word (From src) ++ _) with (concat ws') by (cbn; by rewrite app_nil_r). rewrite decode_call.
  unfold Bridge.dispatch. rewrite call_length, call_selector. cbn -[Bridge.word_at Bridge.address_at call_data ws'].
  rewrite (call_address _ ws' F' 0 (From src) eq_refl A), (call_word _ ws' F' 1 _ eq_refl), (call_word _ ws' F' 2 _ eq_refl),
    (call_word _ ws' F' 3 _ eq_refl), !word_val, Vw by done. done.
Qed.

(** What [Deposit] sends, and [WithdrawTo]. *)
Lemma deposit_call value : exists tx w, Deposit src value id = Some tx /\ tx_value tx = value /\ tx_to tx = Contract src /\
  length w = 32%nat /\ be_val w = SetString16 id /\ tx_data tx = call_data 0x47e7ef24 [address_word (From src); w].
Proof using D L.
  destruct (pad_id id D L) as (w & E & Lw & Vw). unfold Deposit. rewrite E. cbn [mbind option_bind].
  eexists _, w. split; [done|]. split; [done|]. split; [done|]. split; [done|]. split; [done|]. cbn [tx_data].
  rewrite (assoc_L (++) (zeros 24)), address_word_hex, <- encode_app.
  replace (address_word (From src) ++ w) with (concat [address_word (From src); w]) by (cbn; by rewrite app_nil_r).
  apply decode_call.
Qed.

Lemma withdraw_to_call value : fits 256 value -> exists tx w, WithdrawTo src value id = Some tx /\ tx_value tx = 0 /\
  length w = 32%nat /\ be_val w = SetString16 id /\
  tx_data tx = call_data 0x5fcbc20e [address_word (From src); w; be_bytes 32 value].
Proof using D L.
  intros V. destruct (pad_id id D L) as (w & E & Lw & Vw). unfold WithdrawTo, padBigTo32Bytes. rewrite E, pad_value by done.
  cbn [mbind option_bind]. eexists _, w. split; [done|]. split; [done|]. split; [done|]. split; [done|]. cbn [tx_data].
  rewrite (assoc_L (++) (zeros 24)), address_word_hex, <- !encode_app.
  replace (address_word (From src) ++ _) with (concat [address_word (From src); w; be_bytes 32 value]) by (cbn; by rewrite app_nil_r).
  apply decode_call.
Qed.

(** C38. A deposit arrives. The transaction that [Deposit] sends calls [deposit] of the bridge
    contract with the value; for it the relayer sends to the chain with the given id a call
    of [withdraw] with the same value, the depositor and the hash of the transaction; and
    there the contract, if it has the ether and has not seen the hash, pays the value. *)
Theorem deposit_arrives value : fits 256 value -> exists tx tx',
  Deposit src value id = Some tx /\ tx_to tx = Contract src /\
  Bridge.dispatch (tx_value tx) (tx_data tx) = Some (Bridge.CDeposit value (From src) (SetString16 id)) /\
  HandleDeposit allChains tx txHash = Some (Some (i, tx')) /\ tx_to tx' = Contract dst /\
  Bridge.dispatch (tx_value tx') (tx_data tx') = Some (withdrawal_call value) /\
  forall accepts s, Bridge.bridge s = From dst -> txHash ∉ Bridge.withdrawSubmitted s -> value <= Bridge.ether s ->
    accepts (From src) = true ->
    exists s' chain, Bridge.exec accepts (From dst) (withdrawal_call value) s = Some (s', [Bridge.Withdraw (From src) value chain]) /\
      Bridge.ether s' = Bridge.ether s - value.
Proof using Type*.
  intros V. destruct (deposit_call value) as (tx & w & E & Ev & Et & Lw & Vw & Ed).
  assert (fits 256 (tx_value tx)) as V' by by rewrite Ev.
  destruct (handle_call tx _ w [] Lw Vw V' Ed) as (tx' & Eh & Et' & Ev' & Edi). rewrite Ev in Edi.
  exists tx, tx'. rewrite Ev'. do 2 (split; [done|]). split; [|do 3 (split; [done|])].
  - rewrite Ed, Ev. unfold Bridge.dispatch. rewrite call_length, call_selector. cbn -[Bridge.word_at Bridge.address_at call_data].
    assert (Forall (fun w => length w = 32%nat) [address_word (From src); w]) as F by words32.
    by rewrite (call_address _ _ F 0 (From src) eq_refl A), (call_word _ _ F 1 w eq_refl), Vw.
  - intros accepts s Eb Nh Le Ac. unfold withdrawal_call. cbn [Bridge.exec]. rewrite (u256_small txHash H), (u256_small value V).
    unfold Bridge.withdraw. rewrite Eb, Z.eqb_refl, bool_decide_eq_false_2 by done. cbn [negb].
    rewrite (proj2 (Z.leb_le _ _) Le), Ac. cbn [andb]. by eexists _, _.
Qed.

(** A [withdrawTo] does not: the relayer takes the value from the transaction, which has
    none, so the other chain pays nothing of what the contract took from the account. *)
Theorem withdraw_to_lost value : fits 256 value -> exists tx tx',
  WithdrawTo src value id = Some tx /\
  Bridge.dispatch (tx_value tx) (tx_data tx) = Some (Bridge.CWithdrawTo (From src) (SetString16 id) value) /\
  HandleDeposit allChains tx txHash = Some (Some (i, tx')) /\
  Bridge.dispatch (tx_value tx') (tx_data tx') = Some (withdrawal_call 0).
Proof using Type*.
  intros V. destruct (withdraw_to_call value V) as (tx & w & E & Ev & Lw & Vw & Ed).
  assert (fits 256 (tx_value tx)) as V' by (rewrite Ev; unfold fits; lia).
  destruct (handle_call tx _ w [be_bytes 32 value] Lw Vw V' Ed) as (tx' & Eh & Et' & Ev' & Edi). rewrite Ev in Edi.
  exists tx, tx'. rewrite Ev'. split; [done|]. split; [|done].
  rewrite Ed, Ev. unfold Bridge.dispatch. rewrite call_length, call_selector. cbn -[Bridge.word_at Bridge.address_at call_data].
  assert (Forall (fun w => length w = 32%nat) [address_word (From src); w; be_bytes 32 value]) as F
    by words32.
  by rewrite (call_address _ _ F 0 (From src) eq_refl A), (call_word _ _ F 1 w eq_refl), (call_word _ _ F 2 _ eq_refl), word_val, Vw.
Qed.
End Relay.

(** ** A run *)
Module DemoBridge.
Definition ropsten : Chain := NewChain 3 0xb1 0xd1.
Definition kovan : Chain := NewChain 42 0xb2 0xd2.
Definition chains : list Chain := [ropsten; kovan].
Definition ids : Events := NewEvents 1 2 3 4 5 6.

(** From ropsten to kovan, whose id is 2a in hexadecimal. *)
Lemma deposit_arrives_witness : exists tx tx',
  Deposit ropsten 1000000 [2; 10] = Some tx /\ HandleDeposit chains tx 77 = Some (Some (1%nat, tx')) /\
  Bridge.dispatch (tx_value tx') (tx_data tx') = Some (Bridge.CWithdraw 0xd1 1000000 42 77) /\
  exists s', Bridge.exec (fun _ => true) 0xd2 (Bridge.CWithdraw 0xd1 1000000 42 77)
    (Bridge.State 0xd2 0xd2 ∅ ∅ 5000000) = Some (s', [Bridge.Withdraw 0xd1 1000000 42]).
Proof.
  assert (digits [2; 10]) as D by (repeat constructor; lia).
  assert (length [2; 10] <= 64)%nat as L by (cbn; lia).
  destruct (deposit_arrives chains ropsten kovan 1 [2; 10] 77 D L ltac:(cbn; lia) ltac:(unfold fits; lia) eq_refl eq_refl
    1000000 ltac:(unfold fits; lia)) as (tx & tx' & E & _ & _ & Eh & _ & Ed & _).
  exists tx, tx'. split; [exact E|]. split; [exact Eh|]. split; [exact Ed|]. by eexists.
Defined.

Lemma withdraw_to_lost_run : exists tx tx',
  WithdrawTo ropsten 1000000 [2; 10] = Some tx /\ HandleDeposit chains tx 77 = Some (Some (1%nat, tx')) /\
  Bridge.dispatch (tx_value tx') (tx_data tx') = Some (Bridge.CWithdraw 0xd1 0 42 77).
Proof. eexists _, _. split; [reflexivity|]. split; reflexivity. Qed.

(** Of the logs of one transaction only the first is looked at: after another event, a
    deposit in the same transaction is not relayed. *)
Lemma second_log_ignored : exists tx, Deposit ropsten 1000000 [2; 10] = Some tx /\
  ReadLogs ids (fun _ => tx) chains [NewLog 77 [5]; NewLog 77 [1]] ∅ = Some ({[ 77 ]}, []) /\
  exists tx', ReadLogs ids (fun _ => tx) chains [NewLog 77 [1]; NewLog 77 [5]] ∅ = Some ({[ 77 ]}, [(1%nat, tx')]).
Proof. eexists. split; [reflexivity|]. split; [vm_compute; reflexivity|]. eexists. vm_compute. reflexivity. Qed.

(** The event of a transaction that reached the contract through another one, with data of
    its own, can stop the relayer: a slice of the data is out of range. *)
Lemma short_data_panics :
  ReadLogs ids (fun _ => NewTransaction 0xc1 0 (replicate 40 0)) chains [NewLog 77 [1]] ∅ = None /\
  ReadLogs ids (fun _ => NewTransaction 0xc1 0 (replicate 80 0)) chains [NewLog 77 [3]] ∅ = None.
Proof. split; vm_compute; reflexivity. Qed.
End DemoBridge.
