(* ===== verification/Tokens.v ===== *)
(** * The two tokens

    [DXFToken] and [BridgeableToken] through the interface [Token]: what holds of the
    states that calls of anybody lead to from the constructors. *)
From stdpp Require Import gmap strings.
From S2P Require Import Prelude Evm DxfToken BridgeToken.
Local Open Scope Z_scope.

(** The tokens after some calls. *)
Definition dxf_after (creator : Z) (l : list (Z * DXFToken.call)) : DXFToken.state :=
  run_calls l (DXFToken.constructor creator).
Definition bridgeable_after (creator : Z) (l : list (Z * BridgeableToken.call)) : option BridgeableToken.state :=
  run_calls l ∘ fst <$> BridgeableToken.constructor creator.

Lemma dxf_after_backed creator l : backed (dxf_after creator l).
Proof. apply calls_backed, DXFToken.dxf_constructed. Qed.

Lemma bridgeable_after_backed creator l : match bridgeable_after creator l with Some s => backed s | None => creator = 0 end.
Proof.
  unfold bridgeable_after. destruct (BridgeableToken.constructor creator) as [[s ev]|] eqn:E; cbn.
  - eapply calls_backed, BridgeableToken.bridgeable_constructed, E.
  - exact (BridgeableToken.constructor_reverts creator E).
Qed.

(** C35. Tokens are neither made nor lost by a call: in every such state the balances add up
    to the supply, which for the DXF token never exceeds its first one. *)
Theorem tokens_backed creator l l' :
  total (DXFToken.balanceOf (dxf_after creator l)) = DXFToken.totalSupply (dxf_after creator l) /\
  DXFToken.totalSupply (dxf_after creator l) <= 210000000 * 10 ^ 18 /\
  match bridgeable_after creator l' with
  | Some s => total (StandardToken.balances (BridgeableToken.token s)) = StandardToken.totalSupply (BridgeableToken.token s)
  | None => creator = 0
  end.
Proof.
  split; [exact (proj2 (dxf_after_backed creator l))|]. split.
  - etransitivity; [apply DXFToken.calls_supply, DXFToken.dxf_constructed|]. done.
  - pose proof (bridgeable_after_backed creator l') as B. destruct (bridgeable_after creator l'); [exact (proj2 B)|exact B].
Qed.

(** C36. Nobody takes what an account did not allow. While an account makes no call, whatever
    others do and however their calls nest, it keeps what it has beyond the sum of the
    allowances it gave. *)
Theorem holdings_kept creator l0 l l0' l' a :
  Forall (fun y => a ∉ DXFToken.calling y.1 y.2) l -> Forall (fun y => a <> y.1) l' ->
  let s := dxf_after creator l0 in
  at_key (DXFToken.balanceOf s) a - total (row (DXFToken.allowance s) a)
    <= at_key (DXFToken.balanceOf (dxf_after creator (l0 ++ l))) a /\
  match bridgeable_after creator l0', bridgeable_after creator (l0' ++ l') with
  | Some s, Some s' =>
      let t := BridgeableToken.token s in
      at_key (StandardToken.balances t) a - total (row (StandardToken.allowed t) a)
        <= at_key (StandardToken.balances (BridgeableToken.token s')) a
  | _, _ => creator = 0
  end.
Proof.
  intros F F' s. split.
  - unfold dxf_after, run_calls. rewrite foldl_app. exact (calls_keep l _ a (dxf_after_backed creator l0) F).
  - pose proof (bridgeable_after_backed creator l0') as B. unfold bridgeable_after in *.
    destruct (BridgeableToken.constructor creator) as [[s0 ev]|]; cbn in *; [|exact B]. unfold run_calls at 3. rewrite foldl_app.
    apply (calls_keep l' _ a B). eapply Forall_impl; [exact F'|]. intros y N [E|E%elem_of_nil]%elem_of_cons; done.
Qed.

(** ** A run *)
Module DemoTokens.
(** The creator gives an allowance of 100 through a contract that spends a part of it at once. *)
Definition allow : list (Z * DXFToken.call) :=
  [(1, DXFToken.CApproveAndCall 2 100 (Some [(2, DXFToken.CTransferFrom 1 3 60)]))].

Definition spend : list (Z * DXFToken.call) := [(2, DXFToken.CBurnFrom 1 40); (3, DXFToken.CTransfer 1 5)].

Lemma spend_others : Forall (fun y => 1 ∉ DXFToken.calling y.1 y.2) spend.
Proof. repeat constructor; intros E; repeat (apply elem_of_cons in E as [E|E]; [discriminate E|]); by apply elem_of_nil in E. Qed.

Lemma holdings_kept_witness :
  at_key (DXFToken.balanceOf (dxf_after 1 allow)) 1 = 210000000 * 10 ^ 18 - 60 /\
  at_key (DXFToken.balanceOf (dxf_after 1 allow)) 1 - total (row (DXFToken.allowance (dxf_after 1 allow)) 1)
    <= at_key (DXFToken.balanceOf (dxf_after 1 (allow ++ spend))) 1.
Proof.
  split; [vm_compute; reflexivity|].
  destruct (holdings_kept 1 allow spend [] [] 1 spend_others (Forall_nil_2 _)) as [K _]. exact K.
Defined.
End DemoTokens.
