(* ===== verification/Rgb.v ===== *)
(** * Client-side validated assets

    src/rgb/src: contracts, proofs and their verification. What the library rust-bitcoin
    provides (encodings, hashes, addresses, scripts) is the class [RustBitcoin]. [None] is a
    panic; [checks] says whether arithmetic overflow panics (debug builds) or wraps. *)
From stdpp Require Import gmap.
From S2P Require Import Prelude.
Local Open Scope Z_scope.

Class RustBitcoin := {
  Address : Type;
  Network : Type;
  Tx : Type;
  txid : Tx -> bytes;
  tx_inputs : Tx -> list (bytes * Z);
  tx_outputs : Tx -> list bytes;
  address_to_string : Address -> bytes;
  address_script_pubkey : Address -> bytes;
  encode_string : bytes -> bytes;
  encode_out_point : bytes * Z -> bytes;
  encode_network : Network -> bytes;
  encode_u32 : Z -> bytes;
  encode_hash : bytes -> bytes;
  encode_vec : list bytes -> bytes;
  Sha256dHash_from_data : bytes -> bytes;
  op_return : bytes -> bytes;
  (** [Builder::new().push_opcode(All::OP_RETURN).push_slice(h)] starts with the opcode. *)
  op_return_opcode : forall h, head (op_return h) = Some 0x6a
}.

Section Rgb.
Context `{RustBitcoin} (checks : bool).

(** [OutPoint]: a transaction id and the number of an output. *)
Abbreviation OutPoint := (bytes * Z)%type.

(** ** traits.rs *)
Inductive NeededTx := FromTXID (h : bytes) | WhichSpendsOutPoint (o : OutPoint).

(** The map of the transactions that were asked for. *)
Context (needed_txs : NeededTx -> option Tx).

(** ** contract.rs *)
Record Contract := NewContract {
  title : bytes;
  issuance_utxo : OutPoint;
  initial_owner_utxo : OutPoint;
  burn_address : Address;
  network : Network;
  total_supply : Z
}.

Definition contract_encode (c : Contract) : bytes :=
  encode_string (title c) ++ encode_out_point (issuance_utxo c) ++ encode_out_point (initial_owner_utxo c) ++
  encode_string (address_to_string (burn_address c)) ++ encode_network (network c) ++ encode_u32 (total_supply c).

Definition contract_hash (c : Contract) : bytes := Sha256dHash_from_data (contract_encode c).
Definition get_asset_id (c : Contract) : bytes := contract_hash c.
Definition contract_needed_txs (c : Contract) : list NeededTx := [WhichSpendsOutPoint (issuance_utxo c)].
Definition contract_expected_script (c : Contract) : bytes := op_return (contract_hash c).

(** Is one of the outputs the commitment? *)
Definition find_output (tx : Tx) (expected : bytes) : bool :=
  foldl (fun found script_pubkey => found || bool_decide (script_pubkey = expected)) false (tx_outputs tx).

Definition contract_verify (c : Contract) : option bool :=
  committing_tx ← needed_txs (WhichSpendsOutPoint (issuance_utxo c));
  Some (find_output committing_tx (contract_expected_script c)).

(** ** proof.rs *)
Record OutputEntry := NewOutputEntry { entry_asset_id : bytes; entry_amount : Z; entry_vout : Z }.

Definition entry_encode (e : OutputEntry) : bytes :=
  encode_hash (entry_asset_id e) ++ encode_u32 (entry_amount e) ++ encode_u32 (entry_vout e).

Inductive RgbProof := NewProof {
  bind_to : list OutPoint;
  proof_input : list RgbProof;
  proof_output : list OutputEntry;
  contract : option Contract
}.

Definition is_root_proof (p : RgbProof) : bool :=
  match contract p, bind_to p with
  | Some c, [o] => bool_decide (o = initial_owner_utxo c)
  | _, _ => false
  end.

Definition proof_hash (p : RgbProof) : bytes := Sha256dHash_from_data (encode_vec (entry_encode <$> proof_output p)).
Definition get_expected_script (p : RgbProof) : bytes := op_return (proof_hash p).

Definition get_entries_for_us (p test_proof : RgbProof) : option (list OutputEntry) :=
  first ← head (bind_to p);
  committing_tx_this ← needed_txs (WhichSpendsOutPoint first);
  first_test ← head (bind_to test_proof);
  committing_tx_test ← needed_txs (WhichSpendsOutPoint first_test);
  Some (flat_map (fun '(prev_txid, vout) =>
          if bool_decide (prev_txid = txid committing_tx_test)
          then filter (fun e => entry_vout e = vout) (proof_output test_proof)
          else []) (tx_inputs committing_tx_this)).

Fixpoint get_contract_for (asset_id : bytes) (p : RgbProof) : option Contract :=
  let in_inputs := (fix search (l : list RgbProof) : option Contract :=
    match l with
    | [] => None
    | input :: l => match get_contract_for asset_id input with Some c => Some c | None => search l end
    end) (proof_input p) in
  match contract p with
  | Some c => if is_root_proof p && bool_decide (get_asset_id c = asset_id) then Some c else in_inputs
  | None => in_inputs
  end.

Fixpoint get_needed_txs (p : RgbProof) : list NeededTx :=
  (WhichSpendsOutPoint <$> bind_to p) ++
  (if is_root_proof p then default [] (contract_needed_txs <$> contract p) else flat_map get_needed_txs (proof_input p)).

(** [v.append(&mut other)] leaves [other] empty. *)
Definition append {A} (v other : list A) : list A * list A := (v ++ other, []).

(** The check that no entry is at a burned output. *)
Fixpoint burn_check (p : RgbProof) (tx_spent : Tx) (entries : list OutputEntry) : option bool :=
  match entries with
  | [] => Some true
  | entry :: entries =>
      script_pubkey ← tx_outputs tx_spent !! Z.to_nat (entry_vout entry);
      c ← get_contract_for (entry_asset_id entry) p;
      if bool_decide (script_pubkey = address_script_pubkey (burn_address c)) then Some false
      else burn_check p tx_spent entries
  end.

(** The entries of the input proofs that are for us; [None] inside: burned coins. *)
Fixpoint gather (p : RgbProof) (inputs : list RgbProof) (in_entries : list OutputEntry) : option (option (list OutputEntry)) :=
  match inputs with
  | [] => Some (Some in_entries)
  | input_proof :: inputs =>
      entries_for_us ← get_entries_for_us p input_proof;
      let '(in_entries, entries_for_us) := append in_entries entries_for_us in
      first ← head (bind_to input_proof);
      tx_spent ← needed_txs (WhichSpendsOutPoint first);
      ok ← burn_check p tx_spent entries_for_us;
      if ok : bool then gather p inputs in_entries else Some None
  end.

(** [*aggregator += amount] *)
Definition add_u32 (a b : Z) : option Z := if checks && (2 ^ 32 <=? a + b) then None else Some (u32 (a + b)).

Fixpoint aggregate (l : list OutputEntry) (amounts : gmap bytes Z) : option (gmap bytes Z) :=
  match l with
  | [] => Some amounts
  | e :: l =>
      sum ← add_u32 (default 0 (amounts !! entry_asset_id e)) (entry_amount e);
      aggregate l (<[entry_asset_id e := sum]> amounts)
  end.

(** Do all the outpoints have the same spending transaction? *)
Fixpoint same_tx (tx : Tx) (l : list OutPoint) : option bool :=
  match l with
  | [] => Some true
  | o :: l =>
      this ← needed_txs (WhichSpendsOutPoint o);
      if bool_decide (txid tx = txid this) then same_tx tx l else Some false
  end.

Definition in_amounts (p : RgbProof) : option (option (gmap bytes Z)) :=
  if is_root_proof p then
    c ← contract p;
    if (0 <? length (proof_input p))%nat then Some None
    else Some (Some {[ get_asset_id c := total_supply c ]})
  else
    r ← gather p (proof_input p) [];
    match r with Some l => Some <$> aggregate l ∅ | None => Some None end.

Definition verify (p : RgbProof) : option bool :=
  first ← head (bind_to p);
  committing_tx ← needed_txs (WhichSpendsOutPoint first);
  same ← same_tx committing_tx (bind_to p);
  if negb same then Some false
  else if negb (find_output committing_tx (get_expected_script p)) then Some false
  else
    ins ← in_amounts p;
    match ins with
    | None => Some false
    | Some ins =>
        outs ← aggregate (proof_output p) ∅;
        Some (bool_decide (ins = outs))
    end.

(** ** What is accepted *)
Fixpoint amount_of (k : bytes) (l : list OutputEntry) : Z :=
  match l with
  | [] => 0
  | e :: l => (if bool_decide (entry_asset_id e = k) then entry_amount e else 0) + amount_of k l
  end.



Definition u32_amounts (l : list OutputEntry) : Prop := Forall (fun e => fits 32 (entry_amount e)) l.

Lemma amount_nonneg k l : u32_amounts l -> 0 <= amount_of k l.
Proof.
  induction 1 as [|e l [E _] _ IH]; cbn; [lia|]. destruct (bool_decide _); lia.
Qed.

Lemma u32_range z : fits 32 (u32 z).
Proof. rewrite u32_mod. unfold fits. apply Z.mod_pos_bound. lia. Qed.

Lemma u32_of_small z : fits 32 z -> u32 z = z.
Proof. intros F. rewrite u32_mod. by apply Z.mod_small. Qed.







(** What [gather] collects; the check for burned coins is over the
    list that [append] has emptied. *)
Lemma gather_spec p inputs acc r : gather p inputs acc = Some r <->
  exists ls, mapM (get_entries_for_us p) inputs = Some ls /\ r = Some (acc ++ concat ls).
Proof.
  revert acc. induction inputs as [|i inputs IH]; intros acc; cbn [gather mapM].
  - split; [intros [= <-]; exists []; by rewrite app_nil_r|]. intros (ls & [= <-] & ->). by rewrite app_nil_r.
  - destruct (get_entries_for_us p i) as [es|] eqn:E; [|split; [done|by intros (ls & ? & _)]].
    unfold get_entries_for_us in E. destruct (head (bind_to p)); [|done]. cbn [mbind option_bind] in *.
    destruct (needed_txs _); [|done]. cbn [mbind option_bind] in *. destruct (head (bind_to i)) as [o|]; [|done].
    cbn [mbind option_bind] in *. destruct (needed_txs (WhichSpendsOutPoint o)); [|done].
    cbn [append burn_check mbind option_bind] in *. clear E. rewrite IH.
    destruct (mapM (get_entries_for_us p) inputs) as [ls|]; cbn [mbind option_bind]; [|split; by intros (? & ? & _)].
    split; intros (l & [= <-] & ->); eexists; (split; [done|]); cbn [concat]; by rewrite (assoc_L (++)).
Qed.

(** The transaction that spends the first output a proof binds to. *)
Definition spender (p : RgbProof) : option Tx := head (bind_to p) ≫= fun first => needed_txs (WhichSpendsOutPoint first).

(** The entries of an input proof, made by [from], that are at outputs which [tx] spends. *)
Definition spent_entries (tx from : Tx) (i : RgbProof) : list OutputEntry :=
  flat_map (fun o => filter (fun e => (txid from, entry_vout e) = o) (proof_output i)) (tx_inputs tx).

Lemma entries_spec p i : get_entries_for_us p i = (tx ← spender p; from ← spender i; Some (spent_entries tx from i)).
Proof.
  unfold get_entries_for_us, spender. destruct (head (bind_to p)) as [o|]; [|done]. cbn [mbind option_bind].
  destruct (needed_txs _) as [tx|]; [|done]. cbn [mbind option_bind]. destruct (head (bind_to i)) as [o'|]; [|done].
  cbn [mbind option_bind]. destruct (needed_txs _) as [from|]; [|done]. cbn [mbind option_bind]. f_equal.
  unfold spent_entries. induction (tx_inputs tx) as [|[h v] l IH]; cbn; [done|]. rewrite IH. f_equal.
  destruct (bool_decide (h = txid from)) eqn:D; [apply bool_decide_eq_true in D as ->|apply bool_decide_eq_false in D].
  - apply list_filter_iff. intros e. naive_solver.
  - symmetry. apply elem_of_nil_inv. intros e [E _]%list_elem_of_filter. congruence.
Qed.

(** What a proof takes in: the supply of the contract, or the entries of its inputs. *)
Definition inputs_of (p : RgbProof) : option (list OutputEntry) :=
  if is_root_proof p then
    match contract p, proof_input p with
    | Some c, [] => Some [NewOutputEntry (get_asset_id c) (total_supply c) 0]
    | _, _ => None
    end
  else (fun ls => concat ls) <$> mapM (fun i => tx ← spender p; from ← spender i; Some (spent_entries tx from i)) (proof_input p).


(** Amounts are 32-bit words. *)
Definition u32_proof (p : RgbProof) : Prop :=
  u32_amounts (proof_output p) /\ Forall (fun i => u32_amounts (proof_output i)) (proof_input p) /\
  match contract p with Some c => fits 32 (total_supply c) | None => True end.

Lemma entries_u32 tx from i : u32_amounts (proof_output i) -> u32_amounts (spent_entries tx from i).
Proof.
  intros F. unfold spent_entries. induction (tx_inputs tx) as [|o l IH]; cbn; [constructor|]. apply Forall_app. split; [|exact IH].
  apply list.Forall_forall. intros e [_ I]%list_elem_of_filter. by eapply Forall_forall in F.
Qed.

(** The entries that are for us, of all the inputs. *)
Lemma inputs_entries p : mapM (fun i => tx ← spender p; from ← spender i; Some (spent_entries tx from i)) (proof_input p)
  = mapM (get_entries_for_us p) (proof_input p).
Proof. induction (proof_input p) as [|i l IH]; cbn [mapM]; [done|]. by rewrite IH, entries_spec. Qed.

Lemma inputs_u32 p ins : u32_proof p -> inputs_of p = Some ins -> u32_amounts ins.
Proof.
  intros (_ & F & C). unfold inputs_of. destruct (is_root_proof p).
  - destruct (contract p) as [c|]; [|done]. destruct (proof_input p); [|done]. intros [= <-].
    apply Forall_cons_2; [done|apply Forall_nil_2].
  - destruct (mapM _ _) as [ls|] eqn:E; [|done]. cbn. intros [= <-]. apply mapM_Some in E. apply Forall_concat.
    revert F. induction E as [|i es inputs ls' Ei _ IH]; intros F; [constructor|]. apply Forall_cons in F as [Fi F].
    constructor; [|by apply IH]. destruct (spender p) as [tx|]; [|done]. cbn [mbind option_bind] in Ei.
    destruct (spender i) as [from|]; [|done]. injection Ei as <-. by apply entries_u32.
Qed.

(** Without overflow there is a sum. *)
Lemma aggregate_total l acc : u32_amounts l -> map_Forall (fun _ => fits 32) acc ->
  (checks = true -> forall k, default 0 (acc !! k) + amount_of k l < 2 ^ 32) -> is_Some (aggregate l acc).
Proof.
  intros F. revert acc. induction F as [|e l [E0 E1] F IH]; intros acc A S; cbn [aggregate]; [done|].
  set (d := default 0 (acc !! entry_asset_id e)).
  assert (0 <= d) as D0 by (unfold d; destruct (acc !! entry_asset_id e) as [x|] eqn:Ex; cbn; [apply (A _ _ Ex)|lia]).
  assert (checks = true -> d + entry_amount e + amount_of (entry_asset_id e) l < 2 ^ 32) as Sm.
  { intros C. specialize (S C (entry_asset_id e)). cbn [amount_of] in S. rewrite bool_decide_eq_true_2 in S by done. fold d in S. lia. }
  pose proof (amount_nonneg (entry_asset_id e) l F) as N.
  assert (add_u32 d (entry_amount e) = Some (u32 (d + entry_amount e))) as ->.
  { unfold add_u32. destruct checks; [|done]. cbn [andb]. destruct (Z.leb_spec (2 ^ 32) (d + entry_amount e)); [|done]. specialize (Sm eq_refl). lia. }
  cbn [mbind option_bind]. apply IH; [apply map_Forall_insert_2; [apply u32_range|done]|]. intros C k. specialize (Sm C).
  destruct (decide (entry_asset_id e = k)) as [<-|Nk].
  - rewrite lookup_insert_eq. cbn. rewrite u32_of_small by (unfold fits; lia). lia.
  - rewrite lookup_insert_ne by done. specialize (S C k). cbn [amount_of] in S. rewrite bool_decide_eq_false_2 in S by done. lia.
Qed.




(** ** What should be accepted

    The rules for one transfer, or for the first one of a contract: src/spec/01-rgb.md (the
    [OP_RETURN] commitment scheme, proof of burn), the comments of [verify], and amounts
    as numbers that fit their type. *)
Definition is_op_return (script : bytes) : bool := bool_decide (head script = Some 0x6a).

Definition first_op_return (tx : Tx) : option bytes := head (filter is_op_return (tx_outputs tx)).

(** An entry of an input proof at an output that pays the burn address of its asset. *)
Definition burned (p : RgbProof) (from : Tx) (e : OutputEntry) : bool :=
  match get_contract_for (entry_asset_id e) p with
  | Some c => bool_decide (tx_outputs from !! Z.to_nat (entry_vout e) = Some (address_script_pubkey (burn_address c)))
  | None => false
  end.

Definition spends_burned (p : RgbProof) (tx : Tx) : bool :=
  negb (is_root_proof p) &&
  existsb (fun i => match spender i with
                    | Some from => existsb (burned p from) (spent_entries tx from i)
                    | None => false
                    end) (proof_input p).













(** ** What is asked for is enough *)
Section Returns.
Context (p : RgbProof) (Wraps : checks = false) (U : u32_proof p).
Context (Has : forall n, n ∈ get_needed_txs p -> is_Some (needed_txs n)).
Context (Bound : bind_to p <> []) (Bounds : Forall (fun i => bind_to i <> []) (proof_input p)).

Lemma needed_own o : o ∈ bind_to p -> is_Some (needed_txs (WhichSpendsOutPoint o)).
Proof using Has.
  clear U Bound Bounds. intros I. apply Has. destruct p as [b l out c]. cbn [get_needed_txs bind_to] in *. apply elem_of_app. left.
  by apply list_elem_of_fmap_2.
Qed.

Lemma needed_input i o : is_root_proof p = false -> i ∈ proof_input p -> o ∈ bind_to i -> is_Some (needed_txs (WhichSpendsOutPoint o)).
Proof using Has.
  clear U Bound Bounds. intros R I Io. apply Has. destruct p as [b l out c]. cbn [get_needed_txs proof_input] in *. apply elem_of_app. right.
  rewrite R. apply list_elem_of_In, in_flat_map. exists i. split; [by apply list_elem_of_In|]. apply list_elem_of_In.
  destruct i as [b' l' out' c']. cbn [get_needed_txs bind_to] in *. apply elem_of_app. left. by apply list_elem_of_fmap_2.
Qed.

Lemma gather_returns : is_root_proof p = false -> is_Some (gather p (proof_input p) []).
Proof using Has Bound Bounds.
  intros R. assert (is_Some (mapM (get_entries_for_us p) (proof_input p))) as [ls E].
  { apply mapM_is_Some. apply list.Forall_forall. intros i I.
    destruct (bind_to p) as [|o b] eqn:Eb; [done|]. destruct (needed_own o) as [tx Et]; [rewrite Eb; left|].
    assert (bind_to i <> []) as Bi by (by eapply list.Forall_forall in Bounds).
    destruct (bind_to i) as [|o' b'] eqn:Ebi; [done|]. destruct (needed_input i o' R I) as [tx' Et']; [rewrite Ebi; left|].
    change (is_Some (get_entries_for_us p i)). unfold get_entries_for_us. rewrite Eb. cbn [head mbind option_bind]. rewrite Et. cbn [mbind option_bind]. rewrite Ebi.
    cbn [head mbind option_bind]. rewrite Et'. done. }
  exists (Some ([] ++ concat ls)). apply gather_spec. by exists ls.
Qed.

(** With the transactions it asked for, the verification does not panic (unless overflow is
    checked for). *)
Lemma verify_returns : is_Some (verify p).
Proof using Type*.
  pose proof gather_returns as Gr. unfold verify. destruct (bind_to p) as [|o b] eqn:Eb; [done|]. cbn [head mbind option_bind].
  destruct (needed_own o) as [tx Et]; [rewrite Eb; left|]. rewrite Et. cbn [mbind option_bind].
  assert (is_Some (same_tx tx (o :: b))) as [same ->].
  { assert (forall l, (forall o, o ∈ l -> is_Some (needed_txs (WhichSpendsOutPoint o))) -> is_Some (same_tx tx l)) as G.
    { induction l as [|o' l IH]; intros A; cbn; [done|]. destruct (A o') as [t ->]; [left|]. cbn.
      destruct (bool_decide _); [|done]. apply IH. intros o2 I. apply A. by right. }
    apply G. intros o' I. apply needed_own. by rewrite Eb. }
  assert (forall l, u32_amounts l -> is_Some (aggregate l ∅)) as Ag.
  { intros l F. apply aggregate_total; [done|apply map_Forall_empty|]. rewrite Wraps. done. }
  cbn [mbind option_bind]. destruct same; [|done]. cbn [negb]. destruct (find_output _ _); [|done]. cbn [negb].
  assert (is_Some (in_amounts p)) as [[m|] ->]; [|cbn [mbind option_bind]; destruct (Ag _ (proj1 U)) as [x ->]; done|done].
  unfold in_amounts. destruct (is_root_proof p) eqn:R.
  - unfold is_root_proof in R. destruct (contract p); [|done]. cbn [mbind option_bind]. destruct (0 <? _)%nat; done.
  - destruct (Gr eq_refl) as [[l|] G]; rewrite G; cbn [mbind option_bind]; [|done].
    apply gather_spec in G as (ls & M & [= ->]). destruct (Ag (concat ls)) as [x ->]; [|done].
    apply (inputs_u32 p); [done|]. unfold inputs_of. by rewrite R, inputs_entries, M.
Qed.
End Returns.
End Rgb.

(** ** Proofs that are accepted *)
Module DemoRgb.
Record demo_tx := DemoTx { demo_id : bytes; demo_inputs : list (bytes * Z); demo_outputs : list bytes }.

#[local] Instance library : RustBitcoin := {|
  Address := bytes; Network := unit; Tx := demo_tx;
  txid := demo_id; tx_inputs := demo_inputs; tx_outputs := demo_outputs;
  address_to_string a := a; address_script_pubkey a := 118 :: a;
  encode_string b := Z.of_nat (length b) :: b; encode_out_point o := o.1 ++ [o.2]; encode_network _ := [0];
  encode_u32 z := le_bytes 4 z; encode_hash h := h; encode_vec l := Z.of_nat (length l) :: concat l;
  Sha256dHash_from_data d := d; op_return d := 0x6a :: d; op_return_opcode _ := eq_refl
|}.

(** A contract for 1000 units, which start at output 0 of transaction 2. *)
Definition the_contract : Contract := NewContract [65] ([1], 0) ([2], 0) [7; 7] () 1000.
Definition asset : bytes := get_asset_id the_contract.

(** Its root proof puts them at output 1 of the transaction that spends that output. *)
Definition root : RgbProof := NewProof [([2], 0)] [] [NewOutputEntry asset 1000 1] (Some the_contract).
Definition root_tx (paid : bytes) : demo_tx := DemoTx [3] [([2], 0)] [get_expected_script root; paid].

(** The second proof moves them on. [before] are the outputs of its transaction before the
    commitment, [paid] is the script of the output that it spends. *)
Definition moved (out : list OutputEntry) : RgbProof := NewProof [([3], 1)] [root] out None.
Definition move_tx (before : list bytes) (out : list OutputEntry) : demo_tx :=
  DemoTx [4] [([3], 1)] (before ++ [get_expected_script (moved out)]).

Definition txs (paid : bytes) (before : list bytes) (out : list OutputEntry) (n : NeededTx) : option demo_tx :=
  match n with
  | WhichSpendsOutPoint o => if bool_decide (o = ([2], 0)) then Some (root_tx paid)
                             else if bool_decide (o = ([3], 1)) then Some (move_tx before out) else None
  | FromTXID _ => None
  end.

Definition wallet : bytes := [118; 9; 9].
Definition fine : list OutputEntry := [NewOutputEntry asset 400 0; NewOutputEntry asset 600 1].





(** The output that the second proof spends pays the burn address of the contract. *)
Definition burn_script : bytes := address_script_pubkey (burn_address the_contract).

Lemma burned_coins_accepted : spends_burned (txs burn_script [] fine) (moved fine) (move_tx [] fine) = true /\
  verify true (txs burn_script [] fine) (moved fine) = Some true.
Proof. split; vm_compute; reflexivity. Qed.

(** The first [OP_RETURN] output commits to something else. *)
Lemma later_commitment_accepted : first_op_return (move_tx [[0x6a; 1]] fine) = Some [0x6a; 1] /\
  verify true (txs wallet [[0x6a; 1]] fine) (moved fine) = Some true.
Proof. split; vm_compute; reflexivity. Qed.

(** Amounts that add up to [2 ^ 32 + 1000] are accepted for 1000, if overflow wraps. *)
Definition inflated : list OutputEntry := [NewOutputEntry asset (2 ^ 32 - 1) 0; NewOutputEntry asset 1001 1].

Lemma inflation_accepted : amount_of asset inflated = 2 ^ 32 + 1000 /\
  verify false (txs wallet [] inflated) (moved inflated) = Some true.
Proof. split; vm_compute; reflexivity. Qed.

(** The input of this proof is not valid: its root proof makes 5000 out of 1000. *)
Definition bad_root : RgbProof := NewProof [([2], 0)] [] [NewOutputEntry asset 5000 1] (Some the_contract).
Definition bad : RgbProof := NewProof [([3], 1)] [bad_root] [NewOutputEntry asset 5000 0] None.
Definition bad_txs (n : NeededTx) : option demo_tx :=
  match n with
  | WhichSpendsOutPoint o =>
      if bool_decide (o = ([2], 0)) then Some (DemoTx [3] [([2], 0)] [get_expected_script bad_root])
      else if bool_decide (o = ([3], 1)) then Some (DemoTx [4] [([3], 1)] [get_expected_script bad]) else None
  | FromTXID _ => None
  end.

Lemma invalid_input_accepted : verify true bad_txs bad_root = Some false /\ verify true bad_txs bad = Some true.
Proof. split; vm_compute; reflexivity. Qed.
End DemoRgb.
